(* ===== verification/_CoqProject ===== *)
-Q . S2P
Prelude.v
XbeRam.v
XbeImage.v
LoadedXbe.v
CpuSched.v
MemMap.v
KrnlExports.v
KrnlMm.v
KrnlTime.v
KrnlPrintf.v
KrnlState.v
KrnlObjects.v
KrnlCall.v
KrnlInv.v
KrnlSpec.v
KrnlSync.v
KrnlCs.v
Float32.v
XboxVs.v
XboxRc.v
Vfs.v
IoQueue.v
GpuStub.v
CpuRuntime.v
UnicornRt.v
GuestCpu.v
XboxAudio.v
XboxInput.v
XboxDisplay.v
XboxSys.v
FiberTls.v
VkLog.v
GpuBatch.v
VulkanDev.v
VulkanRes.v
VulkanPresent.v
MainWindow.v
MainData.v
MainVulkan.v
MainGuest.v
MainXbe.v
CLayout.v
NxdkTypes.v
NxdkDecls.v
NxdkAbi.v
GuestSys.v
