(* ===== verification/Prelude.v ===== *)
(** * seriesx-emu: a model of the emulator and its correctness

    seriesx-emu runs homebrew of the original Xbox on a host computer, beside a
    set of Series X services. It reads an XBE file, maps it into a window of
    guest RAM, runs guest threads as fibers of a cooperative scheduler, emulates
    the kernel the guest imports, and executes guest code on a third-party CPU
    emulator. This library translates the C++ of src/ and include/ into
    executable definitions and proves properties of them. The file and function
    names below are those of the repository.

    ** Outcomes and integers

    A C++ function that can fail or that can do something undefined returns an
    [outcome] (this file): a result, an error message of the program, or
    undefined behaviour with its reason (a read past a buffer, a host fault, a
    division by zero, a signed overflow). Theorems that an operation never ends
    in [Ub] are the memory-safety theorems. Integers are [Z] with the
    wrap-around of their type written out ([u8] to [u64], [s32], [s64]). Byte
    memories are finite maps with default 0; vectors with one entry per page are
    [svec]. Code that is not in the repository is a parameter: the host's page
    protection calls ([HostOS] in XbeRam.v), the Unicorn engine ([Unicorn] and
    [UnicornLaws] in CpuRuntime.v, [RunLaws] in GuestCpu.v; the laws promise no
    success, only what a call that succeeds has done, and [UnicornRoom] is asked
    for where a mapping must be taken), libm (Float32.v),
    Vulkan (the answers of VkLog.v), the window system and the order std::sort
    leaves equal elements in (VulkanPresent.v), clocks, file handles and the
    addresses mmap returns. Each class of laws has a concrete instance that the witnesses
    use.

    ** Loading

    - XbeRam.v: xbe::XbeRam, the guest RAM window. The commit and read-only
      flags are exactly the host's page protections, and the checked accessors
      never make the host fault.
    - XbeImage.v: xbe::XbeImage, the parser of untrusted files. No input reads
      outside the file, its string reads included; what it accepts is well formed.
    - LoadedXbe.v: xbe::LoadedXbe, mapping. A load puts exactly the file's
      bytes and zero fill in memory; where the checks of the code leave a gap
      (header block longer than the file, TLS template size) an example shows it.

    ** Scheduling and memory of the Series X side

    - CpuSched.v: GuestScheduler. Thread states, the pick loop, virtual time;
      fairness, exact deadlock verdicts, exact handles.
    - FiberTls.v: FiberTls, thread-local storage at the top of fiber stacks; each
      fiber finds its own block and no spawn disturbs another's.
    - MemMap.v: MemMap, the 16 GiB map with pools, protection and alias windows;
      its checks are exact and an alias window is the same memory as its source.

    ** The kernel (src/xbox_krnl.cpp)

    - KrnlExports.v: the export table. KrnlMm.v: contiguous memory (first fit,
      free). KrnlTime.v: intervals and the Gregorian calendar. KrnlPrintf.v:
      DbgPrint.
    - KrnlState.v, KrnlObjects.v, KrnlCall.v: the state with its heap of
      dispatcher objects and registries, the wait core, and one definition per
      export handler, with the dispatcher. A call that blocks stops at its
      context switch ([pending]) and is continued by [resume], so calls of
      several fibers interleave in every order.
    - KrnlInv.v, KrnlSpec.v, KrnlSync.v, KrnlCs.v: the invariant of the tables
      kept by every call and continuation; the life of a handle; what waits,
      mutants and events promise; critical sections as a step system with any
      number of fibers.

    ** Running guest code (src/xbox_cpu.cpp)

    - CpuRuntime.v: what a GuestCpu has mapped and how attach scans guest RAM;
      it maps exactly the committed pages, and the scan ends.
    - UnicornRt.v: UnicornRuntime; kernel allocations and frees keep every
      attached CPU whose engine takes the change mapping exactly the committed
      pages (composition of KrnlMm.v and CpuRuntime.v).
    - GuestCpu.v: hooks, argument marshalling, the virtual return and the run
      loop; each failure is reported and each import recorded, the loop ends
      (unless an import returns into the marker region), a stdcall import
      returns to its caller with the other registers kept, and every implemented
      import gets the arguments its handler reads (composition of KrnlExports.v
      and KrnlCall.v).
    - GuestSys.v: system threads as x86 code. The scheduler dispatches fibers,
      each runs its own CPU over the one kernel and guest memory, and a blocking
      import switches away in the middle of a run. Whatever the code does the
      kernel keeps its invariant, and the instructions the engine reports for a
      thread, over all its dispatches, never exceed its budget.

    ** Graphics, files and devices

    - Float32.v, XboxVs.v, XboxRc.v: vertex shader and register combiners on
      binary32. Vfs.v: the file system as a finite map. IoQueue.v: the
      asynchronous queue, its worker thread and their interleavings.
    - GpuStub.v: the command processor over MemMap.v; XboxDisplay.v: the display,
      and that a cleared frame buffer is what the next flip shows.
    - VkLog.v: Vulkan as a log of calls with the lifetimes of its objects; the
      objects named by recorded commands are among those that must be live.
      VulkanDev.v: the device, its queue and memory types, and the heap report.
      VulkanRes.v: buffers and images, and that an image is tracked in the layout
      it is in. GpuBatch.v: the root-signature batch and the lifetimes of its
      objects. VulkanPresent.v: the window with its swapchain (every presenter
      uses and releases its objects and the shared GLFW library exactly, the
      ways in which a call can be undefined are listed, and a
      frame reported as shown reached the queue with the pixels given).
      XboxAudio.v: the audio queue as a bounded FIFO. XboxInput.v: the
      pads. XboxSys.v: topology, clocks and FILETIME.

    ** The program (src/main.cpp)

    The driver composes the components, and its blocks are proved as such.

    - MainWindow.v: the command line, and the loop that clears, flips and shows
      frames; on an ordinary host every frame asked for is shown, in order.
    - MainData.v: a file reaches guest memory through the queue before the wait
      for it returns, whatever the worker thread does; the memory, alias,
      command-processor and display blocks.
    - MainVulkan.v: the Vulkan blocks; every path with a device releases what it
      created.
    - MainGuest.v: the threads. Guest programs of kernel calls under the
      scheduler loop keep the kernel's invariant; the counting fibers, the
      hand-over of the critical section, the devices and the traps.
    - MainXbe.v: the sample executable. The file is read, two fibers keep
      values in storage made from its TLS template across switches, and its
      entry point runs on the guest CPU, with a report that is true.

    ** The interface the guest was compiled against (scripts/research)

    The emulator serves programs built with the nxdk headers, of which the
    repository keeps copies.

    - CLayout.v: C types on ia32, their sizes, alignments and member offsets.
    - NxdkTypes.v, NxdkDecls.v: the types and the 371 declarations of the headers.
    - NxdkAbi.v: the emulator against them. The export table has the convention
      and argument bytes of the declarations (two declarations apart), a call
      through the CPU gets the declared arguments, and the objects, critical
      sections and time records the kernel writes have the declared layout.

    ** Bounds and fuel

    Loops that are not structural take fuel, and the amount the operations give
    is enough (running out is a separate result, never a success): the first-fit scan
    (number of allocations + 1), the attach scan (pages of the RAM + 1), the run
    loop (instruction budget + 1, theorem [run_terminates] under the law that a
    round either executes an instruction or stops), the I/O worker (one round
    per pending request), the counting fibers (two dispatches per count + 1), the format loop of DbgPrint (length of the string + 1),
    decimal digits (32, a 64-bit value has 20). The thunk loop stops at the
    100000 entries, and guest strings at the 4096 bytes, of the source. The run
    of the scheduler takes the fuel of its caller, since guest threads need not
    end; its theorems are about one iteration, or about every run that has ended.
    A system thread has the budget of 100,000,000 instructions of the source; a
    dispatch that runs out of fuel first is a [Fail], never a success.

    ** Not modelled

    Of the driver: printing, and the host's file functions (their answers are
    inputs); the context switch itself (makecontext, swapcontext), replaced by a parameter that says
    what a thread does when it is dispatched; allocation failure of the C++
    library; environment-variable traces. Of scripts/research: the file of
    another emulator (cxbx_cxbxkrnl.cpp), which is not compiled and whose headers
    are not in the repository, and of the nxdk headers the macros, the
    structures with bit-fields and those nothing uses.

    ** This file

    Shared notation, the [outcome] monad, memories, little-endian coding, the
    tactics [word], [bool_facts], [case_if], and the hint databases [word] and
    [mem]. *)
From stdpp Require Import base numbers list gmap strings.
From Stdlib Require Import ZArith Lia.
Open Scope Z_scope.

(** ** Machine integers *)

Definition u8 (x : Z) : Z := x `mod` 2 ^ 8.
Definition u16 (x : Z) : Z := x `mod` 2 ^ 16.
Definition u32 (x : Z) : Z := x `mod` 2 ^ 32.
Definition u64 (x : Z) : Z := x `mod` 2 ^ 64.

(** Two's complement reinterpretation of a 32- and of a 64-bit pattern. *)
Definition s32 (x : Z) : Z := let y := u32 x in if y <? 2 ^ 31 then y else y - 2 ^ 32.
Definition s64 (x : Z) : Z := let y := u64 x in if y <? 2 ^ 63 then y else y - 2 ^ 64.

Definition is_u8 (x : Z) : Prop := 0 <= x < 2 ^ 8.
Definition is_u32 (x : Z) : Prop := 0 <= x < 2 ^ 32.
Definition is_u64 (x : Z) : Prop := 0 <= x < 2 ^ 64.

Definition UINT32_MAX : Z := 2 ^ 32 - 1.
Definition UINT64_MAX : Z := 2 ^ 64 - 1.

(** [x & ~(a - 1)] and [(x + a - 1) & ~(a - 1)] on unbounded integers. *)
Definition align_down (x a : Z) : Z := Z.land x (Z.lnot (a - 1)).

(** A bit test used for the many [flags & kBit] conditions. *)
Definition has_bits (x m : Z) : bool := negb (Z.land x m =? 0).

(** Length of a list as an integer. *)
Abbreviation zlen l := (Z.of_nat (length l)).

(** ** Outcomes of fallible code *)

(** [Ok]: the call succeeded; [Fail]: it returned false or null with this
    message; [Ub]: the C++ execution has undefined behaviour or takes a host
    fault at this point (the string names the access). *)
Inductive outcome (A : Type) : Type :=
  | Ok (a : A)
  | Fail (msg : string)
  | Ub (what : string).
Arguments Ok {A} a.
Arguments Fail {A} msg.
Arguments Ub {A} what.

Definition obind {A B} (m : outcome A) (f : A -> outcome B) : outcome B :=
  match m with
  | Ok a => f a
  | Fail e => Fail e
  | Ub e => Ub e
  end.

Declare Scope outcome_scope.
Delimit Scope outcome_scope with outcome.
Notation "'let!' x := m 'in' k" := (obind m (fun x => k))
  (at level 10, x pattern, m at level 100, k at level 200) : outcome_scope.
Notation "'check!' b 'else' msg ; k" := (if b then k else Fail msg)
  (at level 10, b at level 100, msg at level 100, k at level 200) : outcome_scope.
Open Scope outcome_scope.

Definition is_ok {A} (m : outcome A) : bool :=
  match m with Ok _ => true | _ => false end.

Definition is_ub {A} (m : outcome A) : bool :=
  match m with Ub _ => true | _ => false end.

(** ** Loops over address ranges *)

(** The values taken by [a] in [for (a = start; a < stop; a += step)]. *)
Definition loop_addrs (start stop step : Z) : list Z :=
  (fun i => start + step * i) <$> seqZ 0 ((stop - start + step - 1) `div` step).

(** ** Byte stores *)

(** Guest memory is an anonymous mapping: a byte never written reads 0. *)
Abbreviation bytes_map := (gmap Z Z).

Definition mem_byte (m : bytes_map) (a : Z) : Z := default 0 (m !! a).

Definition mem_read (m : bytes_map) (a n : Z) : list Z := mem_byte m <$> seqZ a n.

Fixpoint mem_write (m : bytes_map) (a : Z) (bs : list Z) : bytes_map :=
  match bs with
  | [] => m
  | b :: bs' => mem_write (<[a := b]> m) (a + 1) bs'
  end.

Definition mem_fill (m : bytes_map) (a n v : Z) : bytes_map :=
  mem_write m a (replicate (Z.to_nat n) v).

(** ** Little-endian encoding *)

Fixpoint le_bytes (n : nat) (x : Z) : list Z :=
  match n with
  | O => []
  | S n' => x `mod` 256 :: le_bytes n' (x `div` 256)
  end.

Fixpoint le_val (bs : list Z) : Z :=
  match bs with
  | [] => 0
  | b :: bs' => b + 256 * le_val bs'
  end.

(** ** Fixed-length vectors with a uniform initial content

    [std::vector<uint8_t> v; v.assign(n, d)]: the exceptions to the fill
    value are kept in a finite map, so that a vector with one entry per page
    of a 16 GiB space stays executable. *)
Record svec := SVec { sv_len : Z; sv_fill : Z; sv_map : gmap Z Z }.

Definition sv_assign (n d : Z) : svec := SVec n d ∅.
Arguments sv_assign : simpl never.

Definition sv_get (v : svec) (i : Z) : option Z :=
  if (0 <=? i) && (i <? sv_len v) then Some (default (sv_fill v) (sv_map v !! i))
  else None.

Definition sv_set (v : svec) (i x : Z) : svec :=
  if (0 <=? i) && (i <? sv_len v)
  then SVec (sv_len v) (sv_fill v) (<[i := x]> (sv_map v))
  else v.

(** [v[i] != 0], false outside the vector. *)
Definition sv_nz (v : svec) (i : Z) : bool :=
  match sv_get v i with Some x => negb (x =? 0) | None => false end.

(** ** Tactics and hint databases *)

Create HintDb word.
Create HintDb mem.
Create Rewrite HintDb word.
Create Rewrite HintDb mem.

(** Unfold the fixed-width wrappers and their ranges, then linear arithmetic
    (with [Z.div] and [Z.modulo] by constants). *)
Ltac unfold_words :=
  unfold u8, u16, u32, u64, is_u8, is_u32, is_u64, UINT32_MAX, UINT64_MAX in *.
Ltac word := unfold_words; Z.to_euclidean_division_equations; lia.

(** Turn every boolean comparison of the context into an arithmetic fact. *)
Ltac bool_facts :=
  repeat match goal with
  | H : context [ ?x && ?y = true ] |- _ => rewrite andb_true_iff in H
  | H : context [ ?x && ?y = false ] |- _ => rewrite andb_false_iff in H
  | H : context [ ?x || ?y = true ] |- _ => rewrite orb_true_iff in H
  | H : context [ ?x || ?y = false ] |- _ => rewrite orb_false_iff in H
  | H : negb _ = true |- _ => apply negb_true_iff in H
  | H : negb _ = false |- _ => apply negb_false_iff in H
  | H : _ /\ _ |- _ => destruct H
  | H : (_ <=? _) = true |- _ => apply Z.leb_le in H
  | H : (_ <=? _) = false |- _ => apply Z.leb_gt in H
  | H : (_ <? _) = true |- _ => apply Z.ltb_lt in H
  | H : (_ <? _) = false |- _ => apply Z.ltb_ge in H
  | H : (_ =? _) = true |- _ => apply Z.eqb_eq in H
  | H : (_ =? _) = false |- _ => apply Z.eqb_neq in H
  end.

(** Case analysis on the test of the first [if] of the goal or of [H]. *)
Ltac case_if :=
  match goal with
  | |- context [ if ?b then _ else _ ] => destruct b eqn:?
  end.
Ltac case_if_in H :=
  match type of H with
  | context [ if ?b then _ else _ ] => destruct b eqn:?
  end.

(** ** Lemmas on machine integers *)

Lemma u32_range x : 0 <= u32 x < 2 ^ 32.
Proof. unfold u32. apply Z.mod_pos_bound. lia. Qed.

Lemma u64_range x : 0 <= u64 x < 2 ^ 64.
Proof. unfold u64. apply Z.mod_pos_bound. lia. Qed.

Lemma u32_small x : 0 <= x < 2 ^ 32 -> u32 x = x.
Proof. apply Z.mod_small. Qed.

Lemma u64_small x : 0 <= x < 2 ^ 64 -> u64 x = x.
Proof. apply Z.mod_small. Qed.

Lemma u32_u32 x : u32 (u32 x) = u32 x.
Proof. apply u32_small, u32_range. Qed.

(** Or-ing a field below the low end of a shifted field adds it. *)
Lemma lor_split h n l : 0 <= n -> 0 <= l < 2 ^ n -> Z.lor (h * 2 ^ n) l = h * 2 ^ n + l.
Proof.
  intros Hn Hl. rewrite Z.add_nocarry_lor; [done|].
  rewrite <- Z.shiftl_mul_pow2, <- (Z.mod_small l (2 ^ n)), <- Z.land_ones by lia.
  apply Z.bits_inj'. intros i Hi. rewrite !Z.land_spec, Z.shiftl_spec, Z.testbit_0_l by done.
  rewrite Z.testbit_ones by done. destruct (i <? n) eqn:E.
  - by rewrite (Z.testbit_neg_r h) by lia.
  - by rewrite !andb_false_r.
Qed.

Lemma s32_u32 x : - 2 ^ 31 <= x < 2 ^ 31 -> s32 (u32 x) = x.
Proof.
  intros H. unfold s32. rewrite u32_u32.
  destruct (u32 x <? 2 ^ 31) eqn:E; bool_facts; word.
Qed.

Lemma u32_s32 x : u32 (s32 x) = u32 x.
Proof. unfold s32. destruct (u32 x <? 2 ^ 31); word. Qed.

Lemma s32_range x : - 2 ^ 31 <= s32 x < 2 ^ 31.
Proof.
  unfold s32. pose proof (u32_range x).
  destruct (u32 x <? 2 ^ 31) eqn:E; bool_facts; lia.
Qed.

#[export] Hint Resolve u32_range u64_range s32_range : word.
#[export] Hint Rewrite u32_u32 : word.

Lemma align_down_pow2 x k : 0 <= k -> align_down x (2 ^ k) = 2 ^ k * (x `div` 2 ^ k).
Proof.
  intros Hk. unfold align_down.
  assert (Hl : Z.lnot (2 ^ k - 1) = Z.shiftl (-1) k).
  { rewrite Z.shiftl_mul_pow2 by lia. unfold Z.lnot. lia. }
  rewrite Hl.
  assert (Hd : 2 ^ k * (x `div` 2 ^ k) = Z.shiftl (Z.shiftr x k) k).
  { rewrite Z.shiftl_mul_pow2, Z.shiftr_div_pow2 by lia. lia. }
  rewrite Hd. apply Z.bits_inj'. intros n Hn.
  rewrite Z.land_spec, !Z.shiftl_spec by lia.
  destruct (decide (n < k)).
  - rewrite !(Z.testbit_neg_r _ (n - k)) by lia. by rewrite andb_false_r.
  - rewrite Z.shiftr_spec by lia. replace (Z.testbit (-1) (n - k)) with true
      by (symmetry; apply Z.bits_m1; lia).
    rewrite andb_true_r. f_equal. lia.
Qed.

Lemma align_down_bounds x k :
  0 <= k -> align_down x (2 ^ k) <= x < align_down x (2 ^ k) + 2 ^ k.
Proof.
  intros Hk. rewrite align_down_pow2 by done.
  assert (0 < 2 ^ k) by (apply Z.pow_pos_nonneg; lia).
  pose proof (Z.div_mod x (2 ^ k) ltac:(lia)).
  pose proof (Z.mod_pos_bound x (2 ^ k) ltac:(lia)). lia.
Qed.

Lemma align_down_div x k :
  0 <= k -> align_down x (2 ^ k) `div` 2 ^ k = x `div` 2 ^ k.
Proof.
  intros Hk. rewrite align_down_pow2 by done.
  assert (0 < 2 ^ k) by (apply Z.pow_pos_nonneg; lia).
  rewrite Z.mul_comm. apply Z.div_mul. lia.
Qed.

(** ** Lemmas on loops *)

Lemma elem_of_loop_addrs start stop step x :
  0 < step ->
  x ∈ loop_addrs start stop step <-> exists i, 0 <= i /\ x = start + step * i /\ x < stop.
Proof.
  intros Hs. unfold loop_addrs. rewrite list_elem_of_fmap. split.
  - intros (i & -> & Hi). apply elem_of_seqZ in Hi. exists i.
    pose proof (Z.mul_div_le (stop - start + step - 1) step Hs). nia.
  - intros (i & Hi & -> & Hlt). exists i. split; [done|].
    apply elem_of_seqZ. split; [lia|]. rewrite Z.add_0_l.
    assert (i + 1 <= (stop - start + step - 1) `div` step); [|lia].
    apply Z.div_le_lower_bound; nia.
Qed.

(** The page loop [for (a = base & ~(p-1); a < base + size; a += p)] visits
    exactly the pages that meet the byte range [base, base + size). *)
Lemma page_loop_covers k base size pg :
  0 <= k -> 0 < size ->
  2 ^ k * pg ∈ loop_addrs (align_down base (2 ^ k)) (base + size) (2 ^ k) <->
  base `div` 2 ^ k <= pg <= (base + size - 1) `div` 2 ^ k.
Proof.
  intros Hk Hsz. assert (Hp : 0 < 2 ^ k) by (apply Z.pow_pos_nonneg; lia).
  rewrite elem_of_loop_addrs by done. rewrite align_down_pow2 by done.
  set (p := 2 ^ k) in *.
  pose proof (Z.div_mod base p ltac:(lia)). pose proof (Z.mod_pos_bound base p Hp).
  pose proof (Z.div_mod (base + size - 1) p ltac:(lia)).
  pose proof (Z.mod_pos_bound (base + size - 1) p Hp).
  split.
  - intros (i & Hi & He & Hlt). nia.
  - intros [Hlo Hhi]. exists (pg - base `div` p). nia.
Qed.

Lemma forallb_elem (f : Z -> bool) l p : forallb f l = true -> p ∈ l -> f p = true.
Proof. rewrite forallb_forall. intros H Hp. apply H. by apply list_elem_of_In. Qed.

Lemma forallb_intro (f : Z -> bool) l : (forall p, p ∈ l -> f p = true) -> forallb f l = true.
Proof. intros H. apply forallb_forall. intros p Hp. apply H. by apply list_elem_of_In. Qed.

Lemma decide_elem_cons {A} (q p : Z) ps (a b : A) :
  (if decide (q ∈ p :: ps) then a else b) =
  if decide (q = p) then a else if decide (q ∈ ps) then a else b.
Proof.
  destruct (decide (q = p)) as [->|Hne]; [by rewrite decide_True by left|].
  destruct (decide (q ∈ ps)) as [Hin|Hni]; [by rewrite decide_True by (by right)|].
  rewrite decide_False; [done|]. intros [?|?]%elem_of_cons; done.
Qed.

(** ** Lemmas on byte stores *)

Lemma mem_byte_insert m a b i :
  mem_byte (<[a := b]> m) i = if decide (i = a) then b else mem_byte m i.
Proof.
  unfold mem_byte. case_decide; subst.
  - by rewrite lookup_insert_eq.
  - by rewrite lookup_insert_ne.
Qed.

Lemma mem_byte_write m a bs i :
  mem_byte (mem_write m a bs) i =
  if decide (a <= i < a + zlen bs) then nth (Z.to_nat (i - a)) bs 0 else mem_byte m i.
Proof.
  revert m a. induction bs as [|b bs IH]; intros m a; simpl.
  - case_decide; [lia|done].
  - rewrite IH, mem_byte_insert.
    destruct (decide (i = a)) as [->|Hne].
    + rewrite decide_False by lia. rewrite decide_True by lia.
      by replace (Z.to_nat (a - a)) with 0%nat by lia.
    + case_decide as H1; case_decide as H2; try lia; try done.
      by replace (Z.to_nat (i - a)) with (S (Z.to_nat (i - (a + 1)))) by lia.
Qed.

Lemma mem_byte_write_out m a bs i :
  ~ a <= i < a + zlen bs -> mem_byte (mem_write m a bs) i = mem_byte m i.
Proof. intros H. rewrite mem_byte_write. by rewrite decide_False. Qed.

Lemma length_mem_read m a n : length (mem_read m a n) = Z.to_nat n.
Proof. unfold mem_read. by rewrite length_fmap, length_seqZ. Qed.

Lemma mem_read_ext m1 m2 a n :
  (forall i, a <= i < a + n -> mem_byte m1 i = mem_byte m2 i) ->
  mem_read m1 a n = mem_read m2 a n.
Proof.
  intros H. unfold mem_read. apply list_fmap_ext. intros i x Hx.
  apply H. apply list_elem_of_lookup_2 in Hx. apply elem_of_seqZ in Hx. lia.
Qed.

Lemma mem_read_nth m a n i :
  0 <= i < n -> nth (Z.to_nat i) (mem_read m a n) 0 = mem_byte m (a + i).
Proof.
  intros Hi. unfold mem_read. apply nth_lookup_Some.
  rewrite list_lookup_fmap, lookup_seqZ_lt by lia. simpl. do 2 f_equal. lia.
Qed.

Lemma list_nth_ext (l1 l2 : list Z) :
  length l1 = length l2 ->
  (forall i, 0 <= i < zlen l1 -> nth (Z.to_nat i) l1 0 = nth (Z.to_nat i) l2 0) ->
  l1 = l2.
Proof.
  intros Hl H. apply (nth_ext l1 l2 0 0 Hl). intros n Hn.
  specialize (H (Z.of_nat n) ltac:(lia)). by rewrite Nat2Z.id in H.
Qed.

(** Reading back what was just written. *)
Lemma mem_read_write m a bs : mem_read (mem_write m a bs) a (zlen bs) = bs.
Proof.
  apply list_nth_ext; rewrite length_mem_read; [lia|].
  intros i Hi. rewrite mem_read_nth by lia. rewrite mem_byte_write.
  rewrite decide_True by lia. by replace (a + i - a) with i by lia.
Qed.

(** A read that does not meet the written range is unchanged. *)
Lemma mem_read_write_disjoint m a bs b n :
  b + n <= a \/ a + zlen bs <= b ->
  mem_read (mem_write m a bs) b n = mem_read m b n.
Proof.
  intros H. apply mem_read_ext. intros i Hi. apply mem_byte_write_out. lia.
Qed.

Lemma mem_write_app b a l1 l2 :
  mem_write b a (l1 ++ l2) = mem_write (mem_write b a l1) (a + zlen l1) l2.
Proof.
  revert b a; induction l1 as [|x l1 IH]; intros b a; cbn [app mem_write length].
  - by rewrite Z.add_0_r.
  - rewrite IH. f_equal. lia.
Qed.

Lemma mem_byte_fill m a n v i :
  mem_byte (mem_fill m a n v) i = if decide (a <= i < a + n) then v else mem_byte m i.
Proof.
  unfold mem_fill. rewrite mem_byte_write, length_replicate.
  case_decide as H1; case_decide as H2; try lia.
  apply nth_lookup_Some. apply lookup_replicate. lia.
Qed.

#[export] Hint Rewrite length_mem_read mem_read_write : mem.

(** ** Lemmas on little-endian encoding *)

Lemma length_le_bytes n x : length (le_bytes n x) = n.
Proof. revert x. induction n; simpl; intros; congruence. Qed.

Lemma le_val_bytes n x : le_val (le_bytes n x) = x `mod` 256 ^ Z.of_nat n.
Proof.
  revert x. induction n as [|n IH]; intros x; simpl.
  - by rewrite Z.mod_1_r.
  - rewrite IH. replace (Z.of_nat (S n)) with (1 + Z.of_nat n) by lia.
    rewrite Z.pow_add_r, Z.pow_1_r by lia.
    rewrite Z.rem_mul_r by lia. lia.
Qed.

Lemma le_val_range bs : Forall is_u8 bs -> 0 <= le_val bs < 256 ^ zlen bs.
Proof.
  induction 1 as [|b bs Hb _ IH]; simpl; [lia|].
  replace (Z.of_nat (S (length bs))) with (1 + Z.of_nat (length bs)) by lia.
  rewrite Z.pow_add_r, Z.pow_1_r by lia. unfold is_u8 in Hb. lia.
Qed.

Lemma le_bytes_val bs : Forall is_u8 bs -> le_bytes (length bs) (le_val bs) = bs.
Proof.
  induction 1 as [|b bs Hb _ IH]; simpl; [done|]. unfold is_u8 in Hb.
  replace (b + 256 * le_val bs) with (b + le_val bs * 256) by lia.
  rewrite Z.mod_add, Z.mod_small by lia.
  rewrite Z.div_add, Z.div_small by lia. by rewrite Z.add_0_l, IH.
Qed.

Lemma le_bytes_is_u8 n x : Forall is_u8 (le_bytes n x).
Proof.
  revert x. induction n; intros; simpl; constructor; [|done].
  unfold is_u8. pose proof (Z.mod_pos_bound x 256). lia.
Qed.

Lemma le32_roundtrip x : is_u32 x -> le_val (le_bytes 4 x) = x.
Proof. intros H. rewrite le_val_bytes. apply Z.mod_small. exact H. Qed.

(** ** Lemmas on vectors *)

Lemma sv_get_set v i x j :
  sv_get (sv_set v i x) j =
  if decide (i = j /\ 0 <= i < sv_len v) then Some x else sv_get v j.
Proof.
  unfold sv_set, sv_get. destruct ((0 <=? i) && (i <? sv_len v)) eqn:Hi; simpl.
  - bool_facts. destruct (decide (i = j)) as [->|Hne].
    + rewrite decide_True by lia. rewrite lookup_insert_eq.
      destruct ((0 <=? j) && (j <? sv_len v)) eqn:Hj; [done|].
      apply andb_false_iff in Hj. destruct Hj; bool_facts; lia.
    + rewrite decide_False by lia. by rewrite lookup_insert_ne.
  - rewrite decide_False; [done|]. intros (-> & ?).
    apply andb_false_iff in Hi. destruct Hi; bool_facts; lia.
Qed.

Lemma sv_len_set v i x : sv_len (sv_set v i x) = sv_len v.
Proof. unfold sv_set. by case_if. Qed.

Lemma sv_get_in v i : 0 <= i < sv_len v -> is_Some (sv_get v i).
Proof.
  intros H. unfold sv_get.
  destruct (_ && _) eqn:E; [eauto|]. apply andb_false_iff in E.
  destruct E; bool_facts; lia.
Qed.

Lemma sv_nz_set v i x j :
  sv_nz (sv_set v i x) j =
  if decide (i = j /\ 0 <= i < sv_len v) then negb (x =? 0) else sv_nz v j.
Proof. unfold sv_nz. rewrite sv_get_set. by case_decide. Qed.

Lemma sv_nz_assign n i : sv_nz (sv_assign n 0) i = false.
Proof. unfold sv_nz, sv_get, sv_assign. simpl. by case_if. Qed.

Lemma sv_nz_range v i : sv_nz v i = true -> 0 <= i < sv_len v.
Proof.
  unfold sv_nz, sv_get. case_if; [|done]. bool_facts. lia.
Qed.

#[export] Hint Rewrite sv_len_set : mem.
