(* ===== verification/XbeRam.v ===== *)
(** The guest RAM window of the XBE loader ([class xbe::XbeRam],
    src/xbe_loader.cpp): a mapping reserved PROT_NONE and committed page by
    page, with per-page commit and read-only flags kept beside the protection
    that the host operating system enforces. *)
From stdpp Require Import base numbers list gmap strings.
From Stdlib Require Import ZArith Lia.
From S2P Require Import Prelude.
Open Scope Z_scope.

(** ** The host operating system

    [sysconf(_SC_PAGESIZE)] is [2 ^ page_bits]; [mprotect_ok p prot] tells
    whether mprotect of host page [p] succeeds; [mmap_ok n] whether an
    anonymous mapping of [n] bytes succeeds. *)
Class HostOS := {
  page_bits : Z;
  mprotect_ok : Z -> Z -> bool;
  mmap_ok : Z -> bool;
}.

(** POSIX page sizes are powers of two. *)
Class HostLaws (os : HostOS) := page_bits_nonneg : 0 <= page_bits.

Definition page_size `{HostOS} : Z := 2 ^ page_bits.

(** The host every witness runs on: 4 KiB pages, calls that succeed. *)
#[export] Instance host4k : HostOS :=
  {| page_bits := 12; mprotect_ok := fun _ _ => true; mmap_ok := fun _ => true |}.

#[export] Instance host4k_laws : HostLaws host4k.
Proof. unfold HostLaws. simpl. lia. Qed.

Definition PROT_NONE : Z := 0.
Definition PROT_READ : Z := 1.
Definition PROT_RW : Z := 3.

Module XbeRam.

(** [r_prot] is the kernel's page table for the mapping (PROT_NONE when
    absent); the other fields are the members of the class. *)
Record ram := Ram {
  r_base : bool;            (* base_ != nullptr *)
  r_size : Z;               (* size_ *)
  r_committed : svec;       (* committed_ *)
  r_ro : svec;              (* ro_ *)
  r_prot : gmap Z Z;
  r_bytes : bytes_map;
}.

Definition prot_of (r : ram) (p : Z) : Z := default PROT_NONE (r_prot r !! p).

Section ops.
Context `{os : HostOS}.

(** [XbeRam::XbeRam(size_bytes)] *)
Definition create (size_bytes : Z) : ram :=
  let pages := (size_bytes + page_size - 1) `div` page_size in
  if mmap_ok size_bytes
  then Ram true size_bytes (sv_assign pages 0) (sv_assign pages 0) ∅ ∅
  else Ram false 0 (sv_assign 0 0) (sv_assign 0 0) ∅ ∅.

Definition range_ok (r : ram) (addr size : Z) : bool :=
  (0 <? r_size r) && negb (size =? 0) && (size <=? r_size r) &&
  (addr <=? r_size r - size).

(** The pages [first .. last] of the loops, [addr + size - 1] in 32 bits. *)
Definition page_range (addr size : Z) : list Z :=
  let first := addr `div` page_size in
  let last := u32 (addr + size - 1) `div` page_size in
  seqZ first (last - first + 1).

Definition pages_committed (r : ram) (addr size : Z) : bool :=
  forallb (sv_nz (r_committed r)) (page_range addr size).

(** mprotect of one page: the page table changes only on success. *)
Definition mprotect (r : ram) (p prot : Z) : option ram :=
  if mprotect_ok p prot
  then Some (Ram (r_base r) (r_size r) (r_committed r) (r_ro r)
                 (<[p := prot]> (r_prot r)) (r_bytes r))
  else None.

Definition set_flags (r : ram) (p c ro : Z) : ram :=
  Ram (r_base r) (r_size r) (sv_set (r_committed r) p c) (sv_set (r_ro r) p ro)
      (r_prot r) (r_bytes r).

Definition set_ro (r : ram) (p ro : Z) : ram :=
  Ram (r_base r) (r_size r) (r_committed r) (sv_set (r_ro r) p ro)
      (r_prot r) (r_bytes r).

Definition set_bytes (r : ram) (m : bytes_map) : ram :=
  Ram (r_base r) (r_size r) (r_committed r) (r_ro r) (r_prot r) m.

(** A loop [for (p = first; p <= last; ++p)] that skips some pages, mprotects
    the others and stops with [false] at the first mprotect failure. *)
Fixpoint page_loop (skip : ram -> Z -> bool) (prot : Z) (upd : ram -> Z -> ram)
    (ps : list Z) (r : ram) : bool * ram :=
  match ps with
  | [] => (true, r)
  | p :: ps' =>
      if skip r p then page_loop skip prot upd ps' r
      else match mprotect r p prot with
           | None => (false, r)
           | Some r' => page_loop skip prot upd ps' (upd r' p)
           end
  end.

Definition is_committed (r : ram) (addr size : Z) : bool :=
  r_base r && range_ok r addr size && pages_committed r addr size.

Definition commit (r : ram) (addr size : Z) : bool * ram :=
  if negb (r_base r) || negb (range_ok r addr size) then (false, r)
  else page_loop (fun r p => sv_nz (r_committed r) p) PROT_RW
                 (fun r p => set_flags r p 1 0) (page_range addr size) r.

Definition uncommit (r : ram) (addr size : Z) : bool * ram :=
  if negb (r_base r) || negb (range_ok r addr size) then (false, r)
  else if negb (pages_committed r addr size) then (false, r)
  else page_loop (fun _ _ => false) PROT_NONE
                 (fun r p => set_flags r p 0 0) (page_range addr size) r.

Definition protect_ro (r : ram) (addr size : Z) : bool * ram :=
  if negb (is_committed r addr size) then (false, r)
  else page_loop (fun r p => sv_nz (r_ro r) p) PROT_READ
                 (fun r p => set_ro r p 1) (page_range addr size) r.

Definition protect_rw (r : ram) (addr size : Z) : bool * ram :=
  if negb (is_committed r addr size) then (false, r)
  else page_loop (fun r p => negb (sv_nz (r_ro r) p)) PROT_RW
                 (fun r p => set_ro r p 0) (page_range addr size) r.

Definition readable (r : ram) (addr size : Z) : bool := is_committed r addr size.

Definition writable (r : ram) (addr size : Z) : bool :=
  is_committed r addr size &&
  forallb (fun p => negb (sv_nz (r_ro r) p)) (page_range addr size).

(** [host_ptr]: [Some addr] stands for [base_ + addr]. *)
Definition host_ptr (r : ram) (addr : Z) : option Z :=
  if is_committed r addr 1 then Some addr else None.

(** [write_bytes(addr, src, size)] with [size] the length of [bs]; [None] is
    the [false] result. *)
Definition write_bytes (r : ram) (addr : Z) (bs : list Z) : option ram :=
  if writable r addr (zlen bs)
  then Some (set_bytes r (mem_write (r_bytes r) addr bs))
  else None.

Definition read_bytes (r : ram) (addr size : Z) : option (list Z) :=
  if readable r addr size then Some (mem_read (r_bytes r) addr size) else None.

Definition write32 (r : ram) (addr value : Z) : option ram :=
  write_bytes r addr (le_bytes 4 value).

Definition read32 (r : ram) (addr : Z) : option Z :=
  le_val <$> read_bytes r addr 4.

(** A call whose result the source ignores: [ram_.write32(va, v);]. *)
Definition write32_ (r : ram) (addr value : Z) : ram := default r (write32 r addr value).
Definition write_bytes_ (r : ram) (addr : Z) (bs : list Z) : ram :=
  default r (write_bytes r addr bs).

(** Stores and loads through a raw host pointer ([memset], [memcpy] on
    [host_ptr(..)]): they take the host fault that the page table gives. *)
Definition host_writable (r : ram) (addr size : Z) : bool :=
  forallb (fun p => prot_of r p =? PROT_RW)
          (seqZ (addr `div` page_size)
                ((addr + size - 1) `div` page_size - addr `div` page_size + 1)).

Definition host_readable (r : ram) (addr size : Z) : bool :=
  forallb (fun p => has_bits (prot_of r p) PROT_READ)
          (seqZ (addr `div` page_size)
                ((addr + size - 1) `div` page_size - addr `div` page_size + 1)).

Definition host_memset (r : ram) (addr v size : Z) : outcome ram :=
  if (size =? 0) || host_writable r addr size
  then Ok (set_bytes r (mem_fill (r_bytes r) addr size v))
  else Ub "memset on a page the host protects".

End ops.

(** ** Invariant: the flags mirror the protection the host enforces *)

Definition page_prot (r : ram) (p : Z) : Z :=
  if sv_nz (r_committed r) p
  then if sv_nz (r_ro r) p then PROT_READ else PROT_RW
  else PROT_NONE.

Record ram_ok `{HostOS} (r : ram) : Prop := {
  ok_pages : sv_len (r_committed r) = (r_size r + page_size - 1) `div` page_size;
  ok_ro_len : sv_len (r_ro r) = sv_len (r_committed r);
  ok_size : 0 <= r_size r <= 2 ^ 32;
  ok_ro_committed : forall p, sv_nz (r_ro r) p = true -> sv_nz (r_committed r) p = true;
  ok_prot : forall p, prot_of r p = page_prot r p;
}.

Section lemmas.
Context `{os : HostOS} `{laws : !HostLaws os}.
Implicit Types r : ram.

Lemma page_size_pos : 0 < page_size.
Proof. apply Z.pow_pos_nonneg; [lia|apply laws]. Qed.

Lemma range_ok_spec r addr size :
  range_ok r addr size = true <-> 0 < r_size r /\ size <> 0 /\ size <= r_size r /\ addr + size <= r_size r.
Proof.
  unfold range_ok. rewrite !andb_true_iff, negb_true_iff, Z.ltb_lt, Z.eqb_neq, !Z.leb_le.
  lia.
Qed.

(** For a checked range the 32-bit [last] does not wrap and every page index
    is inside the flag vectors. *)
Lemma page_range_in r addr size p :
  ram_ok r -> range_ok r addr size = true -> 0 <= addr -> 0 <= size ->
  p ∈ page_range addr size ->
  addr `div` page_size <= p <= (addr + size - 1) `div` page_size /\
  0 <= p < sv_len (r_committed r).
Proof.
  intros Hok Hr Ha Hs Hp. apply range_ok_spec in Hr as (Hz & Hne & Hle & Hend).
  unfold page_range in Hp. apply elem_of_seqZ in Hp.
  destruct (ok_size _ Hok). rewrite u32_small in Hp by lia.
  pose proof page_size_pos as Hps. rewrite (ok_pages _ Hok). split; [lia|split].
  - pose proof (Z.div_pos addr page_size). lia.
  - assert ((addr + size - 1) `div` page_size <= (r_size r - 1) `div` page_size)
      by (apply Z.div_le_mono; lia).
    assert ((r_size r + page_size - 1) `div` page_size = (r_size r - 1) `div` page_size + 1).
    { replace (r_size r + page_size - 1) with (r_size r - 1 + 1 * page_size) by lia.
      rewrite Z.div_add by lia. done. }
    lia.
Qed.

Lemma page_range_elem addr size p :
  0 <= addr -> 0 < size -> addr + size <= 2 ^ 32 ->
  p ∈ page_range addr size <->
  addr `div` page_size <= p <= (addr + size - 1) `div` page_size.
Proof.
  intros. unfold page_range. rewrite elem_of_seqZ, u32_small by lia. lia.
Qed.

(** Projections of the two flag vectors at a page. *)
Definition cflag r p := sv_nz (r_committed r) p.
Definition roflag r p := sv_nz (r_ro r) p.

(** What every page loop leaves alone. *)
Definition frame r r' : Prop :=
  r_base r' = r_base r /\ r_size r' = r_size r /\ r_bytes r' = r_bytes r.

(** A step that writes a consistent pair of flags with its protection keeps
    the invariant. *)
Lemma set_flags_ok r p c o prot r1 :
  ram_ok r -> 0 <= p < sv_len (r_committed r) ->
  mprotect r p prot = Some r1 ->
  prot = (if c =? 0 then PROT_NONE else if o =? 0 then PROT_RW else PROT_READ) ->
  (c = 0 -> o = 0) ->
  ram_ok (set_flags r1 p c o).
Proof.
  intros [Hpg Hrl Hsz Hrc Hpr] Hp Hm Hprot Hco.
  unfold mprotect in Hm. case_if_in Hm; [|done]. injection Hm as <-.
  split; simpl; rewrite ?sv_len_set; try done.
  - intros q. rewrite !sv_nz_set, Hrl. case_decide; [|apply Hrc].
    rewrite !negb_true_iff, !Z.eqb_neq. lia.
  - intros q. unfold prot_of, page_prot. simpl. rewrite !sv_nz_set, Hrl.
    destruct (decide (p = q)) as [->|Hne].
    + rewrite lookup_insert_eq, !decide_True by lia. subst prot. simpl.
      by destruct (c =? 0), (o =? 0).
    + rewrite lookup_insert_ne, !decide_False by (done || lia). apply Hpr.
Qed.

Lemma set_ro_ok r p o prot r1 :
  ram_ok r -> cflag r p = true ->
  mprotect r p prot = Some r1 ->
  prot = (if o =? 0 then PROT_RW else PROT_READ) ->
  ram_ok (set_ro r1 p o).
Proof.
  intros [Hpg Hrl Hsz Hrc Hpr] HC Hm Hprot. pose proof (sv_nz_range _ _ HC) as Hp.
  unfold mprotect in Hm. case_if_in Hm; [|done]. injection Hm as <-.
  split; simpl; rewrite ?sv_len_set; try done.
  - intros q. rewrite sv_nz_set. case_decide; [|apply Hrc].
    intros _. by destruct_and?; subst.
  - intros q. unfold prot_of, page_prot. simpl. rewrite sv_nz_set, Hrl.
    destruct (decide (p = q)) as [->|Hne].
    + rewrite lookup_insert_eq, decide_True by lia. unfold cflag in HC. rewrite HC.
      subst prot. simpl. by destruct (o =? 0).
    + rewrite lookup_insert_ne, decide_False by (done || lia). apply Hpr.
Qed.

(** What one iteration of a page loop must do: keep [I], and turn the flags
    [(c, o)] of its page into [(fc c, fo o)]. *)
Definition loop_step (I : ram -> Prop) (ps : list Z) (skip : ram -> Z -> bool)
    (prot : Z) (upd : ram -> Z -> ram) (fc fo : bool -> bool) : Prop :=
  forall r p, I r -> p ∈ ps ->
    (skip r p = true -> fc (cflag r p) = cflag r p /\ fo (roflag r p) = roflag r p) /\
    (forall r1, skip r p = false -> mprotect r p prot = Some r1 ->
      I (upd r1 p) /\ frame r (upd r1 p) /\
      forall q, cflag (upd r1 p) q = (if decide (q = p) then fc (cflag r p) else cflag r q) /\
                roflag (upd r1 p) q = (if decide (q = p) then fo (roflag r p) else roflag r q)).

Lemma page_loop_spec I ps0 skip prot upd fc fo ps r b r' :
  loop_step I ps0 skip prot upd fc fo ->
  (forall p, p ∈ ps -> p ∈ ps0) -> NoDup ps -> I r ->
  page_loop skip prot upd ps r = (b, r') ->
  I r' /\ frame r r' /\
  (b = true -> forall q,
     cflag r' q = (if decide (q ∈ ps) then fc (cflag r q) else cflag r q) /\
     roflag r' q = (if decide (q ∈ ps) then fo (roflag r q) else roflag r q)).
Proof.
  intros Hstep. revert r. induction ps as [|p ps IH]; intros r Hsub Hnd HI Hl; simpl in Hl.
  - injection Hl as <- <-. split; [done|split; [done|]]. intros _ q.
    by rewrite !decide_False by apply not_elem_of_nil.
  - apply NoDup_cons in Hnd as [Hni Hnd].
    assert (Hsub' : forall q, q ∈ ps -> q ∈ ps0) by (intros; apply Hsub; by right).
    destruct (Hstep r p HI (Hsub p (list_elem_of_here _ _))) as [Hskip Hnext].
    destruct (skip r p) eqn:Hs.
    + destruct (Hskip eq_refl) as [Hc Ho].
      destruct (IH r Hsub' Hnd HI Hl) as (HI' & Hf & Hfl).
      split; [done|split; [done|]]. intros Hb q. rewrite !decide_elem_cons.
      destruct (Hfl Hb q) as [-> ->].
      destruct (decide (q = p)) as [->|]; [|done]. by rewrite !(decide_False (P:=p ∈ ps)).
    + destruct (mprotect r p prot) as [r1|] eqn:Hm;
        [|injection Hl as <- <-; split; [done|split; done]].
      destruct (Hnext r1 eq_refl eq_refl) as (HI1 & (Hf1 & Hf2 & Hf3) & Hq).
      destruct (IH (upd r1 p) Hsub' Hnd HI1 Hl) as (HI' & (Hg1 & Hg2 & Hg3) & Hfl).
      split; [done|split]; [unfold frame; rewrite Hg1, Hg2, Hg3; done|].
      intros Hb q. rewrite !decide_elem_cons.
      destruct (Hfl Hb q) as [-> ->]. destruct (Hq q) as [-> ->].
      destruct (decide (q = p)) as [->|]; [|done]. by rewrite !(decide_False (P:=p ∈ ps)).
Qed.

Lemma NoDup_page_range addr size : NoDup (page_range addr size).
Proof. apply NoDup_seqZ. Qed.

(** Flags after [upd (mprotect r p)] for the two kinds of update. *)
Lemma set_flags_at r p prot r1 c o q :
  0 <= p < sv_len (r_committed r) -> sv_len (r_ro r) = sv_len (r_committed r) ->
  mprotect r p prot = Some r1 ->
  cflag (set_flags r1 p c o) q = (if decide (q = p) then negb (c =? 0) else cflag r q) /\
  roflag (set_flags r1 p c o) q = (if decide (q = p) then negb (o =? 0) else roflag r q).
Proof.
  intros Hp Hl Hm. unfold mprotect in Hm. case_if_in Hm; [|done]. injection Hm as <-.
  unfold cflag, roflag. simpl. rewrite !sv_nz_set, Hl.
  destruct (decide (q = p)) as [->|]; [rewrite !decide_True by lia|
    rewrite !decide_False by lia]; done.
Qed.

Lemma set_ro_at r p prot r1 o q :
  0 <= p < sv_len (r_ro r) -> mprotect r p prot = Some r1 ->
  cflag (set_ro r1 p o) q = cflag r q /\
  roflag (set_ro r1 p o) q = (if decide (q = p) then negb (o =? 0) else roflag r q).
Proof.
  intros Hp Hm. unfold mprotect in Hm. case_if_in Hm; [|done]. injection Hm as <-.
  unfold cflag, roflag. simpl. split; [done|]. rewrite sv_nz_set.
  destruct (decide (q = p)) as [->|]; [by rewrite decide_True by lia|
    by rewrite decide_False by lia].
Qed.

Lemma mprotect_frame r p prot r1 :
  mprotect r p prot = Some r1 -> frame r r1 /\ r_committed r1 = r_committed r.
Proof. unfold mprotect. case_if; [|done]. by intros [= <-]. Qed.

Lemma roflag_le_cflag r p : ram_ok r -> cflag r p = false -> roflag r p = false.
Proof.
  intros Hok HC. destruct (roflag r p) eqn:HO; [|done].
  apply (ok_ro_committed _ Hok) in HO. unfold cflag in HC. congruence.
Qed.

(** A checked argument range, as the operations see it. *)
Definition args_ok (addr size : Z) : Prop := is_u32 addr /\ is_u32 size.

(** [commit]: every page of the range becomes committed, the read-only flags
    stay, and nothing else moves; on an mprotect failure the invariant still
    holds. *)
Lemma commit_spec r addr size b r' :
  ram_ok r -> args_ok addr size -> commit r addr size = (b, r') ->
  ram_ok r' /\ frame r r' /\
  (b = true -> range_ok r addr size = true /\ r_base r = true /\
    forall q, cflag r' q = (if decide (q ∈ page_range addr size) then true else cflag r q) /\
              roflag r' q = roflag r q).
Proof.
  intros Hok [Ha Hs] Hc. unfold commit in Hc. unfold is_u32 in *.
  destruct (r_base r) eqn:Hb; simpl in Hc; [|by injection Hc as <- <-].
  destruct (range_ok r addr size) eqn:Hr; simpl in Hc; [|by injection Hc as <- <-].
  assert (Hin : forall r, ram_ok r /\ range_ok r addr size = true -> forall p,
    p ∈ page_range addr size -> 0 <= p < sv_len (r_committed r)).
  { intros r0 [H1 H2] p Hp. eapply page_range_in; eauto; lia. }
  eapply (page_loop_spec (fun r => ram_ok r /\ range_ok r addr size = true)
    (page_range addr size) _ _ _ (fun _ => true) id) in Hc;
    [|..|apply NoDup_page_range|done]; [|clear r Hok Hb Hr Hc|done].
  - destruct Hc as ([Hok' _] & Hf & Hfl). split; [done|split; [done|]].
    intros Hbt. split; [done|split; [done|]]. intros q.
    destruct (Hfl Hbt q) as [-> ->]. split; [done|]. by case_decide.
  - intros r p [Hok Hr] Hp. specialize (Hin r (conj Hok Hr) p Hp). split; [done|].
    intros r1 Hsk Hm. destruct (mprotect_frame _ _ _ _ Hm) as [(Hf1 & Hf2 & Hf3) _].
    pose proof (roflag_le_cflag r p Hok Hsk) as HO.
    split; [split|split].
    + eapply set_flags_ok; eauto.
    + unfold range_ok in *. simpl. by rewrite Hf2.
    + done.
    + intros q. destruct (set_flags_at r p PROT_RW r1 1 0 q) as [-> ->];
        [done|apply Hok|done|]. simpl. by rewrite HO.
Qed.

Lemma uncommit_spec r addr size b r' :
  ram_ok r -> args_ok addr size -> uncommit r addr size = (b, r') ->
  ram_ok r' /\ frame r r' /\
  (b = true -> is_committed r addr size = true /\
    forall q, cflag r' q = (if decide (q ∈ page_range addr size) then false else cflag r q) /\
              roflag r' q = (if decide (q ∈ page_range addr size) then false else roflag r q)).
Proof.
  intros Hok [Ha Hs] Hc. unfold uncommit in Hc. unfold is_u32 in *.
  unfold is_committed.
  destruct (r_base r) eqn:Hb; simpl in Hc; [|by injection Hc as <- <-].
  destruct (range_ok r addr size) eqn:Hr; simpl in Hc; [|by injection Hc as <- <-].
  destruct (pages_committed r addr size) eqn:Hpc; simpl in Hc; [|by injection Hc as <- <-].
  assert (Hin : forall r, ram_ok r /\ range_ok r addr size = true -> forall p,
    p ∈ page_range addr size -> 0 <= p < sv_len (r_committed r)).
  { intros r0 [H1 H2] p Hp. eapply page_range_in; eauto; lia. }
  eapply (page_loop_spec (fun r => ram_ok r /\ range_ok r addr size = true)
    (page_range addr size) _ _ _ (fun _ => false) (fun _ => false)) in Hc;
    [|..|apply NoDup_page_range|done]; [|clear r Hok Hb Hr Hc Hpc|done].
  - destruct Hc as ([Hok' _] & Hf & Hfl). split_and!; auto.
  - intros r p [Hok Hr] Hp. specialize (Hin r (conj Hok Hr) p Hp). split; [done|].
    intros r1 Hsk Hm. destruct (mprotect_frame _ _ _ _ Hm) as [(Hf1 & Hf2 & Hf3) _].
    split; [split|split].
    + eapply set_flags_ok; eauto.
    + unfold range_ok in *. simpl. by rewrite Hf2.
    + done.
    + intros q. by destruct (set_flags_at r p PROT_NONE r1 0 0 q) as [-> ->];
        [done|apply Hok|done|].
Qed.

(** The loops of [protect_ro] and [protect_rw] run over committed pages. *)
Lemma protect_loop r addr size (skip : ram -> Z -> bool) o b r' prot (fo : bool -> bool) :
  ram_ok r -> is_committed r addr size = true ->
  prot = (if o =? 0 then PROT_RW else PROT_READ) ->
  (forall r p, skip r p = true -> fo (roflag r p) = roflag r p) ->
  (forall c, fo c = negb (o =? 0)) ->
  page_loop skip prot (fun r p => set_ro r p o) (page_range addr size) r = (b, r') ->
  ram_ok r' /\ frame r r' /\
  (b = true -> forall q, cflag r' q = cflag r q /\
     roflag r' q = (if decide (q ∈ page_range addr size) then fo (roflag r q) else roflag r q)).
Proof.
  intros Hok Hc Hprot Hsk Hfo Hl. unfold is_committed in Hc. bool_facts.
  eapply (page_loop_spec (fun r => ram_ok r /\ forall p, p ∈ page_range addr size -> cflag r p = true)
    (page_range addr size) _ _ _ id fo) in Hl;
    [|..|apply NoDup_page_range|].
  - destruct Hl as ([Hok' _] & Hf & Hfl). split; [done|split; [done|]].
    intros Hb q. destruct (Hfl Hb q) as [-> ->]. split; [|done]. by case_decide.
  - clear dependent r. intros r p [Hok HC] Hp. split; [by split; [|apply Hsk]|].
    intros r1 _ Hm. destruct (mprotect_frame _ _ _ _ Hm) as [Hf1 Hf2].
    assert (Hpr : 0 <= p < sv_len (r_ro r)).
    { rewrite (ok_ro_len _ Hok). by apply sv_nz_range, HC. }
    split; [split|split].
    + eapply set_ro_ok; eauto.
    + intros q Hq. destruct (set_ro_at r p prot r1 o q Hpr Hm) as [-> _]. by apply HC.
    + done.
    + intros q. destruct (set_ro_at r p prot r1 o q Hpr Hm) as [-> ->].
      rewrite Hfo. split; [|done]. by case_decide; subst.
  - done.
  - split; [done|]. intros p Hp. by eapply forallb_elem.
Qed.

Lemma protect_ro_spec r addr size b r' :
  ram_ok r -> protect_ro r addr size = (b, r') ->
  ram_ok r' /\ frame r r' /\
  (b = true -> is_committed r addr size = true /\
    forall q, cflag r' q = cflag r q /\
              roflag r' q = (if decide (q ∈ page_range addr size) then true else roflag r q)).
Proof.
  intros Hok Hp. unfold protect_ro in Hp.
  destruct (is_committed r addr size) eqn:Hc; simpl in Hp; [|by injection Hp as <- <-].
  eapply (protect_loop r addr size _ 1 _ _ _ (fun _ => true)) in Hp as (? & ? & ?);
    [split_and!; auto|done..].
Qed.

Lemma protect_rw_spec r addr size b r' :
  ram_ok r -> protect_rw r addr size = (b, r') ->
  ram_ok r' /\ frame r r' /\
  (b = true -> is_committed r addr size = true /\
    forall q, cflag r' q = cflag r q /\
              roflag r' q = (if decide (q ∈ page_range addr size) then false else roflag r q)).
Proof.
  intros Hok Hp. unfold protect_rw in Hp.
  destruct (is_committed r addr size) eqn:Hc; simpl in Hp; [|by injection Hp as <- <-].
  eapply (protect_loop r addr size _ 0 _ _ _ (fun _ => false)) in Hp as (? & ? & ?);
    [split_and!; auto|done|done|done| |done].
  intros r0 p Hn. apply negb_true_iff in Hn. done.
Qed.

(** The page predicates in terms of the flags. *)
Lemma is_committed_spec r addr size :
  is_committed r addr size = true <->
  r_base r = true /\ range_ok r addr size = true /\
  forall p, p ∈ page_range addr size -> cflag r p = true.
Proof.
  unfold is_committed, pages_committed. rewrite !andb_true_iff. split.
  - intros [[? ?] Hf]. split_and!; try done. intros p Hp. by eapply forallb_elem.
  - intros (? & ? & Hf). split; [done|]. by apply forallb_intro.
Qed.

Lemma writable_spec r addr size :
  writable r addr size = true <->
  is_committed r addr size = true /\
  forall p, p ∈ page_range addr size -> roflag r p = false.
Proof.
  unfold writable. rewrite andb_true_iff. split.
  - intros [? Hf]. split; [done|]. intros p Hp.
    apply (forallb_elem _ _ _ Hf) in Hp. by apply negb_true_iff.
  - intros [? Hf]. split; [done|]. apply forallb_intro. intros p Hp.
    by apply negb_true_iff, Hf.
Qed.

(** Host access to a checked range goes through the pages of that range. *)
Lemma host_pages r addr size p :
  ram_ok r -> args_ok addr size -> range_ok r addr size = true ->
  p ∈ seqZ (addr `div` page_size)
        ((addr + size - 1) `div` page_size - addr `div` page_size + 1) <->
  p ∈ page_range addr size.
Proof.
  intros Hok [Ha Hs] Hr. apply range_ok_spec in Hr. destruct (ok_size _ Hok).
  unfold is_u32 in *. rewrite page_range_elem by lia. rewrite elem_of_seqZ. lia.
Qed.

Lemma host_writable_iff r addr size :
  ram_ok r -> args_ok addr size -> is_committed r addr size = true ->
  host_writable r addr size = writable r addr size.
Proof.
  intros Hok Ha Hc. pose proof Hc as (_ & Hr & HC)%is_committed_spec.
  apply eq_true_iff_eq. rewrite writable_spec. unfold host_writable. split.
  - intros Hf. split; [done|]. intros p Hp.
    eapply forallb_elem in Hf; [|by eapply host_pages].
    rewrite (ok_prot _ Hok) in Hf. unfold page_prot in Hf.
    specialize (HC p Hp). unfold cflag in HC. rewrite HC in Hf. unfold roflag.
    by destruct (sv_nz (r_ro r) p).
  - intros [_ HO]. apply forallb_intro. intros p Hp. eapply host_pages in Hp; [|done..].
    rewrite (ok_prot _ Hok). unfold page_prot. specialize (HC p Hp). specialize (HO p Hp).
    unfold cflag, roflag in *. by rewrite HC, HO.
Qed.

Lemma host_readable_ok r addr size :
  ram_ok r -> args_ok addr size -> is_committed r addr size = true ->
  host_readable r addr size = true.
Proof.
  intros Hok Ha Hc. pose proof Hc as (_ & Hr & HC)%is_committed_spec.
  apply forallb_intro. intros p Hp. eapply host_pages in Hp; [|done..].
  rewrite (ok_prot _ Hok). unfold page_prot. specialize (HC p Hp).
  unfold cflag in HC. rewrite HC. by destruct (sv_nz (r_ro r) p).
Qed.

(** Replacing the bytes keeps every flag. *)
Lemma set_bytes_ok r m : ram_ok r -> ram_ok (set_bytes r m).
Proof. intros [? ? ? ? Hp]. split; simpl; auto. Qed.

Lemma write_bytes_inv r addr bs r' :
  write_bytes r addr bs = Some r' ->
  writable r addr (zlen bs) = true /\
  r' = set_bytes r (mem_write (r_bytes r) addr bs).
Proof. unfold write_bytes. case_if; [|done]. by intros [= <-]. Qed.

Lemma read_bytes_inv r addr n bs :
  read_bytes r addr n = Some bs ->
  is_committed r addr n = true /\ bs = mem_read (r_bytes r) addr n.
Proof. unfold read_bytes, readable. case_if; [|done]. by intros [= <-]. Qed.

Lemma create_ok n : 0 <= n <= 2 ^ 32 -> ram_ok (create n).
Proof.
  intros Hn. pose proof page_size_pos. unfold create.
  destruct (mmap_ok n); split; try done; simpl;
    try (intros p; unfold prot_of, page_prot; simpl; by rewrite ?sv_nz_assign).
  rewrite Z.add_0_l. symmetry. apply Z.div_small. lia.
Qed.

(** ** The window as a state machine *)

(** One call on the window, whatever its result; [RMemset] is the raw
    [memset] through [host_ptr]. *)
Inductive ram_step : ram -> ram -> Prop :=
  | RCommit r a n b r' : args_ok a n -> commit r a n = (b, r') -> ram_step r r'
  | RUncommit r a n b r' : args_ok a n -> uncommit r a n = (b, r') -> ram_step r r'
  | RProtectRo r a n b r' : args_ok a n -> protect_ro r a n = (b, r') -> ram_step r r'
  | RProtectRw r a n b r' : args_ok a n -> protect_rw r a n = (b, r') -> ram_step r r'
  | RWrite r a bs r' : args_ok a (zlen bs) -> write_bytes r a bs = Some r' -> ram_step r r'
  | RMemset r a v n r' : args_ok a n -> host_memset r a v n = Ok r' -> ram_step r r'.

Inductive ram_reachable (n : Z) : ram -> Prop :=
  | reach_create : ram_reachable n (create n)
  | reach_step r r' : ram_reachable n r -> ram_step r r' -> ram_reachable n r'.

Lemma ram_step_ok r r' : ram_ok r -> ram_step r r' -> ram_ok r'.
Proof.
  intros Hok Hs. destruct Hs.
  - by eapply commit_spec.
  - by eapply uncommit_spec.
  - by eapply protect_ro_spec.
  - by eapply protect_rw_spec.
  - apply write_bytes_inv in H0 as [_ ->]. by apply set_bytes_ok.
  - unfold host_memset in H0. case_if_in H0; [|done]. injection H0 as <-.
    by apply set_bytes_ok.
Qed.

(** Two byte ranges share a page. *)
Definition share_page (a n b m : Z) : Prop :=
  exists p, p ∈ page_range a n /\ p ∈ page_range b m.

Lemma uncommitted_page_denied r a n p :
  p ∈ page_range a n -> cflag r p = false -> is_committed r a n = false.
Proof.
  intros Hp HC. destruct (is_committed r a n) eqn:E; [|done].
  apply is_committed_spec in E as (_ & _ & H). specialize (H p Hp). congruence.
Qed.

Lemma ro_page_denied r a n p :
  p ∈ page_range a n -> roflag r p = true -> writable r a n = false.
Proof.
  intros Hp HO. destruct (writable r a n) eqn:E; [|done].
  apply writable_spec in E as (_ & H). specialize (H p Hp). congruence.
Qed.

Lemma is_committed_frame r r' a n :
  frame r r' -> (forall p, cflag r' p = cflag r p) -> is_committed r' a n = is_committed r a n.
Proof.
  intros (H1 & H2 & _) HC. unfold is_committed, pages_committed, range_ok.
  rewrite H1, H2. f_equal. induction (page_range a n); simpl; [done|].
  f_equal; [apply HC|done].
Qed.

(** C7. In every state reached from construction by any sequence of commits,
    uncommits, protection changes and stores, failed mprotect calls included,
    the commit and read-only flags have one entry per page of the window and
    describe exactly the protection the host enforces on that page. *)
Theorem ram_flags_mirror_host n r :
  0 <= n <= 2 ^ 32 -> ram_reachable n r -> ram_ok r.
Proof.
  intros Hn Hr. induction Hr; [by apply create_ok|by eapply ram_step_ok].
Qed.

(** The checked accessors are exactly as permissive as the host: on a
    committed range a raw store faults if and only if [writable] is false, and
    a range accepted by [readable] or [writable] lies inside the mapping and
    can be read without a host fault. *)
Theorem ram_access_never_faults r addr size :
  ram_ok r -> args_ok addr size -> readable r addr size = true ->
  addr + size <= r_size r /\ host_readable r addr size = true /\
  (is_ok (host_memset r addr 0 size) = true <-> writable r addr size = true).
Proof.
  intros Hok Ha Hc. pose proof Hc as (_ & Hr & _)%is_committed_spec.
  apply range_ok_spec in Hr. split_and!; [lia|by apply host_readable_ok|].
  unfold host_memset. rewrite host_writable_iff by done.
  replace (size =? 0) with false by (symmetry; apply Z.eqb_neq; lia). simpl.
  by destruct (writable r addr size).
Qed.

(** A successful [write_bytes] is read back by [read_bytes] of the same
    range, and any read of a disjoint range gives the same result (bytes or
    refusal) as before. *)
Theorem ram_write_read r addr bs r' :
  write_bytes r addr bs = Some r' ->
  read_bytes r' addr (zlen bs) = Some bs /\
  forall b n, b + n <= addr \/ addr + zlen bs <= b ->
    read_bytes r' b n = read_bytes r b n.
Proof.
  intros [Hw ->]%write_bytes_inv. apply writable_spec in Hw as [Hc _].
  unfold read_bytes, readable. split.
  - change (is_committed (set_bytes r _) addr (zlen bs)) with (is_committed r addr (zlen bs)).
    rewrite Hc. simpl. by rewrite mem_read_write.
  - intros b n Hd. change (is_committed (set_bytes r _) b n) with (is_committed r b n).
    simpl. by rewrite mem_read_write_disjoint.
Qed.

(** Protection is enforced per page: after a successful [protect_ro] no
    write that meets the range succeeds while reads are as before; after a
    successful [uncommit] neither reads nor writes that meet it succeed; after
    a successful [protect_rw] the whole range is writable. *)
Theorem ram_protection_enforced r addr size r' b m :
  ram_ok r -> args_ok addr size -> share_page addr size b m ->
  (protect_ro r addr size = (true, r') ->
     writable r' b m = false /\ readable r' b m = readable r b m) /\
  (uncommit r addr size = (true, r') ->
     writable r' b m = false /\ readable r' b m = false) /\
  (protect_rw r addr size = (true, r') -> writable r' addr size = true).
Proof.
  intros Hok Ha (p & Hp & Hpb). split_and!; intros Hc.
  - apply protect_ro_spec in Hc as (_ & Hf & Hfl); [|done].
    destruct (Hfl eq_refl) as [_ Hq]. split.
    + apply (ro_page_denied _ _ _ p Hpb). destruct (Hq p) as [_ ->].
      by rewrite decide_True.
    + apply is_committed_frame; [done|]. intros q. apply Hq.
  - apply uncommit_spec in Hc as (_ & Hf & Hfl); [|done..].
    destruct (Hfl eq_refl) as [_ Hq].
    assert (is_committed r' b m = false) as Hn.
    { apply (uncommitted_page_denied _ _ _ p Hpb). destruct (Hq p) as [-> _].
      by rewrite decide_True. }
    unfold writable, readable. by rewrite Hn.
  - apply protect_rw_spec in Hc as (_ & Hf & Hfl); [|done].
    destruct (Hfl eq_refl) as [Hcm Hq]. apply writable_spec. split.
    + rewrite (is_committed_frame r r'); [done|done|apply Hq].
    + intros q Hq'. destruct (Hq q) as [_ ->]. by rewrite decide_True.
Qed.

End lemmas.

(** ** Witnesses on a 64 KiB window *)

Definition demo_ram : ram := snd (commit (create 65536) 4096 8192).

Lemma demo_ram_ok : ram_ok demo_ram.
Proof.
  apply (ram_step_ok (create 65536)); [apply create_ok; lia|].
  apply (RCommit _ 4096 8192 true); [split; unfold is_u32; lia|by vm_compute].
Qed.

Lemma ram_flags_mirror_host_witness : ram_ok (snd (protect_ro demo_ram 4096 1)).
Proof.
  apply (ram_flags_mirror_host 65536); [lia|].
  apply (reach_step _ demo_ram).
  - apply (reach_step _ (create 65536)); [apply reach_create|].
    apply (RCommit _ 4096 8192 true); [split; unfold is_u32; lia|by vm_compute].
  - apply (RProtectRo _ 4096 1 true); [split; unfold is_u32; lia|by vm_compute].
Defined.

Lemma ram_access_never_faults_witness :
  5000 + 100 <= r_size demo_ram /\ host_readable demo_ram 5000 100 = true /\
  (is_ok (host_memset demo_ram 5000 0 100) = true <-> writable demo_ram 5000 100 = true).
Proof.
  apply (ram_access_never_faults demo_ram 5000 100);
    [apply demo_ram_ok|split; unfold is_u32; lia|by vm_compute].
Defined.

Lemma ram_write_read_witness :
  read_bytes (default demo_ram (write_bytes demo_ram 8190 [1; 2; 3; 4])) 8190 4
    = Some [1; 2; 3; 4].
Proof.
  apply (ram_write_read demo_ram 8190 [1; 2; 3; 4]). by vm_compute.
Defined.

Lemma ram_protection_enforced_witness :
  writable (snd (protect_ro demo_ram 4096 4)) 4100 4 = false /\
  readable (snd (uncommit demo_ram 4096 4)) 4100 4 = false /\
  writable (snd (protect_rw demo_ram 4096 4)) 4096 4 = true.
Proof.
  assert (Hs : share_page 4096 4 4100 4) by (exists 1; split; apply (bool_decide_unpack _); by vm_compute).
  assert (Ha : args_ok 4096 4) by (split; unfold is_u32; lia).
  pose proof (fun r' => ram_protection_enforced demo_ram 4096 4 r' 4100 4 demo_ram_ok Ha Hs) as H.
  split_and!.
  - destruct (H (snd (protect_ro demo_ram 4096 4))) as (H1 & _ & _).
    apply H1. by vm_compute.
  - destruct (H (snd (uncommit demo_ram 4096 4))) as (_ & H1 & _).
    apply H1. by vm_compute.
  - destruct (H (snd (protect_rw demo_ram 4096 4))) as (_ & _ & H1).
    apply H1. by vm_compute.
Defined.

End XbeRam.
