(* ===== verification/XbeImage.v ===== *)
(** The XBE file parser ([class xbe::XbeImage], src/xbe_loader.cpp): headers,
    certificate, section table, image extent, library versions and TLS
    directory of an untrusted file. A read outside the file is the outcome
    [Ub]; the theorems show that no input reaches it. *)
From stdpp Require Import base numbers list gmap strings.
From Stdlib Require Import ZArith Lia.
From S2P Require Import Prelude.
Open Scope Z_scope.

Module XbeImage.

(** ** Format constants (include/xbe_loader.h) *)

Definition kMagic : Z := 0x48454258.
Definition kHeaderSize : Z := 0x178.
Definition kSectionHeaderSize : Z := 0x38.
Definition kLibraryVersionSize : Z := 0x10.
Definition kTlsDirectorySize : Z := 0x18.
Definition kCertificateMinSize : Z := 0x1D0.
Definition kXorEpDebug : Z := 0x94859D4B.
Definition kXorEpRetail : Z := 0xA8FC57AB.
Definition kXorKtDebug : Z := 0xEFB1F152.
Definition kXorKtRetail : Z := 0x5B6D40B6.
Definition kSectionWriteable : Z := 0x1.
Definition kSectionHeadPageReadonly : Z := 0x10.
Definition kSectionTailPageReadonly : Z := 0x20.

Inductive XbeType := Retail | Debug.

(** ** Parsed structures *)

Record Header := {
  magic : Z; base_addr : Z; sizeof_headers : Z; sizeof_image : Z;
  sizeof_image_header : Z; timedate : Z; certificate_addr : Z;
  num_sections : Z; section_headers_addr : Z; init_flags : Z;
  entry_addr : Z; tls_addr : Z; pe_stack_commit : Z; pe_heap_reserve : Z;
  pe_heap_commit : Z; pe_base_addr : Z; pe_sizeof_image : Z;
  pe_checksum : Z; pe_timedate : Z; debug_pathname_addr : Z;
  debug_filename_addr : Z; debug_unicode_filename_addr : Z;
  kernel_thunk_addr : Z; nonkernel_import_dir_addr : Z;
  num_library_versions : Z; library_versions_addr : Z;
  kernel_library_version_addr : Z; xapi_library_version_addr : Z;
  logo_bitmap_addr : Z; logo_bitmap_size : Z;
}.

Record Certificate := {
  c_size : Z; c_timedate : Z; title_id : Z; title : list Z;
  alternate_title_ids : list Z; allowed_media : Z; game_region : Z;
  game_ratings : Z; disc_number : Z; c_version : Z;
}.

Record SectionHeader := {
  flags : Z; virtual_addr : Z; virtual_size : Z; raw_addr : Z; sizeof_raw : Z;
  name : list Z; section_name_addr : Z; section_ref_count : Z;
  head_shared_ref_count_addr : Z; tail_shared_ref_count_addr : Z;
}.

Definition zero_section : SectionHeader :=
  {| flags := 0; virtual_addr := 0; virtual_size := 0; raw_addr := 0;
     sizeof_raw := 0; name := []; section_name_addr := 0; section_ref_count := 0;
     head_shared_ref_count_addr := 0; tail_shared_ref_count_addr := 0 |}.

Record LibraryVersion := {
  lv_name : list Z; major : Z; minor : Z; build : Z; lv_flags : Z;
}.

Record TlsDirectory := {
  data_start : Z; data_end : Z; index_addr : Z; callbacks_addr : Z;
  zero_fill : Z; characteristics : Z;
}.

Definition tls_valid (t : TlsDirectory) : bool := data_start t <=? data_end t.
Definition raw_size (t : TlsDirectory) : Z := u32 (data_end t - data_start t).

Record image := {
  file : list Z;
  header : Header;
  cert : Certificate;
  sections : list SectionHeader;
  libraries : list LibraryVersion;
  tls : option TlsDirectory;     (* Some t when tls_present_ *)
  type : XbeType;
  entry_va : Z;
  kernel_thunk_va : Z;
  image_end_abs : Z;
}.

(** ** File access *)

(** [memcpy(&v, f + off, n)] of a little-endian integer. *)
Definition rd (n : nat) (f : list Z) (off : Z) : outcome Z :=
  if (0 <=? off) && (off + Z.of_nat n <=? zlen f)
  then Ok (le_val (take n (drop (Z.to_nat off) f)))
  else Ub "read outside the file image".
Definition rd32 : list Z -> Z -> outcome Z := rd 4.
Definition rd16 : list Z -> Z -> outcome Z := rd 2.

(** [memcpy(dst, f + off, n)]. *)
Definition rd_block (n : nat) (f : list Z) (off : Z) : outcome (list Z) :=
  if (0 <=? off) && (off + Z.of_nat n <=? zlen f)
  then Ok (take n (drop (Z.to_nat off) f))
  else Ub "read outside the file image".

(** Bytes up to the first NUL: what a [std::string] built from a C string keeps. *)
Fixpoint until_nul (bs : list Z) : list Z :=
  match bs with
  | [] => []
  | b :: bs' => if b =? 0 then [] else b :: until_nul bs'
  end.

(** ** Address translation *)

Definition header_offset (f : list Z) (h : Header) (va : Z) : option Z :=
  if va <? base_addr h then None
  else let rel := u32 (va - base_addr h) in
       if sizeof_headers h <=? rel then None
       else if zlen f <=? rel then None
       else Some rel.

Fixpoint section_offset (ss : list SectionHeader) (va : Z) : option Z :=
  match ss with
  | [] => None
  | sh :: ss' =>
      if (virtual_size sh =? 0) || (va <? virtual_addr sh) then section_offset ss' va
      else let into := va - virtual_addr sh in
           if (into <? virtual_size sh) && (into <? sizeof_raw sh)
           then Some (u32 (raw_addr sh + u32 into))
           else section_offset ss' va
  end.

Definition va_file_offset (f : list Z) (h : Header) (ss : list SectionHeader) (va : Z)
    : option Z :=
  match header_offset f h va with
  | Some off => Some off
  | None => if va <? base_addr h then None else section_offset ss va
  end.

(** The [while] of [cstring]: at most [n] characters. [f[off]] outside the file
    is undefined. *)
Fixpoint cstring_loop (n : nat) (f : list Z) (off : Z) : outcome (list Z) :=
  match n with
  | O => Ok []
  | S n' =>
      if off <? zlen f then
        let! b := rd 1 f off in
        if b =? 0 then Ok []
        else let! bs := cstring_loop n' f (u32 (off + 1)) in Ok (b :: bs)
      else Ok []
  end.

Definition cstring (f : list Z) (h : Header) (ss : list SectionHeader) (va : Z) : outcome (list Z) :=
  match va_file_offset f h ss va with
  | None => Ok []
  | Some off => cstring_loop 64 f off
  end.

(** ** parse_impl, stage by stage *)

Definition parse_header (f : list Z) : outcome Header :=
  if zlen f <? kHeaderSize then Fail "file smaller than XBE header (0x178)" else
  let! m := rd32 f 0 in
  if negb (m =? kMagic) then Fail "bad magic (expected 'XBEH')" else
  let! x104 := rd32 f 0x104 in let! x108 := rd32 f 0x108 in
  let! x10C := rd32 f 0x10C in let! x110 := rd32 f 0x110 in
  let! x114 := rd32 f 0x114 in let! x118 := rd32 f 0x118 in
  let! x11C := rd32 f 0x11C in let! x120 := rd32 f 0x120 in
  let! x124 := rd32 f 0x124 in let! x128 := rd32 f 0x128 in
  let! x12C := rd32 f 0x12C in let! x130 := rd32 f 0x130 in
  let! x134 := rd32 f 0x134 in let! x138 := rd32 f 0x138 in
  let! x13C := rd32 f 0x13C in let! x140 := rd32 f 0x140 in
  let! x144 := rd32 f 0x144 in let! x148 := rd32 f 0x148 in
  let! x14C := rd32 f 0x14C in let! x150 := rd32 f 0x150 in
  let! x154 := rd32 f 0x154 in let! x158 := rd32 f 0x158 in
  let! x15C := rd32 f 0x15C in let! x160 := rd32 f 0x160 in
  let! x164 := rd32 f 0x164 in let! x168 := rd32 f 0x168 in
  let! x16C := rd32 f 0x16C in let! x170 := rd32 f 0x170 in
  let! x174 := rd32 f 0x174 in
  Ok {| magic := m; base_addr := x104; sizeof_headers := x108; sizeof_image := x10C;
        sizeof_image_header := x110; timedate := x114; certificate_addr := x118;
        num_sections := x11C; section_headers_addr := x120; init_flags := x124;
        entry_addr := x128; tls_addr := x12C; pe_stack_commit := x130;
        pe_heap_reserve := x134; pe_heap_commit := x138; pe_base_addr := x13C;
        pe_sizeof_image := x140; pe_checksum := x144; pe_timedate := x148;
        debug_pathname_addr := x14C; debug_filename_addr := x150;
        debug_unicode_filename_addr := x154; kernel_thunk_addr := x158;
        nonkernel_import_dir_addr := x15C; num_library_versions := x160;
        library_versions_addr := x164; kernel_library_version_addr := x168;
        xapi_library_version_addr := x16C; logo_bitmap_addr := x170;
        logo_bitmap_size := x174 |}.

Definition check_header (h : Header) : outcome unit :=
  if (base_addr h =? 0) || (sizeof_image h =? 0) ||
     (0xFFFFFFFF - sizeof_image h <? base_addr h)
  then Fail "unreasonable base_addr/sizeof_image"
  else if sizeof_image h <? sizeof_headers h
  then Fail "sizeof_headers exceeds sizeof_image"
  else Ok tt.

Definition detect_type (h : Header) : XbeType :=
  if has_bits (kernel_thunk_addr h) 0x80000000 then Debug else Retail.
Definition ep_key (t : XbeType) : Z :=
  match t with Debug => kXorEpDebug | Retail => kXorEpRetail end.
Definition kt_key (t : XbeType) : Z :=
  match t with Debug => kXorKtDebug | Retail => kXorKtRetail end.
Definition decode_entry (h : Header) : Z := Z.lxor (entry_addr h) (ep_key (detect_type h)).
Definition decode_thunk (h : Header) : Z := Z.lxor (kernel_thunk_addr h) (kt_key (detect_type h)).

(** 40 UTF-16 units, stopping at the first NUL. *)
Fixpoint parse_title (n : nat) (f : list Z) (off : Z) : outcome (list Z) :=
  match n with
  | O => Ok []
  | S n' =>
      let! ch := rd16 f off in
      if ch =? 0 then Ok []
      else let! rest := parse_title n' f (off + 2) in Ok (ch :: rest)
  end.

Fixpoint rd32_list (n : nat) (f : list Z) (off : Z) : outcome (list Z) :=
  match n with
  | O => Ok []
  | S n' => let! x := rd32 f off in
            let! rest := rd32_list n' f (off + 4) in Ok (x :: rest)
  end.

Definition parse_certificate (f : list Z) (h : Header) : outcome Certificate :=
  if certificate_addr h =? 0 then Fail "certificate address is zero" else
  match header_offset f h (certificate_addr h) with
  | None => Fail "certificate address outside headers"
  | Some off =>
      if zlen f <? off + kCertificateMinSize
      then Fail "certificate extends past end of file" else
      let! sz := rd32 f off in
      let! td := rd32 f (off + 0x04) in
      let! ti := rd32 f (off + 0x08) in
      let! ttl := parse_title 40 f (off + 0x0C) in
      let! alt := rd32_list 16 f (off + 0x5C) in
      let! am := rd32 f (off + 0x9C) in
      let! gr := rd32 f (off + 0xA0) in
      let! gt := rd32 f (off + 0xA4) in
      let! dn := rd32 f (off + 0xA8) in
      let! ve := rd32 f (off + 0xAC) in
      Ok {| c_size := sz; c_timedate := td; title_id := ti; title := ttl;
            alternate_title_ids := alt; allowed_media := am; game_region := gr;
            game_ratings := gt; disc_number := dn; c_version := ve |}
  end.

Definition with_name (sh : SectionHeader) (nm : list Z) : SectionHeader :=
  {| flags := flags sh; virtual_addr := virtual_addr sh;
     virtual_size := virtual_size sh; raw_addr := raw_addr sh;
     sizeof_raw := sizeof_raw sh; name := nm;
     section_name_addr := section_name_addr sh;
     section_ref_count := section_ref_count sh;
     head_shared_ref_count_addr := head_shared_ref_count_addr sh;
     tail_shared_ref_count_addr := tail_shared_ref_count_addr sh |}.

(** One iteration of the section loop. [done] are the sections already
    parsed and [left] the number of entries after this one: the name lookup
    sees the table as it is at that moment, value-initialised at the end. *)
Definition parse_section (f : list Z) (h : Header) (done : list SectionHeader)
    (left : nat) (s : Z) : outcome SectionHeader :=
  let! fl := rd32 f s in
  let! va := rd32 f (s + 0x04) in
  let! vs := rd32 f (s + 0x08) in
  let! ra := rd32 f (s + 0x0C) in
  let! sr := rd32 f (s + 0x10) in
  let! na := rd32 f (s + 0x14) in
  let! rc := rd32 f (s + 0x18) in
  let! hs := rd32 f (s + 0x1C) in
  let! ts := rd32 f (s + 0x20) in
  let sh := {| flags := fl; virtual_addr := va; virtual_size := vs; raw_addr := ra;
               sizeof_raw := sr; name := []; section_name_addr := na;
               section_ref_count := rc; head_shared_ref_count_addr := hs;
               tail_shared_ref_count_addr := ts |} in
  let table := done ++ sh :: replicate left zero_section in
  let! nm := cstring f h table na in
  let! nm := (match nm with
              | [] => let! inline_name := rd_block 8 f (s + 0x24) in
                      Ok (until_nul inline_name)
              | _ => Ok nm
              end) in
  if zlen f <? ra + sr then Fail "section raw data extends past end of file"
  else if vs <? sr then Fail "section raw size exceeds virtual size"
  else Ok (with_name sh nm).

Fixpoint parse_section_loop (f : list Z) (h : Header) (done : list SectionHeader)
    (n : nat) (s : Z) : outcome (list SectionHeader) :=
  match n with
  | O => Ok done
  | S n' =>
      let! sh := parse_section f h done n' s in
      parse_section_loop f h (done ++ [sh]) n' (s + kSectionHeaderSize)
  end.

Definition parse_sections (f : list Z) (h : Header) : outcome (list SectionHeader) :=
  if num_sections h =? 0 then Ok [] else
  match header_offset f h (section_headers_addr h) with
  | None => Fail "section headers outside headers"
  | Some off =>
      if zlen f <? off + kSectionHeaderSize * num_sections h
      then Fail "section headers extend past end of file"
      else parse_section_loop f h [] (Z.to_nat (num_sections h)) off
  end.

(** The loop that derives the image extent from the sections. *)
Fixpoint extent_loop (h : Header) (ss : list SectionHeader) (extent : Z) : outcome Z :=
  match ss with
  | [] => Ok extent
  | sh :: ss' =>
      let e := virtual_addr sh + virtual_size sh in
      if (0 <? virtual_size sh) && (0xFFFFFFFF <? e)
      then Fail "section virtual range overflow"
      else if (0 <? virtual_size sh) && (virtual_addr sh <? base_addr h)
      then Fail "section virtual address below image base"
      else extent_loop h ss' (if extent <? e then e else extent)
  end.

Definition va_outside (h : Header) (e va : Z) : bool := (va <? base_addr h) || (e <=? va).

Definition parse_extent (h : Header) (ss : list SectionHeader) : outcome Z :=
  let! extent := extent_loop h ss (base_addr h + sizeof_image h) in
  let e := u32 extent in
  if va_outside h e (decode_entry h) || va_outside h e (decode_thunk h)
  then Fail "decoded entry/thunk VA outside image (wrong XOR key?)"
  else Ok e.

Fixpoint parse_library_loop (f : list Z) (n : nat) (s : Z) : outcome (list LibraryVersion) :=
  match n with
  | O => Ok []
  | S n' =>
      let! nm := rd_block 8 f s in
      let! ma := rd16 f (s + 0x8) in
      let! mi := rd16 f (s + 0xA) in
      let! bu := rd16 f (s + 0xC) in
      let! fl := rd16 f (s + 0xE) in
      let! rest := parse_library_loop f n' (s + kLibraryVersionSize) in
      Ok ({| lv_name := nm ++ [0]; major := ma; minor := mi; build := bu; lv_flags := fl |}
          :: rest)
  end.

Definition parse_libraries (f : list Z) (h : Header) : outcome (list LibraryVersion) :=
  if num_library_versions h =? 0 then Ok [] else
  match header_offset f h (library_versions_addr h) with
  | None => Fail "library versions outside headers"
  | Some off =>
      if zlen f <? off + kLibraryVersionSize * num_library_versions h
      then Fail "library versions extend past end of file"
      else parse_library_loop f (Z.to_nat (num_library_versions h)) off
  end.

Definition parse_tls (f : list Z) (h : Header) (ss : list SectionHeader) (e : Z)
    : outcome (option TlsDirectory) :=
  if tls_addr h =? 0 then Ok None else
  match va_file_offset f h ss (tls_addr h) with
  | None => Fail "TLS directory not present in file (header or section)"
  | Some off =>
      if zlen f <? off + kTlsDirectorySize
      then Fail "TLS directory extends past end of file" else
      let! ds := rd32 f off in
      let! de := rd32 f (off + 0x04) in
      let! ix := rd32 f (off + 0x08) in
      let! cb := rd32 f (off + 0x0C) in
      let! zf := rd32 f (off + 0x10) in
      let! ch := rd32 f (off + 0x14) in
      let t := {| data_start := ds; data_end := de; index_addr := ix;
                  callbacks_addr := cb; zero_fill := zf; characteristics := ch |} in
      if (ds <? base_addr h) || (e <=? ds) || negb (tls_valid t)
      then Fail "TLS template range outside image"
      else if e <? de then Fail "TLS template range outside image"
      else if (ix <? base_addr h) || (e <=? ix)
      then Fail "TLS index address outside image"
      else Ok (Some t)
  end.

(** [XbeImage::parse]: [parse_impl] on a copy of the file. *)
Definition parse (f : list Z) : outcome image :=
  let! h := parse_header f in
  let! _ := check_header h in
  let! c := parse_certificate f h in
  let! ss := parse_sections f h in
  let! e := parse_extent h ss in
  let! ls := parse_libraries f h in
  let! t := parse_tls f h ss e in
  Ok {| file := f; header := h; cert := c; sections := ss; libraries := ls; tls := t;
        type := detect_type h; entry_va := decode_entry h;
        kernel_thunk_va := decode_thunk h; image_end_abs := e |}.

Definition debug_pathname (i : image) : outcome (list Z) :=
  cstring (file i) (header i) (sections i) (debug_pathname_addr (header i)).
Definition debug_filename (i : image) : outcome (list Z) :=
  cstring (file i) (header i) (sections i) (debug_filename_addr (header i)).

(** ** Memory safety of the parser *)

Definition safe {A} (m : outcome A) : Prop := is_ub m = false.

Lemma safe_bind {A B} (m : outcome A) (f : A -> outcome B) :
  safe m -> (forall a, m = Ok a -> safe (f a)) -> safe (obind m f).
Proof. destruct m; simpl; intros Hm Hf; [by apply Hf|done|done]. Qed.

Lemma rd_safe n f off : 0 <= off -> off + Z.of_nat n <= zlen f -> safe (rd n f off).
Proof.
  intros H1 H2. unfold rd, safe.
  destruct (_ && _) eqn:E; [done|]. apply andb_false_iff in E. destruct E; bool_facts; lia.
Qed.

Lemma rd_block_safe n f off : 0 <= off -> off + Z.of_nat n <= zlen f -> safe (rd_block n f off).
Proof.
  intros H1 H2. unfold rd_block, safe.
  destruct (_ && _) eqn:E; [done|]. apply andb_false_iff in E. destruct E; bool_facts; lia.
Qed.

Lemma obind_ok {A B} (m : outcome A) (f : A -> outcome B) b :
  obind m f = Ok b -> exists a, m = Ok a /\ f a = Ok b.
Proof. destruct m; simpl; intros; try done. eauto. Qed.

(** Run through a sequence of in-range reads. *)
Ltac safe_step :=
  match goal with
  | |- safe (obind _ _) => apply safe_bind; [|intros ? ?]
  | |- safe (rd32 _ _) => apply rd_safe; [lia|simpl; lia]
  | |- safe (rd16 _ _) => apply rd_safe; [lia|simpl; lia]
  | |- safe (rd_block _ _ _) => apply rd_block_safe; [lia|simpl; lia]
  | |- safe (if ?b then _ else _) => let E := fresh "E" in destruct b eqn:E; bool_facts
  | |- safe (Ok _) => reflexivity
  | |- safe (Fail _) => reflexivity
  end.
Ltac safe_tac := repeat safe_step.

Lemma header_offset_range f h va off :
  header_offset f h va = Some off -> 0 <= off < zlen f /\ off < sizeof_headers h.
Proof.
  unfold header_offset. repeat case_if; try done. intros [= <-].
  pose proof (u32_range (va - base_addr h)). bool_facts. lia.
Qed.

Lemma section_offset_range ss va off : section_offset ss va = Some off -> 0 <= off.
Proof.
  induction ss as [|sh ss IH]; simpl; [done|]. repeat case_if; auto.
  intros [= <-]. apply u32_range.
Qed.

Lemma va_file_offset_range f h ss va off : va_file_offset f h ss va = Some off -> 0 <= off.
Proof.
  unfold va_file_offset. destruct (header_offset f h va) eqn:E.
  - intros [= <-]. apply header_offset_range in E. lia.
  - case_if; [done|]. apply section_offset_range.
Qed.

Lemma parse_header_safe f : safe (parse_header f).
Proof. unfold parse_header, kHeaderSize. safe_step; [done|]. safe_tac. Qed.

Lemma parse_title_safe n f off :
  0 <= off -> off + 2 * Z.of_nat n <= zlen f -> safe (parse_title n f off).
Proof.
  revert off. induction n as [|n IH]; intros off H1 H2; cbn [parse_title]; [done|].
  safe_tac. apply IH; lia.
Qed.

Lemma rd32_list_safe n f off :
  0 <= off -> off + 4 * Z.of_nat n <= zlen f -> safe (rd32_list n f off).
Proof.
  revert off. induction n as [|n IH]; intros off H1 H2; cbn [rd32_list]; [done|].
  safe_tac. apply IH; lia.
Qed.

Lemma parse_certificate_safe f h : safe (parse_certificate f h).
Proof.
  unfold parse_certificate, kCertificateMinSize. safe_step; [done|].
  destruct (header_offset f h (certificate_addr h)) as [off|] eqn:Ho; [|done].
  apply header_offset_range in Ho. safe_tac.
  - apply parse_title_safe; lia.
  - apply rd32_list_safe; lia.
Qed.

Lemma cstring_loop_safe n f off : 0 <= off -> safe (cstring_loop n f off).
Proof.
  revert off. induction n as [|n IH]; intros off H; cbn [cstring_loop]; [done|].
  case_if; [|done]. bool_facts. apply safe_bind; [by apply rd_safe; lia|intros b _].
  case_if; [done|]. apply safe_bind; [apply IH; apply u32_range|done].
Qed.

Lemma cstring_safe f h ss va : safe (cstring f h ss va).
Proof.
  unfold cstring, va_file_offset. destruct (header_offset f h va) as [off|] eqn:Ho.
  - apply header_offset_range in Ho. apply cstring_loop_safe. lia.
  - case_if; [done|]. destruct (section_offset ss va) as [off|] eqn:Hs; [|done].
    apply cstring_loop_safe. by eapply section_offset_range.
Qed.

Lemma parse_section_loop_safe f h n ds s :
  0 <= s -> s + kSectionHeaderSize * Z.of_nat n <= zlen f ->
  safe (parse_section_loop f h ds n s).
Proof.
  unfold kSectionHeaderSize. revert ds s. induction n as [|n IH]; intros ds s H1 H2;
    cbn [parse_section_loop]; [done|].
  apply safe_bind; [|intros sh _; apply IH; unfold kSectionHeaderSize; lia].
  unfold parse_section. do 9 (apply safe_bind; [apply rd_safe; [lia|simpl; lia]|intros ? _]).
  apply safe_bind; [apply cstring_safe|intros nm _].
  apply safe_bind; [destruct nm; safe_tac|intros ? _]. safe_tac.
Qed.

Lemma parse_sections_safe f h : is_u32 (num_sections h) -> safe (parse_sections f h).
Proof.
  intros Hn. unfold parse_sections. safe_step; [done|].
  destruct (header_offset f h (section_headers_addr h)) as [off|] eqn:Ho; [|done].
  apply header_offset_range in Ho. safe_step; [done|].
  apply parse_section_loop_safe; unfold is_u32 in *; lia.
Qed.

Lemma extent_loop_safe h ss x : safe (extent_loop h ss x).
Proof. revert x. induction ss; intros; simpl; safe_tac; auto. Qed.

Lemma parse_extent_safe h ss : safe (parse_extent h ss).
Proof. unfold parse_extent. safe_step; [apply extent_loop_safe|]. safe_tac. Qed.

Lemma parse_library_loop_safe f n s :
  0 <= s -> s + kLibraryVersionSize * Z.of_nat n <= zlen f ->
  safe (parse_library_loop f n s).
Proof.
  unfold kLibraryVersionSize. revert s. induction n as [|n IH]; intros s H1 H2;
    cbn [parse_library_loop]; [done|].
  safe_tac. apply IH; unfold kLibraryVersionSize; lia.
Qed.

Lemma parse_libraries_safe f h :
  is_u32 (num_library_versions h) -> safe (parse_libraries f h).
Proof.
  intros Hn. unfold parse_libraries. safe_step; [done|].
  destruct (header_offset f h (library_versions_addr h)) as [off|] eqn:Ho; [|done].
  apply header_offset_range in Ho. safe_step; [done|].
  apply parse_library_loop_safe; unfold is_u32 in *; lia.
Qed.

Lemma parse_tls_safe f h ss e : safe (parse_tls f h ss e).
Proof.
  unfold parse_tls, kTlsDirectorySize. safe_step; [done|].
  destruct (va_file_offset f h ss (tls_addr h)) as [off|] eqn:Ho; [|done].
  apply va_file_offset_range in Ho. safe_tac.
Qed.

(** Every header field is a 32-bit value. *)
Lemma rd32_u32 f off x : Forall is_u8 f -> rd32 f off = Ok x -> is_u32 x.
Proof.
  intros Hf. unfold rd32, rd. case_if; [|done]. intros [= <-].
  pose proof (le_val_range (take 4 (drop (Z.to_nat off) f))) as Hr.
  rewrite length_take in Hr. unfold is_u32.
  assert (Forall is_u8 (take 4 (drop (Z.to_nat off) f))) as Hu
    by (by apply Forall_take, Forall_drop).
  specialize (Hr Hu).
  assert (256 ^ Z.of_nat (4 `min` length (drop (Z.to_nat off) f)) <= 256 ^ 4)
    by (apply Z.pow_le_mono_r; lia).
  lia.
Qed.

(** Invert a chain of monadic reads. *)
Ltac inv_ok H :=
  repeat match type of H with
  | obind _ _ = Ok _ =>
      let a := fresh "x" in let E := fresh "E" in
      apply obind_ok in H as (a & E & H)
  | (if ?b then _ else _) = Ok _ => let E := fresh "E" in destruct b eqn:E; [done|]
  end.

(** The header fields that later stages index with are 32-bit values. *)
Lemma parse_header_u32 f h :
  Forall is_u8 f -> parse_header f = Ok h ->
  is_u32 (base_addr h) /\ is_u32 (sizeof_headers h) /\ is_u32 (sizeof_image h) /\
  is_u32 (num_sections h) /\ is_u32 (num_library_versions h) /\
  is_u32 (entry_addr h) /\ is_u32 (kernel_thunk_addr h) /\ is_u32 (tls_addr h).
Proof.
  intros Hf Hp. unfold parse_header in Hp. inv_ok Hp. injection Hp as <-. simpl.
  split_and!; by eapply rd32_u32.
Qed.

Definition section_in_file (f : list Z) (sh : SectionHeader) : Prop :=
  is_u32 (virtual_addr sh) /\ is_u32 (virtual_size sh) /\ is_u32 (raw_addr sh) /\
  is_u32 (sizeof_raw sh) /\
  raw_addr sh + sizeof_raw sh <= zlen f /\ sizeof_raw sh <= virtual_size sh.

Lemma parse_section_ok f h ds n s sh :
  Forall is_u8 f -> parse_section f h ds n s = Ok sh -> section_in_file f sh.
Proof.
  intros Hf Hp. unfold parse_section in Hp.
  do 9 (apply obind_ok in Hp as (? & ? & Hp)).
  apply obind_ok in Hp as (nm0 & _ & Hp).
  apply obind_ok in Hp as (nm & _ & Hp). inv_ok Hp. injection Hp as <-. bool_facts.
  unfold section_in_file. simpl. split_and!; [by eapply rd32_u32..|lia|lia].
Qed.

Lemma parse_section_loop_ok f h n ds s ss :
  Forall is_u8 f -> Forall (section_in_file f) ds ->
  parse_section_loop f h ds n s = Ok ss ->
  Forall (section_in_file f) ss /\ length ss = (length ds + n)%nat.
Proof.
  intros Hf. revert ds s. induction n as [|n IH]; intros ds s Hd Hp; cbn [parse_section_loop] in Hp.
  - injection Hp as <-. split; [done|lia].
  - apply obind_ok in Hp as (sh & Hs & Hp). apply IH in Hp as [Hp Hl].
    + split; [done|]. rewrite Hl, length_app. simpl. lia.
    + apply Forall_app. split; [done|]. constructor; [|done]. by eapply parse_section_ok.
Qed.

Lemma parse_sections_ok f h ss :
  Forall is_u8 f -> is_u32 (num_sections h) -> parse_sections f h = Ok ss ->
  Forall (section_in_file f) ss /\ zlen ss = num_sections h.
Proof.
  intros Hf Hn Hp. unfold parse_sections in Hp. unfold is_u32 in Hn.
  destruct (num_sections h =? 0) eqn:E0; [injection Hp as <-; bool_facts; by split|].
  destruct (header_offset f h (section_headers_addr h)) as [off|] eqn:Ho; [|done].
  case_if_in Hp; [done|]. apply parse_section_loop_ok in Hp as [Hp Hl]; [|done|done].
  split; [done|]. rewrite Hl. simpl. lia.
Qed.

Definition section_in_image (h : Header) (e : Z) (sh : SectionHeader) : Prop :=
  0 < virtual_size sh ->
  base_addr h <= virtual_addr sh /\ virtual_addr sh + virtual_size sh <= e.

Lemma extent_loop_ok f h ss x y :
  Forall (section_in_file f) ss -> x <= 0xFFFFFFFF -> extent_loop h ss x = Ok y ->
  x <= y <= 0xFFFFFFFF /\ Forall (section_in_image h y) ss.
Proof.
  intros Hs. revert x. induction Hs as [|sh ss Hsh _ IH]; intros x Hx He; simpl in He.
  - injection He as <-. split; [lia|done].
  - do 2 (case_if_in He; [done|]).
    destruct Hsh as (Hva & Hvs & _). unfold is_u32 in *.
    apply IH in He as [Hy Hf]; [|case_if; bool_facts; lia].
    split; [case_if_in Hy; bool_facts; lia|]. constructor; [|done].
    intros Hpos. case_if_in Hy; bool_facts; lia.
Qed.

(** What an accepted image guarantees to the loader and to the kernel. *)
Record image_wf (i : image) : Prop := {
  wf_base : 0 < base_addr (header i);
  wf_headers : sizeof_headers (header i) <= sizeof_image (header i);
  wf_extent : base_addr (header i) + sizeof_image (header i) <= image_end_abs i <= 0xFFFFFFFF;
  wf_count : zlen (sections i) = num_sections (header i);
  wf_files : Forall (section_in_file (file i)) (sections i);
  wf_image : Forall (section_in_image (header i) (image_end_abs i)) (sections i);
  wf_entry : base_addr (header i) <= entry_va i < image_end_abs i;
  wf_thunk : base_addr (header i) <= kernel_thunk_va i < image_end_abs i;
  wf_tls : match tls i with
           | None => tls_addr (header i) = 0
           | Some t =>
               base_addr (header i) <= data_start t <= data_end t /\
               data_end t <= image_end_abs i /\
               base_addr (header i) <= index_addr t < image_end_abs i
           end;
}.

Lemma check_header_ok h :
  is_u32 (base_addr h) -> is_u32 (sizeof_image h) -> check_header h = Ok tt ->
  0 < base_addr h /\ base_addr h + sizeof_image h <= 0xFFFFFFFF /\
  sizeof_headers h <= sizeof_image h.
Proof.
  unfold check_header, is_u32. intros ? ? H. do 2 (case_if_in H; [done|]). bool_facts. lia.
Qed.

Lemma parse_extent_ok f h ss e :
  Forall (section_in_file f) ss -> 0 <= base_addr h + sizeof_image h <= 0xFFFFFFFF ->
  parse_extent h ss = Ok e ->
  base_addr h + sizeof_image h <= e <= 0xFFFFFFFF /\
  Forall (section_in_image h e) ss /\
  base_addr h <= decode_entry h < e /\ base_addr h <= decode_thunk h < e.
Proof.
  intros Hs Hx Hp. unfold parse_extent in Hp. apply obind_ok in Hp as (y & Hy & Hp).
  apply (extent_loop_ok f) in Hy as [Hy Hf]; [|done|lia].
  rewrite u32_small in Hp by lia. case_if_in Hp; [done|]. injection Hp as <-.
  unfold va_outside in *. bool_facts. split_and!; (done || lia).
Qed.

Lemma parse_tls_ok f h ss e t :
  parse_tls f h ss e = Ok t ->
  match t with
  | None => tls_addr h = 0
  | Some t =>
      base_addr h <= data_start t <= data_end t /\ data_end t <= e /\
      base_addr h <= index_addr t < e
  end.
Proof.
  intros Hp. unfold parse_tls in Hp.
  destruct (tls_addr h =? 0) eqn:E0; [injection Hp as <-; by bool_facts|].
  destruct (va_file_offset f h ss (tls_addr h)) as [off|]; [|done].
  inv_ok Hp. injection Hp as <-. unfold tls_valid in *. simpl in *. bool_facts. lia.
Qed.

Lemma section_offset_sound f ss va off :
  Forall (section_in_file f) ss -> zlen f <= 2 ^ 32 -> is_u32 va ->
  section_offset ss va = Some off ->
  exists sh, sh ∈ ss /\ virtual_addr sh <= va < virtual_addr sh + sizeof_raw sh /\
    off = raw_addr sh + (va - virtual_addr sh).
Proof.
  intros Hf Hl Hva. induction Hf as [|sh ss Hsh _ IH]; simpl; [done|].
  assert (Hrec : section_offset ss va = Some off -> exists sh', sh' ∈ sh :: ss /\
    virtual_addr sh' <= va < virtual_addr sh' + sizeof_raw sh' /\
    off = raw_addr sh' + (va - virtual_addr sh')).
  { intros (sh' & Hin & Hr)%IH. exists sh'. split; [by right|done]. }
  case_if; [done|]. case_if; [|done]. intros [= <-]. bool_facts.
  destruct Hsh as (? & ? & ? & ? & ? & ?). unfold is_u32 in *.
  exists sh. split; [by left|]. rewrite !u32_small by (rewrite ?u32_small; lia). lia.
Qed.

Lemma has_bit31 x : has_bits x 0x80000000 = Z.testbit x 31.
Proof.
  unfold has_bits. change 0x80000000 with (2 ^ 31).
  destruct (Z.testbit x 31) eqn:E.
  - apply negb_true_iff, Z.eqb_neq. intros H.
    assert (Z.testbit (Z.land x (2 ^ 31)) 31 = false) as Hb by (rewrite H; apply Z.bits_0).
    rewrite Z.land_spec, E, Z.pow2_bits_true in Hb by lia. done.
  - apply negb_false_iff, Z.eqb_eq. apply Z.bits_inj'. intros n Hn.
    rewrite Z.land_spec, Z.bits_0, Z.pow2_bits_eqb by lia.
    destruct (Z.eqb_spec 31 n) as [<-|]; [by rewrite E|apply andb_false_r].
Qed.

Lemma small_bit31 x : 0 <= x < 2 ^ 31 -> Z.testbit x 31 = false.
Proof.
  intros H. rewrite <- (Z.mod_small x (2 ^ 31)) by lia. apply Z.mod_pow2_bits_high. lia.
Qed.

Lemma parse_wf f i :
  Forall is_u8 f -> parse f = Ok i -> file i = f /\ image_wf i.
Proof.
  intros Hf Hp. unfold parse in Hp. inv_ok Hp. injection Hp as <-. simpl.
  split; [done|].
  pose proof (parse_header_u32 _ _ Hf E) as (Hb & Hsh & Hsi & Hns & _).
  destruct x0. destruct (check_header_ok _ Hb Hsi E0) as (H1 & H2 & H3).
  pose proof (parse_sections_ok _ _ _ Hf Hns E2) as [H4 H5].
  unfold is_u32 in *.
  apply (parse_extent_ok _ _ _ _ H4) in E3 as (H6 & H7 & H8 & H9); [|lia].
  split; simpl; try done. by eapply parse_tls_ok.
Qed.

(** C3. Parsing any byte sequence, however malformed, either succeeds or fails
    with one of the documented messages: no path of [parse_impl] reads a byte
    outside the file, and neither do the string reads of the image it accepts,
    at whatever address. *)
Theorem parse_never_reads_out_of_bounds f :
  Forall is_u8 f ->
  is_ub (parse f) = false /\
  forall i va, parse f = Ok i -> is_ub (cstring (file i) (header i) (sections i) va) = false.
Proof.
  intros Hf. split; [|intros; apply cstring_safe]. change (safe (parse f)). unfold parse.
  apply safe_bind; [apply parse_header_safe|intros h Hh].
  apply parse_header_u32 in Hh as (_ & _ & _ & Hns & Hnl & _); [|done].
  apply safe_bind; [unfold check_header; safe_tac|intros _ _].
  apply safe_bind; [apply parse_certificate_safe|intros c _].
  apply safe_bind; [by apply parse_sections_safe|intros ss _].
  apply safe_bind; [apply parse_extent_safe|intros e _].
  apply safe_bind; [by apply parse_libraries_safe|intros ls _].
  apply safe_bind; [apply parse_tls_safe|intros t _]. done.
Qed.

(** C22. An accepted image is well formed: every section's raw bytes lie in the
    file and inside its virtual range, every section, the decoded entry point,
    the kernel thunk table and the TLS template lie between the image base and
    the computed image end, and that end fits 32 bits. *)
Theorem parse_accepts_only_well_formed f i :
  Forall is_u8 f -> parse f = Ok i -> file i = f /\ image_wf i.
Proof. apply parse_wf. Qed.

(** [va_file_offset] on an accepted image is sound: it returns the
    base-relative offset of a header byte, or the raw-data offset of the first
    section whose file bytes cover the address, and always an offset inside
    the file. *)
Theorem va_file_offset_sound i va off :
  image_wf i -> zlen (file i) <= 2 ^ 32 -> is_u32 va ->
  va_file_offset (file i) (header i) (sections i) va = Some off ->
  off < zlen (file i) /\
  (off = va - base_addr (header i) /\ base_addr (header i) <= va \/
   exists sh, sh ∈ sections i /\
     virtual_addr sh <= va < virtual_addr sh + sizeof_raw sh /\
     off = raw_addr sh + (va - virtual_addr sh)).
Proof.
  intros Hwf Hlen Hva. unfold va_file_offset. pose proof (wf_base _ Hwf).
  destruct (header_offset (file i) (header i) va) as [o|] eqn:Eh.
  - intros [= <-]. pose proof (header_offset_range _ _ _ _ Eh).
    split; [lia|]. left. unfold header_offset in Eh.
    do 3 (case_if_in Eh; [done|]). injection Eh as <-. bool_facts.
    unfold is_u32 in Hva. rewrite u32_small by lia. lia.
  - case_if; [done|]. intros (sh & Hin & Hr & ->)%(section_offset_sound (file i));
      [|apply Hwf|done|done].
    pose proof (wf_files _ Hwf) as Hf. rewrite Forall_forall in Hf.
    destruct (Hf sh Hin) as (_ & _ & _ & _ & Hraw & _). split; [lia|]. right. eauto.
Qed.

(** Retail and debug images decode to the addresses that were encoded: for
    thunk addresses below 2 GiB the high bit of the encoded thunk address
    identifies the key, and XOR with that key restores the entry point and the
    thunk directory. *)
Theorem type_detection_inverts_encoding h t ep kt :
  0 <= kt < 2 ^ 31 ->
  entry_addr h = Z.lxor ep (ep_key t) -> kernel_thunk_addr h = Z.lxor kt (kt_key t) ->
  detect_type h = t /\ decode_entry h = ep /\ decode_thunk h = kt.
Proof.
  intros Hkt He Hk.
  assert (Ht : detect_type h = t).
  { unfold detect_type. rewrite Hk, has_bit31. rewrite Z.lxor_spec.
    rewrite small_bit31 by done.
    by destruct t. }
  unfold decode_entry, decode_thunk. rewrite Ht, He, Hk.
  by rewrite !Z.lxor_assoc, !Z.lxor_nilpotent, !Z.lxor_0_r.
Qed.

(** ** A small valid file

    Two sections (read-only code with the thunk table, writable data with a
    BSS tail), one library version and a TLS directory with one callback. *)

(** Lay out [(offset, 32-bit value)] pairs in a file of [n] bytes. *)
Definition layout (n : Z) (ws : list (Z * Z)) : list Z :=
  mem_read (foldl (fun m w => mem_write m (fst w) (le_bytes 4 (snd w))) ∅ ws) 0 n.

Definition demo_words : list (Z * Z) :=
  [ (0x000, kMagic); (0x104, 0x10000); (0x108, 0x600); (0x10C, 0x3000);
    (0x110, 0x178); (0x118, 0x10178); (0x11C, 2); (0x120, 0x10348);
    (0x128, Z.lxor 0x11000 kXorEpRetail); (0x12C, 0x103C8);
    (0x158, Z.lxor 0x11010 kXorKtRetail); (0x160, 1); (0x164, 0x103B8);
    (* certificate: size, title id, two title characters *)
    (0x178, 0x1D0); (0x180, 0xFFFF0001); (0x184, 0x00420041);
    (* .text *)
    (0x348, 0x4); (0x34C, 0x11000); (0x350, 0x800); (0x354, 0x600); (0x358, 0x100);
    (0x35C, 0x103E0);
    (* .data *)
    (0x380, 0x1); (0x384, 0x12000); (0x388, 0x200); (0x38C, 0x700); (0x390, 0x40);
    (0x394, 0x103E8);
    (* library version *)
    (0x3B8, 0x494E5041); (0x3C0, 0x00010005); (0x3C4, 0x00000ABC);
    (* TLS directory *)
    (0x3C8, 0x12000); (0x3CC, 0x12020); (0x3D0, 0x12100); (0x3D4, 0x12030); (0x3D8, 0x10);
    (* names *)
    (0x3E0, 0x7865742E); (0x3E4, 0x74); (0x3E8, 0x7461642E); (0x3EC, 0x61);
    (* thunk table at VA 0x11010 *)
    (0x610, 0x800000A5); (0x614, 0x8000009C); (0x618, 0x80000001);
    (* TLS template bytes and the callback table *)
    (0x700, 0x04030201); (0x730, 0x11004) ].

Definition demo_file : list Z := layout 0x740 demo_words.

Definition dummy_image : image :=
  {| file := []; header := {| magic := 0; base_addr := 0; sizeof_headers := 0;
       sizeof_image := 0; sizeof_image_header := 0; timedate := 0;
       certificate_addr := 0; num_sections := 0; section_headers_addr := 0;
       init_flags := 0; entry_addr := 0; tls_addr := 0; pe_stack_commit := 0;
       pe_heap_reserve := 0; pe_heap_commit := 0; pe_base_addr := 0;
       pe_sizeof_image := 0; pe_checksum := 0; pe_timedate := 0;
       debug_pathname_addr := 0; debug_filename_addr := 0;
       debug_unicode_filename_addr := 0; kernel_thunk_addr := 0;
       nonkernel_import_dir_addr := 0; num_library_versions := 0;
       library_versions_addr := 0; kernel_library_version_addr := 0;
       xapi_library_version_addr := 0; logo_bitmap_addr := 0; logo_bitmap_size := 0 |};
     cert := {| c_size := 0; c_timedate := 0; title_id := 0; title := [];
       alternate_title_ids := []; allowed_media := 0; game_region := 0;
       game_ratings := 0; disc_number := 0; c_version := 0 |};
     sections := []; libraries := []; tls := None; type := Retail; entry_va := 0;
     kernel_thunk_va := 0; image_end_abs := 0 |}.

Definition image_of (m : outcome image) : image :=
  match m with Ok i => i | _ => dummy_image end.

Definition demo_image : image := image_of (parse demo_file).

Lemma is_u8_dec (l : list Z) :
  forallb (fun b => (0 <=? b) && (b <? 256)) l = true -> Forall is_u8 l.
Proof.
  intros H. apply Forall_forall. intros x Hx. eapply forallb_elem in H; [|done].
  bool_facts. unfold is_u8. lia.
Qed.

Lemma demo_file_bytes : Forall is_u8 demo_file.
Proof. apply is_u8_dec. by vm_compute. Qed.

Lemma demo_parse : parse demo_file = Ok demo_image.
Proof. by vm_compute. Qed.

Example demo_image_content :
  map name (sections demo_image) = [[46;116;101;120;116]; [46;100;97;116;97]] /\
  title (cert demo_image) = [65; 66] /\ type demo_image = Retail /\
  entry_va demo_image = 0x11000 /\ kernel_thunk_va demo_image = 0x11010 /\
  image_end_abs demo_image = 0x13000.
Proof. by vm_compute. Qed.

Lemma parse_never_reads_out_of_bounds_witness :
  is_ub (parse demo_file) = false /\
  is_ub (cstring (file demo_image) (header demo_image) (sections demo_image) 0x10000) = false.
Proof.
  destruct (parse_never_reads_out_of_bounds demo_file demo_file_bytes) as [H1 H2].
  split; [exact H1|exact (H2 demo_image 0x10000 demo_parse)].
Defined.

Lemma parse_accepts_only_well_formed_witness :
  file demo_image = demo_file /\ image_wf demo_image.
Proof.
  exact (parse_accepts_only_well_formed demo_file demo_image demo_file_bytes demo_parse).
Defined.

Lemma demo_image_wf : image_wf demo_image.
Proof. exact (proj2 (parse_wf demo_file demo_image demo_file_bytes demo_parse)). Qed.

Lemma va_file_offset_sound_witness :
  0x710 < zlen (file demo_image) /\
  (0x710 = 0x12010 - base_addr (header demo_image) /\ base_addr (header demo_image) <= 0x12010 \/
   exists sh, sh ∈ sections demo_image /\
     virtual_addr sh <= 0x12010 < virtual_addr sh + sizeof_raw sh /\
     0x710 = raw_addr sh + (0x12010 - virtual_addr sh)).
Proof.
  refine (va_file_offset_sound demo_image 0x12010 0x710 demo_image_wf _ _ _).
  - apply Z.leb_le. by vm_compute.
  - unfold is_u32. lia.
  - by vm_compute.
Defined.

Lemma type_detection_inverts_encoding_witness :
  detect_type (header demo_image) = Retail /\ decode_entry (header demo_image) = 0x11000 /\
  decode_thunk (header demo_image) = 0x11010.
Proof.
  refine (type_detection_inverts_encoding (header demo_image) Retail 0x11000 0x11010 _ _ _);
    [lia|by vm_compute|by vm_compute].
Defined.

End XbeImage.
