(* ===== verification/LoadedXbe.v ===== *)
(** Mapping an accepted XBE into guest RAM ([class xbe::LoadedXbe],
    src/xbe_loader.cpp): header block, sections with BSS and protection, TLS
    template and callbacks, kernel thunk ordinals. Raw copies that leave the
    file or a host buffer, and stores that the host refuses, are [Ub]. *)
From stdpp Require Import base numbers list gmap strings.
From Stdlib Require Import ZArith Lia.
From S2P Require Import Prelude XbeRam XbeImage.
Open Scope Z_scope.

Module LoadedXbe.
Import XbeRam XbeImage.

Record loaded := Loaded { l_image : image; l_ram : ram }.

(** The bytes [memcpy] takes from [file_.data() + off]. *)
Definition file_block (f : list Z) (off n : Z) : outcome (list Z) :=
  if (0 <=? off) && (off + n <=? zlen f)
  then Ok (take (Z.to_nat n) (drop (Z.to_nat off) f))
  else Ub "copy past the end of the file buffer".

Section ops.
Context `{os : HostOS}.

(** [ram_.write_bytes(addr, file.data() + off, n)]: the range check comes
    before the copy. *)
Definition copy_from_file (r : ram) (f : list Z) (addr off n : Z) (msg : string)
    : outcome ram :=
  if negb (writable r addr n) then Fail msg
  else let! bs := file_block f off n in
       Ok (set_bytes r (mem_write (r_bytes r) addr bs)).

(** Protection from the section flags; the results are ignored. *)
Definition protect_section (r : ram) (sh : SectionHeader) : ram :=
  let va := virtual_addr sh in
  let r := if has_bits (flags sh) kSectionWriteable then r
           else snd (protect_ro r va (virtual_size sh)) in
  let r := if has_bits (flags sh) kSectionHeadPageReadonly
           then snd (protect_ro r va 1) else r in
  if has_bits (flags sh) kSectionTailPageReadonly
  then snd (protect_ro r (u32 (va + virtual_size sh - 1)) 1) else r.

Definition map_section (f : list Z) (r : ram) (sh : SectionHeader) : outcome ram :=
  let va := virtual_addr sh in
  let (okc, r) := commit r va (virtual_size sh) in
  if negb okc then Fail "cannot commit section pages" else
  let! r := (if 0 <? sizeof_raw sh
             then copy_from_file r f va (raw_addr sh) (sizeof_raw sh)
                    "cannot copy section raw data"
             else Ok r) in
  let! r := (if sizeof_raw sh <? virtual_size sh then
               match host_ptr r (u32 (va + sizeof_raw sh)) with
               | None => Fail "section zero-fill range uncommitted"
               | Some z => host_memset r z 0 (u32 (virtual_size sh - sizeof_raw sh))
               end
             else Ok r) in
  Ok (protect_section r sh).

Fixpoint map_sections (f : list Z) (ss : list SectionHeader) (prev_end : Z) (r : ram)
    : outcome ram :=
  match ss with
  | [] => Ok r
  | sh :: ss' =>
      if virtual_size sh =? 0 then map_sections f ss' prev_end r
      else if virtual_addr sh <? prev_end then Fail "overlapping sections"
      else let! r := map_section f r sh in
           map_sections f ss' (virtual_addr sh + virtual_size sh) r
  end.

Definition map (i : image) (r : ram) : outcome ram :=
  let h := header i in
  let (okc, r) := commit r (base_addr h) (sizeof_headers h) in
  if negb okc then Fail "cannot commit header pages" else
  let! r := copy_from_file r (file i) (base_addr h) 0 (sizeof_headers h)
              "cannot copy header block" in
  map_sections (file i) (sections i) 0 r.

Definition kRamSize : Z := 64 * 2 ^ 20.

Definition load (f : list Z) : outcome loaded :=
  let! i := parse f in
  let! r := map i (create kRamSize) in
  Ok (Loaded i r).

(** ** What the kernel side reads from a mapped image *)

Definition has_tls (l : loaded) : bool :=
  match tls (l_image l) with Some _ => true | None => false end.

(** [out.resize(raw_size() + zero_fill)] in 32 bits, then a copy of
    [raw_size()] bytes into it. *)
Definition tls_template (l : loaded) : outcome (list Z) :=
  match tls (l_image l) with
  | None => Ok []
  | Some t =>
      let n := u32 (raw_size t + zero_fill t) in
      if 0 <? raw_size t then
        match read_bytes (l_ram l) (data_start t) (raw_size t) with
        | None => Ok []
        | Some bs =>
            if n <? raw_size t then Ub "copy past the end of the TLS template buffer"
            else Ok (bs ++ replicate (Z.to_nat (n - raw_size t)) 0)
        end
      else Ok (replicate (Z.to_nat n) 0)
  end.

Definition write_tls_index (l : loaded) (index : Z) : bool * loaded :=
  match tls (l_image l) with
  | None => (false, l)
  | Some t =>
      match write32 (l_ram l) (index_addr t) index with
      | None => (false, l)
      | Some r => (true, Loaded (l_image l) r)
      end
  end.

(** The bounded NUL-terminated table walk shared by [tls_callbacks] (1024
    entries) and [kernel_thunk_ordinals] (4096); [None] is the [return {}]. *)
Fixpoint table_walk (l : loaded) (n : nat) (va : Z) : option (list Z) :=
  match n with
  | O => Some []
  | S n' =>
      let base := base_addr (header (l_image l)) in
      let limit := image_end_abs (l_image l) in
      if (va <? base) || (u32 (limit - 4) <? va) then None
      else match read32 (l_ram l) va with
           | None => None
           | Some e => if e =? 0 then Some []
                       else cons e <$> table_walk l n' (u32 (va + 4))
           end
  end.

Definition tls_callbacks (l : loaded) : list Z :=
  match tls (l_image l) with
  | None => []
  | Some t => if callbacks_addr t =? 0 then []
              else default [] (table_walk l 1024 (callbacks_addr t))
  end.

Definition kernel_thunk_ordinals (l : loaded) : list Z :=
  (fun e => Z.land e 0x7FFFFFFF) <$>
    default [] (table_walk l 4096 (kernel_thunk_va (l_image l))).

End ops.

(** ** Contents of the mapped image *)

Definition file_byte (f : list Z) (off : Z) : Z := nth (Z.to_nat off) f 0.

(** A section is mapped when its raw bytes are the file's and the rest of its
    virtual range is zero. *)
Definition section_mapped (f : list Z) (m : bytes_map) (sh : SectionHeader) : Prop :=
  forall i, 0 <= i < virtual_size sh ->
    mem_byte m (virtual_addr sh + i) =
    if i <? sizeof_raw sh then file_byte f (raw_addr sh + i) else 0.

Definition in_section (a : Z) (sh : SectionHeader) : Prop :=
  virtual_addr sh <= a < virtual_addr sh + virtual_size sh.

Section lemmas.
Context `{os : HostOS} `{laws : !HostLaws os}.
Implicit Types r : ram.

Lemma file_block_spec f off n bs :
  0 <= n -> file_block f off n = Ok bs ->
  zlen bs = n /\ 0 <= off /\ off + n <= zlen f /\
  forall i, 0 <= i < n -> nth (Z.to_nat i) bs 0 = file_byte f (off + i).
Proof.
  unfold file_block. intros Hn. case_if; [|done]. intros [= <-]. bool_facts.
  assert (Hl : zlen (take (Z.to_nat n) (drop (Z.to_nat off) f)) = n)
    by (rewrite length_take, length_drop; lia).
  split_and!; [done|lia|lia|]. intros i Hi. unfold file_byte.
  rewrite !nth_lookup, lookup_take_lt, lookup_drop by lia.
  f_equal. f_equal. lia.
Qed.

Lemma copy_from_file_spec r f addr off n msg r' :
  0 <= n -> copy_from_file r f addr off n msg = Ok r' ->
  r' = set_bytes r (r_bytes r') /\
  forall a, mem_byte (r_bytes r') a =
    if decide (addr <= a < addr + n) then file_byte f (off + (a - addr))
    else mem_byte (r_bytes r) a.
Proof.
  intros Hn. unfold copy_from_file. case_if; [done|]. intros H.
  apply obind_ok in H as (bs & Hb & [= <-]). split; [done|]. intros a. simpl.
  apply file_block_spec in Hb as (Hl & _ & _ & Hn'); [|done].
  rewrite mem_byte_write, Hl. case_decide; [|done]. apply Hn'. lia.
Qed.

Lemma host_memset_spec r a v n r' :
  host_memset r a v n = Ok r' -> r' = set_bytes r (mem_fill (r_bytes r) a n v).
Proof. unfold host_memset. case_if; [|done]. by intros [= <-]. Qed.

(** Only the read-only flags of pages of the section change. *)
Lemma protect_ro_only r a n :
  ram_ok r ->
  ram_ok (snd (protect_ro r a n)) /\ frame r (snd (protect_ro r a n)).
Proof.
  intros Hok. destruct (protect_ro r a n) as [b r'] eqn:E.
  apply protect_ro_spec in E as (H1 & H2 & _); done.
Qed.

Lemma protect_section_ok r sh :
  ram_ok r -> ram_ok (protect_section r sh) /\ frame r (protect_section r sh).
Proof.
  intros Hok. unfold protect_section.
  assert (H : forall b r0 a n, ram_ok r0 /\ frame r r0 ->
    ram_ok (if b : bool then snd (protect_ro r0 a n) else r0) /\
    frame r (if b : bool then snd (protect_ro r0 a n) else r0)).
  { intros [] r0 a n [H1 H2]; [|done].
    destruct (protect_ro_only r0 a n H1) as [H3 (H4 & H5 & H6)].
    destruct H2 as (H7 & H8 & H9). split; [done|].
    unfold frame. by rewrite H4, H5, H6. }
  apply H, H. destruct (has_bits (flags sh) kSectionWriteable); [done|].
  by apply (H true).
Qed.

(** Bytes after one section: the section is mapped, the rest is untouched. *)
Lemma map_section_bytes f r sh r' :
  ram_ok r -> section_in_file f sh -> 0 < virtual_size sh ->
  virtual_addr sh + virtual_size sh <= 0xFFFFFFFF ->
  map_section f r sh = Ok r' ->
  ram_ok r' /\ section_mapped f (r_bytes r') sh /\
  forall a, ~ in_section a sh -> mem_byte (r_bytes r') a = mem_byte (r_bytes r) a.
Proof.
  intros Hok (Hva & Hvs & Hra & Hsr & Hin & Hle) Hpos Hend Hm. unfold is_u32 in *.
  unfold map_section in Hm.
  destruct (commit r (virtual_addr sh) (virtual_size sh)) as [okc r1] eqn:Ec.
  apply commit_spec in Ec as (Hok1 & (_ & _ & Hb1) & _); [|done|by split].
  destruct okc; simpl in Hm; [|done].
  apply obind_ok in Hm as (r2 & Hr2 & Hm). apply obind_ok in Hm as (r3 & Hr3 & [= <-]).
  assert (H2 : ram_ok r2 /\ forall a, mem_byte (r_bytes r2) a =
    if decide (virtual_addr sh <= a < virtual_addr sh + sizeof_raw sh)
    then file_byte f (raw_addr sh + (a - virtual_addr sh)) else mem_byte (r_bytes r) a).
  { destruct (0 <? sizeof_raw sh) eqn:E0; bool_facts.
    - apply copy_from_file_spec in Hr2 as [-> Hb]; [|lia].
      split; [by apply set_bytes_ok|]. intros a. by rewrite Hb, Hb1.
    - injection Hr2 as <-. split; [done|]. intros a.
      rewrite decide_False by lia. by rewrite Hb1. }
  destruct H2 as [Hok2 Hb2].
  assert (H3 : ram_ok r3 /\ forall a, mem_byte (r_bytes r3) a =
    if decide (virtual_addr sh + sizeof_raw sh <= a < virtual_addr sh + virtual_size sh)
    then 0 else mem_byte (r_bytes r2) a).
  { case_if_in Hr3; bool_facts.
    - rewrite !u32_small in Hr3 by lia. unfold host_ptr in Hr3. case_if_in Hr3; [|done].
      apply host_memset_spec in Hr3 as ->. split; [by apply set_bytes_ok|].
      intros a. simpl. rewrite mem_byte_fill.
      do 2 case_decide; try lia; done.
    - injection Hr3 as <-. split; [done|]. intros a. by rewrite decide_False by lia. }
  destruct H3 as [Hok3 Hb3].
  destruct (protect_section_ok r3 sh Hok3) as [Hok4 (_ & _ & Hb4)].
  split_and!; [done| |].
  - intros i Hi. rewrite Hb4, Hb3, Hb2. destruct (i <? sizeof_raw sh) eqn:?; bool_facts.
    + rewrite decide_False, decide_True by lia. f_equal. lia.
    + by rewrite decide_True by lia.
  - intros a Ha. unfold in_section in Ha. rewrite Hb4, Hb3, Hb2.
    by rewrite !decide_False by lia.
Qed.

Lemma section_mapped_frame f m m' sh :
  (forall a, in_section a sh -> mem_byte m' a = mem_byte m a) ->
  section_mapped f m sh -> section_mapped f m' sh.
Proof. intros He Hm i Hi. rewrite He; [by apply Hm|]. unfold in_section. lia. Qed.

(** The section loop: the guard on [prev_end] makes the sections disjoint, so
    each one is intact at the end. *)
Lemma map_sections_bytes f h e ss pe r r' :
  e <= 0xFFFFFFFF ->
  Forall (section_in_file f) ss -> Forall (section_in_image h e) ss ->
  ram_ok r -> map_sections f ss pe r = Ok r' ->
  ram_ok r' /\ Forall (section_mapped f (r_bytes r')) ss /\
  (forall a, a < pe \/ (forall sh, sh ∈ ss -> ~ in_section a sh) ->
     mem_byte (r_bytes r') a = mem_byte (r_bytes r) a).
Proof.
  intros He Hf Hi. revert pe r. induction Hf as [|sh ss Hsh Hf IH]; intros pe r Hok Hm;
    simpl in Hm; [injection Hm as <-; done|].
  apply Forall_cons in Hi as [Hish Hi].
  destruct (virtual_size sh =? 0) eqn:E0; bool_facts.
  - destruct (IH Hi pe r Hok Hm) as (H1 & H2 & H3). split_and!; [done| |].
    + constructor; [|done]. intros i ?. lia.
    + intros a Ha. apply H3. destruct Ha as [|Ha]; [by left|right].
      intros sh' ?. apply Ha. by right.
  - case_if_in Hm; [done|]. bool_facts. apply obind_ok in Hm as (r1 & Hr1 & Hm).
    pose proof Hsh as (Hva & Hvs & _). unfold is_u32 in *.
    destruct (Hish ltac:(lia)) as [Hbase Hend].
    destruct (map_section_bytes f r sh r1 Hok Hsh ltac:(lia) ltac:(lia) Hr1) as (Hok1 & Hs1 & Hfr1).
    destruct (IH Hi _ r1 Hok1 Hm) as (H1 & H2 & H3). split_and!; [done| |].
    + constructor; [|done]. eapply section_mapped_frame; [|done].
      intros a Ha. apply H3. left. unfold in_section in Ha. lia.
    + intros a Ha. rewrite H3, Hfr1; [done|..].
      * destruct Ha as [Ha|Ha]; [unfold in_section; lia|]. apply Ha. by left.
      * destruct Ha as [Ha|Ha]; [left; lia|right]. intros sh' ?. apply Ha. by right.
Qed.

(** ** Safety of mapping page-aligned images *)

(** Read-only pages all start below [pe]. *)
Definition ro_below r (pe : Z) : Prop :=
  forall p, roflag r p = true -> p * page_size < pe.

Lemma page_range_bounds addr size p :
  0 <= addr -> 0 < size -> addr + size <= 2 ^ 32 -> p ∈ page_range addr size ->
  addr < (p + 1) * page_size /\ p * page_size <= addr + size - 1.
Proof.
  intros Ha Hs He Hp. pose proof page_size_pos as Hps.
  apply page_range_elem in Hp; [|done..].
  assert (Hnz : page_size <> 0) by lia.
  pose proof (Z.div_mod addr _ Hnz). pose proof (Z.mod_pos_bound addr _ Hps).
  pose proof (Z.div_mod (addr + size - 1) _ Hnz).
  pose proof (Z.mod_pos_bound (addr + size - 1) _ Hps). nia.
Qed.

Lemma page_range_sub a n b m p :
  0 <= a -> 0 < n -> a + n <= 2 ^ 32 -> a <= b -> 0 < m -> b + m <= a + n ->
  p ∈ page_range b m -> p ∈ page_range a n.
Proof.
  intros Ha Hn He Hab Hm Hle Hp. pose proof page_size_pos as Hps.
  apply page_range_elem in Hp; [|lia..]. apply page_range_elem; [lia..|].
  assert (a `div` page_size <= b `div` page_size) by (apply Z.div_le_mono; lia).
  assert ((b + m - 1) `div` page_size <= (a + n - 1) `div` page_size)
    by (apply Z.div_le_mono; lia). lia.
Qed.

(** A page loop that sets read-only flags, even one cut short by mprotect. *)
Lemma ro_loop_below pe l r :
  (forall q, q ∈ l -> q * page_size < pe) -> ro_below r pe ->
  ro_below (snd (page_loop (fun r p => sv_nz (r_ro r) p) PROT_READ
             (fun r p => set_ro r p 1) l r)) pe.
Proof.
  revert r. induction l as [|p l IH]; intros r Hin Hb; simpl; [done|].
  assert (Hin' : forall q, q ∈ l -> q * page_size < pe) by (intros; apply Hin; by right).
  destruct (sv_nz (r_ro r) p); [by apply IH|].
  unfold mprotect. destruct (mprotect_ok p PROT_READ); simpl; [|done].
  apply IH; [done|]. intros q. unfold roflag. simpl. rewrite sv_nz_set.
  case_decide as Hd; [|apply Hb]. intros _. destruct Hd as [<- _]. apply Hin. by left.
Qed.

Lemma protect_ro_below r a n pe :
  ro_below r pe -> 0 <= a -> 0 < n -> a + n <= pe -> pe <= 2 ^ 32 ->
  ro_below (snd (protect_ro r a n)) pe.
Proof.
  intros Hb Ha Hn Hle Hpe. unfold protect_ro.
  destruct (is_committed r a n); simpl; [|done].
  apply ro_loop_below; [|done]. intros p Hp. apply page_range_bounds in Hp; lia.
Qed.

Lemma protect_section_below r sh pe :
  ro_below r pe -> is_u32 (virtual_addr sh) -> 0 < virtual_size sh ->
  virtual_addr sh + virtual_size sh <= pe -> pe <= 2 ^ 32 ->
  ro_below (protect_section r sh) pe.
Proof.
  intros Hb Hva Hvs Hle Hpe. unfold is_u32 in Hva. unfold protect_section.
  rewrite u32_small by lia.
  repeat (case_if; try done); repeat (apply protect_ro_below; try lia); done.
Qed.

(** A section whose pages hold no read-only page maps without a host fault. *)
Lemma map_section_safe f r sh :
  ram_ok r -> section_in_file f sh -> 0 < virtual_size sh ->
  virtual_addr sh + virtual_size sh <= 0xFFFFFFFF ->
  (forall p, p ∈ page_range (virtual_addr sh) (virtual_size sh) -> roflag r p = false) ->
  is_ub (map_section f r sh) = false.
Proof.
  intros Hok (Hva & Hvs & Hra & Hsr & Hin & Hle) Hpos Hend Hro. unfold is_u32 in *.
  unfold map_section.
  destruct (commit r (virtual_addr sh) (virtual_size sh)) as [okc r1] eqn:Ec.
  apply commit_spec in Ec as (Hok1 & (Hf1 & Hf2 & Hf3) & Hc1); [|done|by split].
  destruct okc; simpl; [|done]. destruct (Hc1 eq_refl) as (Hrg & Hbase & Hfl).
  pose proof Hrg as Hrg'. apply range_ok_spec in Hrg'.
  assert (Hw : forall b m, 0 < m -> virtual_addr sh <= b ->
    b + m <= virtual_addr sh + virtual_size sh -> writable r1 b m = true).
  { intros b m Hm Hb He. apply writable_spec. rewrite is_committed_spec. split_and!.
    - by rewrite Hf1.
    - apply range_ok_spec. rewrite Hf2. lia.
    - intros p Hp. destruct (Hfl p) as [-> _]. rewrite decide_True; [done|].
      eapply page_range_sub; [..|exact Hp]; lia.
    - intros p Hp. destruct (Hfl p) as [_ ->]. apply Hro.
      eapply page_range_sub; [..|exact Hp]; lia. }
  apply safe_bind.
  - destruct (0 <? sizeof_raw sh) eqn:E; [|done]. bool_facts.
    unfold copy_from_file. rewrite Hw by lia. simpl. unfold file_block.
    case_if; [done|]. apply andb_false_iff in Heqb as []; bool_facts; lia.
  - intros r2 Hr2. apply safe_bind; [|done].
    assert (Hr2' : r2 = set_bytes r1 (r_bytes r2)).
    { case_if_in Hr2; [|by injection Hr2 as <-; destruct r1].
      bool_facts. by apply copy_from_file_spec in Hr2 as [Hcp _]; [|lia]. }
    destruct (sizeof_raw sh <? virtual_size sh) eqn:E; [|done]. bool_facts.
    rewrite !u32_small by lia. unfold host_ptr. case_if; [|done].
    rewrite Hr2'. unfold safe, host_memset.
    replace (host_writable (set_bytes r1 (r_bytes r2))) with (host_writable r1) by done.
    pose proof (Hw (virtual_addr sh + sizeof_raw sh) (virtual_size sh - sizeof_raw sh)
      ltac:(lia) ltac:(lia) ltac:(lia)) as Hwb.
    rewrite host_writable_iff, Hwb; [by rewrite orb_true_r|done|split; unfold is_u32; lia|].
    by apply writable_spec in Hwb as [? _].
Qed.

Lemma map_section_below f r sh r' pe :
  ro_below r pe -> ram_ok r -> section_in_file f sh -> 0 < virtual_size sh ->
  pe <= virtual_addr sh -> virtual_addr sh + virtual_size sh <= 0xFFFFFFFF ->
  map_section f r sh = Ok r' -> ro_below r' (virtual_addr sh + virtual_size sh).
Proof.
  intros Hb Hok (Hva & Hvs & _ & Hsr & _) Hpos Hpe Hend Hm. unfold map_section in Hm.
  destruct (commit r (virtual_addr sh) (virtual_size sh)) as [okc r1] eqn:Ec.
  apply commit_spec in Ec as (Hok1 & _ & Hc1); [|done|by split].
  destruct okc; simpl in Hm; [|done]. destruct (Hc1 eq_refl) as (_ & _ & Hfl).
  apply obind_ok in Hm as (r2 & Hr2 & Hm). apply obind_ok in Hm as (r3 & Hr3 & [= <-]).
  unfold is_u32 in *. apply protect_section_below; [|done|lia..].
  assert (H2 : r_ro r2 = r_ro r1).
  { case_if_in Hr2; [|by injection Hr2 as <-]. bool_facts.
    apply copy_from_file_spec in Hr2 as [-> _]; [done|lia]. }
  assert (H3 : r_ro r3 = r_ro r2).
  { case_if_in Hr3; [|by injection Hr3 as <-]. destruct (host_ptr _ _); [|done].
    by apply host_memset_spec in Hr3 as ->. }
  intros p Hp. unfold roflag in Hp. rewrite H3, H2 in Hp.
  destruct (Hfl p) as [_ Hq]. unfold roflag in Hq. rewrite Hq in Hp.
  specialize (Hb p Hp). lia.
Qed.

Lemma map_sections_safe f h e ss pe r :
  e <= 0xFFFFFFFF ->
  Forall (section_in_file f) ss -> Forall (section_in_image h e) ss ->
  Forall (fun sh => virtual_addr sh `mod` page_size = 0) ss ->
  ram_ok r -> ro_below r pe -> is_ub (map_sections f ss pe r) = false.
Proof.
  intros He Hf Hi Hal. revert pe r.
  induction Hf as [|sh ss Hsh Hf IH]; intros pe r Hok Hb; simpl; [done|].
  apply Forall_cons in Hi as [Hish Hi]. apply Forall_cons in Hal as [Hash Hal].
  destruct (virtual_size sh =? 0) eqn:E0; [by apply IH|].
  destruct (virtual_addr sh <? pe) eqn:E1; [done|]. bool_facts.
  pose proof Hsh as (Hva & Hvs & _). unfold is_u32 in *.
  assert (Hpos : 0 < virtual_size sh) by lia. destruct (Hish Hpos) as [_ Hend].
  assert (Hend' : virtual_addr sh + virtual_size sh <= 0xFFFFFFFF) by lia.
  assert (Hnro : forall p, p ∈ page_range (virtual_addr sh) (virtual_size sh) ->
                 roflag r p = false).
  { intros p Hp. destruct (roflag r p) eqn:HO; [|done]. specialize (Hb p HO).
    apply page_range_elem in Hp as [Hp _]; [|lia..]. pose proof page_size_pos as Hps.
    assert (Hnz : page_size <> 0) by lia.
    pose proof (Z.div_mod (virtual_addr sh) _ Hnz). nia. }
  apply safe_bind; [by apply map_section_safe|]. intros r1 Hr1.
  apply IH; [done|done| |].
  - by eapply map_section_bytes in Hr1 as (? & _).
  - by eapply map_section_below.
Qed.

(** The header block after [commit] and [write_bytes]. *)
Lemma commit_fresh_writable n a m r :
  0 <= n <= 2 ^ 32 -> args_ok a m -> commit (create n) a m = (true, r) ->
  ram_ok r /\ ro_below r 0 /\ writable r a m = true /\ r_bytes r = ∅.
Proof.
  intros Hn Ha Hc. pose proof (create_ok n Hn) as Hok.
  assert (Hro : forall p, roflag (create n) p = false).
  { intros p. unfold roflag, create. destruct (mmap_ok n); apply sv_nz_assign. }
  pose proof Hc as Hc'.
  apply commit_spec in Hc' as (Hok' & (Hf1 & Hf2 & Hf3) & Hfl); [|done..].
  destruct (Hfl eq_refl) as (Hr & Hb & Hq).
  split_and!; [done|..].
  - intros p Hp. destruct (Hq p) as [_ Hq']. rewrite Hq', Hro in Hp. done.
  - apply writable_spec. rewrite is_committed_spec. split_and!.
    + congruence.
    + unfold range_ok in *. by rewrite Hf2.
    + intros p Hp. destruct (Hq p) as [-> _]. by rewrite decide_True.
    + intros p _. destruct (Hq p) as [_ ->]. apply Hro.
  - rewrite Hf3. unfold create. by destruct (mmap_ok n).
Qed.

Lemma kRamSize_ok : 0 <= kRamSize <= 2 ^ 32.
Proof. unfold kRamSize. lia. Qed.

Lemma header_args f h : Forall is_u8 f -> parse_header f = Ok h ->
  args_ok (base_addr h) (sizeof_headers h).
Proof. intros Hf Hp. by apply parse_header_u32 in Hp as (? & ? & _). Qed.

Lemma parse_header_of f i : parse f = Ok i -> parse_header f = Ok (header i).
Proof. intros H. unfold parse in H. inv_ok H. by injection H as <-. Qed.

(** C2. A successful load puts exactly the file in guest memory: every section
    holds its raw bytes followed by zeros up to its virtual size, and every
    byte of the header block that no section covers is the file's. The RAM
    flags agree with the host protection. *)
Theorem load_maps_the_file f l :
  Forall is_u8 f -> load f = Ok l ->
  ram_ok (l_ram l) /\ parse f = Ok (l_image l) /\
  Forall (section_mapped f (r_bytes (l_ram l))) (sections (l_image l)) /\
  let h := header (l_image l) in
  forall a, base_addr h <= a < base_addr h + sizeof_headers h ->
    (forall sh, sh ∈ sections (l_image l) -> ~ in_section a sh) ->
    mem_byte (r_bytes (l_ram l)) a = file_byte f (a - base_addr h).
Proof.
  intros Hf Hl. unfold load in Hl. apply obind_ok in Hl as (i & Hp & Hl).
  apply obind_ok in Hl as (r & Hm & [= <-]). simpl.
  pose proof (parse_wf f i Hf Hp) as [Hfile Hwf].
  pose proof (header_args f _ Hf (parse_header_of _ _ Hp)) as Ha.
  unfold map in Hm.
  destruct (commit (create kRamSize) _ _) as [okc r0] eqn:Ec.
  destruct okc; simpl in Hm; [|done].
  apply commit_fresh_writable in Ec as (Hok0 & _ & _ & _); [|apply kRamSize_ok|done].
  apply obind_ok in Hm as (r1 & Hr1 & Hm).
  destruct Ha as [_ Hsz]. unfold is_u32 in Hsz.
  apply copy_from_file_spec in Hr1 as [Hr1 Hb1]; [|lia].
  assert (Hok1 : ram_ok r1) by (rewrite Hr1; by apply set_bytes_ok).
  rewrite Hfile in *. pose proof (wf_files _ Hwf) as Hwf1. rewrite Hfile in Hwf1.
  eapply map_sections_bytes in Hm as (H1 & H2 & H3);
    [|apply (wf_extent _ Hwf)|exact Hwf1|apply (wf_image _ Hwf)|done].
  split_and!; try done. intros a Ha Hn. rewrite H3 by (by right).
  rewrite Hb1, decide_True by lia. f_equal.
Qed.

(** Loading is memory safe for files that contain their whole header block
    and whose sections start on page boundaries: no copy leaves the file and
    no store meets a page the host protects, whatever else the file says. *)
Theorem load_safe_when_page_aligned f i :
  Forall is_u8 f -> parse f = Ok i ->
  sizeof_headers (header i) <= zlen f ->
  Forall (fun sh => virtual_addr sh `mod` page_size = 0) (sections i) ->
  is_ub (load f) = false.
Proof.
  intros Hf Hp Hsz Hal. pose proof (parse_wf f i Hf Hp) as [Hfile Hwf].
  pose proof (header_args f _ Hf (parse_header_of _ _ Hp)) as Ha.
  unfold load. rewrite Hp. simpl. apply safe_bind; [|done]. unfold map.
  destruct (commit (create kRamSize) _ _) as [okc r0] eqn:Ec.
  destruct okc; simpl; [|done].
  apply commit_fresh_writable in Ec as (Hok0 & Hro & Hw & _); [|apply kRamSize_ok|done].
  destruct Ha as [_ Hsz']. unfold is_u32 in Hsz'.
  apply safe_bind.
  - unfold copy_from_file. rewrite Hw. simpl. unfold file_block. rewrite Hfile.
    case_if; [done|]. apply andb_false_iff in Heqb as []; bool_facts; lia.
  - intros r1 Hr1. apply copy_from_file_spec in Hr1 as [-> _]; [|lia].
    rewrite Hfile. pose proof (wf_files _ Hwf) as Hwf1. rewrite Hfile in Hwf1.
    eapply map_sections_safe; [apply (wf_extent _ Hwf)|exact Hwf1|apply (wf_image _ Hwf)|done|
      by apply set_bytes_ok|done].
Qed.

(** The header copy trusts [sizeof_headers]: whenever a file passes the
    parser with [sizeof_headers] larger than the file and the header pages can
    be committed, [load] reads past the end of the file buffer. *)
Theorem load_overreads_long_headers f i r :
  Forall is_u8 f -> parse f = Ok i -> zlen f < sizeof_headers (header i) ->
  commit (create kRamSize) (base_addr (header i)) (sizeof_headers (header i)) = (true, r) ->
  load f = Ub "copy past the end of the file buffer".
Proof.
  intros Hf Hp Hlt Hc. pose proof (parse_wf f i Hf Hp) as [Hfile _].
  pose proof (header_args f _ Hf (parse_header_of _ _ Hp)) as Ha.
  unfold load. rewrite Hp. simpl. unfold map. rewrite Hc. simpl.
  apply commit_fresh_writable in Hc as (_ & _ & Hw & _); [|apply kRamSize_ok|done].
  unfold copy_from_file. rewrite Hw. simpl. unfold file_block. rewrite Hfile.
  case_if; [bool_facts; lia|done].
Qed.

(** The TLS template buffer is sized in 32 bits: when the template size
    plus the zero fill reaches 2^32 and the template is readable, the copy of
    the template overruns the buffer. Below 2^32 the template has exactly
    [raw_size + zero_fill] bytes. *)
Theorem tls_template_size_wraps l t bs :
  tls (l_image l) = Some t -> 0 < raw_size t -> is_u32 (zero_fill t) ->
  read_bytes (l_ram l) (data_start t) (raw_size t) = Some bs ->
  (2 ^ 32 <= raw_size t + zero_fill t -> is_ub (tls_template l) = true) /\
  (raw_size t + zero_fill t < 2 ^ 32 ->
     exists out, tls_template l = Ok out /\ zlen out = raw_size t + zero_fill t /\
       take (length bs) out = bs).
Proof.
  intros Ht Hpos Hz Hr. unfold tls_template. rewrite Ht, Hr.
  replace (0 <? raw_size t) with true by (symmetry; by apply Z.ltb_lt).
  pose proof (u32_range (data_end t - data_start t)) as Hrs. fold (raw_size t) in Hrs.
  unfold is_u32 in Hz. split; intros Hsum.
  - replace (u32 (raw_size t + zero_fill t)) with (raw_size t + zero_fill t - 2 ^ 32).
    + replace (_ <? raw_size t) with true by (symmetry; apply Z.ltb_lt; lia). done.
    + symmetry. unfold u32. symmetry. apply (Z.mod_unique_pos _ _ 1); lia.
  - rewrite u32_small by lia.
    replace (_ <? raw_size t) with false by (symmetry; apply Z.ltb_ge; lia).
    apply read_bytes_inv in Hr as [_ ->]. eexists. split; [done|].
    rewrite take_app_length, length_app, length_mem_read, length_replicate. split; [lia|done].
Qed.

End lemmas.

Definition loaded_of (m : outcome loaded) : loaded :=
  match m with Ok l => l | _ => Loaded dummy_image (Ram false 0 (sv_assign 0 0) (sv_assign 0 0) ∅ ∅) end.

Example demo_load_ok :
  let l := loaded_of (load demo_file) in
  is_ok (load demo_file) = true /\
  kernel_thunk_ordinals l = [165; 156; 1] /\ tls_callbacks l = [0x11004] /\
  writable (l_ram l) 0x11000 4 = false /\ writable (l_ram l) 0x12000 4 = true /\
  match tls_template l with Ok t => (length t, take 5 t) | _ => (0%nat, []) end
    = (48%nat, [1; 2; 3; 4; 0]).
Proof. by vm_compute. Qed.

(** ** Witnesses and failing inputs *)

Definition demo_loaded : loaded := loaded_of (load demo_file).

Lemma loaded_of_ok m : is_ok m = true -> m = Ok (loaded_of m).
Proof. by destruct m. Qed.

Lemma demo_loaded_ok : load demo_file = Ok demo_loaded.
Proof. apply loaded_of_ok. by vm_compute. Qed.

Lemma load_maps_the_file_witness :
  ram_ok (l_ram demo_loaded) /\ parse demo_file = Ok (l_image demo_loaded) /\
  Forall (section_mapped demo_file (r_bytes (l_ram demo_loaded))) (sections (l_image demo_loaded)).
Proof.
  destruct (load_maps_the_file demo_file demo_loaded demo_file_bytes demo_loaded_ok)
    as (H1 & H2 & H3 & _). by split_and!.
Defined.

Lemma load_safe_when_page_aligned_witness : is_ub (load demo_file) = false.
Proof.
  refine (load_safe_when_page_aligned demo_file demo_image demo_file_bytes demo_parse _ _).
  - apply Z.leb_le. by vm_compute.
  - apply (bool_decide_unpack _). by vm_compute.
Defined.

(** The same file announcing 0x2000 bytes of headers. *)
Definition overread_file : list Z := layout 0x740 (demo_words ++ [(0x108, 0x2000)]).

Lemma load_overreads_long_headers_witness :
  load overread_file = Ub "copy past the end of the file buffer".
Proof.
  refine (load_overreads_long_headers overread_file (image_of (parse overread_file))
    (snd (commit (create kRamSize) 0x10000 0x2000)) _ _ _ _).
  - apply is_u8_dec. by vm_compute.
  - by vm_compute.
  - apply Z.ltb_lt. by vm_compute.
  - by vm_compute.
Defined.

(** The same file with a zero fill of 2^32 - 0x10. *)
Definition wrapping_tls_file : list Z := layout 0x740 (demo_words ++ [(0x3D8, 0xFFFFFFF0)]).
Definition wrapping_loaded : loaded := loaded_of (load wrapping_tls_file).

Definition tls_of (l : loaded) : TlsDirectory :=
  default {| data_start := 0; data_end := 0; index_addr := 0; callbacks_addr := 0;
             zero_fill := 0; characteristics := 0 |} (tls (l_image l)).

Lemma tls_template_size_wraps_witness : is_ub (tls_template wrapping_loaded) = true.
Proof.
  assert (H1 : tls (l_image wrapping_loaded) = Some (tls_of wrapping_loaded)) by (by vm_compute).
  assert (H2 : 0 < raw_size (tls_of wrapping_loaded)) by (apply Z.ltb_lt; by vm_compute).
  assert (H3 : is_u32 (zero_fill (tls_of wrapping_loaded)))
    by (split; [apply Z.leb_le|apply Z.ltb_lt]; by vm_compute).
  assert (H4 : read_bytes (l_ram wrapping_loaded) (data_start (tls_of wrapping_loaded))
                 (raw_size (tls_of wrapping_loaded))
               = Some (default [] (read_bytes (l_ram wrapping_loaded) 0x12000 0x20)))
    by (by vm_compute).
  apply (tls_template_size_wraps _ _ _ H1 H2 H3 H4). apply Z.leb_le. by vm_compute.
Defined.

(** A BSS-only section that starts in the last page of a read-only section:
    the zero fill is a store to a page the host has made read-only. *)
Definition shared_page_file : list Z :=
  layout 0x740 (demo_words ++ [(0x384, 0x11800); (0x390, 0); (0x12C, 0)]).

Example bss_on_a_read_only_page_faults :
  is_ok (parse shared_page_file) = true /\
  load shared_page_file = Ub "memset on a page the host protects".
Proof. by vm_compute. Qed.

End LoadedXbe.
