(* ===== verification/CpuSched.v ===== *)
(** The cooperative fiber scheduler ([GuestScheduler], src/cpu_sched.cpp).
    A machine-context switch is the boundary between a scheduler iteration and
    the guest body: [body] stands for whatever the fiber executes between
    being switched in and switching back. *)
From stdpp Require Import base numbers list gmap strings.
From Stdlib Require Import ZArith Lia.
From S2P Require Import Prelude.
Open Scope Z_scope.

Module CpuSched.

Inductive tstate := Ready | Running | Sleeping | BlockedJoin | Finished | BlockedWait.

#[export] Instance tstate_eq_dec : EqDecision tstate.
Proof. solve_decision. Defined.

Record gthread := GThread {
  t_name : string;
  t_handle : Z;
  t_state : tstate;
  t_started : bool;
  t_switches : Z;
  t_wake_tick : Z;
  t_join_target : Z;
  t_wait_token : Z;
  t_wait_timed_out : bool;
  t_exit_code : Z;
  t_stack_reserve : Z;
}.

(** A [GuestThread*] is the index of the thread in [threads_] (objects are
    heap-stable and the vector only grows). *)
Record sched := Sched {
  threads : list gthread;
  current : option nat;
  next_handle : Z;
  tick : Z;
  rr_cursor : nat;
  switches_total : Z;
  deadlocked : bool;
  failed : bool;
}.

Definition new_sched : sched := Sched [] None 1 0 0 0 false false.

(** ** Field updates *)

Definition set_state (st : tstate) (t : gthread) : gthread :=
  GThread (t_name t) (t_handle t) st (t_started t) (t_switches t) (t_wake_tick t)
    (t_join_target t) (t_wait_token t) (t_wait_timed_out t) (t_exit_code t) (t_stack_reserve t).
Definition set_wake (w : Z) (t : gthread) : gthread :=
  GThread (t_name t) (t_handle t) (t_state t) (t_started t) (t_switches t) w
    (t_join_target t) (t_wait_token t) (t_wait_timed_out t) (t_exit_code t) (t_stack_reserve t).
Definition set_timed_out (b : bool) (t : gthread) : gthread :=
  GThread (t_name t) (t_handle t) (t_state t) (t_started t) (t_switches t) (t_wake_tick t)
    (t_join_target t) (t_wait_token t) b (t_exit_code t) (t_stack_reserve t).
Definition set_token (k : Z) (t : gthread) : gthread :=
  GThread (t_name t) (t_handle t) (t_state t) (t_started t) (t_switches t) (t_wake_tick t)
    (t_join_target t) k (t_wait_timed_out t) (t_exit_code t) (t_stack_reserve t).
Definition set_join (h : Z) (t : gthread) : gthread :=
  GThread (t_name t) (t_handle t) (t_state t) (t_started t) (t_switches t) (t_wake_tick t)
    h (t_wait_token t) (t_wait_timed_out t) (t_exit_code t) (t_stack_reserve t).
Definition set_exit (c : Z) (t : gthread) : gthread :=
  GThread (t_name t) (t_handle t) (t_state t) (t_started t) (t_switches t) (t_wake_tick t)
    (t_join_target t) (t_wait_token t) (t_wait_timed_out t) c (t_stack_reserve t).
Definition set_started (t : gthread) : gthread :=
  GThread (t_name t) (t_handle t) (t_state t) true (t_switches t) (t_wake_tick t)
    (t_join_target t) (t_wait_token t) (t_wait_timed_out t) (t_exit_code t) (t_stack_reserve t).
Definition bump_switches (t : gthread) : gthread :=
  GThread (t_name t) (t_handle t) (t_state t) (t_started t) (u64 (t_switches t + 1)) (t_wake_tick t)
    (t_join_target t) (t_wait_token t) (t_wait_timed_out t) (t_exit_code t) (t_stack_reserve t).

Definition with_threads (s : sched) (ts : list gthread) : sched :=
  Sched ts (current s) (next_handle s) (tick s) (rr_cursor s) (switches_total s)
        (deadlocked s) (failed s).
Definition with_current (s : sched) (c : option nat) : sched :=
  Sched (threads s) c (next_handle s) (tick s) (rr_cursor s) (switches_total s)
        (deadlocked s) (failed s).
Definition with_tick (s : sched) (k : Z) : sched :=
  Sched (threads s) (current s) (next_handle s) k (rr_cursor s) (switches_total s)
        (deadlocked s) (failed s).
Definition with_cursor (s : sched) (c : nat) : sched :=
  Sched (threads s) (current s) (next_handle s) (tick s) c (switches_total s)
        (deadlocked s) (failed s).
Definition with_next (s : sched) (n : Z) : sched :=
  Sched (threads s) (current s) n (tick s) (rr_cursor s) (switches_total s)
        (deadlocked s) (failed s).
Definition with_switches (s : sched) (n : Z) : sched :=
  Sched (threads s) (current s) (next_handle s) (tick s) (rr_cursor s) n
        (deadlocked s) (failed s).
Definition with_deadlocked (s : sched) : sched :=
  Sched (threads s) (current s) (next_handle s) (tick s) (rr_cursor s) (switches_total s)
        true (failed s).
Definition with_failed (s : sched) : sched :=
  Sched (threads s) (current s) (next_handle s) (tick s) (rr_cursor s) (switches_total s)
        (deadlocked s) true.

(** [t->field = ...] through a pointer. *)
Definition upd (s : sched) (i : nat) (f : gthread -> gthread) : sched :=
  with_threads s (alter f i (threads s)).

(** ** Queries *)

(** [find]: the index is bounded by [next_handle_], not by the vector. *)
Definition find (s : sched) (h : Z) : option nat :=
  if (h =? 0) || (next_handle s <=? h) then None else Some (Z.to_nat (h - 1)).

Definition is_state (st : tstate) (t : gthread) : bool := bool_decide (t_state t = st).

Definition finished_count (s : sched) : Z :=
  zlen (filter (fun t => t_state t = Finished) (threads s)).

Definition current_handle (s : sched) : Z :=
  match current s with
  | Some i => default 0 (t_handle <$> (threads s !! i))
  | None => 0
  end.

(** ** Thread creation *)

Definition kStackSize : Z := 256 * 2 ^ 10.
Definition kGuardSize : Z := 4096.
Definition kMinUsable : Z := 16 * 2 ^ 10.

Definition new_thread (nm : string) (h reserve : Z) : gthread :=
  GThread nm h Ready false 0 0 0 0 false 0 reserve.

(** [map_ok] is the success of the stack mmap and of the guard mprotect. *)
Definition spawn_reserved (map_ok : bool) (s : sched) (nm : string) (reserve : Z) : Z * sched :=
  if kStackSize - kMinUsable <? reserve then (0, s)
  else
    let t := new_thread nm (next_handle s) reserve in
    let s := with_next s (u64 (next_handle s + 1)) in
    if negb map_ok then (0, s)
    else (t_handle t, with_threads s (threads s ++ [t])).

Definition spawn (map_ok : bool) (s : sched) (nm : string) : Z * sched :=
  spawn_reserved map_ok s nm 0.

(** Offset of the reserved region from the start of the stack mapping. *)
Definition stack_top_reserve (s : sched) (h : Z) : option Z :=
  match find s h with
  | None => None
  | Some i =>
      match threads s !! i with
      | None => None
      | Some t => if t_stack_reserve t =? 0 then None
                  else Some (kGuardSize + kStackSize - t_stack_reserve t)
      end
  end.

(** ** Switch-out operations: the state a thread leaves behind *)

Definition thread_yield (s : sched) (i : nat) : sched := upd s i (set_state Ready).

Definition thread_sleep (s : sched) (i : nat) (ticks : Z) : sched :=
  if ticks =? 0 then thread_yield s i
  else upd s i (fun t => set_wake (u64 (tick s + ticks)) (set_state Sleeping t)).

Definition kNoTimeout : Z := 0.

Definition thread_block (s : sched) (i : nat) (token timeout : Z) : sched :=
  upd s i (fun t =>
    set_wake (if timeout =? kNoTimeout then UINT64_MAX else u64 (tick s + timeout))
      (set_timed_out false (set_token token (set_state BlockedWait t)))).

(** State part of [thread_finish]; the finish hooks run right after it with
    the thread still current. *)
Definition thread_finish (s : sched) (i : nat) (code : Z) : sched :=
  upd s i (fun t => set_state Finished (set_exit code t)).

(** [block_current] up to its context switch: [None] when called from the
    host (it then returns false at once). *)
Definition block_current (s : sched) (token timeout : Z) : option sched :=
  match current s with
  | None => None
  | Some i => Some (thread_block s i token timeout)
  end.

(** Its result once the thread runs again. *)
Definition block_result (s : sched) (i : nat) : bool :=
  negb (default false (t_wait_timed_out <$> (threads s !! i))).

Inductive join_outcome :=
  | JoinFalse                 (* returns false without blocking *)
  | JoinTrue                  (* target already finished *)
  | JoinBlock (s : sched).    (* switches away in this state, later returns true *)

Definition join (s : sched) (target : Z) : join_outcome :=
  match current s with
  | None => JoinFalse
  | Some i =>
      if target =? current_handle s then JoinFalse
      else match find s target with
           | None => JoinFalse
           | Some j =>
               match threads s !! j with
               | Some t =>
                   if is_state Finished t then JoinTrue
                   else JoinBlock (upd s i (fun t => set_state BlockedJoin (set_join target t)))
               | None => JoinFalse
               end
           end
  end.

(** ** signal *)

Definition waits_on (token : Z) (t : gthread) : bool :=
  is_state BlockedWait t && (t_wait_token t =? token).

Definition wake (t : gthread) : gthread := set_timed_out false (set_state Ready t).

Fixpoint signal_loop (token : Z) (all : bool) (ts : list gthread) : Z * list gthread :=
  match ts with
  | [] => (0, [])
  | t :: ts' =>
      if waits_on token t then
        if all then let (n, r) := signal_loop token all ts' in (n + 1, wake t :: r)
        else (1, wake t :: ts')
      else let (n, r) := signal_loop token all ts' in (n, t :: r)
  end.

Definition signal (s : sched) (token : Z) (all : bool) : Z * sched :=
  let (n, ts) := signal_loop token all (threads s) in (n, with_threads s ts).

(** ** pick_next *)

(** First loop: joins whose target finished. The loop reads the vector it
    updates, but only [Finished] states, which it never writes. *)
Definition target_finished (s : sched) (h : Z) : bool :=
  match find s h with
  | None => true
  | Some j => match threads s !! j with Some t => is_state Finished t | None => false end
  end.

Definition unblock_join (s : sched) (t : gthread) : gthread :=
  if is_state BlockedJoin t && target_finished s (t_join_target t)
  then set_state Ready t else t.

Definition wake_sleeper (now : Z) (t : gthread) : gthread :=
  if is_state Sleeping t && (t_wake_tick t <=? now) then set_state Ready t else t.

Definition expire_wait (now : Z) (t : gthread) : gthread :=
  if is_state BlockedWait t && (t_wake_tick t <=? now)
  then set_timed_out true (set_state Ready t) else t.

Definition wake_phase (s : sched) : sched :=
  with_threads s
    (expire_wait (tick s) <$> (wake_sleeper (tick s) <$> (unblock_join s <$> threads s))).

(** The round-robin scan: [i] counts iterations. *)
Fixpoint rr_scan (ts : list gthread) (cursor : nat) (i fuel : nat) : option nat :=
  match fuel with
  | 0%nat => None
  | S fuel' =>
      let idx := ((cursor + i) `mod` length ts)%nat in
      match ts !! idx with
      | Some t => if is_state Ready t then Some idx else rr_scan ts cursor (S i) fuel'
      | None => None
      end
  end.

Definition pick_next (s : sched) : option nat * sched :=
  let s := wake_phase s in
  match rr_scan (threads s) (rr_cursor s) 0 (length (threads s)) with
  | Some idx => (Some idx, with_cursor s ((idx + 1) `mod` length (threads s))%nat)
  | None => (None, s)
  end.

(** ** run_until_complete *)

Definition is_timed (t : gthread) : bool :=
  is_state Sleeping t || is_state BlockedWait t && negb (t_wake_tick t =? UINT64_MAX).
Definition is_blocked (t : gthread) : bool :=
  is_state BlockedJoin t || is_state BlockedWait t && (t_wake_tick t =? UINT64_MAX).

Definition all_finished (s : sched) : bool := forallb (is_state Finished) (threads s).

(** Entering a thread: the counters, and on the first entry the trampoline. *)
Definition enter (s : sched) (i : nat) : sched :=
  let s := with_switches (upd (with_current s (Some i)) i bump_switches)
             (u64 (switches_total s + 1)) in
  match threads s !! i with
  | Some t => if t_started t then s
              else upd s i (fun t => set_state Running (set_started t))
  | None => s
  end.

Inductive verdict := Returned (b : bool) | Continue.

Section run.
(** [W] is the rest of the world; [body i s w] runs fiber [i] until it swaps
    back, or gives [None] when swapcontext itself fails. *)
Context {W : Type} (body : nat -> sched -> W -> option (sched * W)).

(** One iteration of the [for (;;)]. *)
Definition run_step (s : sched) (w : W) : verdict * sched * W :=
  if all_finished s then (Returned true, s, w)
  else
    match pick_next s with
    | (Some i, s1) =>
        match body i (enter s1 i) w with
        | None => (Returned false, with_failed (enter s1 i), w)
        | Some (s2, w2) => (Continue, with_current s2 None, w2)
        end
    | (None, s1) =>
        if existsb is_timed (threads s1) then (Continue, with_tick s1 (u64 (tick s1 + 1)), w)
        else if existsb is_blocked (threads s1) then (Returned false, with_deadlocked s1, w)
        else (Returned true, s1, w)
    end.

Fixpoint run_until_complete (fuel : nat) (s : sched) (w : W) : option (bool * sched * W) :=
  match fuel with
  | 0%nat => None
  | S fuel' =>
      match run_step s w with
      | (Returned b, s', w') => Some (b, s', w')
      | (Continue, s', w') => run_until_complete fuel' s' w'
      end
  end.

(** What every dispatch keeps, the run keeps. *)
Lemma run_keeps (I : W -> Prop) fuel s w b s' w' :
  (forall i s w s' w', I w -> body i s w = Some (s', w') -> I w') ->
  I w -> run_until_complete fuel s w = Some (b, s', w') -> I w'.
Proof.
  intros Hb. revert s w; induction fuel as [|fuel IH]; intros s w H; cbn [run_until_complete]; [done|].
  assert (Hs : forall v s1 w1, run_step s w = (v, s1, w1) -> I w1).
  { intros v s1 w1. unfold run_step. destruct (all_finished s); [by intros [= <- <- <-]|].
    destruct (pick_next s) as [[i|] s2].
    - destruct (body i _ w) as [[s3 w3]|] eqn:E; intros [= <- <- <-]; [by eapply Hb|done].
    - destruct (existsb _ _); [by intros [= <- <- <-]|]. by destruct (existsb _ _); intros [= <- <- <-]. }
  destruct (run_step s w) as [[v s1] w1] eqn:E. specialize (Hs _ _ _ eq_refl).
  destruct v; [by intros [= <- <- <-]|]. by apply IH.
Qed.
End run.

(** ** Handles *)

(** Handles are 1-based indices of [threads_]. *)
Record handles_ok (s : sched) : Prop := {
  ho_index : forall i t, threads s !! i = Some t -> t_handle t = Z.of_nat i + 1;
  ho_next : next_handle s = zlen (threads s) + 1;
}.

(** A change of the scheduler that keeps every thread's handle in place. *)
Definition same_handles (s s' : sched) : Prop :=
  t_handle <$> threads s' = t_handle <$> threads s /\ next_handle s' = next_handle s.

Lemma handles_ok_same s s' : same_handles s s' -> handles_ok s -> handles_ok s'.
Proof.
  intros [Ht Hn] [H1 H2].
  assert (Hl : length (threads s') = length (threads s))
    by (by rewrite <- (length_fmap t_handle), Ht, length_fmap).
  split; [|by rewrite Hn, Hl].
  intros i t Hi. apply (f_equal (fmap t_handle)) in Hi.
  rewrite <- list_lookup_fmap, Ht, list_lookup_fmap in Hi.
  destruct (threads s !! i) as [t0|] eqn:E; [|done]. injection Hi as <-. by apply H1.
Qed.

Lemma fmap_handle_upd (ts : list gthread) i f :
  (forall t, t_handle (f t) = t_handle t) ->
  t_handle <$> alter f i ts = t_handle <$> ts.
Proof.
  intros Hf. apply list_eq. intros k. rewrite !list_lookup_fmap, list_lookup_alter.
  case_decide; [|done]. subst. destruct (ts !! k); simpl; [by rewrite Hf|done].
Qed.

Lemma fmap_handle_map (ts : list gthread) (f : gthread -> gthread) :
  (forall t, t_handle (f t) = t_handle t) -> t_handle <$> (f <$> ts) = t_handle <$> ts.
Proof. intros Hf. rewrite <- list_fmap_compose. apply list_fmap_ext. intros. apply Hf. Qed.

Lemma same_handles_refl s : same_handles s s.
Proof. done. Qed.

Lemma same_handles_trans s1 s2 s3 :
  same_handles s1 s2 -> same_handles s2 s3 -> same_handles s1 s3.
Proof. intros [H1 H2] [H3 H4]. split; congruence. Qed.

Lemma same_handles_upd s i f :
  (forall t, t_handle (f t) = t_handle t) -> same_handles s (upd s i f).
Proof. intros Hf. split; [|done]. simpl. by apply fmap_handle_upd. Qed.

Lemma signal_loop_handles token all ts :
  t_handle <$> snd (signal_loop token all ts) = t_handle <$> ts.
Proof.
  induction ts as [|t ts IH]; simpl; [done|].
  destruct (signal_loop token all ts) as [n r]. simpl in IH.
  destruct (waits_on token t), all; cbn [snd]; rewrite !fmap_cons, ?IH; done.
Qed.

Lemma same_handles_signal s token all : same_handles s (snd (signal s token all)).
Proof.
  unfold signal. destruct (signal_loop token all (threads s)) as [n ts] eqn:E.
  split; [|done]. simpl. pose proof (signal_loop_handles token all (threads s)) as H.
  by rewrite E in H.
Qed.

Lemma wake1_handle s k t :
  t_handle (expire_wait k (wake_sleeper k (unblock_join s t))) = t_handle t.
Proof. unfold expire_wait, wake_sleeper, unblock_join. repeat case_if; done. Qed.

Lemma same_handles_wake_phase s : same_handles s (wake_phase s).
Proof.
  split; [|done]. simpl. rewrite <- !list_fmap_compose. apply list_fmap_ext.
  intros. apply wake1_handle.
Qed.

Lemma same_handles_pick s : same_handles s (snd (pick_next s)).
Proof.
  unfold pick_next. destruct (rr_scan _ _ _ _); simpl; apply same_handles_wake_phase.
Qed.

Lemma same_handles_enter s i : same_handles s (enter s i).
Proof.
  unfold enter. set (s1 := with_switches _ _).
  assert (H1 : same_handles s s1) by (split; [by apply fmap_handle_upd|done]).
  destruct (threads s1 !! i) as [t|]; [|done]. destruct (t_started t); [done|].
  eapply same_handles_trans; [done|]. by apply same_handles_upd.
Qed.

(** Every scheduler operation, as one step. [SSpawn] is a spawn whose stack
    mapping succeeds, [SReject] one refused for its size. *)
Inductive sched_step : sched -> sched -> Prop :=
  | SSpawn s nm r : r <= kStackSize - kMinUsable -> next_handle s + 1 < 2 ^ 64 ->
      sched_step s (snd (spawn_reserved true s nm r))
  | SReject s nm r : kStackSize - kMinUsable < r ->
      sched_step s (snd (spawn_reserved true s nm r))
  | SYield s i : sched_step s (thread_yield s i)
  | SSleep s i k : sched_step s (thread_sleep s i k)
  | SBlock s i tok k : sched_step s (thread_block s i tok k)
  | SFinish s i c : sched_step s (thread_finish s i c)
  | SJoin s h s' : join s h = JoinBlock s' -> sched_step s s'
  | SSignal s tok all : sched_step s (snd (signal s tok all))
  | SPick s : sched_step s (snd (pick_next s))
  | SEnter s i : sched_step s (enter s i)
  | SLeave s : sched_step s (with_current s None)
  | STick s : sched_step s (with_tick s (u64 (tick s + 1))).

Inductive sched_reachable : sched -> Prop :=
  | sreach_new : sched_reachable new_sched
  | sreach_step s s' : sched_reachable s -> sched_step s s' -> sched_reachable s'.

Lemma spawn_ok_handles s nm r :
  handles_ok s -> r <= kStackSize - kMinUsable -> next_handle s + 1 < 2 ^ 64 ->
  handles_ok (snd (spawn_reserved true s nm r)).
Proof.
  intros [H1 H2] Hr Hn. unfold spawn_reserved.
  replace (kStackSize - kMinUsable <? r) with false by (symmetry; apply Z.ltb_ge; lia).
  simpl. split; simpl.
  - intros i t. rewrite lookup_app. destruct (threads s !! i) eqn:E.
    + intros [= <-]. by apply H1.
    + intros Hi. apply list_lookup_singleton_Some in Hi as [Hi <-]. simpl.
      apply lookup_ge_None in E. lia.
  - rewrite length_app. simpl. rewrite u64_small by lia. lia.
Qed.

Lemma sched_step_handles s s' : handles_ok s -> sched_step s s' -> handles_ok s'.
Proof.
  intros Hok Hs. destruct Hs.
  - by apply spawn_ok_handles.
  - unfold spawn_reserved. rewrite (proj2 (Z.ltb_lt _ _)) by lia. done.
  - eapply handles_ok_same; [|done]. by apply same_handles_upd.
  - eapply handles_ok_same; [|done]. unfold thread_sleep. case_if; by apply same_handles_upd.
  - eapply handles_ok_same; [|done]. by apply same_handles_upd.
  - eapply handles_ok_same; [|done]. by apply same_handles_upd.
  - eapply handles_ok_same; [|done]. unfold join in H.
    repeat (case_match; try done). injection H as <-. by apply same_handles_upd.
  - eapply handles_ok_same; [|done]. apply same_handles_signal.
  - eapply handles_ok_same; [|done]. apply same_handles_pick.
  - eapply handles_ok_same; [|done]. apply same_handles_enter.
  - eapply handles_ok_same; [|done]. done.
  - eapply handles_ok_same; [|done]. done.
Qed.

(** Handles are given out in increasing order. *)
Lemma sched_step_next s s' : sched_step s s' -> handles_ok s -> next_handle s <= next_handle s'.
Proof.
  intros Hs Hok. assert (Hsame : forall s', same_handles s s' -> next_handle s <= next_handle s')
    by (intros s2 [_ ->]; done).
  destruct Hs; try (apply Hsame; done || by apply same_handles_upd).
  - unfold spawn_reserved. rewrite (proj2 (Z.ltb_ge _ _)) by lia. cbn.
    destruct Hok as [_ H2]. rewrite u64_small by lia. lia.
  - unfold spawn_reserved. rewrite (proj2 (Z.ltb_lt _ _)) by lia. done.
  - apply Hsame. unfold thread_sleep. case_if; by apply same_handles_upd.
  - apply Hsame. unfold join in H. repeat (case_match; try done). injection H as <-. by apply same_handles_upd.
  - apply Hsame, same_handles_signal.
  - apply Hsame, same_handles_pick.
  - apply Hsame, same_handles_enter.
Qed.

Lemma reachable_handles s : sched_reachable s -> handles_ok s.
Proof.
  induction 1; [by split|]. by eapply sched_step_handles.
Qed.

Lemma find_spec s h i :
  handles_ok s -> 0 <= h ->
  find s h = Some i <-> exists t, threads s !! i = Some t /\ t_handle t = h.
Proof.
  intros [H1 H2] Hh. unfold find. split.
  - case_if; [done|]. intros [= <-]. bool_facts.
    destruct (lookup_lt_is_Some_2 (threads s) (Z.to_nat (h - 1))) as [t Ht]; [lia|].
    exists t. split; [done|]. rewrite (H1 _ _ Ht). lia.
  - intros (t & Ht & <-). pose proof (H1 _ _ Ht) as ->.
    pose proof (lookup_lt_Some _ _ _ Ht).
    case_if; [bool_facts; destruct Heqb; bool_facts; lia|]. f_equal. lia.
Qed.

(** In every state the scheduler reaches while stack mappings succeed,
    [find] is exact: it returns a thread if and only if that thread carries
    the handle, and never an index outside the thread vector. *)
Theorem find_is_exact s h i :
  sched_reachable s -> 0 <= h ->
  find s h = Some i <-> exists t, threads s !! i = Some t /\ t_handle t = h.
Proof. intros Hr. by apply find_spec, reachable_handles. Qed.

(** A failed stack mapping breaks that: [spawn_reserved] has already taken
    the handle, so the next lookup of it passes the check of [find] and
    indexes one past the end of the thread vector. *)
Theorem failed_spawn_leaves_dangling_handle s nm r :
  handles_ok s -> 0 <= r <= kStackSize - kMinUsable -> next_handle s + 1 < 2 ^ 64 ->
  let (h, s') := spawn_reserved false s nm r in
  h = 0 /\ exists i, find s' (next_handle s) = Some i /\ threads s' !! i = None.
Proof.
  intros [H1 H2] Hr Hn. unfold spawn_reserved.
  replace (kStackSize - kMinUsable <? r) with false by (symmetry; apply Z.ltb_ge; lia).
  simpl. split; [done|]. exists (length (threads s)). split.
  - unfold find. simpl. rewrite u64_small by lia. case_if.
    + bool_facts. destruct Heqb; bool_facts; lia.
    + f_equal. lia.
  - by apply lookup_ge_None.
Qed.

(** ** Round robin *)

Definition ready_at (ts : list gthread) (i : nat) : Prop :=
  exists t, ts !! i = Some t /\ t_state t = Ready.

Lemma is_state_true st t : is_state st t = true <-> t_state t = st.
Proof. unfold is_state. apply bool_decide_eq_true. Qed.

Lemma is_state_false st t : is_state st t = false <-> t_state t <> st.
Proof. unfold is_state. apply bool_decide_eq_false. Qed.

Lemma rr_scan_spec ts c i fuel :
  (0 < length ts)%nat ->
  match rr_scan ts c i fuel with
  | Some idx => exists k, (i <= k < i + fuel)%nat /\ idx = ((c + k) `mod` length ts)%nat /\
      ready_at ts idx /\
      forall j, (i <= j < k)%nat -> ~ ready_at ts ((c + j) `mod` length ts)%nat
  | None => forall k, (i <= k < i + fuel)%nat -> ~ ready_at ts ((c + k) `mod` length ts)%nat
  end.
Proof.
  intros Hn. revert i. induction fuel as [|fuel IH]; intros i; simpl; [intros; lia|].
  destruct (ts !! ((c + i) `mod` length ts)%nat) as [t|] eqn:Ht.
  - destruct (is_state Ready t) eqn:Hs.
    + apply is_state_true in Hs. exists i. split_and!; [lia|lia|done|by exists t|].
      intros; lia.
    + apply is_state_false in Hs.
      assert (Hi : ~ ready_at ts ((c + i) `mod` length ts)%nat).
      { intros (t' & Ht' & ?). congruence. }
      specialize (IH (S i)). destruct (rr_scan ts c (S i) fuel) as [idx|].
      * destruct IH as (k & Hk & -> & Hr & Hmin). exists k.
        split_and!; [lia|lia|done|done|]. intros j Hj.
        destruct (decide (j = i)) as [->|]; [done|]. apply Hmin. lia.
      * intros k Hk. destruct (decide (k = i)) as [->|]; [done|]. apply IH. lia.
  - apply lookup_ge_None in Ht. pose proof (Nat.mod_upper_bound (c + i) (length ts)). lia.
Qed.

(** Steps from [c] forward to [j] around a ring of [n]. *)
Definition ring_dist (n c j : nat) : nat := ((j + (n - c)) `mod` n)%nat.

Lemma mod_wrap n a : (0 < n -> a < 2 * n -> a `mod` n = if decide (a < n) then a else a - n)%nat.
Proof.
  intros Hn Ha. case_decide.
  - by apply Nat.mod_small.
  - replace a with (a - n + 1 * n)%nat at 1 by lia.
    rewrite Nat.Div0.mod_add. apply Nat.mod_small. lia.
Qed.

Lemma ring_dist_hits n c j :
  (c < n -> j < n -> ring_dist n c j < n /\ (c + ring_dist n c j) `mod` n = j)%nat.
Proof.
  intros Hc Hj. unfold ring_dist. pose proof (Nat.mod_upper_bound (j + (n - c)) n).
  split; [lia|]. rewrite (mod_wrap n (j + (n - c))) by lia.
  case_decide; rewrite mod_wrap by lia; case_decide; lia.
Qed.

(** The way from [i] forward to [j]. *)
Lemma ring_dist_eq n i j :
  (i < n -> j < n -> ring_dist n i j = if decide (i <= j) then j - i else j + n - i)%nat.
Proof. intros Hi Hj. unfold ring_dist. rewrite mod_wrap by lia. repeat case_decide; lia. Qed.

(** More threads keep the order in which the ring reaches [j]. *)
Lemma ring_dist_grows n n' c i j :
  (c < n -> i < n -> j < n -> n <= n' -> ring_dist n c j < ring_dist n i j ->
   ring_dist n' c j < ring_dist n' i j)%nat.
Proof. intros Hc Hi Hj Hn. rewrite !ring_dist_eq by lia. repeat case_decide; lia. Qed.

(** A pick gives a Ready thread, and none only when no thread is Ready. *)
Lemma pick_next_ready s :
  (rr_cursor s < length (threads s))%nat ->
  match pick_next s with
  | (Some i, s') => ready_at (threads s') i /\ (i < length (threads s))%nat /\
      threads s' = threads (wake_phase s) /\ rr_cursor s' = ((i + 1) `mod` length (threads s))%nat
  | (None, _) => forall i, ~ ready_at (threads (wake_phase s)) i
  end.
Proof.
  intros Hc. unfold pick_next. set (n := length (threads s)) in *.
  assert (Hl : length (threads (wake_phase s)) = n) by (simpl; by rewrite !length_fmap).
  pose proof (rr_scan_spec (threads (wake_phase s)) (rr_cursor s) 0 n) as Hs.
  rewrite Hl in *. change (rr_cursor (wake_phase s)) with (rr_cursor s).
  specialize (Hs ltac:(lia)). destruct (rr_scan _ _ _ n) as [i|].
  - destruct Hs as (k & Hk & -> & Hr & _). split_and!; [done|apply Nat.mod_upper_bound; lia|done..].
  - intros i Hi. assert (Hin : (i < n)%nat) by (destruct Hi as (t & Ht%lookup_lt_Some & _); lia).
    destruct (ring_dist_hits n (rr_cursor s) i Hc Hin) as [Hd Hhit].
    apply (Hs (ring_dist n (rr_cursor s) i)); [lia|]. by rewrite Hhit.
Qed.

(** A pick of another thread than a Ready [j] takes one that the ring reaches
    before [j], and leaves the cursor behind it. *)
Lemma pick_next_closer s i j s' :
  let n := length (threads s) in
  (rr_cursor s < n)%nat -> ready_at (threads (wake_phase s)) j -> pick_next s = (Some i, s') -> i <> j ->
  (ring_dist n i j <= ring_dist n (rr_cursor s) j)%nat /\ (ring_dist n (rr_cursor s') j < ring_dist n i j)%nat.
Proof.
  intros n Hc Hj. unfold pick_next.
  assert (Hl : length (threads (wake_phase s)) = n) by (simpl; by rewrite !length_fmap).
  assert (Hjn : (j < n)%nat) by (destruct Hj as (t & Ht%lookup_lt_Some & _); lia).
  pose proof (rr_scan_spec (threads (wake_phase s)) (rr_cursor s) 0 n) as Hs.
  rewrite Hl in *. change (rr_cursor (wake_phase s)) with (rr_cursor s).
  destruct (ring_dist_hits n (rr_cursor s) j Hc Hjn) as [Hd Hhit].
  specialize (Hs ltac:(lia)). destruct (rr_scan _ _ _ n) as [idx|]; [|done].
  destruct Hs as (k & Hk & Hidx & Hr & Hmin). intros [= <- <-] Hne. cbn [with_cursor rr_cursor].
  assert (Hle : (k < ring_dist n (rr_cursor s) j)%nat).
  { destruct (decide (k < ring_dist n (rr_cursor s) j)%nat); [done|exfalso].
    destruct (decide (k = ring_dist n (rr_cursor s) j)) as [->|]; [congruence|].
    apply (Hmin (ring_dist n (rr_cursor s) j)); [lia|]. by rewrite Hhit. }
  rewrite (mod_wrap n (rr_cursor s + k)) in Hidx by lia.
  assert (Hin : (idx < n)%nat) by (revert Hidx; case_decide; lia).
  rewrite (mod_wrap n (idx + 1)) by lia.
  assert (Hc' : ((if decide (idx + 1 < n) then idx + 1 else idx + 1 - n) < n)%nat) by (destruct (decide (idx + 1 < n)%nat); lia).
  rewrite !ring_dist_eq in * by lia. revert Hidx Hle. repeat case_decide; lia.
Qed.

(** A sequence of picks during which thread [j] is Ready at every pick. Between
    two picks the dispatched thread may do anything to the scheduler that leaves
    the cursor and does not remove threads. *)
Inductive picks_while (j : nat) : sched -> list nat -> Prop :=
  | picks_nil s : picks_while j s []
  | picks_cons s i s1 s2 l :
      ready_at (threads (wake_phase s)) j -> pick_next s = (Some i, s1) ->
      rr_cursor s2 = rr_cursor s1 -> (length (threads s1) <= length (threads s2))%nat ->
      picks_while j s2 l -> picks_while j s (i :: l).

(** The threads picked so far are behind the cursor, as seen from [j]. *)
Lemma picks_distinct j s l (seen : list nat) :
  picks_while j s l -> j ∉ l -> (rr_cursor s < length (threads s))%nat ->
  (forall i, i ∈ seen -> (i < length (threads s))%nat /\
     (ring_dist (length (threads s)) (rr_cursor s) j < ring_dist (length (threads s)) i j)%nat) ->
  NoDup l /\ forall i, i ∈ l -> i ∉ seen.
Proof.
  intros Hp. revert seen. induction Hp as [s|s i s1 s2 l Hj Hpick Hc2 Hn2 Hp IH]; intros seen Hnot Hc Hseen.
  { split; [constructor|]. intros i Hi. by apply elem_of_nil in Hi. }
  apply not_elem_of_cons in Hnot as [Hne Hnot].
  destruct (pick_next_closer s i j s1 Hc Hj Hpick ltac:(congruence)) as [D1 D2].
  pose proof (pick_next_ready s Hc) as Hr. rewrite Hpick in Hr. destruct Hr as (_ & Hin & Ht & Hcur).
  assert (Hl1 : length (threads s1) = length (threads s)) by (rewrite Ht; simpl; by rewrite !length_fmap).
  assert (Hjn : (j < length (threads s))%nat).
  { destruct Hj as (t & Hlk%lookup_lt_Some & _). rewrite <- Ht in Hlk. lia. }
  assert (Hc1 : (rr_cursor s1 < length (threads s))%nat) by (rewrite Hcur; apply Nat.mod_upper_bound; lia).
  destruct (IH (i :: seen)) as [Hd Hs]; [done|lia| |].
  - intros i' Hi'. assert (Hb : (i' < length (threads s))%nat /\
      (ring_dist (length (threads s)) (rr_cursor s1) j < ring_dist (length (threads s)) i' j)%nat).
    { apply elem_of_cons in Hi' as [->|Hi']; [done|]. destruct (Hseen i' Hi'). lia. }
    destruct Hb. split; [lia|]. rewrite Hc2. apply (ring_dist_grows (length (threads s))); (done || lia).
  - split.
    + constructor; [|done]. intros Hi. apply (Hs i Hi). by apply list_elem_of_here.
    + intros i' [->|Hi']%elem_of_cons; [|intros Hi''; apply (Hs i' Hi'); by apply elem_of_cons; right].
      intros Hi''. destruct (Hseen i Hi''). lia.
Qed.

(** C12. Round-robin fairness. A pick returns a thread that is Ready, and none
    only when no thread is. While a thread stays Ready, no other thread is
    picked twice before it is picked itself, whatever the dispatched threads do
    to the scheduler between the picks (spawning more threads included). *)
Theorem round_robin_is_fair s :
  (rr_cursor s < length (threads s))%nat ->
  match pick_next s with
  | (Some i, s') => ready_at (threads s') i
  | (None, _) => forall i, ~ ready_at (threads (wake_phase s)) i
  end /\
  (forall j l, picks_while j s l -> j ∉ l -> NoDup l).
Proof.
  intros Hc. split.
  - pose proof (pick_next_ready s Hc) as H. destruct (pick_next s) as [[i|] s']; [apply H|done].
  - intros j l Hp Hj. apply (picks_distinct j s l []); try done. intros i Hi. by apply elem_of_nil in Hi.
Qed.

(** ** Signals *)

Definition waiter_count (token : Z) (ts : list gthread) : Z :=
  zlen (filter (fun t => waits_on token t = true) ts).

Lemma signal_loop_count token all ts :
  0 <= fst (signal_loop token all ts) /\
  (all = true -> fst (signal_loop token all ts) = waiter_count token ts).
Proof.
  unfold waiter_count. induction ts as [|t ts IH]; simpl; [done|].
  destruct (signal_loop token all ts) as [n r]. simpl in IH. destruct IH as [IH1 IH2].
  rewrite filter_cons. destruct (waits_on token t) eqn:Hw.
  - rewrite decide_True by done. destruct all; simpl; [|split; [lia|done]].
    split; [lia|]. intros _. specialize (IH2 eq_refl). lia.
  - rewrite decide_False by congruence. done.
Qed.

Lemma signal_loop_spec token all ts n ts' :
  signal_loop token all ts = (n, ts') ->
  (forall i t, ts !! i = Some t -> waits_on token t = false -> ts' !! i = Some t) /\
  (n = 0 <-> forall i t, ts !! i = Some t -> waits_on token t = false) /\
  (all = true -> forall i t, ts !! i = Some t -> waits_on token t = true ->
     ts' !! i = Some (wake t)) /\
  (all = false -> n <> 0 -> n = 1 /\ exists i t,
     ts !! i = Some t /\ waits_on token t = true /\
     (forall j t', (j < i)%nat -> ts !! j = Some t' -> waits_on token t' = false) /\
     ts' = <[i := wake t]> ts).
Proof.
  revert n ts'. induction ts as [|t ts IH]; intros n ts' E; simpl in E.
  - injection E as <- <-. split_and!; try done. 
  - destruct (signal_loop token all ts) as [m r] eqn:El.
    destruct (IH m r eq_refl) as (I1 & I2 & I3 & I4).
    pose proof (proj1 (signal_loop_count token all ts)) as Hm. rewrite El in Hm. simpl in Hm.
    destruct (waits_on token t) eqn:Hw.
    + destruct all; injection E as <- <-.
      * split_and!.
        -- intros [|i] t0 Hi Hf; simpl in *; [congruence|by apply I1].
        -- split; [lia|]. intros H. specialize (H 0%nat t eq_refl). congruence.
        -- intros _ [|i] t0 Hi Hf; simpl in *; [congruence|by apply I3].
        -- done.
      * split_and!.
        -- intros [|i] t0 Hi Hf; simpl in *; congruence.
        -- split; [lia|]. intros H. specialize (H 0%nat t eq_refl). congruence.
        -- done.
        -- intros _ _. split; [done|]. exists 0%nat, t. split_and!; try done. intros; lia.
    + injection E as <- <-. split_and!.
      * intros [|i] t0 Hi Hf; simpl in *; [congruence|by apply I1].
      * rewrite I2. split.
        -- intros H [|i] t0 Hi; simpl in *; [congruence|by eapply H].
        -- intros H i t0 Hi. by apply (H (S i)).
      * intros Ha [|i] t0 Hi Hf; simpl in *; [congruence|by apply I3].
      * intros Ha Hn. destruct (I4 Ha Hn) as (-> & i & t0 & Hi & Hw0 & Hb & ->).
        split; [done|]. exists (S i), t0. split_and!; try done.
        intros [|j] t' Hj Ht'; simpl in *; [congruence|]. eapply Hb; [|done]. lia.
Qed.

Lemma signal_loop_length token all ts : length (snd (signal_loop token all ts)) = length ts.
Proof.
  induction ts as [|t ts IH]; cbn [signal_loop]; [done|]. destruct (signal_loop token all ts) as [n r]. cbn [snd] in IH.
  destruct (waits_on token t), all; cbn; by rewrite ?IH.
Qed.


(** ** Deadlock and virtual time *)

Definition wake1 (s : sched) (t : gthread) : gthread :=
  expire_wait (tick s) (wake_sleeper (tick s) (unblock_join s t)).

Lemma threads_wake_phase s : threads (wake_phase s) = wake1 s <$> threads s.
Proof. simpl. by rewrite <- !list_fmap_compose. Qed.

Lemma wake1_by_state s t :
  wake1 s t =
  match t_state t with
  | BlockedJoin => if target_finished s (t_join_target t) then set_state Ready t else t
  | Sleeping => if t_wake_tick t <=? tick s then set_state Ready t else t
  | BlockedWait => if t_wake_tick t <=? tick s
                   then set_timed_out true (set_state Ready t) else t
  | _ => t
  end.
Proof.
  unfold wake1.
  assert (Hu : unblock_join s t =
    if is_state BlockedJoin t && target_finished s (t_join_target t) then set_state Ready t else t)
    by done.
  destruct (t_state t) eqn:E; unfold is_state in Hu; rewrite E in Hu; simpl in Hu;
    try destruct (target_finished s (t_join_target t)); rewrite Hu;
    unfold wake_sleeper, expire_wait, is_state; simpl; rewrite ?E; simpl; rewrite ?E; simpl; try done.
  all: destruct (t_wake_tick t <=? tick s); simpl; [done|]; by rewrite ?E.
Qed.

Lemma wake1_cases s t : wake1 s t = t \/ t_state (wake1 s t) = Ready.
Proof. rewrite wake1_by_state. destruct (t_state t); auto; case_if; auto. Qed.

(** A thread no scheduler pass can release. *)
Definition stuck (s : sched) (t : gthread) : Prop :=
  t_state t = Finished \/
  t_state t = BlockedJoin /\ target_finished s (t_join_target t) = false \/
  t_state t = BlockedWait /\ t_wake_tick t = UINT64_MAX.

Lemma wake1_stuck s t : tick s < UINT64_MAX -> stuck s t -> wake1 s t = t.
Proof.
  intros Ht Hs. rewrite wake1_by_state.
  destruct Hs as [E|[[E Hj]|[E Hw]]]; rewrite E; [done|by rewrite Hj|].
  rewrite Hw. by rewrite (proj2 (Z.leb_gt _ _)) by done.
Qed.

Lemma wake1_join_released s t :
  t_state t = BlockedJoin -> target_finished s (t_join_target t) = true ->
  t_state (wake1 s t) = Ready.
Proof. intros E Hj. by rewrite wake1_by_state, E, Hj. Qed.

Lemma pick_none_iff s :
  fst (pick_next s) = None <-> forall i, ~ ready_at (threads (wake_phase s)) i.
Proof.
  set (ts := threads (wake_phase s)). unfold pick_next. fold ts.
  destruct (decide (length ts = 0%nat)) as [Hz|Hnz].
  { rewrite Hz. simpl. split; [|done]. intros _ i (t & Ht & _).
    apply lookup_lt_Some in Ht. lia. }
  pose proof (rr_scan_spec ts (rr_cursor (wake_phase s)) 0 (length ts) ltac:(lia)) as Hs.
  destruct (rr_scan _ _ _ _) as [idx|]; simpl.
  - destruct Hs as (k & _ & _ & Hr & _). split; [done|]. intros H. by apply H in Hr.
  - split; [|done]. intros _ i Hi.
    assert (Hin : (i < length ts)%nat)
      by (destruct Hi as (t & Ht & _); by apply lookup_lt_Some in Ht).
    set (c := rr_cursor (wake_phase s)) in *.
    destruct (ring_dist_hits (length ts) (c `mod` length ts) i) as [Hd Hh];
      [apply Nat.mod_upper_bound; lia|done|].
    rewrite Nat.Div0.add_mod_idemp_l in Hh.
    apply (Hs (ring_dist (length ts) (c `mod` length ts) i)%nat); [lia|]. by rewrite Hh.
Qed.

Lemma existsb_false_iff (f : gthread -> bool) l :
  existsb f l = false <-> forall t, t ∈ l -> f t = false.
Proof.
  split.
  - intros H t Ht. destruct (f t) eqn:E; [|done].
    assert (existsb f l = true); [|congruence].
    apply existsb_exists. exists t. by rewrite <- list_elem_of_In.
  - intros H. destruct (existsb f l) eqn:E; [|done].
    apply existsb_exists in E as (t & Ht & Hf). rewrite <- list_elem_of_In in Ht.
    by rewrite (H t Ht) in Hf.
Qed.

Lemma not_ready_elem ts t : (forall i, ~ ready_at ts i) -> t ∈ ts -> t_state t <> Ready.
Proof. intros H (i & Hi)%list_elem_of_lookup Hr. apply (H i). by exists t. Qed.

(** While every thread is stuck there is nothing to pick. *)
Lemma stuck_picks_nothing s i s1 :
  tick s < UINT64_MAX -> Forall (stuck s) (threads s) -> pick_next s <> (Some i, s1).
Proof.
  intros Htick Hst Epick. assert (Hno : fst (pick_next s) = None); [|by rewrite Epick in Hno].
  apply pick_none_iff. intros k (t & Ht & Hr). rewrite threads_wake_phase in Ht.
  apply list_lookup_fmap_Some in Ht as (t0 & -> & Ht0).
  rewrite Forall_forall in Hst. specialize (Hst t0 (list_elem_of_lookup_2 _ _ _ Ht0)).
  rewrite wake1_stuck in Hr by done. destruct Hst as [|[[]|[]]]; congruence.
Qed.

(** When nothing is picked the wake-up phase changed no thread. *)
Lemma idle_pick_same s s1 :
  pick_next s = (None, s1) ->
  s1 = wake_phase s /\ threads s1 = threads s /\
  forall t, t ∈ threads s -> wake1 s t = t /\ t_state t <> Ready.
Proof.
  intros Epick. assert (Hnone : fst (pick_next s) = None) by (by rewrite Epick).
  rewrite pick_none_iff in Hnone.
  assert (Hs1 : s1 = wake_phase s) by (unfold pick_next in Epick; case_match; by simplify_eq).
  subst s1. rewrite threads_wake_phase in *.
  assert (Hsame : forall t, t ∈ threads s -> wake1 s t = t /\ t_state t <> Ready).
  { intros t Ht. assert (Hnr : t_state (wake1 s t) <> Ready).
    { eapply not_ready_elem; [done|]. apply list_elem_of_fmap. eauto. }
    destruct (wake1_cases s t) as [E|]; [|done]. split; [done|]. by rewrite E in Hnr. }
  split_and!; [done| |done].
  rewrite <- (list_fmap_id (threads s)) at 2. apply list_fmap_ext.
  intros i t Ht. apply Hsame. by eapply list_elem_of_lookup_2.
Qed.

(** An unfinished thread that neither runs nor has a deadline is stuck. *)
Lemma untimed_is_stuck s t :
  wake1 s t = t -> t_state t <> Ready -> t_state t <> Running -> is_timed t = false -> stuck s t.
Proof.
  intros Hw Hnr Hrun Htm. unfold is_timed, is_state in Htm. unfold stuck.
  destruct (t_state t) eqn:Est; try done; simpl in Htm; auto.
  - right; left. split; [done|]. destruct (target_finished s (t_join_target t)) eqn:Ej; [|done].
    pose proof (wake1_join_released s t Est Ej). congruence.
  - right; right. split; [done|]. bool_facts. done.
Qed.

Lemma stuck_untimed s t : stuck s t -> is_timed t = false.
Proof.
  unfold is_timed, is_state. intros [E|[[E _]|[E Hw]]]; rewrite E; simpl; try done. by rewrite Hw.
Qed.

Lemma stuck_unblocked_finished s t : stuck s t -> is_blocked t = false -> t_state t = Finished.
Proof.
  unfold is_blocked, is_state. intros [E|[[E _]|[E Hw]]] Hb; [done|..]; rewrite E in Hb; simpl in Hb; [done|].
  by rewrite Hw in Hb.
Qed.

Section deadlock.
Context {W : Type} (body : nat -> sched -> W -> option (sched * W)).

(** C24. The deadlock verdict is exact: between dispatches, an iteration of
    [run_until_complete] stops with [deadlocked_] set if and only if some
    thread is unfinished and every thread is finished, joined on an unfinished
    thread, or blocked on a token without deadline. *)
Theorem deadlock_verdict_is_exact s w :
  (forall t, t ∈ threads s -> t_state t <> Running) ->
  tick s < UINT64_MAX -> deadlocked s = false ->
  (exists s', run_step body s w = (Returned false, s', w) /\ deadlocked s' = true) <->
  all_finished s = false /\ Forall (stuck s) (threads s).
Proof.
  intros Hrun Htick Hdl. unfold run_step.
  destruct (all_finished s) eqn:Hf; [by split; [intros (s' & [= ] & _)|intros [? _]]|].
  destruct (pick_next s) as [[i|] s1] eqn:Epick.
  - split; [|intros [_ Hst]; by destruct (stuck_picks_nothing s i s1 Htick Hst)].
    intros (s' & Hr & Hd). destruct (body i (enter s1 i) w) as [[s2 w2]|]; [done|].
    injection Hr as <-. exfalso. unfold pick_next in Epick. case_match; [|done]. injection Epick as <- <-.
    revert Hd. unfold enter. repeat case_match; simpl; congruence.
  - destruct (idle_pick_same s s1 Epick) as (-> & Hid & Hsame). rewrite Hid. split.
    + intros (s' & Hr & Hd). split; [done|]. case_if_in Hr; [done|].
      rewrite existsb_false_iff in Heqb. apply Forall_forall. intros t Ht.
      destruct (Hsame t Ht). apply untimed_is_stuck; auto.
    + intros [_ Hst]. rewrite Forall_forall in Hst. case_if.
      * apply existsb_exists in Heqb as (t & Ht & Htm). rewrite <- list_elem_of_In in Ht.
        by rewrite (stuck_untimed s t) in Htm by auto.
      * case_if; [eexists; split; [done|done]|]. rewrite existsb_false_iff in Heqb0.
        assert (all_finished s = true); [|congruence].
        apply forallb_forall. intros t Ht. rewrite <- list_elem_of_In in Ht.
        apply is_state_true. eauto using stuck_unblocked_finished.
Qed.

(** No thread can run before virtual time reaches [D], and one can then. *)
Record next_deadline (s : sched) (D : Z) : Prop := {
  nd_none : forall t, t ∈ threads s -> t_state t <> Ready;
  nd_later : forall t, t ∈ threads s -> is_timed t = true -> D <= t_wake_tick t;
  nd_join : forall t, t ∈ threads s -> t_state t = BlockedJoin ->
              target_finished s (t_join_target t) = false;
  nd_some : exists t, t ∈ threads s /\ is_timed t = true /\ t_wake_tick t = D;
  nd_range : 0 <= tick s <= D /\ D < UINT64_MAX;
}.

Lemma wake_phase_early s D : next_deadline s D -> tick s < D -> wake_phase s = s.
Proof.
  intros Hn Hlt. assert (H : threads (wake_phase s) = threads s).
  2:{ unfold wake_phase in *. simpl in H. rewrite H. by destruct s. }
  rewrite threads_wake_phase. rewrite <- (list_fmap_id (threads s)) at 2.
  apply list_fmap_ext. intros i t Ht. apply list_elem_of_lookup_2 in Ht.
  pose proof (nd_join _ _ Hn t Ht) as Hj. pose proof (nd_later _ _ Hn t Ht) as Hl.
  pose proof (nd_range _ _ Hn) as Hr. unfold is_timed, is_state in Hl.
  rewrite wake1_by_state. unfold id.
  destruct (t_state t) eqn:E; simpl; try done.
  - specialize (Hl eq_refl). by rewrite (proj2 (Z.leb_gt _ _)) by lia.
  - by rewrite Hj.
  - simpl in Hl. destruct (t_wake_tick t =? UINT64_MAX) eqn:Ew; simpl in Hl; bool_facts.
    + by rewrite (proj2 (Z.leb_gt _ _)) by lia.
    + specialize (Hl eq_refl). by rewrite (proj2 (Z.leb_gt _ _)) by lia.
Qed.

Lemma next_deadline_tick s D k :
  next_deadline s D -> 0 <= k <= D -> next_deadline (with_tick s k) D.
Proof.
  intros [H1 H2 H3 H4 H5] Hk. split; try done. simpl. lia.
Qed.

Lemma idle_step s D w :
  next_deadline s D -> tick s < D ->
  run_step body s w = (Continue, with_tick s (tick s + 1), w).
Proof.
  intros Hn Hlt. pose proof (wake_phase_early s D Hn Hlt) as Hw.
  destruct (nd_some _ _ Hn) as (t & Ht & Htm & _). pose proof (nd_range _ _ Hn) as Hr.
  unfold run_step.
  assert (Hnf : all_finished s = false).
  { destruct (all_finished s) eqn:E; [|done]. unfold all_finished in E.
    rewrite forallb_forall in E. rewrite list_elem_of_In in Ht. specialize (E t Ht).
    apply is_state_true in E. unfold is_timed, is_state in Htm. by rewrite E in Htm. }
  rewrite Hnf.
  assert (Hp : fst (pick_next s) = None).
  { apply pick_none_iff. rewrite Hw. intros i (t' & Ht' & Hrd).
    by apply (nd_none _ _ Hn t' (list_elem_of_lookup_2 _ _ _ Ht')). }
  destruct (pick_next s) as [o s1] eqn:Ep. simpl in Hp. subst o.
  assert (s1 = s) as ->.
  { unfold pick_next in Ep. rewrite Hw in Ep. case_match; by simplify_eq. }
  assert (existsb is_timed (threads s) = true) as ->.
  { apply existsb_exists. exists t. by rewrite <- list_elem_of_In. }
  unfold UINT64_MAX in Hr. by rewrite u64_small by lia.
Qed.

(** Virtual time is exact: when no thread can run and the earliest finite
    deadline is [D], the loop advances the clock tick by tick to [D] without
    dispatching anyone, and at [D] some thread is dispatched. *)
Theorem idle_time_reaches_the_deadline s D w fuel :
  next_deadline s D ->
  run_until_complete body (Z.to_nat (D - tick s) + fuel) s w =
    run_until_complete body fuel (with_tick s D) w /\
  fst (pick_next (with_tick s D)) <> None.
Proof.
  intros Hn. pose proof (nd_range _ _ Hn) as Hr. split.
  - remember (Z.to_nat (D - tick s)) as d eqn:Hd. revert s Hn Hr Hd.
    induction d as [|d IH]; intros s Hn Hr Hd; simpl.
    + assert (tick s = D) as <- by lia. by destruct s.
    + rewrite (idle_step s D) by (done || lia).
      rewrite IH; [done|by apply next_deadline_tick; [|lia]|simpl; lia|simpl; lia].
  - rewrite pick_none_iff. intros H. destruct (nd_some _ _ Hn) as (t & Ht & Htm & HD).
    apply (not_ready_elem _ (wake1 (with_tick s D) t)) in H.
    + apply H. rewrite wake1_by_state. unfold is_timed, is_state in Htm. simpl.
      destruct (t_state t) eqn:E; simpl in *; try done; by rewrite HD, Z.leb_refl.
    + rewrite threads_wake_phase. apply list_elem_of_fmap. eauto.
Qed.

End deadlock.

(** ** Witnesses *)

Definition two_threads : sched :=
  snd (spawn true (snd (spawn true new_sched "a")) "b").

Lemma two_threads_reachable : sched_reachable two_threads.
Proof.
  unfold two_threads, spawn.
  apply (sreach_step (snd (spawn_reserved true new_sched "a" 0)));
    [apply (sreach_step new_sched); [apply sreach_new|]|];
    (apply SSpawn; [unfold kStackSize, kMinUsable; lia|by vm_compute]).
Qed.

Lemma find_is_exact_witness :
  find two_threads 2 = Some 1%nat <->
  exists t, threads two_threads !! 1%nat = Some t /\ t_handle t = 2.
Proof. apply (find_is_exact two_threads 2 1); [apply two_threads_reachable|lia]. Defined.

Lemma failed_spawn_leaves_dangling_handle_witness :
  fst (spawn_reserved false two_threads "c" 0) = 0 /\
  exists i, find (snd (spawn_reserved false two_threads "c" 0)) 3 = Some i /\
            threads (snd (spawn_reserved false two_threads "c" 0)) !! i = None.
Proof.
  exact (failed_spawn_leaves_dangling_handle two_threads "c" 0
    (reachable_handles _ two_threads_reachable)
    ltac:(unfold kStackSize, kMinUsable; lia) ltac:(by vm_compute)).
Defined.

Lemma round_robin_is_fair_witness :
  NoDup [0%nat] /\ exists s', pick_next two_threads = (Some 0%nat, s') /\ ready_at (threads s') 0.
Proof.
  destruct (round_robin_is_fair two_threads) as [H1 H2]; [vm_compute; lia|]. split.
  - apply (H2 1%nat); [|apply not_elem_of_cons; split; [done|apply not_elem_of_nil]].
    eapply (picks_cons 1 two_threads 0); [eexists; split; [by vm_compute|done]|vm_compute; reflexivity|reflexivity..|].
    apply picks_nil.
  - destruct (pick_next two_threads) as [o s'] eqn:E. assert (Eo : o = Some 0%nat) by (apply (f_equal fst) in E; by vm_compute in E).
    subst o. exists s'. split; [reflexivity|exact H1].
Defined.

(** Thread 1 blocked without deadline, thread 0 joined on it. *)
Definition stuck_pair : sched :=
  upd (thread_block two_threads 1 77 kNoTimeout) 0
      (fun t => set_state BlockedJoin (set_join 2 t)).

Definition no_body (i : nat) (s : sched) (w : unit) : option (sched * unit) := Some (s, w).

Lemma deadlock_verdict_is_exact_witness :
  exists s', run_step no_body stuck_pair tt = (Returned false, s', tt) /\ deadlocked s' = true.
Proof.
  apply (deadlock_verdict_is_exact no_body stuck_pair tt).
  - apply Forall_forall. apply (bool_decide_unpack _). by vm_compute.
  - by vm_compute.
  - done.
  - split; [by vm_compute|]. constructor; [right; left; by vm_compute|].
    constructor; [right; right; by vm_compute|constructor].
Defined.

(** Thread 0 asleep for 5 ticks, thread 1 blocked without deadline. *)
Definition sleepy : sched := thread_sleep (thread_block two_threads 1 77 kNoTimeout) 0 5.

Lemma idle_time_reaches_the_deadline_witness :
  run_until_complete no_body (5 + 0) sleepy tt = run_until_complete no_body 0 (with_tick sleepy 5) tt
  /\ fst (pick_next (with_tick sleepy 5)) <> None.
Proof.
  apply (idle_time_reaches_the_deadline no_body sleepy 5 tt 0). split.
  - apply Forall_forall. apply (bool_decide_unpack _). by vm_compute.
  - intros t Ht. apply elem_of_cons in Ht as [->|Ht]; [done|].
    apply elem_of_cons in Ht as [->|Ht]; [done|]. by apply not_elem_of_nil in Ht.
  - intros t Ht. apply elem_of_cons in Ht as [->|Ht]; [done|].
    apply elem_of_cons in Ht as [->|Ht]; [done|]. by apply not_elem_of_nil in Ht.
  - eexists. split; [apply list_elem_of_here|]. by vm_compute.
  - by vm_compute.
Defined.

End CpuSched.
