(* ===== verification/MemMap.v ===== *)
(** The 16 GiB Series X memory map ([class MemMap], src/mem_map.cpp): one
    reserved mapping split into a fast and a slow pool, pages committed on
    demand, per-page protection kept beside the host's page table, and alias
    windows resolved in software on every access. *)
From stdpp Require Import base numbers list gmap strings.
From Stdlib Require Import ZArith Lia.
From S2P Require Import Prelude XbeRam.
Open Scope Z_scope.

Module MemMap.

Definition kFastSize : Z := Z.shiftl 10 30.
Definition kSlowSize : Z := Z.shiftl 6 30.
Definition kTotalSize : Z := kFastSize + kSlowSize.

(** [enum class MemProt], with its numeric values. *)
Inductive MemProt := NoAccess | ReadOnly | ReadWrite.

Definition prot_val (p : MemProt) : Z :=
  match p with NoAccess => 0 | ReadOnly => 1 | ReadWrite => 2 end.

(** The host protection [protect] asks for. *)
Definition os_prot (p : MemProt) : Z :=
  match p with ReadWrite => PROT_RW | ReadOnly => PROT_READ | NoAccess => PROT_NONE end.

Record Alias := MkAlias { a_dst : Z; a_src : Z; a_size : Z }.

(** [m_os] is the host's page table for the mapping (PROT_NONE when absent). *)
Record memmap := MM {
  m_base : bool;            (* base_ != nullptr *)
  m_committed : svec;       (* committed_ *)
  m_prot : svec;            (* prot_ *)
  m_aliases : list Alias;   (* aliases_ *)
  m_pages : Z;              (* committed_pages_ *)
  m_os : gmap Z Z;
  m_bytes : bytes_map;
}.

Definition new_map : memmap := MM false (sv_assign 0 0) (sv_assign 0 0) [] 0 ∅ ∅.

Definition set_aliases (m : memmap) l :=
  MM (m_base m) (m_committed m) (m_prot m) l (m_pages m) (m_os m) (m_bytes m).
Definition set_mbytes (m : memmap) b :=
  MM (m_base m) (m_committed m) (m_prot m) (m_aliases m) (m_pages m) (m_os m) b.
Definition set_os (m : memmap) o :=
  MM (m_base m) (m_committed m) (m_prot m) (m_aliases m) (m_pages m) o (m_bytes m).
Definition set_commit (m : memmap) c n :=
  MM (m_base m) c (m_prot m) (m_aliases m) n (m_os m) (m_bytes m).
Definition set_prot (m : memmap) p :=
  MM (m_base m) (m_committed m) p (m_aliases m) (m_pages m) (m_os m) (m_bytes m).

Definition is_fast (guest_phys : Z) : bool := guest_phys <? kFastSize.

Definition in_range (guest_phys size : Z) : bool :=
  if kTotalSize <=? guest_phys then false else size <=? kTotalSize - guest_phys.

(** [aliases_] is scanned in order; the first window that contains the whole
    range redirects it. *)
Fixpoint resolve (l : list Alias) (guest_phys size : Z) : Z :=
  match l with
  | [] => guest_phys
  | a :: l' =>
      if (a_dst a <=? guest_phys) && (guest_phys <? u64 (a_dst a + a_size a)) &&
         (size <=? u64 (a_dst a + a_size a - guest_phys))
      then u64 (a_src a + (guest_phys - a_dst a))
      else resolve l' guest_phys size
  end.

Definition resolve_alias (m : memmap) (guest_phys size : Z) : Z :=
  resolve (m_aliases m) guest_phys size.

Definition overlaps (dst size : Z) (a : Alias) : bool :=
  (dst <? u64 (a_dst a + a_size a)) && (a_dst a <? u64 (dst + size)).

Definition alias_map (m : memmap) (dst src size : Z) : bool * memmap :=
  if (size =? 0) || negb (in_range dst size) || negb (in_range src size) then (false, m)
  else let dst_end := u64 (dst + size) in
       let src_end := u64 (src + size) in
       if (dst <? src_end) && (src <? dst_end) then (false, m)
       else if existsb (overlaps dst size) (m_aliases m) then (false, m)
       else (true, set_aliases m (m_aliases m ++ [MkAlias dst src size])).

(** Erase the first alias whose window starts at [dst]. *)
Fixpoint erase_dst (l : list Alias) (dst : Z) : option (list Alias) :=
  match l with
  | [] => None
  | a :: l' => if a_dst a =? dst then Some l'
               else match erase_dst l' dst with Some r => Some (a :: r) | None => None end
  end.

Definition alias_unmap (m : memmap) (dst : Z) : bool * memmap :=
  match erase_dst (m_aliases m) dst with
  | Some l => (true, set_aliases m l)
  | None => (false, m)
  end.

Section ops.
Context `{os : HostOS}.

Definition reserve (m : memmap) : bool * memmap :=
  if m_base m then (true, m)
  else if negb (mmap_ok kTotalSize) then (false, m)
  else let pages := kTotalSize `div` page_size in
       (true, MM true (sv_assign pages 0) (sv_assign pages (prot_val ReadWrite))
                 [] 0 (m_os m) (m_bytes m)).

(** mprotect of the page at index [idx] of the mapping. *)
Definition host_protect (m : memmap) (idx prot : Z) : option memmap :=
  if mprotect_ok idx prot then Some (set_os m (<[idx := prot]> (m_os m))) else None.

Definition commit_page (m : memmap) (guest_phys : Z) : bool * memmap :=
  if negb (m_base m) || negb (in_range guest_phys 1) then (false, m)
  else
    let aligned := align_down guest_phys page_size in
    let idx := aligned `div` page_size in
    match host_protect m idx PROT_RW with
    | None => (false, m)
    | Some m =>
        let m := if (idx <? sv_len (m_committed m)) && negb (sv_nz (m_committed m) idx)
                 then set_commit m (sv_set (m_committed m) idx 1) (u64 (m_pages m + 1))
                 else m in
        (true, if idx <? sv_len (m_prot m)
               then set_prot m (sv_set (m_prot m) idx (prot_val ReadWrite)) else m)
    end.

Fixpoint commit_loop (m : memmap) (l : list Z) : bool * memmap :=
  match l with
  | [] => (true, m)
  | a :: l' => let (ok, m) := commit_page m a in
               if ok then commit_loop m l' else (false, m)
  end.

(** The addresses [a] of [for (a = start; a < end; a += upage)]. *)
Definition range_pages (guest_phys size : Z) : list Z :=
  loop_addrs (align_down guest_phys page_size) (guest_phys + size) page_size.

Definition commit_range (m : memmap) (guest_phys size : Z) : bool * memmap :=
  if negb (m_base m) || (size =? 0) || negb (in_range guest_phys size) then (false, m)
  else commit_loop m (range_pages guest_phys size).

Definition page_live (m : memmap) (a : Z) : bool := sv_nz (m_committed m) (a `div` page_size).

Definition is_committed (m : memmap) (guest_phys size : Z) : bool :=
  if negb (m_base m) || negb (in_range guest_phys size) || (sv_len (m_committed m) =? 0)
  then false
  else forallb (page_live m) (range_pages guest_phys size).

Fixpoint protect_loop (m : memmap) (prot : MemProt) (l : list Z) : bool * memmap :=
  match l with
  | [] => (true, m)
  | a :: l' =>
      let idx := a `div` page_size in
      match host_protect m idx (os_prot prot) with
      | None => (false, m)
      | Some m =>
          protect_loop (if idx <? sv_len (m_prot m)
                        then set_prot m (sv_set (m_prot m) idx (prot_val prot)) else m) prot l'
      end
  end.

Definition protect (m : memmap) (guest_phys size : Z) (prot : MemProt) : bool * memmap :=
  if negb (m_base m) || (size =? 0) || negb (is_committed m guest_phys size) then (false, m)
  else protect_loop m prot (range_pages guest_phys size).

(** The per-page test of [is_readable]: live and not NoAccess. *)
Definition page_readable (m : memmap) (a : Z) : bool :=
  let idx := a `div` page_size in
  sv_nz (m_committed m) idx &&
  negb (match sv_get (m_prot m) idx with Some v => v =? prot_val NoAccess | None => false end).

(** The per-page test of [is_writable]: live and ReadWrite. *)
Definition page_writable (m : memmap) (a : Z) : bool :=
  let idx := a `div` page_size in
  sv_nz (m_committed m) idx &&
  match sv_get (m_prot m) idx with Some v => v =? prot_val ReadWrite | None => false end.

Definition accessible (test : memmap -> Z -> bool) (m : memmap) (guest_phys size : Z) : bool :=
  if negb (m_base m) || (size =? 0) || negb (in_range guest_phys size) then false
  else let backing := resolve_alias m guest_phys size in
       if negb (in_range backing size) then false
       else forallb (test m) (range_pages backing size).

Definition is_readable (m : memmap) := accessible page_readable m.
Definition is_writable (m : memmap) := accessible page_writable m.

(** [translate]: [Some a] stands for [base_ + a]. *)
Definition translate (m : memmap) (guest_phys : Z) : option Z :=
  if is_readable m guest_phys 1 then Some (resolve_alias m guest_phys 1) else None.

(** Accesses at the resolved address; the source buffer is the byte list. *)
Definition write_bytes (m : memmap) (guest_phys : Z) (bs : list Z) : bool * memmap :=
  if (zlen bs =? 0) || negb (is_writable m guest_phys (zlen bs)) then (false, m)
  else (true, set_mbytes m (mem_write (m_bytes m) (resolve_alias m guest_phys (zlen bs)) bs)).

Definition read_bytes (m : memmap) (guest_phys size : Z) : option (list Z) :=
  if (size =? 0) || negb (is_readable m guest_phys size) then None
  else Some (mem_read (m_bytes m) (resolve_alias m guest_phys size) size).

Definition write32 (m : memmap) (guest_phys value : Z) : bool * memmap :=
  write_bytes m guest_phys (le_bytes 4 value).

Definition read32 (m : memmap) (guest_phys : Z) : option Z :=
  match read_bytes m guest_phys 4 with Some bs => Some (le_val bs) | None => None end.

End ops.

(** ** Invariant *)

Definition os_of (m : memmap) (p : Z) : Z := default PROT_NONE (m_os m !! p).

Definition live_count (m : memmap) : Z :=
  zlen (List.filter (sv_nz (m_committed m)) (seqZ 0 (sv_len (m_committed m)))).

Record alias_ok (a : Alias) : Prop := {
  ao_size : 0 < a_size a;
  ao_dst : 0 <= a_dst a /\ a_dst a + a_size a <= kTotalSize;
  ao_src : 0 <= a_src a /\ a_src a + a_size a <= kTotalSize;
  ao_self : a_dst a + a_size a <= a_src a \/ a_src a + a_size a <= a_dst a;
}.

Definition windows_disjoint (a b : Alias) : Prop :=
  a_dst a + a_size a <= a_dst b \/ a_dst b + a_size b <= a_dst a.

(** Per page, the recorded protection is the one the host enforces; the page
    counter counts the live pages; alias windows are in range and disjoint. *)
Record map_ok `{HostOS} (m : memmap) : Prop := {
  mo_len : sv_len (m_committed m) = (if m_base m then kTotalSize `div` page_size else 0) /\
           sv_len (m_prot m) = sv_len (m_committed m);
  mo_live : forall p, sv_nz (m_committed m) p = true ->
    exists pr, sv_get (m_prot m) p = Some (prot_val pr) /\ os_of m p = os_prot pr;
  mo_dead : forall p, sv_nz (m_committed m) p = false -> os_of m p = PROT_NONE;
  mo_count : m_pages m = live_count m;
  mo_alias : Forall alias_ok (m_aliases m);
  mo_disj : ForallOrdPairs windows_disjoint (m_aliases m);
}.

Lemma kTotalSize_val : kTotalSize = 2 ^ 34.
Proof. reflexivity. Qed.

Lemma filter_flip (f g : Z -> bool) i l :
  NoDup l -> i ∈ l -> f i = false -> g i = true -> (forall j, j <> i -> g j = f j) ->
  length (List.filter g l) = S (length (List.filter f l)).
Proof.
  intros Hnd Hin Hf Hg Hsame. induction Hnd as [|x l Hx Hnd IH]; [by apply elem_of_nil in Hin|].
  simpl. destruct (decide (x = i)) as [->|Hne].
  - rewrite Hf, Hg. simpl. f_equal. apply f_equal. apply List.filter_ext_in.
    intros a Ha. apply Hsame. intros ->. apply Hx. by apply list_elem_of_In.
  - rewrite (Hsame x Hne). apply elem_of_cons in Hin as [?|Hin]; [congruence|].
    destruct (f x); simpl; rewrite IH; auto.
Qed.

Lemma filter_le {A} (f : A -> bool) l : (length (List.filter f l) <= length l)%nat.
Proof. induction l as [|x l IH]; simpl; [lia|]. destruct (f x); simpl; lia. Qed.

Lemma in_range_spec g n : in_range g n = true <-> g < kTotalSize /\ g + n <= kTotalSize.
Proof.
  unfold in_range. case_if; bool_facts; [split; [done|lia]|].
  rewrite Z.leb_le. lia.
Qed.

Section invariant.
Context `{os : HostOS} `{!HostLaws os}.
(** Page sizes of the supported hosts divide the mapping. *)
Hypothesis Hpb : page_bits <= 34.

Lemma mpage_size_pos : 0 < page_size.
Proof. unfold page_size. pose proof page_bits_nonneg. apply Z.pow_pos_nonneg; lia. Qed.

Lemma page_index_lt g : 0 <= g < kTotalSize -> 0 <= g `div` page_size < kTotalSize `div` page_size.
Proof.
  intros Hg. pose proof mpage_size_pos. pose proof page_bits_nonneg as Hb.
  split; [apply Z.div_pos; lia|].
  assert (Ht : kTotalSize = 2 ^ (34 - page_bits) * page_size).
  { unfold page_size. rewrite <- Z.pow_add_r by lia. rewrite kTotalSize_val. f_equal. lia. }
  rewrite Ht at 1. rewrite Z.div_mul by lia. apply Z.div_lt_upper_bound; lia.
Qed.

(** What mprotect of one live page, with the matching flag update, preserves. *)
Lemma set_page_ok m idx pr c n :
  map_ok m -> m_base m = true -> 0 <= idx < kTotalSize `div` page_size ->
  (forall p, sv_nz c p = if decide (p = idx) then true else sv_nz (m_committed m) p) ->
  sv_len c = sv_len (m_committed m) ->
  n = zlen (List.filter (sv_nz c) (seqZ 0 (sv_len c))) ->
  map_ok (set_prot (set_commit (set_os m (<[idx := os_prot pr]> (m_os m))) c n)
                   (sv_set (m_prot m) idx (prot_val pr))).
Proof.
  intros [Hl Hlive Hdead Hc Ha Hd] Hb Hi Hnz Hlen Hn. rewrite Hb in Hl.
  constructor; simpl; try done.
  - rewrite sv_len_set, Hb, Hlen. lia.
  - intros p. rewrite Hnz, sv_get_set. unfold os_of; simpl.
    destruct (decide (p = idx)) as [->|Hne]; intros Hp.
    + exists pr. rewrite decide_True by lia. by rewrite lookup_insert_eq.
    + rewrite decide_False by naive_solver. rewrite lookup_insert_ne by done.
      by apply Hlive.
  - intros p. rewrite Hnz. unfold os_of; simpl. case_decide as Hp; [done|].
    rewrite lookup_insert_ne by done. by apply Hdead.
Qed.

Lemma set_prot_same m : set_prot m (m_prot m) = m.
Proof. by destruct m. Qed.

Lemma commit_page_ok m g ok m' :
  map_ok m -> 0 <= g -> commit_page m g = (ok, m') -> map_ok m' /\ m_base m' = m_base m.
Proof.
  intros Hm Hg. unfold commit_page. case_if; [by intros [= <- <-]|].
  apply orb_false_iff in Heqb as [Hb Hr]. apply negb_false_iff in Hb, Hr.
  apply in_range_spec in Hr. unfold page_size.
  rewrite align_down_div by apply page_bits_nonneg. fold page_size.
  pose proof (page_index_lt g ltac:(lia)) as Hi. set (idx := g `div` page_size) in *.
  unfold host_protect. case_if; [|by intros [= <- <-]]. simpl.
  pose proof (mo_len _ Hm) as [L1 L2]. rewrite Hb in L1.
  replace (idx <? sv_len (m_committed m)) with true by (symmetry; apply Z.ltb_lt; lia).
  destruct (sv_nz (m_committed m) idx) eqn:Hz; simpl;
    (replace (idx <? sv_len (m_prot m)) with true by (symmetry; apply Z.ltb_lt; lia));
    intros [= <- <-]; (split; [|done]).
  - refine (set_page_ok m idx ReadWrite (m_committed m) (m_pages m) Hm Hb Hi _ eq_refl (mo_count _ Hm)).
    intros p. by case_decide as Hp; [subst|].
  - assert (Hflip : zlen (List.filter (sv_nz (sv_set (m_committed m) idx 1))
        (seqZ 0 (sv_len (m_committed m)))) = live_count m + 1).
    { unfold live_count. rewrite (filter_flip (sv_nz (m_committed m)) _ idx); [lia|..].
      - apply NoDup_seqZ.
      - apply elem_of_seqZ. lia.
      - done.
      - rewrite sv_nz_set. by rewrite decide_True by lia.
      - intros j Hj. rewrite sv_nz_set. by rewrite decide_False by naive_solver. }
    refine (set_page_ok m idx ReadWrite _ _ Hm Hb Hi _ (sv_len_set _ _ _) _).
    + intros p. rewrite sv_nz_set. destruct (decide (p = idx)) as [->|];
        [by rewrite decide_True by lia|by rewrite decide_False by naive_solver].
    + rewrite sv_len_set, Hflip. rewrite (mo_count _ Hm). apply u64_small.
      unfold live_count. pose proof (filter_le (sv_nz (m_committed m)) (seqZ 0 (sv_len (m_committed m)))) as Hle.
      rewrite length_seqZ in Hle.
      assert (sv_len (m_committed m) <= 2 ^ 34); [|lia].
      rewrite L1, kTotalSize_val. apply Z.div_le_upper_bound; [apply mpage_size_pos|].
      pose proof mpage_size_pos. lia.
Qed.

Lemma commit_loop_ok l m ok m' :
  Forall (fun a => 0 <= a) l -> map_ok m -> commit_loop m l = (ok, m') -> map_ok m'.
Proof.
  intros Hl. revert m. induction Hl as [|a l Ha _ IH]; intros m Hm; simpl; [by intros [= <- <-]|].
  destruct (commit_page m a) as [[] m1] eqn:E; apply commit_page_ok in E as [? _]; try done.
  - by apply IH.
  - by intros [= <- <-].
Qed.

Lemma range_pages_nonneg g n : 0 <= g -> Forall (fun a => 0 <= a) (range_pages g n).
Proof.
  intros Hg. apply Forall_forall. intros a Ha. pose proof mpage_size_pos.
  apply elem_of_loop_addrs in Ha as (i & Hi & -> & _); [|done].
  assert (0 <= g `div` page_size) by (apply Z.div_pos; lia).
  unfold page_size at 1. rewrite align_down_pow2 by apply page_bits_nonneg.
  fold page_size. nia.
Qed.

(** A page of a range, as the loops visit it, is the page of one of its bytes. *)
Lemma range_pages_index a g n :
  0 < n -> a ∈ range_pages g n ->
  exists b, g <= b < g + n /\ a `div` page_size = b `div` page_size.
Proof.
  intros Hn Ha. pose proof mpage_size_pos as Hp. pose proof page_bits_nonneg as Hk.
  assert (exists pg, a = page_size * pg) as [pg ->].
  { apply elem_of_loop_addrs in Ha as (i & _ & -> & _); [|done]. unfold page_size.
    rewrite align_down_pow2 by done. exists (g `div` 2 ^ page_bits + i). lia. }
  apply (page_loop_covers page_bits) in Ha; [|done..]. fold page_size in Ha.
  rewrite Z.mul_comm, Z.div_mul by lia.
  assert (Hnz : page_size <> 0) by lia.
  pose proof (Z.div_mod g page_size Hnz). pose proof (Z.mod_pos_bound g page_size Hp).
  pose proof (Z.div_mod (g + n - 1) page_size Hnz).
  pose proof (Z.mod_pos_bound (g + n - 1) page_size Hp).
  destruct (decide (pg = g `div` page_size)) as [->|Hne].
  - exists g. split; [lia|done].
  - assert (page_size * (g `div` page_size + 1) <= page_size * pg)
      by (apply Z.mul_le_mono_nonneg_l; lia).
    assert (page_size * pg <= page_size * ((g + n - 1) `div` page_size))
      by (apply Z.mul_le_mono_nonneg_l; lia).
    exists (page_size * pg). split; [lia|]. by rewrite Z.mul_comm, Z.div_mul by lia.
Qed.

(** Every byte of a range lies on a page the loops visit. *)
Lemma byte_page_visited b g n :
  g <= b < g + n -> page_size * (b `div` page_size) ∈ range_pages g n.
Proof.
  intros Hb. pose proof mpage_size_pos as Hp. pose proof page_bits_nonneg as Hk.
  apply (page_loop_covers page_bits); [done|lia|]. fold page_size.
  split; apply Z.div_le_mono; lia.
Qed.

Lemma protect_loop_ok pr l m ok m' :
  m_base m = true -> map_ok m ->
  Forall (fun a => 0 <= a `div` page_size < kTotalSize `div` page_size /\ page_live m a = true) l ->
  protect_loop m pr l = (ok, m') -> map_ok m'.
Proof.
  revert m. induction l as [|a l IH]; intros m Hb Hm Hl; simpl; [by intros [= <- <-]|].
  apply Forall_cons in Hl as [[Ha Hlive] Hl]. unfold host_protect.
  case_if; [|by intros [= <- <-]]. simpl.
  pose proof (mo_len _ Hm) as [L1 L2]. rewrite Hb in L1.
  replace (a `div` page_size <? sv_len (m_prot m)) with true by (symmetry; apply Z.ltb_lt; lia).
  apply IH; [done| |exact Hl].
  refine (set_page_ok m _ pr (m_committed m) (m_pages m) Hm Hb Ha _ eq_refl (mo_count _ Hm)).
  intros p. unfold page_live in Hlive. by case_decide as Hp; [subst|].
Qed.


Lemma range_pages_in_map g n :
  0 <= g -> 0 < n -> g + n <= kTotalSize ->
  forall a, a ∈ range_pages g n -> 0 <= a `div` page_size < kTotalSize `div` page_size.
Proof.
  intros Hg Hn Ht a Ha. apply range_pages_index in Ha as (b & Hb & ->); [|done].
  apply page_index_lt. lia.
Qed.

Lemma protect_ok m g n pr ok m' :
  map_ok m -> 0 <= g -> 0 <= n -> protect m g n pr = (ok, m') -> map_ok m'.
Proof.
  intros Hm Hg Hn. unfold protect. case_if; [by intros [= <- <-]|].
  apply orb_false_iff in Heqb as [Heqb Hc]. apply orb_false_iff in Heqb as [Hb Hz].
  apply negb_false_iff in Hb, Hc. bool_facts.
  unfold is_committed in Hc. case_if_in Hc; [done|].
  apply orb_false_iff in Heqb as [Heqb _]. apply orb_false_iff in Heqb as [_ Hr].
  apply negb_false_iff, in_range_spec in Hr.
  apply protect_loop_ok; [done..|]. apply Forall_forall. intros a Ha. split.
  - eapply range_pages_in_map; [..|done]; lia.
  - by eapply forallb_elem.
Qed.

Lemma commit_range_ok m g n ok m' :
  map_ok m -> 0 <= g -> commit_range m g n = (ok, m') -> map_ok m'.
Proof.
  intros Hm Hg. unfold commit_range. case_if; [by intros [= <- <-]|].
  apply commit_loop_ok; [by apply range_pages_nonneg|done].
Qed.

Lemma alias_map_ok m dst src n ok m' :
  map_ok m -> 0 <= dst -> 0 <= src -> 0 <= n -> alias_map m dst src n = (ok, m') ->
  map_ok m'.
Proof.
  intros Hm Hd Hs Hn. unfold alias_map. case_if; [by intros [= <- <-]|].
  apply orb_false_iff in Heqb as [Heqb Hr2]. apply orb_false_iff in Heqb as [Hz Hr1].
  apply negb_false_iff, in_range_spec in Hr1, Hr2. bool_facts.
  rewrite kTotalSize_val in *. rewrite !u64_small by lia.
  case_if; [by intros [= <- <-]|]. case_if; [by intros [= <- <-]|]. intros [= <- <-].
  destruct Hm as [Hl Hlive Hdead Hc Ha Hdj]. constructor; simpl; try done.
  - apply Forall_app. split; [done|]. constructor; [|constructor].
    apply andb_false_iff in Heqb. constructor; simpl; rewrite ?kTotalSize_val; try lia.
  - rename Heqb0 into Hex. clear Heqb.
    induction Hdj as [|a l Hal Hdj IH]; simpl; [by repeat constructor|].
    apply Forall_cons in Ha as [Ha1 Ha2]. simpl in Hex. apply orb_false_iff in Hex as [Hx Hex].
    constructor; [|by apply IH]. apply Forall_app. split; [done|]. constructor; [|constructor].
    destruct Ha1 as [A1 A2 A3 _]. rewrite kTotalSize_val in *. unfold overlaps in Hx.
    rewrite !u64_small in Hx by lia. unfold windows_disjoint; simpl.
    apply andb_false_iff in Hx. destruct Hx; bool_facts; lia.
Qed.

Lemma erase_dst_sub l dst l' : erase_dst l dst = Some l' -> l' `sublist_of` l.
Proof.
  revert l'. induction l as [|a l IH]; intros l'; simpl; [done|].
  case_if; [intros [= <-]; by apply sublist_cons|].
  destruct (erase_dst l dst) as [r|] eqn:E; [|done]. intros [= <-].
  by apply sublist_skip, IH.
Qed.

Lemma ordpairs_sublist {A} (R : A -> A -> Prop) l l' :
  l' `sublist_of` l -> ForallOrdPairs R l -> ForallOrdPairs R l'.
Proof.
  induction 1 as [|x l1 l2 Hs IH|x l1 l2 Hs IH]; intros Hp; [done|..];
    inversion_clear Hp as [|? ? Hx Hl]; [|by apply IH].
  constructor; [|by apply IH]. rewrite Forall_forall in *. intros y Hy. apply Hx.
  by eapply elem_of_sublist.
Qed.

Lemma alias_unmap_ok m dst ok m' :
  map_ok m -> alias_unmap m dst = (ok, m') -> map_ok m'.
Proof.
  intros Hm. unfold alias_unmap. destruct (erase_dst _ dst) as [l|] eqn:E; [|by intros [= <- <-]].
  intros [= <- <-]. apply erase_dst_sub in E. destruct Hm as [Hl Hlive Hdead Hc Ha Hdj].
  constructor; simpl; try done; [|by eapply ordpairs_sublist].
  rewrite Forall_forall in *. intros a Hin. apply Ha. by eapply elem_of_sublist.
Qed.

Lemma reserve_ok m ok m' : map_ok m -> reserve m = (ok, m') -> map_ok m'.
Proof.
  intros Hm. unfold reserve. case_if; [by intros [= <- <-]|]. case_if; [by intros [= <- <-]|].
  intros [= <- <-]. constructor; simpl; try done.
  - intros p. by rewrite sv_nz_assign.
  - intros p _. apply (mo_dead _ Hm). pose proof (mo_len _ Hm) as [Hl _].
    rewrite Heqb in Hl. destruct (sv_nz (m_committed m) p) eqn:E; [|done].
    apply sv_nz_range in E. lia.
  - unfold live_count; simpl. clear. generalize (seqZ 0 (kTotalSize `div` page_size)).
    induction l as [|x l IH]; [done|]. simpl. by rewrite sv_nz_assign.
  - constructor.
Qed.

Lemma write_bytes_ok m g bs ok m' : map_ok m -> write_bytes m g bs = (ok, m') -> map_ok m'.
Proof.
  intros Hm. unfold write_bytes. case_if; intros [= <- <-]; [done|].
  destruct Hm. by constructor.
Qed.

Lemma new_map_ok : map_ok new_map.
Proof.
  constructor; simpl; try done; [|constructor].
  intros p Hp. apply sv_nz_range in Hp. simpl in Hp. lia.
Qed.

(** Any public operation, at any 64-bit arguments, whatever it returns. *)
Inductive map_step (m : memmap) : memmap -> Prop :=
  | st_reserve ok m' : reserve m = (ok, m') -> map_step m m'
  | st_commit_page g ok m' : 0 <= g -> commit_page m g = (ok, m') -> map_step m m'
  | st_commit g n ok m' : 0 <= g -> commit_range m g n = (ok, m') -> map_step m m'
  | st_protect g n pr ok m' :
      0 <= g -> 0 <= n -> protect m g n pr = (ok, m') -> map_step m m'
  | st_write g bs ok m' : write_bytes m g bs = (ok, m') -> map_step m m'
  | st_alias d s n ok m' :
      0 <= d -> 0 <= s -> 0 <= n -> alias_map m d s n = (ok, m') -> map_step m m'
  | st_unalias d ok m' : alias_unmap m d = (ok, m') -> map_step m m'.

Inductive map_reachable : memmap -> Prop :=
  | mr_new : map_reachable new_map
  | mr_step m m' : map_reachable m -> map_step m m' -> map_reachable m'.

Lemma map_step_ok m m' : map_ok m -> map_step m m' -> map_ok m'.
Proof.
  intros Hm [ok m1 E|g ok m1 Hg E|g n ok m1 Hg E|g n pr ok m1 Hg Hn E|g bs ok m1 E
    |d s n ok m1 Hd Hs Hn E|d ok m1 E].
  - by eapply reserve_ok.
  - by apply commit_page_ok in E as [? _].
  - by eapply commit_range_ok.
  - by eapply (protect_ok m g n pr).
  - by eapply write_bytes_ok.
  - by eapply (alias_map_ok m d s n).
  - by eapply alias_unmap_ok.
Qed.

(** ** Alias resolution *)

Lemma inside_test a g n :
  alias_ok a -> 0 <= g -> 0 < n ->
  ((a_dst a <=? g) && (g <? u64 (a_dst a + a_size a)) &&
   (n <=? u64 (a_dst a + a_size a - g))) = true <->
  a_dst a <= g /\ g + n <= a_dst a + a_size a.
Proof.
  intros [A1 A2 A3 _] Hg Hn. rewrite kTotalSize_val in *. rewrite !andb_true_iff.
  rewrite Z.leb_le, Z.ltb_lt, Z.leb_le, (u64_small (a_dst a + a_size a)) by lia.
  split.
  - intros [[H1 H2] H3]. rewrite u64_small in H3 by lia. lia.
  - intros [H1 H2]. rewrite u64_small by lia. lia.
Qed.

Lemma resolve_in l a g n :
  Forall alias_ok l -> ForallOrdPairs windows_disjoint l -> a ∈ l -> 0 <= g -> 0 < n ->
  a_dst a <= g -> g + n <= a_dst a + a_size a ->
  resolve l g n = a_src a + (g - a_dst a).
Proof.
  intros Hok Hd Hin Hg Hn H1 H2. induction Hd as [|b l Hb Hd IH]; [by apply elem_of_nil in Hin|].
  apply Forall_cons in Hok as [Hbok Hok]. simpl.
  destruct (_ && _) eqn:E.
  - apply inside_test in E; [|done..]. apply elem_of_cons in Hin as [->|Hin].
    + destruct Hbok as [B1 B2 B3 _]. rewrite kTotalSize_val in *. apply u64_small. lia.
    + rewrite Forall_forall in Hb. destruct (Hb _ Hin); lia.
  - apply elem_of_cons in Hin as [->|Hin]; [|by apply IH].
    apply not_true_iff_false in E. destruct E. by apply inside_test.
Qed.

Lemma resolve_out l g n :
  Forall alias_ok l -> 0 <= g -> 0 < n ->
  (forall a, a ∈ l -> ~ (a_dst a <= g /\ g + n <= a_dst a + a_size a)) ->
  resolve l g n = g.
Proof.
  intros Hok Hg Hn. induction Hok as [|a l Ha Hok IH]; intros Hno; simpl; [done|].
  destruct (_ && _) eqn:E.
  - apply inside_test in E; [|done..]. by destruct (Hno a (list_elem_of_here _ _)).
  - apply IH. intros b Hb. apply Hno. by right.
Qed.

Lemma resolve_cases l g n :
  Forall alias_ok l -> 0 <= g -> 0 < n ->
  resolve l g n = g \/
  exists a, a ∈ l /\ a_dst a <= g /\ g + n <= a_dst a + a_size a /\
    resolve l g n = a_src a + (g - a_dst a).
Proof.
  intros Hok Hg Hn. induction Hok as [|a l Ha Hok IH]; simpl; [by left|].
  destruct (_ && _) eqn:E.
  - apply inside_test in E; [|done..]. right. exists a.
    destruct Ha as [A1 A2 A3 _]. rewrite kTotalSize_val in *.
    rewrite u64_small by lia. split_and!; [left|..]; lia || done.
  - destruct IH as [?|(b & Hb & Hr)]; [by left|]. right. exists b. split; [by right|done].
Qed.

Lemma backing_in_range m g n :
  map_ok m -> 0 <= g -> 0 < n -> in_range g n = true ->
  0 <= resolve_alias m g n /\ in_range (resolve_alias m g n) n = true.
Proof.
  intros Hm Hg Hn Hr. unfold resolve_alias.
  destruct (resolve_cases _ g n (mo_alias _ Hm) Hg Hn) as [->|(a & Ha & H1 & H2 & ->)]; [done|].
  pose proof (mo_alias _ Hm) as Hok. rewrite Forall_forall in Hok.
  destruct (Hok a Ha) as [A1 A2 A3 _]. rewrite in_range_spec. lia.
Qed.

(** A page test of the flags over a backing range is a test of the host's
    page table over its bytes. *)
Lemma pages_iff_bytes (test : memmap -> Z -> bool) (good : Z -> Prop) m g n :
  0 < n ->
  (forall a, test m a = true <-> good (os_of m (a `div` page_size))) ->
  forallb (test m) (range_pages g n) = true <->
  forall b, g <= b < g + n -> good (os_of m (b `div` page_size)).
Proof.
  intros Hn Ht. pose proof mpage_size_pos. split.
  - intros H0 b Hb. pose proof (byte_page_visited b g n Hb) as Hv.
    apply (forallb_elem _ _ _ H0), Ht in Hv.
    by rewrite Z.mul_comm, Z.div_mul in Hv by lia.
  - intros H0. apply forallb_intro. intros a Ha. apply Ht.
    destruct (range_pages_index a g n Hn Ha) as (b & Hb & ->). by apply H0.
Qed.

Lemma page_readable_iff m a :
  map_ok m -> page_readable m a = true <-> os_of m (a `div` page_size) <> PROT_NONE.
Proof.
  intros Hm. unfold page_readable. destruct (sv_nz _ _) eqn:E; simpl.
  - destruct (mo_live _ Hm _ E) as (pr & -> & ->). by destruct pr.
  - by rewrite (mo_dead _ Hm _ E).
Qed.

Lemma page_writable_iff m a :
  map_ok m -> page_writable m a = true <-> os_of m (a `div` page_size) = PROT_RW.
Proof.
  intros Hm. unfold page_writable. destruct (sv_nz _ _) eqn:E; simpl.
  - destruct (mo_live _ Hm _ E) as (pr & -> & ->). by destruct pr.
  - by rewrite (mo_dead _ Hm _ E).
Qed.

Lemma accessible_iff test good m g n :
  map_ok m -> m_base m = true -> 0 <= g -> 0 < n -> in_range g n = true ->
  (forall a, test m a = true <-> good (os_of m (a `div` page_size))) ->
  accessible test m g n = true <->
  forall b, resolve_alias m g n <= b < resolve_alias m g n + n ->
    good (os_of m (b `div` page_size)).
Proof.
  intros Hm Hb Hg Hn Hr Ht. unfold accessible. rewrite Hb, Hr.
  destruct (backing_in_range m g n Hm Hg Hn Hr) as [_ ->].
  replace (n =? 0) with false by lia. simpl. by apply pages_iff_bytes.
Qed.

Lemma reachable_ok m : map_reachable m -> map_ok m.
Proof. induction 1; eauto using new_map_ok, map_step_ok. Qed.

(** C27. In every state of the 16 GiB map reachable by any sequence of public
    calls (failed mprotect calls included), the protection recorded for each
    committed page is the one the host enforces, uncommitted pages are
    PROT_NONE, the page counter counts the committed pages, and alias windows
    are in range, never overlap their source and never overlap each other. *)
Theorem map_flags_mirror_host m : map_reachable m -> map_ok m.
Proof. apply reachable_ok. Qed.

(** C28. The software checks are exact: in a reachable state, [is_readable] is
    true for an in-range access exactly when the host lets every byte it
    resolves to be read, [is_writable] exactly when the host lets every such
    byte be written, and the resolved bytes lie inside the mapping. So no
    checked access faults and none is refused without cause. *)
Theorem map_checks_are_exact m g n :
  map_reachable m -> m_base m = true -> 0 <= g -> 0 < n -> g + n <= kTotalSize ->
  let backing := resolve_alias m g n in
  0 <= backing /\ backing + n <= kTotalSize /\
  (is_readable m g n = true <->
   forall b, backing <= b < backing + n -> os_of m (b `div` page_size) <> PROT_NONE) /\
  (is_writable m g n = true <->
   forall b, backing <= b < backing + n -> os_of m (b `div` page_size) = PROT_RW).
Proof.
  intros Hr Hb Hg Hn Ht backing.
  assert (Hm : map_ok m) by by apply reachable_ok.
  assert (Hin : in_range g n = true) by (apply in_range_spec; lia).
  destruct (backing_in_range m g n Hm Hg Hn Hin) as [H0 H1]. apply in_range_spec in H1.
  split_and!; [done|apply H1|..].
  - apply (accessible_iff page_readable (fun p => p <> PROT_NONE)); auto using page_readable_iff.
  - apply (accessible_iff page_writable (fun p => p = PROT_RW)); auto using page_writable_iff.
Qed.

Lemma resolve_window m a o n :
  map_ok m -> a ∈ m_aliases m -> 0 <= o -> 0 < n -> o + n <= a_size a ->
  resolve_alias m (a_dst a + o) n = a_src a + o.
Proof.
  intros Hm Ha Ho Hn Hs. pose proof (mo_alias _ Hm) as Hok.
  pose proof Hok as Hok'. rewrite Forall_forall in Hok'. destruct (Hok' a Ha) as [A1 A2 A3 _].
  unfold resolve_alias. rewrite (resolve_in _ a); try done; try apply Hm; lia.
Qed.

(** An alias window and its source are the same memory: for any range
    inside the window whose source is not itself an alias window, reads give
    the same result (bytes or refusal) at either address, and a store through
    either address is read back through both. *)
Theorem alias_window_mirrors m a o bs :
  map_ok m -> a ∈ m_aliases m -> 0 <= o -> 0 < zlen bs -> o + zlen bs <= a_size a ->
  resolve_alias m (a_src a + o) (zlen bs) = a_src a + o ->
  read_bytes m (a_dst a + o) (zlen bs) = read_bytes m (a_src a + o) (zlen bs) /\
  (forall m', write_bytes m (a_dst a + o) bs = (true, m') \/
              write_bytes m (a_src a + o) bs = (true, m') ->
   read_bytes m' (a_dst a + o) (zlen bs) = Some bs /\
   read_bytes m' (a_src a + o) (zlen bs) = Some bs).
Proof.
  intros Hm Ha Ho Hn Hs Hsrc. pose proof (resolve_window m a o _ Hm Ha Ho Hn Hs) as Hdst.
  pose proof (mo_alias _ Hm) as Hok. rewrite Forall_forall in Hok.
  destruct (Hok a Ha) as [A1 A2 A3 _].
  assert (Hin : forall x, 0 <= x -> x + a_size a <= kTotalSize -> in_range (x + o) (zlen bs) = true).
  { intros x Hx Hx'. apply in_range_spec. lia. }
  pose proof (Hin _ (proj1 A2) (proj2 A2)) as R1. pose proof (Hin _ (proj1 A3) (proj2 A3)) as R2.
  assert (Hrd : forall m' g, m_base m' = m_base m -> m_aliases m' = m_aliases m ->
    m_committed m' = m_committed m -> m_prot m' = m_prot m ->
    resolve_alias m g (zlen bs) = a_src a + o -> in_range g (zlen bs) = true ->
    read_bytes m' g (zlen bs) =
      if m_base m && forallb (page_readable m) (range_pages (a_src a + o) (zlen bs))
      then Some (mem_read (m_bytes m') (a_src a + o) (zlen bs)) else None).
  { intros m' g E1 E2 E3 E4 Hg Hgr. unfold read_bytes, is_readable, accessible.
    assert (Hres : resolve_alias m' g (zlen bs) = a_src a + o) by (unfold resolve_alias in *; by rewrite E2).
    rewrite E1, Hgr, Hres, R2. replace (zlen bs =? 0) with false by lia.
    destruct (m_base m); simpl; [|done]. unfold page_readable. rewrite E3, E4.
    by destruct (forallb _ _). }
  split; [by rewrite !(Hrd m)|].
  intros m' Hw.
  assert (Hm' : m' = set_mbytes m (mem_write (m_bytes m) (a_src a + o) bs) /\
    m_base m && forallb (page_writable m) (range_pages (a_src a + o) (zlen bs)) = true).
  { destruct Hw as [Hw|Hw]; unfold write_bytes, is_writable, accessible in Hw;
      rewrite ?Hdst, ?Hsrc, ?R1, ?R2 in Hw; replace (zlen bs =? 0) with false in Hw by lia;
      destruct (m_base m); simpl in Hw; try done;
      destruct (forallb (page_writable m) _); simpl in Hw; try done;
      by injection Hw as <-. }
  destruct Hm' as [-> Hwr]. apply andb_true_iff in Hwr as [Hb Hwr].
  assert (Hrr : forallb (page_readable m) (range_pages (a_src a + o) (zlen bs)) = true).
  { apply forallb_intro. intros p Hp. apply page_readable_iff; [done|].
    apply (forallb_elem _ _ _ Hwr) in Hp. apply page_writable_iff in Hp; [|done]. by rewrite Hp. }
  split; rewrite Hrd by done; rewrite Hb, Hrr; simpl; by rewrite mem_read_write.
Qed.

(** Redirection is all or nothing: an access that meets an alias window but
    is not contained in it is not redirected at all, so it reads and writes
    the window's own backing bytes, not the source's. *)
Theorem straddling_access_bypasses_alias m a g n :
  map_ok m -> a ∈ m_aliases m -> 0 <= g -> 0 < n ->
  g < a_dst a + a_size a -> a_dst a < g + n ->
  g < a_dst a \/ a_dst a + a_size a < g + n ->
  resolve_alias m g n = g.
Proof.
  intros Hm Ha Hg Hn H1 H2 H3. apply resolve_out; [apply Hm|done..|].
  intros b Hb [H4 H5]. pose proof (mo_disj _ Hm) as Hd.
  assert (Hab : a = b \/ windows_disjoint a b \/ windows_disjoint b a).
  { destruct (ForallOrdPairs_In Hd a b) as [?|?]; auto; by apply list_elem_of_In. }
  destruct Hab as [->|[[?|?]|[?|?]]]; lia.
Qed.

End invariant.

(** ** A concrete map *)

Definition run_ops (m : memmap) (ops : list (memmap -> bool * memmap)) : memmap :=
  foldl (fun m f => snd (f m)) m ops.

(** The map the program starts with. *)
Definition reserved : memmap := snd (reserve new_map).

Lemma reserved_reachable : map_reachable reserved.
Proof. eapply mr_step; [apply mr_new|]. by eapply (st_reserve _ true). Qed.

(** Two pages at 0x100000 committed, the first mirrored at 0x400000. *)
Definition demo_map : memmap :=
  run_ops new_map
    [reserve; fun m => commit_range m 0x100000 8192; fun m => alias_map m 0x400000 0x100000 4096].

Definition demo_alias : Alias := MkAlias 0x400000 0x100000 4096.

Lemma demo_reachable : map_reachable demo_map.
Proof.
  assert (E : forall ops m, map_reachable m ->
    Forall (fun f => forall m, map_step m (snd (f m))) ops -> map_reachable (run_ops m ops)).
  { induction ops as [|f ops IH]; intros m Hr Hf; [done|]. apply Forall_cons in Hf as [Hf Hops].
    apply IH; [|done]. by econstructor. }
  apply E; [constructor|]. repeat constructor; intros m.
  - destruct (reserve m) as [ok m'] eqn:?. by eapply st_reserve.
  - destruct (commit_range m _ _) as [ok m'] eqn:?. by eapply st_commit; [|done].
  - destruct (alias_map m _ _ _) as [ok m'] eqn:?. by eapply st_alias; [..|done].
Qed.

Lemma demo_page_bits : page_bits <= 34.
Proof. simpl. lia. Qed.

Lemma demo_map_ok : map_ok demo_map.
Proof. apply (reachable_ok demo_page_bits), demo_reachable. Qed.

Lemma map_flags_mirror_host_witness : map_ok demo_map /\ m_pages demo_map = 2.
Proof.
  split; [|reflexivity]. apply (map_flags_mirror_host demo_page_bits), demo_reachable.
Defined.

Lemma map_checks_are_exact_witness :
  is_writable demo_map 0x400010 16 = true /\
  (is_readable demo_map 0x400010 16 = true <->
   forall b, 0x100010 <= b < 0x100010 + 16 -> os_of demo_map (b `div` page_size) <> PROT_NONE).
Proof.
  split; [reflexivity|].
  apply (map_checks_are_exact demo_page_bits demo_map 0x400010 16 demo_reachable eq_refl);
    rewrite ?kTotalSize_val; lia.
Defined.

Lemma alias_window_mirrors_witness :
  read_bytes (snd (write_bytes demo_map 0x400010 [1; 2; 3])) 0x100010 3 = Some [1; 2; 3].
Proof.
  apply (alias_window_mirrors demo_map demo_alias 0x10 [1; 2; 3]).
  - apply demo_map_ok.
  - by left.
  - lia.
  - simpl; lia.
  - simpl; lia.
  - reflexivity.
  - left. vm_compute. reflexivity.
Defined.

Lemma straddling_access_bypasses_alias_witness : resolve_alias demo_map 0x400FFE 4 = 0x400FFE.
Proof.
  apply (straddling_access_bypasses_alias demo_map demo_alias 0x400FFE 4 demo_map_ok);
    [by left|unfold demo_alias; simpl a_dst; simpl a_size; lia..].
Defined.

End MemMap.
