(* ===== verification/KrnlExports.v ===== *)
(** The kernel export table ([kExports], src/xbox_krnl_exports.inc) and the
    sets of exports the kernel serves (src/xbox_krnl.cpp). *)
From stdpp Require Import base numbers list gmap strings.
From Stdlib Require Import ZArith Lia.
From S2P Require Import Prelude.
Open Scope Z_scope.

Module KrnlExports.

(** Calling conventions, [enum class Conv]. *)
Inductive Conv := Stdcall | Fastcall | Cdecl | Data.

#[export] Instance Conv_eq_dec : EqDecision Conv.
Proof. solve_decision. Defined.

Record Export := MkExport {
  x_ordinal : Z;
  x_name : string;
  x_conv : Conv;
  x_arg_bytes : Z;
}.

Definition kExports_1 : list Export := [
    MkExport 1 "AvGetSavedDataAddress" Stdcall 0;
    MkExport 2 "AvSendTVEncoderOption" Stdcall 16;
    MkExport 3 "AvSetDisplayMode" Stdcall 24;
    MkExport 4 "AvSetSavedDataAddress" Stdcall 4;
    MkExport 5 "DbgBreakPoint" Stdcall 0;
    MkExport 6 "DbgBreakPointWithStatus" Stdcall 4;
    MkExport 7 "DbgLoadImageSymbols" Stdcall 12;
    MkExport 8 "DbgPrint" Cdecl 0;
    MkExport 9 "HalReadSMCTrayState" Stdcall 8;
    MkExport 10 "DbgPrompt" Stdcall 12;
    MkExport 11 "DbgUnLoadImageSymbols" Stdcall 12;
    MkExport 12 "ExAcquireReadWriteLockExclusive" Stdcall 4;
    MkExport 13 "ExAcquireReadWriteLockShared" Stdcall 4;
    MkExport 14 "ExAllocatePool" Stdcall 4;
    MkExport 15 "ExAllocatePoolWithTag" Stdcall 8;
    MkExport 16 "ExEventObjectType" Data 0;
    MkExport 17 "ExFreePool" Stdcall 4;
    MkExport 18 "ExInitializeReadWriteLock" Stdcall 4;
    MkExport 19 "ExInterlockedAddLargeInteger" Stdcall 16;
    MkExport 20 "ExInterlockedAddLargeStatistic" Fastcall 8;
    MkExport 21 "ExInterlockedCompareExchange64" Fastcall 12;
    MkExport 22 "ExMutantObjectType" Data 0;
    MkExport 23 "ExQueryPoolBlockSize" Stdcall 4;
    MkExport 24 "ExQueryNonVolatileSetting" Stdcall 20;
    MkExport 25 "ExReadWriteRefurbInfo" Stdcall 12;
    MkExport 26 "ExRaiseException" Stdcall 4;
    MkExport 27 "ExRaiseStatus" Stdcall 4;
    MkExport 28 "ExReleaseReadWriteLock" Stdcall 4;
    MkExport 29 "ExSaveNonVolatileSetting" Stdcall 16;
    MkExport 30 "ExSemaphoreObjectType" Data 0;
    MkExport 31 "ExTimerObjectType" Data 0;
    MkExport 32 "ExfInterlockedInsertHeadList" Fastcall 8;
    MkExport 33 "ExfInterlockedInsertTailList" Fastcall 8;
    MkExport 34 "ExfInterlockedRemoveHeadList" Fastcall 4;
    MkExport 35 "FscGetCacheSize" Stdcall 0;
    MkExport 36 "FscInvalidateIdleBlocks" Stdcall 0;
    MkExport 37 "FscSetCacheSize" Stdcall 4;
    MkExport 38 "HalClearSoftwareInterrupt" Fastcall 4;
    MkExport 39 "HalDisableSystemInterrupt" Stdcall 4;
    MkExport 40 "HalDiskCachePartitionCount" Data 0;
    MkExport 41 "HalDiskModelNumber" Data 0;
    MkExport 42 "HalDiskSerialNumber" Data 0;
    MkExport 43 "HalEnableSystemInterrupt" Stdcall 8;
    MkExport 44 "HalGetInterruptVector" Stdcall 8;
    MkExport 45 "HalReadSMBusValue" Stdcall 16;
    MkExport 46 "HalReadWritePCISpace" Stdcall 24;
    MkExport 47 "HalRegisterShutdownNotification" Stdcall 8;
    MkExport 48 "HalRequestSoftwareInterrupt" Fastcall 4;
    MkExport 49 "HalReturnToFirmware" Stdcall 4;
    MkExport 50 "HalWriteSMBusValue" Stdcall 16;
    MkExport 51 "InterlockedCompareExchange" Fastcall 12;
    MkExport 52 "InterlockedDecrement" Fastcall 4;
    MkExport 53 "InterlockedIncrement" Fastcall 4;
    MkExport 54 "InterlockedExchange" Fastcall 8;
    MkExport 55 "InterlockedExchangeAdd" Fastcall 8;
    MkExport 56 "InterlockedFlushSList" Fastcall 4;
    MkExport 57 "InterlockedPopEntrySList" Fastcall 4;
    MkExport 58 "InterlockedPushEntrySList" Fastcall 8;
    MkExport 59 "IoAllocateIrp" Stdcall 4;
    MkExport 60 "IoBuildAsynchronousFsdRequest" Stdcall 24;
    MkExport 61 "IoBuildDeviceIoControlRequest" Stdcall 36;
    MkExport 62 "IoBuildSynchronousFsdRequest" Stdcall 28;
    MkExport 63 "IoCheckShareAccess" Stdcall 20;
    MkExport 64 "IoCompletionObjectType" Data 0;
    MkExport 65 "IoCreateDevice" Stdcall 24;
    MkExport 66 "IoCreateFile" Stdcall 40;
    MkExport 67 "IoCreateSymbolicLink" Stdcall 8;
    MkExport 68 "IoDeleteDevice" Stdcall 4;
    MkExport 69 "IoDeleteSymbolicLink" Stdcall 4;
    MkExport 70 "IoDeviceObjectType" Data 0;
    MkExport 71 "IoFileObjectType" Data 0;
    MkExport 72 "IoFreeIrp" Stdcall 4;
    MkExport 73 "IoInitializeIrp" Stdcall 12;
    MkExport 74 "IoInvalidDeviceRequest" Stdcall 8;
    MkExport 75 "IoQueryFileInformation" Stdcall 20;
    MkExport 76 "IoQueryVolumeInformation" Stdcall 20;
    MkExport 77 "IoQueueThreadIrp" Stdcall 4;
    MkExport 78 "IoRemoveShareAccess" Stdcall 8;
    MkExport 79 "IoSetIoCompletion" Stdcall 20;
    MkExport 80 "IoSetShareAccess" Stdcall 16;
    MkExport 81 "IoStartNextPacket" Stdcall 4;
    MkExport 82 "IoStartNextPacketByKey" Stdcall 8;
    MkExport 83 "IoStartPacket" Stdcall 12;
    MkExport 84 "IoSynchronousDeviceIoControlRequest" Stdcall 32;
    MkExport 85 "IoSynchronousFsdRequest" Stdcall 20;
    MkExport 86 "IofCallDriver" Fastcall 8;
    MkExport 87 "IofCompleteRequest" Fastcall 8;
    MkExport 88 "KdDebuggerEnabled" Data 0;
    MkExport 89 "KdDebuggerNotPresent" Data 0;
    MkExport 90 "IoDismountVolume" Stdcall 4;
    MkExport 91 "IoDismountVolumeByName" Stdcall 4;
    MkExport 92 "KeAlertResumeThread" Stdcall 4;
    MkExport 93 "KeAlertThread" Stdcall 8;
    MkExport 94 "KeBoostPriorityThread" Stdcall 8;
    MkExport 95 "KeBugCheck" Stdcall 4;
    MkExport 96 "KeBugCheckEx" Stdcall 20;
    MkExport 97 "KeCancelTimer" Stdcall 4;
    MkExport 98 "KeConnectInterrupt" Stdcall 4;
    MkExport 99 "KeDelayExecutionThread" Stdcall 12;
    MkExport 100 "KeDisconnectInterrupt" Stdcall 4;
    MkExport 101 "KeEnterCriticalRegion" Stdcall 0;
    MkExport 102 "MmGlobalData" Data 0;
    MkExport 103 "KeGetCurrentIrql" Stdcall 0;
    MkExport 104 "KeGetCurrentThread" Stdcall 0;
    MkExport 105 "KeInitializeApc" Stdcall 28;
    MkExport 106 "KeInitializeDeviceQueue" Stdcall 4;
    MkExport 107 "KeInitializeDpc" Stdcall 12;
    MkExport 108 "KeInitializeEvent" Stdcall 12;
    MkExport 109 "KeInitializeInterrupt" Stdcall 28;
    MkExport 110 "KeInitializeMutant" Stdcall 8;
    MkExport 111 "KeInitializeQueue" Stdcall 8;
    MkExport 112 "KeInitializeSemaphore" Stdcall 12;
    MkExport 113 "KeInitializeTimerEx" Stdcall 8;
    MkExport 114 "KeInsertByKeyDeviceQueue" Stdcall 12;
    MkExport 115 "KeInsertDeviceQueue" Stdcall 8;
    MkExport 116 "KeInsertHeadQueue" Stdcall 8;
    MkExport 117 "KeInsertQueue" Stdcall 8;
    MkExport 118 "KeInsertQueueApc" Stdcall 16;
    MkExport 119 "KeInsertQueueDpc" Stdcall 12;
    MkExport 120 "KeInterruptTime" Data 0;
    MkExport 121 "KeIsExecutingDpc" Stdcall 0;
    MkExport 122 "KeLeaveCriticalRegion" Stdcall 0;
    MkExport 123 "KePulseEvent" Stdcall 12;
    MkExport 124 "KeQueryBasePriorityThread" Stdcall 4;
    MkExport 125 "KeQueryInterruptTime" Stdcall 0;
    MkExport 126 "KeQueryPerformanceCounter" Stdcall 0;
    MkExport 127 "KeQueryPerformanceFrequency" Stdcall 0;
    MkExport 128 "KeQuerySystemTime" Stdcall 4;
    MkExport 129 "KeRaiseIrqlToDpcLevel" Stdcall 0;
    MkExport 130 "KeRaiseIrqlToSynchLevel" Stdcall 0;
    MkExport 131 "KeReleaseMutant" Stdcall 16;
    MkExport 132 "KeReleaseSemaphore" Stdcall 16;
    MkExport 133 "KeRemoveByKeyDeviceQueue" Stdcall 8;
    MkExport 134 "KeRemoveDeviceQueue" Stdcall 4;
    MkExport 135 "KeRemoveEntryDeviceQueue" Stdcall 8;
    MkExport 136 "KeRemoveQueue" Stdcall 12;
    MkExport 137 "KeRemoveQueueDpc" Stdcall 4;
    MkExport 138 "KeResetEvent" Stdcall 4;
    MkExport 139 "KeRestoreFloatingPointState" Stdcall 4;
    MkExport 140 "KeResumeThread" Stdcall 4;
    MkExport 141 "KeRundownQueue" Stdcall 4;
    MkExport 142 "KeSaveFloatingPointState" Stdcall 4;
    MkExport 143 "KeSetBasePriorityThread" Stdcall 8;
    MkExport 144 "KeSetDisableBoostThread" Stdcall 8;
    MkExport 145 "KeSetEvent" Stdcall 12;
    MkExport 146 "KeSetEventBoostPriority" Stdcall 8;
    MkExport 147 "KeSetPriorityProcess" Stdcall 8;
    MkExport 148 "KeSetPriorityThread" Stdcall 8;
    MkExport 149 "KeSetTimer" Stdcall 16;
    MkExport 150 "KeSetTimerEx" Stdcall 20].

Definition kExports_2 : list Export := [
    MkExport 151 "KeStallExecutionProcessor" Stdcall 4;
    MkExport 152 "KeSuspendThread" Stdcall 4;
    MkExport 153 "KeSynchronizeExecution" Stdcall 12;
    MkExport 154 "KeSystemTime" Data 0;
    MkExport 155 "KeTestAlertThread" Stdcall 4;
    MkExport 156 "KeTickCount" Data 0;
    MkExport 157 "KeTimeIncrement" Data 0;
    MkExport 158 "KeWaitForMultipleObjects" Stdcall 32;
    MkExport 159 "KeWaitForSingleObject" Stdcall 20;
    MkExport 160 "KfRaiseIrql" Fastcall 4;
    MkExport 161 "KfLowerIrql" Fastcall 4;
    MkExport 162 "KiBugCheckData" Data 0;
    MkExport 163 "KiUnlockDispatcherDatabase" Fastcall 4;
    MkExport 164 "LaunchDataPage" Data 0;
    MkExport 165 "MmAllocateContiguousMemory" Stdcall 4;
    MkExport 166 "MmAllocateContiguousMemoryEx" Stdcall 20;
    MkExport 167 "MmAllocateSystemMemory" Stdcall 8;
    MkExport 168 "MmClaimGpuInstanceMemory" Stdcall 8;
    MkExport 169 "MmCreateKernelStack" Stdcall 8;
    MkExport 170 "MmDeleteKernelStack" Stdcall 8;
    MkExport 171 "MmFreeContiguousMemory" Stdcall 4;
    MkExport 172 "MmFreeSystemMemory" Stdcall 8;
    MkExport 173 "MmGetPhysicalAddress" Stdcall 4;
    MkExport 174 "MmIsAddressValid" Stdcall 4;
    MkExport 175 "MmLockUnlockBufferPages" Stdcall 12;
    MkExport 176 "MmLockUnlockPhysicalPage" Stdcall 8;
    MkExport 177 "MmMapIoSpace" Stdcall 12;
    MkExport 178 "MmPersistContiguousMemory" Stdcall 12;
    MkExport 179 "MmQueryAddressProtect" Stdcall 4;
    MkExport 180 "MmQueryAllocationSize" Stdcall 4;
    MkExport 181 "MmQueryStatistics" Stdcall 4;
    MkExport 182 "MmSetAddressProtect" Stdcall 12;
    MkExport 183 "MmUnmapIoSpace" Stdcall 8;
    MkExport 184 "NtAllocateVirtualMemory" Stdcall 20;
    MkExport 185 "NtCancelTimer" Stdcall 8;
    MkExport 186 "NtClearEvent" Stdcall 4;
    MkExport 187 "NtClose" Stdcall 4;
    MkExport 188 "NtCreateDirectoryObject" Stdcall 8;
    MkExport 189 "NtCreateEvent" Stdcall 16;
    MkExport 190 "NtCreateFile" Stdcall 36;
    MkExport 191 "NtCreateIoCompletion" Stdcall 16;
    MkExport 192 "NtCreateMutant" Stdcall 12;
    MkExport 193 "NtCreateSemaphore" Stdcall 16;
    MkExport 194 "NtCreateTimer" Stdcall 12;
    MkExport 195 "NtDeleteFile" Stdcall 4;
    MkExport 196 "NtDeviceIoControlFile" Stdcall 40;
    MkExport 197 "NtDuplicateObject" Stdcall 12;
    MkExport 198 "NtFlushBuffersFile" Stdcall 8;
    MkExport 199 "NtFreeVirtualMemory" Stdcall 12;
    MkExport 200 "NtFsControlFile" Stdcall 40;
    MkExport 201 "NtOpenDirectoryObject" Stdcall 8;
    MkExport 202 "NtOpenFile" Stdcall 24;
    MkExport 203 "NtOpenSymbolicLinkObject" Stdcall 8;
    MkExport 204 "NtProtectVirtualMemory" Stdcall 16;
    MkExport 205 "NtPulseEvent" Stdcall 8;
    MkExport 206 "NtQueueApcThread" Stdcall 20;
    MkExport 207 "NtQueryDirectoryFile" Stdcall 40;
    MkExport 208 "NtQueryDirectoryObject" Stdcall 24;
    MkExport 209 "NtQueryEvent" Stdcall 8;
    MkExport 210 "NtQueryFullAttributesFile" Stdcall 8;
    MkExport 211 "NtQueryInformationFile" Stdcall 20;
    MkExport 212 "NtQueryIoCompletion" Stdcall 8;
    MkExport 213 "NtQueryMutant" Stdcall 8;
    MkExport 214 "NtQuerySemaphore" Stdcall 8;
    MkExport 215 "NtQuerySymbolicLinkObject" Stdcall 12;
    MkExport 216 "NtQueryTimer" Stdcall 8;
    MkExport 217 "NtQueryVirtualMemory" Stdcall 8;
    MkExport 218 "NtQueryVolumeInformationFile" Stdcall 20;
    MkExport 219 "NtReadFile" Stdcall 32;
    MkExport 220 "NtReadFileScatter" Stdcall 32;
    MkExport 221 "NtReleaseMutant" Stdcall 8;
    MkExport 222 "NtReleaseSemaphore" Stdcall 12;
    MkExport 223 "NtRemoveIoCompletion" Stdcall 20;
    MkExport 224 "NtResumeThread" Stdcall 8;
    MkExport 225 "NtSetEvent" Stdcall 8;
    MkExport 226 "NtSetInformationFile" Stdcall 20;
    MkExport 227 "NtSetIoCompletion" Stdcall 20;
    MkExport 228 "NtSetSystemTime" Stdcall 8;
    MkExport 229 "NtSetTimerEx" Stdcall 32;
    MkExport 230 "NtSignalAndWaitForSingleObjectEx" Stdcall 20;
    MkExport 231 "NtSuspendThread" Stdcall 8;
    MkExport 232 "NtUserIoApcDispatcher" Stdcall 12;
    MkExport 233 "NtWaitForSingleObject" Stdcall 12;
    MkExport 234 "NtWaitForSingleObjectEx" Stdcall 16;
    MkExport 235 "NtWaitForMultipleObjectsEx" Stdcall 24;
    MkExport 236 "NtWriteFile" Stdcall 32;
    MkExport 237 "NtWriteFileGather" Stdcall 32;
    MkExport 238 "NtYieldExecution" Stdcall 0;
    MkExport 239 "ObCreateObject" Stdcall 16;
    MkExport 240 "ObDirectoryObjectType" Data 0;
    MkExport 241 "ObInsertObject" Stdcall 16;
    MkExport 242 "ObMakeTemporaryObject" Stdcall 4;
    MkExport 243 "ObOpenObjectByName" Stdcall 16;
    MkExport 244 "ObOpenObjectByPointer" Stdcall 12;
    MkExport 245 "ObpObjectHandleTable" Data 0;
    MkExport 246 "ObReferenceObjectByHandle" Stdcall 12;
    MkExport 247 "ObReferenceObjectByName" Stdcall 20;
    MkExport 248 "ObReferenceObjectByPointer" Stdcall 8;
    MkExport 249 "ObSymbolicLinkObjectType" Data 0;
    MkExport 250 "ObfDereferenceObject" Fastcall 4;
    MkExport 251 "ObfReferenceObject" Fastcall 4;
    MkExport 252 "PhyGetLinkState" Stdcall 4;
    MkExport 253 "PhyInitialize" Stdcall 8;
    MkExport 254 "PsCreateSystemThread" Stdcall 20;
    MkExport 255 "PsCreateSystemThreadEx" Stdcall 40;
    MkExport 256 "PsQueryStatistics" Stdcall 4;
    MkExport 257 "PsSetCreateThreadNotifyRoutine" Stdcall 4;
    MkExport 258 "PsTerminateSystemThread" Stdcall 4;
    MkExport 259 "PsThreadObjectType" Data 0;
    MkExport 260 "RtlAnsiStringToUnicodeString" Stdcall 12;
    MkExport 261 "RtlAppendStringToString" Stdcall 8;
    MkExport 262 "RtlAppendUnicodeStringToString" Stdcall 8;
    MkExport 263 "RtlAppendUnicodeToString" Stdcall 8;
    MkExport 264 "RtlAssert" Stdcall 16;
    MkExport 265 "RtlCaptureContext" Stdcall 4;
    MkExport 266 "RtlCaptureStackBackTrace" Stdcall 16;
    MkExport 267 "RtlCharToInteger" Stdcall 12;
    MkExport 268 "RtlCompareMemory" Stdcall 12;
    MkExport 269 "RtlCompareMemoryUlong" Stdcall 12;
    MkExport 270 "RtlCompareString" Stdcall 12;
    MkExport 271 "RtlCompareUnicodeString" Stdcall 12;
    MkExport 272 "RtlCopyString" Stdcall 8;
    MkExport 273 "RtlCopyUnicodeString" Stdcall 8;
    MkExport 274 "RtlCreateUnicodeString" Stdcall 8;
    MkExport 275 "RtlDowncaseUnicodeChar" Stdcall 4;
    MkExport 276 "RtlDowncaseUnicodeString" Stdcall 12;
    MkExport 277 "RtlEnterCriticalSection" Stdcall 4;
    MkExport 278 "RtlEnterCriticalSectionAndRegion" Stdcall 4;
    MkExport 279 "RtlEqualString" Stdcall 12;
    MkExport 280 "RtlEqualUnicodeString" Stdcall 12;
    MkExport 281 "RtlExtendedIntegerMultiply" Stdcall 12;
    MkExport 282 "RtlExtendedLargeIntegerDivide" Stdcall 16;
    MkExport 283 "RtlExtendedMagicDivide" Stdcall 20;
    MkExport 284 "RtlFillMemory" Stdcall 12;
    MkExport 285 "RtlFillMemoryUlong" Stdcall 12;
    MkExport 286 "RtlFreeAnsiString" Stdcall 4;
    MkExport 287 "RtlFreeUnicodeString" Stdcall 4;
    MkExport 288 "RtlGetCallersAddress" Stdcall 8;
    MkExport 289 "RtlInitAnsiString" Stdcall 8;
    MkExport 290 "RtlInitUnicodeString" Stdcall 8;
    MkExport 291 "RtlInitializeCriticalSection" Stdcall 4;
    MkExport 292 "RtlIntegerToChar" Stdcall 16;
    MkExport 293 "RtlIntegerToUnicodeString" Stdcall 12;
    MkExport 294 "RtlLeaveCriticalSection" Stdcall 4;
    MkExport 295 "RtlLeaveCriticalSectionAndRegion" Stdcall 4;
    MkExport 296 "RtlLowerChar" Stdcall 4;
    MkExport 297 "RtlMapGenericMask" Stdcall 8;
    MkExport 298 "RtlMoveMemory" Stdcall 12;
    MkExport 299 "RtlMultiByteToUnicodeN" Stdcall 20;
    MkExport 300 "RtlMultiByteToUnicodeSize" Stdcall 12].

Definition kExports_3 : list Export := [
    MkExport 301 "RtlNtStatusToDosError" Stdcall 4;
    MkExport 302 "RtlRaiseException" Stdcall 4;
    MkExport 303 "RtlRaiseStatus" Stdcall 4;
    MkExport 304 "RtlTimeFieldsToTime" Stdcall 8;
    MkExport 305 "RtlTimeToTimeFields" Stdcall 8;
    MkExport 306 "RtlTryEnterCriticalSection" Stdcall 4;
    MkExport 307 "RtlUlongByteSwap" Fastcall 4;
    MkExport 308 "RtlUnicodeStringToAnsiString" Stdcall 12;
    MkExport 309 "RtlUnicodeStringToInteger" Stdcall 12;
    MkExport 310 "RtlUnicodeToMultiByteN" Stdcall 20;
    MkExport 311 "RtlUnicodeToMultiByteSize" Stdcall 12;
    MkExport 312 "RtlUnwind" Stdcall 16;
    MkExport 313 "RtlUpcaseUnicodeChar" Stdcall 4;
    MkExport 314 "RtlUpcaseUnicodeString" Stdcall 12;
    MkExport 315 "RtlUpcaseUnicodeToMultiByteN" Stdcall 20;
    MkExport 316 "RtlUpperChar" Stdcall 4;
    MkExport 317 "RtlUpperString" Stdcall 8;
    MkExport 318 "RtlUshortByteSwap" Fastcall 4;
    MkExport 319 "RtlWalkFrameChain" Stdcall 12;
    MkExport 320 "RtlZeroMemory" Stdcall 8;
    MkExport 321 "XboxEEPROMKey" Data 0;
    MkExport 322 "XboxHardwareInfo" Data 0;
    MkExport 323 "XboxHDKey" Data 0;
    MkExport 324 "XboxKrnlVersion" Data 0;
    MkExport 325 "XboxSignatureKey" Data 0;
    MkExport 326 "XeImageFileName" Data 0;
    MkExport 327 "XeLoadSection" Stdcall 4;
    MkExport 328 "XeUnloadSection" Stdcall 4;
    MkExport 329 "READ_PORT_BUFFER_UCHAR" Stdcall 12;
    MkExport 330 "READ_PORT_BUFFER_USHORT" Stdcall 12;
    MkExport 331 "READ_PORT_BUFFER_ULONG" Stdcall 12;
    MkExport 332 "WRITE_PORT_BUFFER_UCHAR" Stdcall 12;
    MkExport 333 "WRITE_PORT_BUFFER_USHORT" Stdcall 12;
    MkExport 334 "WRITE_PORT_BUFFER_ULONG" Stdcall 12;
    MkExport 335 "XcSHAInit" Stdcall 4;
    MkExport 336 "XcSHAUpdate" Stdcall 12;
    MkExport 337 "XcSHAFinal" Stdcall 8;
    MkExport 338 "XcRC4Key" Stdcall 12;
    MkExport 339 "XcRC4Crypt" Stdcall 12;
    MkExport 340 "XcHMAC" Stdcall 28;
    MkExport 341 "XcPKEncPublic" Stdcall 12;
    MkExport 342 "XcPKDecPrivate" Stdcall 12;
    MkExport 343 "XcPKGetKeyLen" Stdcall 4;
    MkExport 344 "XcVerifyPKCS1Signature" Stdcall 12;
    MkExport 345 "XcModExp" Stdcall 20;
    MkExport 346 "XcDESKeyParity" Stdcall 8;
    MkExport 347 "XcKeyTable" Stdcall 12;
    MkExport 348 "XcBlockCrypt" Stdcall 20;
    MkExport 349 "XcBlockCryptCBC" Stdcall 28;
    MkExport 350 "XcCryptService" Stdcall 8;
    MkExport 351 "XcUpdateCrypto" Stdcall 8;
    MkExport 352 "RtlRip" Stdcall 12;
    MkExport 353 "XboxLANKey" Data 0;
    MkExport 354 "XboxAlternateSignatureKeys" Data 0;
    MkExport 355 "XePublicKeyData" Data 0;
    MkExport 356 "HalBootSMCVideoMode" Data 0;
    MkExport 357 "IdexChannelObject" Data 0;
    MkExport 358 "HalIsResetOrShutdownPending" Stdcall 0;
    MkExport 359 "IoMarkIrpMustComplete" Stdcall 4;
    MkExport 360 "HalInitiateShutdown" Stdcall 0;
    MkExport 361 "RtlSnprintf" Cdecl 0;
    MkExport 362 "RtlSprintf" Cdecl 0;
    MkExport 363 "RtlVsnprintf" Cdecl 0;
    MkExport 364 "RtlVsprintf" Cdecl 0;
    MkExport 365 "HalEnableSecureTrayEject" Stdcall 0;
    MkExport 366 "HalWriteSMCScratchRegister" Stdcall 4;
    MkExport 374 "MmDbgAllocateMemory" Stdcall 8;
    MkExport 375 "MmDbgFreeMemory" Stdcall 8;
    MkExport 376 "MmDbgQueryAvailablePages" Stdcall 0;
    MkExport 377 "MmDbgReleaseAddress" Stdcall 8;
    MkExport 378 "MmDbgWriteCheck" Stdcall 8].

Definition kExports : list Export := kExports_1 ++ kExports_2 ++ kExports_3.

Definition export_count : Z := zlen kExports.

Definition export_at (i : nat) : option Export := kExports !! i.

Fixpoint find_in (l : list Export) (ordinal : Z) : option Export :=
  match l with
  | [] => None
  | e :: l' => if x_ordinal e =? ordinal then Some e else find_in l' ordinal
  end.

Definition find_export (ordinal : Z) : option Export := find_in kExports ordinal.

Definition name_of (ordinal : Z) : string :=
  match find_export ordinal with Some e => x_name e | None => "<unknown>" end.

(** The [case] labels of [implemented_function] and [implemented_data]. *)
Definition function_ordinals : list Z :=
  [5; 8; 51; 52; 53; 54; 55; 99; 108; 104; 110; 112; 126; 127; 128; 131; 132; 138; 140; 143; 145; 152; 159; 165; 166; 171; 180; 186; 187; 189; 192; 193; 205; 213; 214; 221; 222; 224; 225; 231; 233; 234; 235; 238; 255; 258; 277; 284; 291; 294; 298; 305; 306; 320].

Definition implemented_function (ordinal : Z) : bool :=
  bool_decide (ordinal ∈ function_ordinals).

Definition implemented_data (ordinal : Z) : bool :=
  bool_decide (ordinal ∈ [156; 164; 324; 326]).

(** Exports that come back in EDX:EAX. *)
Definition returns_64 (ordinal : Z) : bool := (ordinal =? 126) || (ordinal =? 127).

Lemma find_in_some l o e : find_in l o = Some e -> e ∈ l /\ x_ordinal e = o.
Proof.
  induction l as [|x l IH]; simpl; [done|]. case_if.
  - intros [= <-]. bool_facts. split; [left|done].
  - intros H. destruct (IH H). split; [by right|done].
Qed.

Lemma find_in_unique l e :
  NoDup (x_ordinal <$> l) -> e ∈ l -> find_in l (x_ordinal e) = Some e.
Proof.
  induction l as [|x l IH]; simpl; [by intros _ ?%elem_of_nil|].
  intros [Hx Hnd]%NoDup_cons [->|He]%elem_of_cons; [by rewrite Z.eqb_refl|].
  case_if; [|by apply IH]. bool_facts. destruct Hx. rewrite Heqb.
  by apply list_elem_of_fmap_2.
Qed.

Lemma ordinals_unique : NoDup (x_ordinal <$> kExports).
Proof. apply (bool_decide_unpack _). by vm_compute. Qed.

Lemma find_export_spec o e : find_export o = Some e <-> e ∈ kExports /\ x_ordinal e = o.
Proof.
  split; [apply find_in_some|]. intros [He <-]. by apply find_in_unique; [apply ordinals_unique|].
Qed.

End KrnlExports.
