(* ===== verification/KrnlMm.v ===== *)
(** The contiguous memory allocator of the kernel ([XboxKrnl::mm_alloc],
    [mm_free], [mm_size], src/xbox_krnl.cpp): a first-fit scan over the live
    allocations of the pool, then commit, zero fill and protection of the
    chosen range in guest RAM. *)
From stdpp Require Import base numbers list gmap strings.
From Stdlib Require Import ZArith Lia.
From S2P Require Import Prelude XbeRam.
Open Scope Z_scope.

Module KrnlMm.
Import XbeRam.

Definition kPageReadonly : Z := 0x02.
Definition kPageReadWrite : Z := 0x04.
Definition kPageNocache : Z := 0x200.

Record MemAlloc := MkAlloc { a_va : Z; a_size : Z; a_protect : Z }.

(** A call of the memory observer: [(freed, va, size, ro)]. *)
Definition mem_event : Type := bool * Z * Z * bool.

(** The allocator's members; [mm_obs] is the trace of observer calls. *)
Record mm := MkMm {
  mm_lo : Z;
  mm_hi : Z;
  mem_allocs : list MemAlloc;
  mm_obs : list mem_event;
}.

(** [std::max] and [std::min] of uint32 values are [Z.max] and [Z.min];
    [(x + align - 1) & ~(align - 1)] in 32 bits. *)
Definition align_up32 (x align : Z) : Z := align_down (u32 (x + align - 1)) align.

Definition a_end (a : MemAlloc) : Z := u32 (a_va a + a_size a).

Definition collides (cand size : Z) (a : MemAlloc) : bool :=
  (a_va a <? u32 (cand + size)) && (cand <? a_end a).

(** The inner loop: whether anything collides, and the furthest end. *)
Definition collide_step (cand size : Z) (acc : bool * Z) (a : MemAlloc) : bool * Z :=
  if collides cand size a then (true, Z.max (snd acc) (a_end a)) else acc.

Definition collide (cand size : Z) (l : list MemAlloc) : bool * Z :=
  foldl (collide_step cand size) (false, cand) l.

(** The outer loop; [None] when the fuel runs out, [Some None] when it gives
    up with 0. *)
Fixpoint scan (fuel : nat) (l : list MemAlloc) (hi size align cand : Z) : option (option Z) :=
  match fuel with
  | O => None
  | S fuel' =>
      if (hi <? cand) || (u32 (hi - cand + 1) <? size) then Some None
      else match collide cand size l with
           | (false, _) => Some (Some cand)
           | (true, max_end) => scan fuel' l hi size align (align_up32 max_end align)
           end
  end.

(** Each iteration leaves at least one live allocation behind. *)
Definition scan_fuel (l : list MemAlloc) : nat := S (length l).

(** The alignment actually used; [None] when it is refused. *)
Definition effective_align (alignment : Z) : option Z :=
  let align := if alignment =? 0 then 4096 else alignment in
  if negb (Z.land align (u32 (align - 1)) =? 0) then None
  else Some (if align <? 4096 then 4096 else align).

(** The candidate the scan settles on ([None] for the early returns of 0). *)
Definition choose (m : mm) (size lowest highest alignment : Z) : option (option Z) :=
  if (size =? 0) || (mm_hi m <=? mm_lo m) then Some None
  else match effective_align alignment with
       | None => Some None
       | Some align =>
           let lo := Z.max (mm_lo m) lowest in
           let hi := Z.min (if highest =? 0 then mm_hi m - 1 else highest) (mm_hi m - 1) in
           if (hi <? lo) || (u32 (hi - lo + 1) <? size) then Some None
           else scan (scan_fuel (mem_allocs m)) (mem_allocs m) hi size align
                     (align_up32 lo align)
       end.

Section ops.
Context `{os : HostOS}.

Definition mm_alloc (r : ram) (m : mm) (size lowest highest alignment protect : Z)
    : outcome (Z * ram * mm) :=
  match choose m size lowest highest alignment with
  | None => Ub "the first-fit scan does not terminate"
  | Some None => Ok (0, r, m)
  | Some (Some cand) =>
      let (committed, r) := commit r cand size in
      if negb committed then Ok (0, r, m) else
      let! r := match host_ptr r cand with
                | Some p => host_memset r p 0 size
                | None => Ok r
                end in
      let base := Z.land protect (u32 (Z.lnot kPageNocache)) in
      let ro := base =? kPageReadonly in
      let r := if ro then snd (protect_ro r cand size) else r in
      Ok (cand, r, MkMm (mm_lo m) (mm_hi m) (mem_allocs m ++ [MkAlloc cand size protect])
                        (mm_obs m ++ [(false, cand, size, ro)]))
  end.

(** The first allocation that starts at [va], and the rest of the list. *)
Fixpoint take_alloc (l : list MemAlloc) (va : Z) : option (MemAlloc * list MemAlloc) :=
  match l with
  | [] => None
  | a :: l' => if a_va a =? va then Some (a, l')
               else match take_alloc l' va with
                    | Some (b, r) => Some (b, a :: r)
                    | None => None
                    end
  end.

Definition mm_free (r : ram) (m : mm) (va : Z) : bool * ram * mm :=
  match take_alloc (mem_allocs m) va with
  | None => (false, r, m)
  | Some (a, rest) =>
      let ro := a_protect a =? kPageReadonly in
      let (done, r) := uncommit r va (a_size a) in
      (true, r, MkMm (mm_lo m) (mm_hi m) rest
                  (if done then mm_obs m ++ [(true, va, a_size a, ro)] else mm_obs m))
  end.

Fixpoint size_in (l : list MemAlloc) (va : Z) : Z :=
  match l with
  | [] => 0
  | a :: l' => if a_va a =? va then a_size a else size_in l' va
  end.

Definition mm_size (m : mm) (va : Z) : Z := size_in (mem_allocs m) va.

End ops.

(** ** Alignment *)

Lemma pow2_test x : 0 < x -> Z.land x (x - 1) = 0 -> x = 2 ^ Z.log2 x.
Proof.
  intros Hx Hl. destruct (Z.log2_spec x Hx) as [H1 H2].
  destruct (decide (x = 2 ^ Z.log2 x)) as [->|Hne]; [by rewrite Z.log2_pow2 by apply Z.log2_nonneg|].
  exfalso. assert (Hlog : Z.log2 (x - 1) = Z.log2 x).
  { apply Z.log2_unique; [apply Z.log2_nonneg|]. lia. }
  assert (Hbit : Z.testbit (Z.land x (x - 1)) (Z.log2 x) = true).
  { rewrite Z.land_spec, Z.bit_log2 by done. rewrite <- Hlog.
    rewrite Z.bit_log2; [done|]. assert (0 < 2 ^ Z.log2 x) by (apply Z.pow_pos_nonneg; [lia|apply Z.log2_nonneg]). lia. }
  rewrite Hl, Z.bits_0 in Hbit. done.
Qed.

(** An accepted alignment is a power of two of at least a page. *)
Lemma effective_align_spec alignment align :
  is_u32 alignment -> effective_align alignment = Some align ->
  exists k, 12 <= k <= 31 /\ align = 2 ^ k /\ Z.max 4096 alignment = align.
Proof.
  unfold is_u32, effective_align. intros Ha H.
  set (a := if alignment =? 0 then 4096 else alignment) in *.
  assert (Ha' : 0 < a < 2 ^ 32) by (unfold a; destruct (alignment =? 0) eqn:E; bool_facts; lia).
  case_if_in H; [done|]. bool_facts. rewrite u32_small in Heqb by lia.
  apply pow2_test in Heqb; [|lia]. injection H as <-.
  assert (Hk : 0 <= Z.log2 a < 32).
  { split; [apply Z.log2_nonneg|]. apply Z.log2_lt_pow2; lia. }
  destruct (a <? 4096) eqn:E; bool_facts.
  - exists 12. split_and!; [lia..|done|]. unfold a in *. destruct (alignment =? 0) eqn:E'; bool_facts; lia.
  - exists (Z.log2 a). split_and!; [|lia|done|].
    + change 4096 with (2 ^ 12) in E. rewrite Heqb in E. apply Z.pow_le_mono_r_iff in E; lia.
    + unfold a in *. destruct (alignment =? 0) eqn:E'; bool_facts; lia.
Qed.

(** Rounding up inside the pool does not wrap and is the least aligned bound. *)
Lemma align_up32_spec x k :
  0 <= k <= 31 -> 0 <= x <= 2 ^ 31 ->
  (2 ^ k | align_up32 x (2 ^ k)) /\ x <= align_up32 x (2 ^ k) < x + 2 ^ k /\
  forall c, (2 ^ k | c) -> x <= c -> align_up32 x (2 ^ k) <= c.
Proof.
  intros Hk Hx. unfold align_up32.
  assert (Hp : 0 < 2 ^ k) by (apply Z.pow_pos_nonneg; lia).
  assert (Hp' : 2 ^ k <= 2 ^ 31) by (apply Z.pow_le_mono_r; lia).
  rewrite u32_small by lia. rewrite align_down_pow2 by lia.
  pose proof (Z.div_mod (x + 2 ^ k - 1) (2 ^ k) ltac:(lia)).
  pose proof (Z.mod_pos_bound (x + 2 ^ k - 1) (2 ^ k) Hp).
  split_and!; [apply Z.divide_factor_l|lia|lia|].
  intros c [d ->] Hc. assert ((x + 2 ^ k - 1) `div` 2 ^ k <= d); [|nia].
  apply Z.lt_succ_r. apply Z.div_lt_upper_bound; nia.
Qed.


(** ** The scan *)

Record alloc_ok (m : mm) (a : MemAlloc) : Prop := {
  al_page : (4096 | a_va a);
  al_size : 0 < a_size a;
  al_in : mm_lo m <= a_va a /\ a_va a + a_size a <= mm_hi m;
}.

Definition apart (a b : MemAlloc) : Prop :=
  a_va a + a_size a <= a_va b \/ a_va b + a_size b <= a_va a.

(** The pool: inside the lower 2 GiB, live allocations page aligned, inside
    the region and disjoint. *)
Record pool_ok (m : mm) : Prop := {
  po_region : 0 <= mm_lo m <= mm_hi m /\ mm_hi m <= 2 ^ 31;
  po_allocs : Forall (alloc_ok m) (mem_allocs m);
  po_apart : ForallOrdPairs apart (mem_allocs m);
}.

(** [c] is a place for [size] bytes among [l], below [hi] inclusive. *)
Definition fits (l : list MemAlloc) (hi size align c : Z) : Prop :=
  (align | c) /\ c + size - 1 <= hi /\
  forall a, a ∈ l -> c + size <= a_va a \/ a_va a + a_size a <= c.

Lemma a_end_spec m a : pool_ok m -> a ∈ mem_allocs m -> a_end a = a_va a + a_size a.
Proof.
  intros Hm Ha. pose proof (po_allocs _ Hm) as H. rewrite Forall_forall in H.
  destruct (H a Ha) as [_ H1 H2]. pose proof (po_region _ Hm). apply u32_small. lia.
Qed.

Section scan.
Context (m : mm) (Hm : pool_ok m).
Abbreviation l := (mem_allocs m).

Lemma collides_spec cand size a :
  0 <= cand -> 0 < size -> cand + size < 2 ^ 32 -> a ∈ l ->
  collides cand size a = true <-> a_va a < cand + size /\ cand < a_va a + a_size a.
Proof.
  intros H1 H2 H3 Ha. unfold collides. rewrite (a_end_spec m a Hm Ha), u32_small by lia.
  rewrite andb_true_iff, !Z.ltb_lt. done.
Qed.

(** The inner loop finds a colliding allocation with the furthest end. *)
Lemma collide_fold cand size acc l' :
  let r := foldl (collide_step cand size) acc l' in
  (fst r = false -> fst acc = false /\ forall a, a ∈ l' -> collides cand size a = false) /\
  snd acc <= snd r /\
  (forall a, a ∈ l' -> collides cand size a = true -> fst r = true /\ a_end a <= snd r) /\
  (r = acc \/ exists a, a ∈ l' /\ collides cand size a = true /\ (snd r = a_end a \/ snd r = snd acc)).
Proof.
  revert acc. induction l' as [|a l' IH]; intros acc; simpl.
  - split_and!; [|lia| |by left].
    + intros H. split; [done|]. by intros a ?%elem_of_nil.
    + by intros a ?%elem_of_nil.
  - destruct (IH (collide_step cand size acc a)) as (I1 & I2 & I3 & I4).
    set (r := foldl _ _ l') in *. unfold collide_step in I1, I2, I4.
    destruct (collides cand size a) eqn:E; simpl in I1, I2, I4.
    + split_and!.
      * intros H. by destruct (I1 H).
      * lia.
      * intros b [->|Hb]%elem_of_cons Hc; [|by apply I3]. split; [|lia].
        destruct (fst r) eqn:Er; [done|]. by destruct (I1 eq_refl).
      * right. destruct I4 as [->|(b & Hb & Hc & [Hs|Hs])].
        -- exists a. simpl. split_and!; [left|done|]. lia.
        -- exists b. split_and!; [by right|done|]. by left.
        -- destruct (Z.max_spec (snd acc) (a_end a)) as [[_ Hx]|[_ Hx]]; rewrite Hx in Hs.
           ++ exists a. split_and!; [left|done|by left].
           ++ exists b. split_and!; [by right|done|by right].
    + split_and!.
      * intros H. destruct (I1 H) as [? I1']. split; [done|].
        intros b [->|Hb]%elem_of_cons; [done|by apply I1'].
      * done.
      * intros b [->|Hb]%elem_of_cons Hc; [congruence|by apply I3].
      * destruct I4 as [->|(b & Hb & Hc)]; [by left|right; exists b; split; [by right|done]].
Qed.

Lemma collide_none cand size e :
  0 <= cand -> 0 < size -> cand + size < 2 ^ 32 -> collide cand size l = (false, e) ->
  forall a, a ∈ l -> cand + size <= a_va a \/ a_va a + a_size a <= cand.
Proof.
  intros H1 H2 H3 Hc a Ha. destruct (collide_fold cand size (false, cand) l) as (I & _).
  unfold collide in Hc. rewrite Hc in I. destruct (I eq_refl) as [_ I']. specialize (I' a Ha).
  apply not_true_iff_false in I'. rewrite collides_spec in I' by done. lia.
Qed.

Lemma collide_some cand size e :
  0 <= cand -> 0 < size -> cand + size < 2 ^ 32 -> collide cand size l = (true, e) ->
  exists a, a ∈ l /\ a_va a < cand + size /\ cand < a_va a + a_size a /\ e = a_va a + a_size a.
Proof.
  intros H1 H2 H3 Hc. destruct (collide_fold cand size (false, cand) l) as (_ & I2 & I3 & I4).
  unfold collide in Hc. rewrite Hc in I2, I3, I4. simpl in *.
  destruct I4 as [?|(a & Ha & Hca & He)]; [done|].
  destruct (I3 a Ha Hca) as [_ Hle]. pose proof (a_end_spec m a Hm Ha) as Hend.
  pose proof Hca as Hca'. apply collides_spec in Hca'; [|done..].
  destruct He as [->|He]; [|lia]. exists a. rewrite Hend. split_and!; lia || done.
Qed.

(** Allocations still ahead of the candidate: the termination measure. *)
Definition ahead (cand : Z) : nat :=
  length (List.filter (fun a => cand <? a_va a + a_size a) l).

Lemma filter_drop {A} (f g : A -> bool) (k : list A) a :
  a ∈ k -> f a = true -> g a = false -> (forall b, g b = true -> f b = true) ->
  (length (List.filter g k) < length (List.filter f k))%nat.
Proof.
  intros Ha Hf Hg Hsub.
  assert (Hle : forall k, (length (List.filter g k) <= length (List.filter f k))%nat).
  { intros k'. induction k' as [|x k' IH]; simpl; [lia|].
    destruct (g x) eqn:Eg; [rewrite (Hsub x Eg); simpl; lia|].
    destruct (f x); simpl; lia. }
  induction k as [|x k IH]; [by apply elem_of_nil in Ha|].
  simpl. apply elem_of_cons in Ha as [->|Ha].
  - rewrite Hf, Hg. simpl. specialize (Hle k). lia.
  - specialize (IH Ha). destruct (g x) eqn:Eg; [rewrite (Hsub x Eg); simpl; lia|].
    destruct (f x); simpl; lia.
Qed.

(** With fuel for every allocation ahead, the scan returns the least place at
    or above [cand], or 0 exactly when there is none. *)
Lemma scan_spec fuel hi size k cand :
  12 <= k <= 31 -> 0 < size -> 0 <= cand -> (2 ^ k | cand) -> hi < mm_hi m ->
  (ahead cand < fuel)%nat ->
  match scan fuel l hi size (2 ^ k) cand with
  | Some (Some c) => cand <= c /\ fits l hi size (2 ^ k) c /\
      forall c', cand <= c' < c -> ~ fits l hi size (2 ^ k) c'
  | Some None => forall c', cand <= c' -> ~ fits l hi size (2 ^ k) c'
  | None => False
  end.
Proof.
  intros Hk Hs. pose proof (po_region _ Hm) as [_ Hhi].
  revert cand. induction fuel as [|fuel IH]; intros cand Hc Hal Hh Hf; [lia|]. simpl.
  destruct ((hi <? cand) || (u32 (hi - cand + 1) <? size)) eqn:E.
  - assert (hi < cand \/ hi - cand + 1 < size).
    { apply orb_true_iff in E as [E|E]; bool_facts; [by left|].
      destruct (decide (hi < cand)); [by left|]. rewrite u32_small in E by lia. by right. }
    intros c' Hc' (_ & Hle & _). lia.
  - apply orb_false_iff in E as [E1 E2]. bool_facts. rewrite u32_small in E2 by lia.
    destruct (collide cand size l) as [[] e] eqn:Ec.
    + apply collide_some in Ec as (a & Ha & Hlt & Hgt & ->); [|lia..].
      pose proof (po_allocs _ Hm) as Hall. rewrite Forall_forall in Hall.
      destruct (Hall a Ha) as [_ _ Hin].
      destruct (align_up32_spec (a_va a + a_size a) k) as (Hd & Hup & Hmin); [lia..|].
      set (cand' := align_up32 _ _) in *.
      assert (Hskip : forall c', cand <= c' < cand' -> ~ fits l hi size (2 ^ k) c').
      { intros c' Hr (Hd' & _ & Hap). destruct (Hap a Ha); [lia|].
        specialize (Hmin c' Hd'). lia. }
      assert (Hfuel : (ahead cand' < fuel)%nat).
      { assert (ahead cand' < ahead cand)%nat; [|lia]. unfold ahead.
        apply (filter_drop _ _ _ a Ha); [lia..|]. intros b Hb. lia. }
      specialize (IH cand' ltac:(lia) Hd Hh Hfuel).
      destruct (scan fuel l hi size (2 ^ k) cand') as [[c|]|]; [|..|done].
      * destruct IH as (I1 & I2 & I3). split_and!; [lia|done|].
        intros c' Hr. destruct (decide (c' < cand')); [apply Hskip|apply I3]; lia.
      * intros c' Hr. destruct (decide (c' < cand')); [apply Hskip|apply IH]; lia.
    + pose proof (collide_none cand size e ltac:(lia) Hs ltac:(lia) Ec) as Hn.
      split_and!; [lia|split_and!; [done|lia|done]|intros; lia].
Qed.

End scan.

Lemma filter_length {A} (f : A -> bool) (k : list A) : (length (List.filter f k) <= length k)%nat.
Proof. induction k as [|x k IH]; simpl; [lia|]. destruct (f x); simpl; lia. Qed.

(** The inclusive bounds a request leaves of the pool. *)
Definition win_lo (m : mm) (lowest : Z) : Z := Z.max (mm_lo m) lowest.
Definition win_hi (m : mm) (highest : Z) : Z :=
  Z.min (if highest =? 0 then mm_hi m - 1 else highest) (mm_hi m - 1).

Lemma choose_spec m size lowest highest alignment :
  pool_ok m -> is_u32 size -> is_u32 lowest -> is_u32 highest -> is_u32 alignment ->
  match choose m size lowest highest alignment with
  | None => False
  | Some None => forall align, size <> 0 -> effective_align alignment = Some align ->
      forall c, win_lo m lowest <= c -> ~ fits (mem_allocs m) (win_hi m highest) size align c
  | Some (Some c) => exists align, effective_align alignment = Some align /\ 0 < size /\
      win_lo m lowest <= c /\ fits (mem_allocs m) (win_hi m highest) size align c /\
      forall c', win_lo m lowest <= c' < c ->
        ~ fits (mem_allocs m) (win_hi m highest) size align c'
  end.
Proof.
  intros Hm Hs Hlo Hhi Hal. unfold is_u32 in Hs, Hlo, Hhi.
  pose proof (po_region _ Hm) as [Hr1 Hr2].
  unfold choose. destruct (_ || _) eqn:E0.
  { apply orb_true_iff in E0 as [E|E]; bool_facts; [by intros align ?|].
    intros align Hnz _ c Hc (_ & Hle & _). unfold win_lo, win_hi in *. lia. }
  apply orb_false_iff in E0 as [E1 E2]. bool_facts.
  destruct (effective_align alignment) as [align|] eqn:Ea; [|done].
  destruct (effective_align_spec _ _ Hal Ea) as (k & Hk & -> & _).
  fold (win_lo m lowest) (win_hi m highest).
  assert (Hwl : 0 <= win_lo m lowest) by (unfold win_lo; lia).
  assert (Hwh : win_hi m highest < mm_hi m) by (unfold win_hi; lia).
  destruct (_ || _) eqn:E0.
  { intros align Hnz [= <-] c Hc (_ & Hle & _).
    apply orb_true_iff in E0 as [E|E]; bool_facts; [lia|].
    destruct (decide (win_hi m highest < win_lo m lowest)); [lia|].
    rewrite u32_small in E by lia. lia. }
  apply orb_false_iff in E0 as [E3 E4]. bool_facts.
  destruct (align_up32_spec (win_lo m lowest) k) as (Hd & Hup & Hmin); [lia..|].
  pose proof (scan_spec m Hm (scan_fuel (mem_allocs m)) (win_hi m highest) size k
    (align_up32 (win_lo m lowest) (2 ^ k)) ltac:(lia) ltac:(lia) ltac:(lia) Hd Hwh) as Hsc.
  destruct (scan _ _ _ _ _ _) as [[c|]|].
  - destruct Hsc as (S1 & S2 & S3).
    { unfold ahead, scan_fuel. apply Nat.lt_succ_r, filter_length. }
    exists (2 ^ k). split_and!; [done|lia|lia|done|]. intros c' Hc' Hf.
    destruct (decide (c' < align_up32 (win_lo m lowest) (2 ^ k))).
    + specialize (Hmin c' (proj1 Hf)). lia.
    + apply (S3 c'); [lia|done].
  - intros align _ [= <-] c Hc Hf. apply (Hsc ltac:(unfold ahead, scan_fuel; apply Nat.lt_succ_r, filter_length) c); [|done].
    specialize (Hmin c (proj1 Hf)). lia.
  - apply Hsc. unfold ahead, scan_fuel. apply Nat.lt_succ_r, filter_length.
Qed.

(** ** Allocator and guest RAM together *)

Definition wants_ro (protect : Z) : bool :=
  Z.land protect (u32 (Z.lnot kPageNocache)) =? kPageReadonly.

Definition alloc_pages `{HostOS} (a : MemAlloc) : list Z := page_range (a_va a) (a_size a).

(** Live allocations are committed with the protection they asked for, and no
    page of the pool outside them is read-only. *)
Record mm_ok `{HostOS} (r : ram) (m : mm) : Prop := {
  mk_ram : ram_ok r;
  mk_base : r_base r = true;
  mk_pool : pool_ok m;
  mk_size : mm_hi m <= r_size r;
  mk_live : forall a p, a ∈ mem_allocs m -> p ∈ alloc_pages a ->
    cflag r p = true /\ roflag r p = wants_ro (a_protect a);
  mk_free : forall p, mm_lo m <= p * page_size < mm_hi m ->
    (forall a, a ∈ mem_allocs m -> p ∉ alloc_pages a) -> roflag r p = false;
}.

Section safety.
Context `{os : HostOS} `{laws : !HostLaws os}.
(** Host pages are no larger than the guest's. *)
Hypothesis Hpb : page_bits <= 12.

(** A host whose mprotect never fails. *)
Definition protects_all : Prop := forall p prot, mprotect_ok p prot = true.

Lemma page_size_divides : (page_size | 4096).
Proof.
  unfold page_size. exists (2 ^ (12 - page_bits)). pose proof (@page_bits_nonneg os laws).
  change 4096 with (2 ^ 12). rewrite <- Z.pow_add_r by lia. f_equal. lia.
Qed.

Lemma page_loop_total skip prot upd ps r : protects_all -> fst (page_loop skip prot upd ps r) = true.
Proof.
  intros Hmp. revert r. induction ps as [|p ps IH]; intros r; simpl; [done|].
  destruct (skip r p); [apply IH|]. unfold mprotect. rewrite Hmp. apply IH.
Qed.

Lemma in_alloc_pages m a p :
  pool_ok m -> alloc_ok m a -> p ∈ alloc_pages a <->
  a_va a `div` page_size <= p <= (a_va a + a_size a - 1) `div` page_size.
Proof.
  intros Hm [_ Hs Hin]. pose proof (po_region _ Hm). unfold alloc_pages.
  apply page_range_elem; lia.
Qed.

(** A page of an allocation holds one of its bytes at or after its page-aligned
    start, so byte-disjoint allocations are page-disjoint. *)
Lemma page_bounds m a p :
  pool_ok m -> alloc_ok m a -> p ∈ alloc_pages a ->
  a_va a <= p * page_size < a_va a + a_size a.
Proof.
  intros Hm Ha Hp. apply (in_alloc_pages m a p Hm Ha) in Hp. destruct Ha as [[d Hd] Hs Hin].
  destruct page_size_divides as [e He]. pose proof page_size_pos as Hps.
  assert (Hva : a_va a = d * e * page_size) by (rewrite Hd, He; ring).
  assert (Hdiv : a_va a `div` page_size = d * e) by (rewrite Hva; apply Z.div_mul; lia).
  rewrite Hdiv in Hp.
  pose proof (Z.mul_div_le (a_va a + a_size a - 1) page_size Hps).
  assert (p * page_size <= page_size * ((a_va a + a_size a - 1) `div` page_size)).
  { rewrite Z.mul_comm. apply Z.mul_le_mono_nonneg_l; lia. }
  assert (d * e * page_size <= p * page_size) by (apply Z.mul_le_mono_nonneg_r; lia).
  lia.
Qed.

Lemma pages_apart m a b p :
  pool_ok m -> alloc_ok m a -> alloc_ok m b -> apart a b ->
  p ∈ alloc_pages a -> p ∉ alloc_pages b.
Proof.
  intros Hm Ha Hb Hap Hpa Hpb'. pose proof (page_bounds m a p Hm Ha Hpa).
  pose proof (page_bounds m b p Hm Hb Hpb'). destruct Hap; lia.
Qed.

Lemma args_ok_alloc m a : pool_ok m -> alloc_ok m a -> args_ok (a_va a) (a_size a).
Proof.
  intros Hm [_ Hs Hin]. pose proof (po_region _ Hm). unfold args_ok, is_u32. lia.
Qed.

Lemma range_ok_alloc r m a : mm_ok r m -> alloc_ok m a -> range_ok r (a_va a) (a_size a) = true.
Proof.
  intros Hk [_ Hs Hin]. pose proof (po_region _ (mk_pool _ _ Hk)). pose proof (mk_size _ _ Hk).
  apply range_ok_spec. lia.
Qed.

(** A fit for a request is a well-formed allocation apart from the others. *)
Lemma fits_alloc m size lowest highest alignment align c protect :
  pool_ok m -> is_u32 alignment -> effective_align alignment = Some align -> 0 < size ->
  win_lo m lowest <= c -> fits (mem_allocs m) (win_hi m highest) size align c ->
  alloc_ok m (MkAlloc c size protect) /\
  Forall (fun a => apart a (MkAlloc c size protect)) (mem_allocs m).
Proof.
  intros Hm Hal Ea Hs Hlo (Hd & Hhi & Hap).
  destruct (effective_align_spec _ _ Hal Ea) as (k & Hk & -> & _). split.
  - split; simpl; [|done|unfold win_lo, win_hi in *; lia].
    etrans; [|exact Hd]. exists (2 ^ (k - 12)). change 4096 with (2 ^ 12).
    rewrite <- Z.pow_add_r by lia. f_equal. lia.
  - apply Forall_forall. intros a Ha. unfold apart. simpl. destruct (Hap a Ha); lia.
Qed.


(** Appending the chosen allocation keeps the pool well formed. *)
Lemma pool_ok_snoc m a obs :
  pool_ok m -> alloc_ok m a -> Forall (fun b => apart b a) (mem_allocs m) ->
  pool_ok (MkMm (mm_lo m) (mm_hi m) (mem_allocs m ++ [a]) obs).
Proof.
  intros [Hr Hall Hap] Ha Hnew. split; simpl; [done|..].
  - apply Forall_app. split; [|constructor; [|constructor]].
    + eapply Forall_impl; [exact Hall|]. intros x [? ? ?]. by split.
    + by destruct Ha; split.
  - clear Hall Hr. induction Hap as [|x l Hx Hap IH]; simpl; [by repeat constructor|].
    apply Forall_cons in Hnew as [Hn1 Hn2]. constructor; [|by apply IH].
    apply Forall_app. split; [done|]. by constructor.
Qed.

(** The pointer to the start of a committed range is that start. *)
Lemma host_ptr_committed r c size :
  0 <= c -> 0 < size -> c + size <= 2 ^ 32 -> is_committed r c size = true -> host_ptr r c = Some c.
Proof.
  intros H0 Hs Hb Hcom. unfold host_ptr. apply is_committed_spec in Hcom as (H1 & H2 & H3).
  replace (is_committed r c 1) with true; [done|]. symmetry. apply is_committed_spec.
  apply range_ok_spec in H2.
  split_and!; [done|apply range_ok_spec; lia|]. intros p Hp. apply H3.
  rewrite page_range_elem in Hp |- * by lia.
  assert ((c + 1 - 1) `div` page_size <= (c + size - 1) `div` page_size)
    by (apply Z.div_le_mono; [apply page_size_pos|lia]). lia.
Qed.

(** Protecting a committed range on request changes the read-only flags of its
    pages only; without the request they must be clear already. *)
Lemma place_protect_flags r b c size protect :
  protects_all -> ram_ok r -> is_committed r c size = true ->
  (forall p, p ∈ page_range c size -> roflag r p = false) ->
  let r2 := set_bytes r b in
  let r3 := if wants_ro protect then snd (protect_ro r2 c size) else r2 in
  ram_ok r3 /\ frame r2 r3 /\ forall p, cflag r3 p = cflag r p /\
    roflag r3 p = if decide (p ∈ page_range c size) then wants_ro protect else roflag r p.
Proof.
  intros Hmp Hok Hcom Hro r2 r3. unfold r3. destruct (wants_ro protect) eqn:Ero.
  - destruct (protect_ro r2 c size) as [q r'] eqn:Ep.
    destruct (protect_ro_spec r2 c size q r' (set_bytes_ok _ _ Hok) Ep) as (P1 & P2 & P3).
    assert (q = true) as ->.
    { unfold protect_ro in Ep. change (is_committed r2 c size) with (is_committed r c size) in Ep.
      rewrite Hcom in Ep. simpl in Ep. apply (f_equal fst) in Ep. by rewrite page_loop_total in Ep by done. }
    destruct (P3 eq_refl) as [_ P4]. split_and!; [done|apply P2..|]. intros p. by apply P4.
  - split_and!; [by apply set_bytes_ok|done..|]. intros p. split; [done|].
    case_decide as Hp; [|done]. by apply Hro.
Qed.

(** The pages of a fit are not read-only, so what a commit makes of them can be
    zeroed through the host pointer. *)
Lemma fresh_pages r m c size protect r1 :
  mm_ok r m -> alloc_ok m (MkAlloc c size protect) ->
  Forall (fun a => apart a (MkAlloc c size protect)) (mem_allocs m) ->
  commit r c size = (true, r1) ->
  ram_ok r1 /\ frame r r1 /\ is_committed r1 c size = true /\ writable r1 c size = true /\ host_ptr r1 c = Some c /\
  (forall p, p ∈ page_range c size -> roflag r1 p = false) /\
  forall q, cflag r1 q = (if decide (q ∈ page_range c size) then true else cflag r q) /\ roflag r1 q = roflag r q.
Proof.
  intros Hk Hnew Hap Hc. pose proof (mk_pool _ _ Hk) as Hm.
  set (n := MkAlloc c size protect) in *.
  pose proof (args_ok_alloc m n Hm Hnew) as Hargs. simpl in Hargs.
  destruct (commit_spec r c size true r1 (mk_ram _ _ Hk) Hargs Hc) as (Hok1 & (F1 & F2 & F3) & Hfl).
  destruct (Hfl eq_refl) as (Hrange & Hbase & Hq). clear Hfl.
  pose proof (po_allocs _ Hm) as Hall. rewrite Forall_forall in Hall, Hap.
  assert (Hnro : forall p, p ∈ alloc_pages n -> roflag r p = false).
  { intros p Hp. apply (mk_free _ _ Hk).
    - pose proof (page_bounds m n p Hm Hnew Hp). destruct Hnew as [_ _ Hin]. simpl in *. lia.
    - intros a Ha Hpa. by apply (pages_apart m a n p Hm (Hall a Ha) Hnew (Hap a Ha) Hpa). }
  assert (Hcom : is_committed r1 c size = true).
  { apply is_committed_spec. split_and!; [by rewrite F1|unfold range_ok in *; by rewrite F2|].
    intros p Hp. destruct (Hq p) as [-> _]. by rewrite decide_True. }
  assert (Hro1 : forall p, p ∈ alloc_pages n -> roflag r1 p = false).
  { intros p Hp. destruct (Hq p) as [_ ->]. by apply Hnro. }
  split_and!; try done.
  - apply writable_spec. by split.
  - pose proof (po_region _ Hm). destruct Hnew as [_ Hs Hin]. simpl in *.
    apply (host_ptr_committed r1 c size); (done || lia).
Qed.

(** Zeroing and protecting a fresh range: what happens to the bytes. *)
Lemma place_bytes r m c size protect r1 :
  mm_ok r m -> alloc_ok m (MkAlloc c size protect) ->
  Forall (fun a => apart a (MkAlloc c size protect)) (mem_allocs m) ->
  commit r c size = (true, r1) ->
  let r2 := set_bytes r1 (mem_fill (r_bytes r1) c size 0) in
  let r3 := if wants_ro protect then snd (protect_ro r2 c size) else r2 in
  (match host_ptr r1 c with Some q => host_memset r1 q 0 size | None => Ok r1 end) = Ok r2 /\
  r_bytes r3 = mem_fill (r_bytes r) c size 0.
Proof.
  intros Hk Hnew Hap Hc r2 r3.
  destruct (fresh_pages r m c size protect r1 Hk Hnew Hap Hc) as (Hok1 & (F1 & F2 & F3) & Hcom & Hw & Hptr & _).
  pose proof (args_ok_alloc m _ (mk_pool _ _ Hk) Hnew) as Hargs. simpl in Hargs. split.
  - rewrite Hptr. unfold host_memset. rewrite host_writable_iff by done. rewrite Hw.
    by rewrite orb_true_r.
  - unfold r3. destruct (wants_ro protect); [|simpl; by rewrite F3].
    destruct (protect_ro_spec r2 c size _ _ (set_bytes_ok _ _ Hok1) (surjective_pairing _))
      as (_ & (_ & _ & ->) & _).
    simpl. by rewrite F3.
Qed.

(** Committing, zeroing and protecting a fresh range establishes [mm_ok]. *)
Lemma place_ok r m c size protect obs r1 :
  protects_all -> mm_ok r m -> alloc_ok m (MkAlloc c size protect) ->
  Forall (fun a => apart a (MkAlloc c size protect)) (mem_allocs m) ->
  commit r c size = (true, r1) ->
  let r2 := set_bytes r1 (mem_fill (r_bytes r1) c size 0) in
  let r3 := if wants_ro protect then snd (protect_ro r2 c size) else r2 in
  mm_ok r3 (MkMm (mm_lo m) (mm_hi m) (mem_allocs m ++ [MkAlloc c size protect]) obs).
Proof.
  intros Hmp Hk Hnew Hap Hc r2 r3. pose proof (mk_pool _ _ Hk) as Hm.
  destruct (fresh_pages r m c size protect r1 Hk Hnew Hap Hc) as (Hok1 & (F1 & F2 & F3) & Hcom & Hw & Hptr & Hro1 & Hq).
  set (n := MkAlloc c size protect) in *.
  pose proof (po_allocs _ Hm) as Hall. rewrite Forall_forall in Hall, Hap.
  destruct (place_protect_flags r1 (mem_fill (r_bytes r1) c size 0) c size protect Hmp Hok1 Hcom Hro1)
    as (R1 & (R2 & R3 & _) & R4). change (page_range c size) with (alloc_pages n) in R4, Hq.
  fold r2 in R1, R2, R3, R4. fold r3 in R1, R2, R3, R4.
  split; simpl.
  - done.
  - rewrite R2. change (r_base r2) with (r_base r1). rewrite F1. apply Hk.
  - by apply pool_ok_snoc; [..|apply Forall_forall].
  - rewrite R3. simpl. rewrite F2. apply Hk.
  - intros a p [Ha|Ha]%elem_of_app Hp; destruct (R4 p) as [-> ->]; destruct (Hq p) as [-> ->].
    + rewrite !decide_False by (by apply (pages_apart m a n p Hm (Hall a Ha) Hnew (Hap a Ha))).
      by apply (mk_live _ _ Hk).
    + apply list_elem_of_singleton in Ha as ->. by rewrite !decide_True.
  - intros p Hp Hna. destruct (R4 p) as [_ ->]. destruct (Hq p) as [_ ->].
    rewrite decide_False by (apply Hna, elem_of_app; right; by apply list_elem_of_singleton).
    apply (mk_free _ _ Hk); [done|]. intros a Ha. apply Hna, elem_of_app. by left.
Qed.

Lemma commit_total r a n :
  protects_all -> r_base r = true -> range_ok r a n = true -> fst (commit r a n) = true.
Proof. intros Hmp Hb Hr. unfold commit. rewrite Hb, Hr. simpl. by apply page_loop_total. Qed.

(** The least address of the window that fits. *)
Definition first_fit (m : mm) (size lowest highest align c : Z) : Prop :=
  win_lo m lowest <= c /\ fits (mem_allocs m) (win_hi m highest) size align c /\
  forall c', win_lo m lowest <= c' < c -> ~ fits (mem_allocs m) (win_hi m highest) size align c'.

(** Protecting a range leaves it committed, whether it succeeds or not. *)
Lemma protect_ro_committed r a n : is_committed (snd (protect_ro r a n)) a n = is_committed r a n.
Proof.
  assert (H : forall ps r0, let r' := snd (page_loop (fun r p => sv_nz (r_ro r) p) PROT_READ (fun r p => set_ro r p 1) ps r0) in
    r_base r' = r_base r0 /\ r_size r' = r_size r0 /\ r_committed r' = r_committed r0).
  { induction ps as [|p ps IH]; intros r0; cbn [page_loop]; [done|]. destruct (sv_nz _ _); [apply IH|].
    unfold mprotect. destruct (mprotect_ok _ _); [|done]. cbv zeta. match goal with |- context [page_loop _ _ _ ps ?r1] => apply (IH r1) end. }
  unfold protect_ro. destruct (negb _); [done|]. destruct (H (page_range a n) r) as (H1 & H2 & H3).
  unfold is_committed, pages_committed, range_ok. by rewrite H1, H2, H3.
Qed.

Lemma mm_alloc_spec r m size lowest highest alignment protect :
  mm_ok r m -> is_u32 size -> is_u32 lowest -> is_u32 highest -> is_u32 alignment ->
  exists va r' m', mm_alloc r m size lowest highest alignment protect = Ok (va, r', m') /\
  (protects_all -> mm_ok r' m') /\
  ((va = 0 /\ r' = r /\ m' = m /\
    forall align c, size <> 0 -> effective_align alignment = Some align ->
      win_lo m lowest <= c -> ~ fits (mem_allocs m) (win_hi m highest) size align c) \/
   (exists align, effective_align alignment = Some align /\ first_fit m size lowest highest align va /\
      is_committed r' va size = true /\
      mem_allocs m' = mem_allocs m ++ [MkAlloc va size protect] /\
      r_bytes r' = mem_fill (r_bytes r) va size 0) \/
   (exists align c, effective_align alignment = Some align /\ first_fit m size lowest highest align c /\
      commit r c size = (false, r') /\ ~ protects_all /\ va = 0 /\ m' = m /\ r_bytes r' = r_bytes r)).
Proof.
  intros Hk Hs Hlo Hhi Hal. pose proof (mk_pool _ _ Hk) as Hm.
  pose proof (choose_spec m size lowest highest alignment Hm Hs Hlo Hhi Hal) as Hc.
  unfold mm_alloc. destruct (choose m size lowest highest alignment) as [[c|]|]; [|..|done].
  - destruct Hc as (align & Ea & Hsz & Hge & Hfit & Hleast).
    destruct (fits_alloc m size lowest highest alignment align c protect Hm Hal Ea Hsz Hge Hfit)
      as [Hnew Hap]. pose proof (args_ok_alloc m _ Hm Hnew) as Hargs. simpl in Hargs.
    destruct (commit r c size) as [[] r1] eqn:Ec; cbn [negb].
    + destruct (place_bytes r m c size protect r1 Hk Hnew Hap Ec) as [-> Hb]. cbn [obind]. fold (wants_ro protect).
      eexists c, _, _. split; [reflexivity|]. split; [intros Hmp; by eapply place_ok|]. right. left.
      exists align. split_and!; try done.
      destruct (fresh_pages r m c size protect r1 Hk Hnew Hap Ec) as (Hok1 & _ & Hcom & _).
      destruct (wants_ro protect); [by rewrite protect_ro_committed|done].
    + exists 0, r1, m. split; [done|].
      assert (Hno : ~ protects_all).
      { intros Hmp. pose proof (commit_total r c size Hmp (mk_base _ _ Hk) (range_ok_alloc r m _ Hk Hnew)) as H.
        by rewrite Ec in H. }
      split; [by intros ?%Hno|]. right. right. exists align, c.
      destruct (commit_spec r c size false r1 (mk_ram _ _ Hk) Hargs Ec) as (_ & (_ & _ & Hb) & _).
      split_and!; done.
  - exists 0, r, m. split; [done|]. split; [done|]. left. split_and!; try done.
    intros align c H1 H2 H3. by apply (Hc align).
Qed.

(** C13. [mm_alloc] terminates and is first fit, on a host with pages of at most
    4 KiB. When the size is 0, the alignment is not a power of two or no address
    fits it returns 0 with nothing changed. Otherwise it tries the least address
    that is aligned as requested (to at least a page), inside the requested
    inclusive window of the pool and clear of every live allocation: it returns
    that address, with the range committed and zeroed without a host fault and
    no byte outside it changed; or, only when the host refuses to commit the
    range, it returns 0 with the allocations and all bytes unchanged. On a host
    whose mprotect never fails the refusal does not occur and the allocator
    invariant (allocations page-disjoint, committed, with their protection) is
    kept. *)
Theorem mm_alloc_is_first_fit r m size lowest highest alignment protect :
  mm_ok r m -> is_u32 size -> is_u32 lowest -> is_u32 highest -> is_u32 alignment ->
  exists va r' m', mm_alloc r m size lowest highest alignment protect = Ok (va, r', m') /\
  (protects_all -> mm_ok r' m') /\
  ((va = 0 /\ r' = r /\ m' = m /\
    forall align c, size <> 0 -> effective_align alignment = Some align ->
      win_lo m lowest <= c -> ~ fits (mem_allocs m) (win_hi m highest) size align c) \/
   (exists align, effective_align alignment = Some align /\ first_fit m size lowest highest align va /\
      is_committed r' va size = true /\
      mem_allocs m' = mem_allocs m ++ [MkAlloc va size protect] /\
      r_bytes r' = mem_fill (r_bytes r) va size 0) \/
   (exists align c, effective_align alignment = Some align /\ first_fit m size lowest highest align c /\
      commit r c size = (false, r') /\ ~ protects_all /\ va = 0 /\ m' = m /\ r_bytes r' = r_bytes r)).
Proof. apply mm_alloc_spec. Qed.

Lemma take_alloc_spec l va a rest :
  take_alloc l va = Some (a, rest) -> a_va a = va /\ exists l1 l2, l = l1 ++ a :: l2 /\ rest = l1 ++ l2.
Proof.
  revert rest. induction l as [|x l IH]; intros rest; simpl; [done|]. case_if.
  - intros [= <- <-]. bool_facts. split; [done|]. by exists [], l.
  - destruct (take_alloc l va) as [[b r]|]; [|done]. intros [= <- <-].
    destruct (IH r eq_refl) as (H1 & l1 & l2 & -> & ->). split; [done|]. by exists (x :: l1), l2.
Qed.

Lemma take_alloc_some l a : a ∈ l -> exists b rest, take_alloc l (a_va a) = Some (b, rest).
Proof.
  induction l as [|x l IH]; simpl; [by intros ?%elem_of_nil|].
  intros [->|Ha]%elem_of_cons; [rewrite Z.eqb_refl; eauto|]. case_if; [eauto|].
  destruct (IH Ha) as (b & r & ->). eauto.
Qed.

Lemma ordpairs_middle {A} (R : A -> A -> Prop) l1 a l2 :
  ForallOrdPairs R (l1 ++ a :: l2) ->
  ForallOrdPairs R (l1 ++ l2) /\ Forall (fun b => R b a \/ R a b) (l1 ++ l2).
Proof.
  induction l1 as [|x l1 IH]; simpl; intros H; inversion_clear H as [|? ? Hx Hl].
  - split; [done|]. eapply Forall_impl; [exact Hx|]. auto.
  - apply Forall_app in Hx as [Hx1 Hx2]. apply Forall_cons in Hx2 as [Hxa Hx2].
    destruct (IH Hl) as [I1 I2]. split; constructor; auto. by apply Forall_app.
Qed.

Lemma size_in_found l va : size_in l va = 0 \/ exists a, a ∈ l /\ a_va a = va.
Proof.
  induction l as [|x l IH]; simpl; [by left|].
  destruct (a_va x =? va) eqn:E; bool_facts; [right; exists x; split; [left|done]|].
  destruct IH as [?|(a & Ha & Hva)]; [by left|right; exists a; split; [by right|done]].
Qed.

(** The pages of a live allocation can be uncommitted. *)
Lemma uncommit_alloc r m a :
  protects_all -> mm_ok r m -> alloc_ok m a -> a ∈ mem_allocs m ->
  exists r', uncommit r (a_va a) (a_size a) = (true, r').
Proof.
  intros Hmp Hk Ha Hin. destruct (uncommit r (a_va a) (a_size a)) as [b r'] eqn:Eu. exists r'. f_equal.
  assert (Hcom : is_committed r (a_va a) (a_size a) = true).
  { apply is_committed_spec. split_and!; [apply Hk|by eapply range_ok_alloc; [apply Hk|]|].
    intros p Hp. by apply (mk_live _ _ Hk a p). }
  change b with (fst (b, r')). rewrite <- Eu. unfold uncommit.
  unfold is_committed in Hcom. apply andb_true_iff in Hcom as [Hcom H3].
  apply andb_true_iff in Hcom as [H1 H2]. rewrite H1, H2, H3. by apply page_loop_total.
Qed.

(** Taking one allocation out: the rest is still apart from it and in place. *)
Lemma removed_alloc m a l1 l2 :
  pool_ok m -> mem_allocs m = l1 ++ a :: l2 ->
  alloc_ok m a /\ Forall (alloc_ok m) (l1 ++ l2) /\ ForallOrdPairs apart (l1 ++ l2) /\
  (forall c p, c ∈ l1 ++ l2 -> p ∈ alloc_pages c -> p ∉ alloc_pages a) /\
  (forall c, c ∈ l1 ++ l2 -> a_va c <> a_va a).
Proof.
  intros Hm Hl. pose proof (po_allocs _ Hm) as Hall. pose proof (po_apart _ Hm) as Hap.
  rewrite Hl in Hall, Hap. apply ordpairs_middle in Hap as [Hap Hdis].
  apply Forall_app in Hall as [Hall1 Hall2]. apply Forall_cons in Hall2 as [Ha Hall2].
  assert (Hall' : Forall (alloc_ok m) (l1 ++ l2)) by (apply Forall_app; done).
  pose proof Hall' as Hall''. rewrite Forall_forall in Hall'', Hdis. split_and!; try done.
  - intros c p Hc Hp. apply (pages_apart m c a p Hm (Hall'' c Hc) Ha); [|done].
    destruct (Hdis c Hc) as [[?|?]|[?|?]]; unfold apart; lia.
  - intros c Hc Ev. destruct Ha as [_ Has _]. destruct (Hall'' c Hc) as [_ Hcs _].
    destruct (Hdis c Hc) as [[?|?]|[?|?]]; lia.
Qed.

(** On a host whose mprotect never fails, [mm_free] of a live allocation takes exactly that allocation out: its
    pages are returned to the uncommitted state, every other live allocation
    stays committed, with its protection and its bytes, the allocator
    invariant is kept, and a later allocation can use the range. Of any other
    address [mm_free] reports failure and changes nothing. *)
Theorem mm_free_releases r m va :
  protects_all -> mm_ok r m ->
  match mm_free r m va with
  | (true, r', m') => exists a l1 l2, a_va a = va /\
      mem_allocs m = l1 ++ a :: l2 /\ mem_allocs m' = l1 ++ l2 /\ mm_ok r' m' /\
      r_bytes r' = r_bytes r /\ mm_size m' va = 0 /\
      (forall p, p ∈ alloc_pages a -> cflag r' p = false)
  | (false, r', m') => r' = r /\ m' = m /\ mm_size m va = 0
  end.
Proof.
  intros Hmp Hk. pose proof (mk_pool _ _ Hk) as Hm. unfold mm_free.
  destruct (take_alloc (mem_allocs m) va) as [[a rest]|] eqn:Et.
  2:{ split_and!; [done..|]. destruct (size_in_found (mem_allocs m) va) as [?|(a & Ha & <-)]; [done|].
      destruct (take_alloc_some _ _ Ha) as (b & rest & Hs). congruence. }
  apply take_alloc_spec in Et as (<- & l1 & l2 & Hl & ->).
  destruct (removed_alloc m a l1 l2 Hm Hl) as (Ha & Hall & Hap & Hother & Hdiff).
  destruct (uncommit_alloc r m a Hmp Hk Ha) as [r' Eu]; [rewrite Hl; apply elem_of_app; right; left|]. rewrite Eu.
  destruct (uncommit_spec r (a_va a) (a_size a) true r' (mk_ram _ _ Hk) (args_ok_alloc m a Hm Ha) Eu)
    as (U1 & (U2 & U3 & U4) & U5).
  destruct (U5 eq_refl) as [_ U6]. fold (alloc_pages a) in U6.
  assert (Hsub : forall c, c ∈ l1 ++ l2 -> c ∈ mem_allocs m).
  { intros c Hc. rewrite Hl. apply elem_of_app. apply elem_of_app in Hc as [?|?]; [by left|right; by right]. }
  exists a, l1, l2. simpl. split_and!; try done.
  - split; simpl; [done|by rewrite U2, (mk_base _ _ Hk)| |rewrite U3; apply Hk|..].
    + split; simpl; [apply Hm| |done].
      eapply Forall_impl; [exact Hall|]. intros x [? ? ?]. by split.
    + intros c p Hc Hp. destruct (U6 p) as [-> ->]. pose proof (Hother c p Hc Hp).
      rewrite !decide_False by done. apply (mk_live _ _ Hk c p); auto.
    + intros p Hp Hno. destruct (U6 p) as [_ ->]. case_decide as Hpa; [done|].
      apply (mk_free _ _ Hk); [done|]. intros c Hc. rewrite Hl in Hc.
      apply elem_of_app in Hc as [Hc|[->|Hc]%elem_of_cons]; [|done|]; apply Hno, elem_of_app; auto.
  - destruct (size_in_found (l1 ++ l2) (a_va a)) as [?|(c & Hc & Hcv)]; [done|]. by destruct (Hdiff c Hc).
  - intros p Hp. destruct (U6 p) as [-> _]. by rewrite decide_True.
Qed.

End safety.

(** ** A concrete pool *)

Definition demo_pool : ram * mm := (create 0x100000, MkMm 0x10000 0xFF000 [] []).

Definition result_of (o : outcome (Z * ram * mm)) : Z * ram * mm :=
  match o with Ok x => x | _ => (0, create 0, MkMm 0 0 [] []) end.

(** Three allocations (the second read-only), then the middle one freed. *)
Definition demo_step1 := result_of (mm_alloc (fst demo_pool) (snd demo_pool) 100 0 0 0 kPageReadWrite).
Definition demo_step2 :=
  result_of (mm_alloc (snd (fst demo_step1)) (snd demo_step1) 5000 0 0 0 kPageReadonly).
Definition demo_step3 :=
  result_of (mm_alloc (snd (fst demo_step2)) (snd demo_step2) 100 0 0 0x8000 kPageReadWrite).

Example demo_addresses :
  (fst (fst demo_step1), fst (fst demo_step2), fst (fst demo_step3)) = (0x10000, 0x11000, 0x18000).
Proof. by vm_compute. Qed.

Lemma demo_pool_ok : mm_ok (fst demo_pool) (snd demo_pool).
Proof.
  split; simpl.
  - apply create_ok. lia.
  - done.
  - split; simpl; [lia|constructor|constructor].
  - lia.
  - by intros a p ?%elem_of_nil.
  - intros p _ _. unfold roflag. simpl. apply sv_nz_assign.
Qed.

Lemma host4k_bits : @page_bits host4k <= 12.
Proof. simpl. lia. Qed.

Lemma host4k_mprotect p prot : @mprotect_ok host4k p prot = true.
Proof. done. Qed.

Lemma demo_step1_ok : mm_ok (snd (fst demo_step1)) (snd demo_step1).
Proof.
  destruct (mm_alloc_spec host4k_bits (fst demo_pool) (snd demo_pool)
    100 0 0 0 kPageReadWrite demo_pool_ok) as (va & r' & m' & E & Hok & _);
    [unfold is_u32; lia..|].
  unfold demo_step1. rewrite E. exact (Hok host4k_mprotect).
Qed.

Lemma mm_alloc_is_first_fit_witness :
  exists r' m', mm_alloc (snd (fst demo_step1)) (snd demo_step1) 5000 0 0 0 kPageReadonly
    = Ok (0x11000, r', m') /\ mm_ok r' m'.
Proof.
  destruct (mm_alloc_is_first_fit host4k_bits _ _ 5000 0 0 0 kPageReadonly
    demo_step1_ok) as (va & r' & m' & E & Hok & _); [unfold is_u32; lia..|].
  exists r', m'. split; [|exact (Hok host4k_mprotect)]. rewrite E.
  assert (va = 0x11000) as ->; [|reflexivity].
  assert (H : fst (fst (result_of (mm_alloc (snd (fst demo_step1)) (snd demo_step1)
    5000 0 0 0 kPageReadonly))) = 0x11000) by (vm_compute; reflexivity).
  rewrite E in H. exact H.
Defined.

Lemma mm_free_releases_witness :
  match mm_free (snd (fst demo_step1)) (snd demo_step1) 0x10000 with
  | (ok, r', m') => ok = true /\ mm_size m' 0x10000 = 0
  end.
Proof.
  pose proof (mm_free_releases host4k_bits _ _ 0x10000 host4k_mprotect demo_step1_ok) as H.
  assert (Hok : fst (fst (mm_free (snd (fst demo_step1)) (snd demo_step1) 0x10000)) = true)
    by (vm_compute; reflexivity).
  destruct (mm_free _ _ _) as [[[] r'] m']; [|discriminate Hok].
  destruct H as (a & l1 & l2 & _ & _ & _ & _ & _ & Hs & _). split; [reflexivity|exact Hs].
Defined.

End KrnlMm.
