(* ===== verification/KrnlTime.v ===== *)
(** Time conversions of the kernel (src/xbox_krnl.cpp): NT intervals to
    scheduler ticks, and FILETIME to calendar fields. The host clock
    ([xbox_system_time_filetime]) is an argument. *)
From stdpp Require Import base numbers list gmap strings.
From Stdlib Require Import ZArith Lia.
From S2P Require Import Prelude.
Open Scope Z_scope.

Module KrnlTime.

(** ** Intervals *)

(** [static_cast<uint32_t>((units_100ns + 9999) / 10000)] *)
Definition ceil_ms (units_100ns : Z) : Z := u32 (u64 (units_100ns + 9999) `div` 10000).

(** [interval_to_ticks]: the pair [(immediate, ticks)]. Negating INT64_MIN
    overflows. *)
Definition interval_to_ticks (now q : Z) : outcome (bool * Z) :=
  if q =? 0 then Ok (true, 0)
  else if 0 <? q then
    if u64 q <=? now then Ok (true, 0)
    else let ticks := ceil_ms (u64 (u64 q - now)) in Ok (ticks =? 0, ticks)
  else if q =? - 2 ^ 63 then Ub "negation of INT64_MIN"
  else let ticks := ceil_ms (u64 (- q)) in Ok (ticks =? 0, ticks).

(** ** Calendar *)

(** A result of int64 arithmetic. *)
Definition int64 (x : Z) : outcome Z :=
  if (- 2 ^ 63 <=? x) && (x <? 2 ^ 63) then Ok x else Ub "overflow of int64_t".

(** [civil_from_days]: the date of day [z] counted from 1970-01-01. The
    int64 division truncates; the other fields are uint32. *)
Definition civil_from_days (z : Z) : outcome (Z * Z * Z) :=
  let! z := int64 (z + 719468) in
  let! n := if 0 <=? z then Ok z else int64 (z - 146096) in
  let era := n `quot` 146097 in
  let! start := int64 (era * 146097) in
  let! into := int64 (z - start) in
  let doe := u32 into in
  let yoe := u32 (doe - doe `div` 1460 + doe `div` 36524 - doe `div` 146096) `div` 365 in
  let! years := int64 (era * 400) in
  let! yy := int64 (yoe + years) in
  let doy := u32 (doe - (365 * yoe + yoe `div` 4 - yoe `div` 100)) in
  let mp := (5 * doy + 2) `div` 153 in
  let d := u32 (doy - (153 * mp + 2) `div` 5 + 1) in
  let m := u32 (mp + (if mp <? 10 then 3 else -9)) in
  let! y := int64 (yy + (if m <=? 2 then 1 else 0)) in
  Ok (y, m, d).

Definition kDay100ns : Z := 864000000000.

(** TIME_FIELDS, in the order they are stored. *)
Record time_fields := TF {
  tf_year : Z; tf_month : Z; tf_day : Z;
  tf_hour : Z; tf_minute : Z; tf_second : Z; tf_ms : Z; tf_weekday : Z;
}.

(** [days] and [rem] of RtlTimeToTimeFields: division towards zero, corrected
    to a floor. *)
Definition split_filetime (ft : Z) : Z * Z :=
  let days := s64 ft `quot` kDay100ns in
  let rem := s64 ft `rem` kDay100ns in
  if rem <? 0 then (days - 1, rem + kDay100ns) else (days, rem).

Definition time_to_fields (ft : Z) : outcome time_fields :=
  let '(days, rem) := split_filetime ft in
  let! date := civil_from_days (days - 134774) in
  let '(y, m, d) := date in
  let total_ms := rem `div` 10000 in
  let ms := u32 (total_ms `mod` 1000) in
  let s := u32 ((total_ms `div` 1000) `mod` 60) in
  let mi := u32 ((total_ms `div` 60000) `mod` 60) in
  let h := u32 (total_ms `div` 3600000) in
  let wd := u32 ((days `rem` 7 + 7 + 1) `rem` 7) in
  Ok (TF y m d h mi s ms wd).

(** The four dwords the handler stores. *)
Definition fields_words (t : time_fields) : list Z :=
  [Z.lor (u32 (Z.land (tf_year t) 0xFFFF)) (u32 (Z.shiftl (tf_month t) 16));
   Z.lor (tf_day t) (u32 (Z.shiftl (tf_hour t) 16));
   Z.lor (tf_minute t) (u32 (Z.shiftl (tf_second t) 16));
   Z.lor (tf_ms t) (u32 (Z.shiftl (tf_weekday t) 16))].

(** ** The proleptic Gregorian calendar *)

Definition leap (y : Z) : bool :=
  (y `mod` 4 =? 0) && negb (y `mod` 100 =? 0) || (y `mod` 400 =? 0).

Definition month_length (y m : Z) : Z :=
  if m =? 2 then (if leap y then 29 else 28)
  else if bool_decide (m ∈ [4; 6; 9; 11]) then 30 else 31.

Definition next_day (c : Z * Z * Z) : Z * Z * Z :=
  let '(y, m, d) := c in
  if d <? month_length y m then (y, m, d + 1)
  else if m <? 12 then (y, m + 1, 1) else (y + 1, 1, 1).

(** ** One era of 400 years, starting on 1 March *)

Definition yoe_num (doe : Z) : Z :=
  doe - doe `div` 1460 + doe `div` 36524 - doe `div` 146096.
Definition yoe_of (doe : Z) : Z := yoe_num doe `div` 365.
Definition year_start (y : Z) : Z := 365 * y + y `div` 4 - y `div` 100.

(** Month and day of the [doy]-th day after 1 March. *)
Definition month_of (doy : Z) : Z :=
  let mp := (5 * doy + 2) `div` 153 in mp + (if mp <? 10 then 3 else -9).
Definition day_of (doy : Z) : Z := doy - (153 * ((5 * doy + 2) `div` 153) + 2) `div` 5 + 1.

Definition civil_in_era (doe : Z) : Z * Z * Z :=
  let yoe := yoe_of doe in
  let doy := doe - year_start yoe in
  (yoe + (if month_of doy <=? 2 then 1 else 0), month_of doy, day_of doy).

Definition shift_years (k : Z) (c : Z * Z * Z) : Z * Z * Z :=
  let '(y, m, d) := c in (y + k, m, d).

Lemma yoe_num_mono x y : 0 <= x <= y -> yoe_num x <= yoe_num y.
Proof.
  intros H. replace y with (x + Z.of_nat (Z.to_nat (y - x))) by lia.
  induction (Z.to_nat (y - x)) as [|n IH]; [rewrite Z.add_0_r; lia|].
  etrans; [exact IH|]. set (w := x + Z.of_nat n) in *.
  replace (x + Z.of_nat (S n)) with (w + 1) by lia. assert (0 <= w) by lia.
  clear -H0. unfold yoe_num. Z.to_euclidean_division_equations. lia.
Qed.

(** Checked on each year of an era: the year formula at the first and the last
    day, and the length of the year, which ends with February of year [y+1]. *)
Definition year_ok (y : Z) : bool :=
  let last := if y =? 399 then 146096 else year_start (y + 1) - 1 in
  (0 <=? year_start y) && (year_start y <=? last) && (last <? 146097) &&
  (yoe_of (year_start y) =? y) && (yoe_of last =? y) &&
  (last - year_start y + 1 =? (if leap (y + 1) then 366 else 365)).

(** Checked on each day of a year: the ranges, and the month step except at
    the end of February. *)
Definition day_ok (doy : Z) : bool :=
  let m := month_of doy in let d := day_of doy in
  (1 <=? m) && (m <=? 12) && (1 <=? d) &&
  (if doy =? 364 then (m =? 2) && (d =? 28)
   else if doy =? 365 then (m =? 2) && (d =? 29)
   else if m =? 2 then (d <? 28) && (month_of (doy + 1) =? 2) && (day_of (doy + 1) =? d + 1)
   else if d <? month_length 1 m
        then (month_of (doy + 1) =? m) && (day_of (doy + 1) =? d + 1)
        else (month_of (doy + 1) =? (if m <? 12 then m + 1 else 1)) && (day_of (doy + 1) =? 1)).

Lemma years_checked : forallb year_ok (seqZ 0 400) = true.
Proof. vm_compute. reflexivity. Qed.

Lemma days_checked : forallb day_ok (seqZ 0 366) = true.
Proof. vm_compute. reflexivity. Qed.

Definition year_last (y : Z) : Z := if y =? 399 then 146096 else year_start (y + 1) - 1.
Definition year_len (y : Z) : Z := if leap (y + 1) then 366 else 365.

Lemma year_facts y :
  0 <= y < 400 ->
  0 <= year_start y <= year_last y /\ year_last y < 146097 /\
  yoe_of (year_start y) = y /\ yoe_of (year_last y) = y /\
  year_last y = year_start y + year_len y - 1.
Proof.
  intros Hy. assert (H : year_ok y = true).
  { apply (forallb_elem _ _ _ years_checked), elem_of_seqZ. lia. }
  unfold year_ok in H. fold (year_last y) (year_len y) in H. bool_facts. lia.
Qed.

Lemma day_facts doy : 0 <= doy < 366 -> day_ok doy = true.
Proof. intros H. apply (forallb_elem _ _ _ days_checked), elem_of_seqZ. lia. Qed.

Lemma day_step doy :
  0 <= doy < 366 ->
  let m := month_of doy in let d := day_of doy in
  let m' := month_of (doy + 1) in let d' := day_of (doy + 1) in
  1 <= m <= 12 /\ 1 <= d /\
  (doy = 364 -> m = 2 /\ d = 28) /\ (doy = 365 -> m = 2 /\ d = 29) /\
  (doy < 364 -> m = 2 -> d < 28 /\ m' = 2 /\ d' = d + 1) /\
  (doy < 364 -> m <> 2 -> d < month_length 1 m -> m' = m /\ d' = d + 1) /\
  (doy < 364 -> m <> 2 -> month_length 1 m <= d ->
     m' = (if m <? 12 then m + 1 else 1) /\ d' = 1).
Proof.
  intros H m d m' d'. pose proof (day_facts doy H) as Hd. unfold day_ok in Hd.
  fold m d m' d' in Hd. apply andb_true_iff in Hd as [Hr Hd].
  split; [lia|]. split; [lia|].
  destruct (doy =? 364) eqn:E1; [lia|]. destruct (doy =? 365) eqn:E2; [lia|].
  destruct (m =? 2) eqn:E3; [lia|].
  destruct (d <? month_length 1 m) eqn:E4; lia.
Qed.

(** The year formula is exact on every day of the era. *)
Lemma era_year doe :
  0 <= doe < 146097 ->
  let y := yoe_of doe in
  0 <= y < 400 /\ year_start y <= doe <= year_last y.
Proof.
  intros Hd y.
  assert (Hex : exists k, 0 <= k < 400 /\ year_start k <= doe <= year_last k).
  { assert (Hn : forall n : nat, (n <= 399)%nat -> doe <= year_last (Z.of_nat n) ->
      exists k, 0 <= k < 400 /\ year_start k <= doe <= year_last k).
    { induction n as [|n IH]; intros Hn Hle; [exists 0; change (year_start 0) with 0; split; [lia|split; [lia|done]]|].
      destruct (decide (doe < year_start (Z.of_nat (S n)))) as [Hlt|Hge].
      - apply IH; [lia|]. unfold year_last. case_if; bool_facts; [lia|].
        replace (Z.of_nat n + 1) with (Z.of_nat (S n)) by lia. lia.
      - exists (Z.of_nat (S n)). lia. }
    apply (Hn 399%nat); [lia|]. unfold year_last. simpl. lia. }
  destruct Hex as (k & Hk & Hr). destruct (year_facts k Hk) as (F1 & F2 & F3 & F4 & _).
  assert (y = k) as ->; [|done]. unfold y.
  assert (yoe_of (year_start k) <= yoe_of doe <= yoe_of (year_last k)); [|lia].
  unfold yoe_of. split; apply Z.div_le_mono; try lia; apply yoe_num_mono; lia.
Qed.

Lemma yoe_unique doe k : 0 <= k < 400 -> year_start k <= doe <= year_last k -> yoe_of doe = k.
Proof.
  intros Hk Hr. destruct (year_facts k Hk) as (F1 & F2 & F3 & F4 & _).
  assert (yoe_of (year_start k) <= yoe_of doe <= yoe_of (year_last k)); [|lia].
  unfold yoe_of. split; apply Z.div_le_mono; try lia; apply yoe_num_mono; lia.
Qed.

Lemma leap_period y : leap (y + 400) = leap y.
Proof.
  unfold leap. replace (y + 400) with (y + 1 * 400) by lia. rewrite Z.mod_add by lia.
  replace ((y + 1 * 400) `mod` 4) with (y `mod` 4) by (Z.to_euclidean_division_equations; lia).
  by replace ((y + 1 * 400) `mod` 100) with (y `mod` 100) by (Z.to_euclidean_division_equations; lia).
Qed.

(** The calendar successor of a day that is not the last of its year. *)
Lemma era_next_inside doe :
  0 <= doe < 146097 -> doe - year_start (yoe_of doe) + 1 < year_len (yoe_of doe) ->
  next_day (civil_in_era doe) = civil_in_era (doe + 1).
Proof.
  intros Hd. destruct (era_year doe Hd) as [Hy Hr]. set (y := yoe_of doe) in *. intros Hin.
  destruct (year_facts y Hy) as (F1 & F2 & F3 & F4 & F5).
  set (doy := doe - year_start y) in *. assert (Hdoy : 0 <= doy < year_len y) by lia.
  assert (Hlen : year_len y = 365 \/ year_len y = 366 /\ leap (y + 1) = true)
    by (unfold year_len; destruct (leap (y + 1)); auto).
  destruct (day_step doy ltac:(lia)) as (Dm & Dd & D364 & D365 & Dfeb & Din & Dout).
  unfold civil_in_era at 1. fold y doy. unfold next_day.
  unfold civil_in_era. rewrite (yoe_unique (doe + 1) y Hy) by (unfold doy in Hin; lia).
  replace (doe + 1 - year_start y) with (doy + 1) by (unfold doy; lia).
  destruct (decide (doy = 364)) as [E|Hn].
  { destruct (D364 E) as [-> ->]. rewrite E.
    assert (Hlp : leap (y + 1) = true) by (destruct Hlen as [?|[_ ?]]; [lia|done]).
    unfold month_length. simpl. by rewrite Hlp. }
  assert (Hlt : doy < 364) by lia. destruct (decide (month_of doy = 2)) as [E2|N2].
  - destruct (Dfeb Hlt E2) as (Hd28 & -> & ->). rewrite E2. unfold month_length. simpl.
    replace (day_of doy <? (if leap (y + 1) then 29 else 28)) with true
      by (symmetry; destruct (leap _); lia). reflexivity.
  - assert (Hml : forall x, month_length x (month_of doy) = month_length 1 (month_of doy)).
    { intros x. unfold month_length. by replace (month_of doy =? 2) with false by lia. }
    rewrite Hml. destruct (day_of doy <? month_length 1 (month_of doy)) eqn:Ed.
    + destruct (Din Hlt N2 ltac:(lia)) as [-> ->]. done.
    + destruct (Dout Hlt N2 ltac:(lia)) as [-> ->].
      destruct (month_of doy <? 12) eqn:E12; f_equal; f_equal; repeat case_if; lia.
Qed.

Lemma year_last_next y : 0 <= y < 399 -> year_last y = year_start (y + 1) - 1.
Proof. intros Hy. unfold year_last. by replace (y =? 399) with false by lia. Qed.

(** The last day of a year is the last of February; then comes March 1. *)
Lemma era_next_last doe :
  0 <= doe < 146097 -> doe - year_start (yoe_of doe) + 1 = year_len (yoe_of doe) ->
  next_day (civil_in_era doe) =
    if doe =? 146096 then shift_years 400 (civil_in_era 0) else civil_in_era (doe + 1).
Proof.
  intros Hd. destruct (era_year doe Hd) as [Hy Hr]. set (y := yoe_of doe) in *. intros Hlast.
  destruct (year_facts y Hy) as (F1 & F2 & F3 & F4 & F5). set (doy := doe - year_start y) in *.
  destruct (day_step doy ltac:(unfold year_len in *; destruct (leap (y + 1)); lia))
    as (_ & _ & D364 & D365 & _).
  unfold civil_in_era at 1. fold y doy. unfold next_day.
  assert (Hmd : month_of doy = 2 /\ day_of doy = (if leap (y + 1) then 29 else 28)).
  { unfold year_len in Hlast. destruct (leap (y + 1)); [apply D365|apply D364]; lia. }
  destruct Hmd as [-> ->]. simpl.
  change (month_length (y + 1) 2) with (if leap (y + 1) then 29 else 28).
  rewrite Z.ltb_irrefl. assert (Hdoe : doe = year_last y) by (unfold doy in Hlast; lia).
  destruct (doe =? 146096) eqn:E; bool_facts.
  - assert (y = 399) as ->; [|reflexivity].
    destruct (decide (y = 399)); [done|]. destruct (year_facts (y + 1) ltac:(lia)) as (G1 & G2 & _).
    pose proof (year_last_next y). lia.
  - assert (Hy' : y <> 399) by (intros ->; rewrite Hdoe in E; by unfold year_last in E).
    pose proof (year_last_next y ltac:(lia)).
    destruct (year_facts (y + 1) ltac:(lia)) as (G1 & G2 & G3 & _).
    unfold civil_in_era. replace (doe + 1) with (year_start (y + 1)) by lia. rewrite G3, Z.sub_diag.
    change (month_of 0) with 3. change (day_of 0) with 1. simpl (3 <=? 2). by rewrite Z.add_0_r.
Qed.

(** The calendar successor inside an era, and across its last day. *)
Lemma era_next doe :
  0 <= doe < 146097 ->
  next_day (civil_in_era doe) =
    if doe =? 146096 then shift_years 400 (civil_in_era 0) else civil_in_era (doe + 1).
Proof.
  intros Hd. destruct (era_year doe Hd) as [Hy Hr].
  destruct (year_facts (yoe_of doe) Hy) as (F1 & F2 & F3 & F4 & F5).
  destruct (decide (doe - year_start (yoe_of doe) + 1 < year_len (yoe_of doe))) as [Hin|Hlast].
  - rewrite era_next_inside by done. by replace (doe =? 146096) with false by (symmetry; apply Z.eqb_neq; lia).
  - apply era_next_last; [done|lia].
Qed.

(** ** The 32-bit code against the calendar *)

Lemma era_days z :
  let w := z + 719468 in
  (if 0 <=? w then w else w - 146096) `quot` 146097 = w `div` 146097.
Proof.
  intros w. pose proof (Z.div_mod w 146097 ltac:(lia)). pose proof (Z.mod_pos_bound w 146097 ltac:(lia)).
  case_if; bool_facts; [by apply Z.quot_div_nonneg; lia|].
  rewrite <- (Z.opp_involutive (w - 146096)), Z.quot_opp_l by lia.
  rewrite Z.quot_div_nonneg by lia.
  assert ((- (w - 146096)) `div` 146097 = - (w `div` 146097)); [|lia].
  symmetry. apply (Z.div_unique _ _ _ (146096 - w `mod` 146097)); lia.
Qed.

(** The date of a day by eras of 400 years, without machine integers. *)
Definition civil (z : Z) : Z * Z * Z :=
  shift_years ((z + 719468) `div` 146097 * 400) (civil_in_era ((z + 719468) `mod` 146097)).

(** The days whose shift by 719468 fits. *)
Definition civil_day (z : Z) : Prop := - 2 ^ 63 <= z < 2 ^ 63 - 719468.

Lemma int64_ok x : - 2 ^ 63 <= x < 2 ^ 63 -> int64 x = Ok x.
Proof. intros H. unfold int64. case_if; [done|]. bool_facts. lia. Qed.

Lemma civil_from_days_ok z : civil_day z -> civil_from_days z = Ok (civil z).
Proof.
  intros Hz. unfold civil_day in Hz. unfold civil, civil_from_days.
  set (era := (z + 719468) `div` 146097). set (doe := (z + 719468) `mod` 146097).
  assert (Hdoe : 0 <= doe < 146097) by (apply Z.mod_pos_bound; lia).
  assert (Hw : z + 719468 = 146097 * era + doe) by (apply Z.div_mod; lia).
  rewrite int64_ok by lia. cbn [obind].
  replace (if 0 <=? z + 719468 then Ok (z + 719468) else int64 (z + 719468 - 146096))
    with (Ok (if 0 <=? z + 719468 then z + 719468 else z + 719468 - 146096))
    by (case_if; [done|]; bool_facts; by rewrite int64_ok by lia).
  cbn [obind]. cbv zeta. rewrite era_days. fold era. rewrite (int64_ok (era * 146097)) by lia. cbn [obind].
  replace (z + 719468 - era * 146097) with doe by lia. rewrite (int64_ok doe) by lia. cbn [obind].
  rewrite (u32_small doe) by lia. fold (yoe_num doe).
  destruct (era_year doe Hdoe) as [Hy Hr]. destruct (year_facts _ Hy) as (F1 & F2 & _ & _ & F5).
  assert (Hyn : 0 <= yoe_num doe < 2 ^ 32).
  { unfold yoe_num. Z.to_euclidean_division_equations; lia. }
  rewrite (u32_small (yoe_num doe)) by done. fold (yoe_of doe). fold (year_start (yoe_of doe)).
  rewrite (int64_ok (era * 400)) by lia. cbn [obind]. rewrite int64_ok by lia. cbn [obind].
  unfold civil_in_era. set (y := yoe_of doe) in *. set (doy := doe - year_start y).
  assert (Hdoy : 0 <= doy < 366).
  { unfold doy. unfold year_len in F5. destruct (leap (y + 1)); lia. }
  rewrite (u32_small doy) by lia. destruct (day_step doy Hdoy) as (Dm & Dd & _).
  fold (month_of doy) (day_of doy). rewrite (u32_small (month_of doy)) by lia.
  assert (Hd : day_of doy <= doy + 1).
  { unfold day_of. Z.to_euclidean_division_equations; lia. }
  rewrite (u32_small (day_of doy)) by lia. rewrite int64_ok by (case_if; lia). cbn [obind].
  unfold shift_years. do 3 f_equal. lia.
Qed.

Lemma civil_from_days_ub z : 2 ^ 63 - 719468 <= z -> is_ub (civil_from_days z) = true.
Proof.
  intros Hz. unfold civil_from_days, int64 at 1.
  assert ((- 2 ^ 63 <=? z + 719468) && (z + 719468 <? 2 ^ 63) = false) as -> by lia. done.
Qed.

Lemma next_day_shift k c : next_day (shift_years (k * 400) c) = shift_years (k * 400) (next_day c).
Proof.
  destruct c as [[y m] d]. simpl.
  assert (Hl : forall y, leap (y + k * 400) = leap y).
  { intros x. unfold leap. rewrite Z.mod_add by lia.
    replace ((x + k * 400) `mod` 4) with (x `mod` 4)
      by (replace (x + k * 400) with (x + (k * 100) * 4) by lia; by rewrite Z.mod_add by lia).
    by replace ((x + k * 400) `mod` 100) with (x `mod` 100)
      by (replace (x + k * 400) with (x + (k * 4) * 100) by lia; by rewrite Z.mod_add by lia). }
  unfold month_length. rewrite Hl. simpl. case_if; [done|]. case_if; [done|]. simpl. f_equal. f_equal. lia.
Qed.

Lemma civil_next z : civil (z + 1) = next_day (civil z).
Proof.
  unfold civil. assert (Hd : 0 <= (z + 719468) `mod` 146097 < 146097) by (apply Z.mod_pos_bound; lia).
  set (w := z + 719468) in *. replace (z + 1 + 719468) with (w + 1) by lia.
  rewrite next_day_shift, era_next by done.
  pose proof (Z.div_mod w 146097 ltac:(lia)).
  destruct (w `mod` 146097 =? 146096) eqn:E; bool_facts.
  - assert (Hq : (w + 1) `div` 146097 = w `div` 146097 + 1)
      by (symmetry; apply (Z.div_unique _ _ _ 0); lia).
    assert (Hr : (w + 1) `mod` 146097 = 0) by (symmetry; apply (Z.mod_unique _ _ (w `div` 146097 + 1)); lia).
    rewrite Hq, Hr. destruct (civil_in_era 0) as [[y m] d]. simpl. f_equal. f_equal. lia.
  - assert (Hq : (w + 1) `div` 146097 = w `div` 146097)
      by (symmetry; apply (Z.div_unique _ _ _ (w `mod` 146097 + 1)); lia).
    assert (Hr : (w + 1) `mod` 146097 = w `mod` 146097 + 1)
      by (symmetry; apply (Z.mod_unique _ _ (w `div` 146097)); lia).
    by rewrite Hq, Hr.
Qed.

(** C34. [civil_from_days] is the proleptic Gregorian calendar: day 0 is 1 January
    1970, and as long as [z += 719468] does not overflow the date of the next day
    is the calendar successor of the date (month lengths, leap years and year
    ends included), without any overflow on the way; the last 719468 day numbers
    of int64_t overflow. *)
Theorem civil_from_days_is_gregorian :
  civil_from_days 0 = Ok (1970, 1, 1) /\
  (forall z, - 2 ^ 63 <= z < 2 ^ 63 - 719468 - 1 ->
     exists c, civil_from_days z = Ok c /\ civil_from_days (z + 1) = Ok (next_day c)) /\
  (forall z, 2 ^ 63 - 719468 <= z < 2 ^ 63 -> is_ub (civil_from_days z) = true).
Proof.
  split; [reflexivity|]. split; [|intros z Hz; apply civil_from_days_ub; lia].
  intros z Hz. exists (civil z). rewrite !civil_from_days_ok by (unfold civil_day; lia). by rewrite civil_next.
Qed.

(** ** FILETIME fields *)

Lemma split_filetime_floor ft :
  split_filetime ft = (s64 ft `div` kDay100ns, s64 ft `mod` kDay100ns).
Proof.
  unfold split_filetime. set (x := s64 ft). assert (0 < kDay100ns) by (unfold kDay100ns; lia).
  pose proof (Z.quot_rem x kDay100ns ltac:(lia)).
  destruct (decide (0 <= x)).
  - rewrite Z.quot_div_nonneg, Z.rem_mod_nonneg by lia.
    pose proof (Z.mod_pos_bound x kDay100ns ltac:(lia)). case_if; bool_facts; [lia|done].
  - assert (Hrb : - kDay100ns < x `rem` kDay100ns <= 0) by (apply Z.rem_bound_pos_neg; lia).
    case_if; bool_facts.
    + assert (x `div` kDay100ns = x `quot` kDay100ns - 1) as ->
        by (symmetry; apply (Z.div_unique _ _ _ (x `rem` kDay100ns + kDay100ns)); lia).
      f_equal. apply (Z.mod_unique _ _ (x `quot` kDay100ns - 1)); lia.
    + assert (Hz : x `rem` kDay100ns = 0) by lia. f_equal.
      * apply (Z.div_unique _ _ _ 0); lia.
      * rewrite Hz. apply (Z.mod_unique _ _ (x `quot` kDay100ns)); lia.
Qed.

Lemma civil_ranges z : let '(y, m, d) := civil z in 1 <= m <= 12 /\ 1 <= d <= 31.
Proof.
  unfold civil. assert (Hd : 0 <= (z + 719468) `mod` 146097 < 146097) by (apply Z.mod_pos_bound; lia).
  unfold civil_in_era, shift_years.
  destruct (era_year _ Hd) as [Hy Hr]. destruct (year_facts _ Hy) as (_ & _ & _ & _ & F5).
  set (doe := _ `mod` 146097) in *. set (doy := doe - year_start (yoe_of doe)).
  assert (Hdoy : 0 <= doy < 366).
  { unfold doy. unfold year_len in F5. destruct (leap _); lia. }
  destruct (day_step doy Hdoy) as (Dm & Dd & _). split; [done|]. split; [done|].
  unfold day_of. Z.to_euclidean_division_equations; lia.
Qed.

(** RtlTimeToTimeFields is exact for every 64-bit FILETIME, dates before
    1601 included: the fields are in range, the time-of-day fields and the day
    number add up to the FILETIME with only the part below a millisecond
    dropped, the date is the calendar date of that day number, and the weekday
    is the day number's (1 January 1601 a Monday, Sunday coded 0). *)
Theorem time_fields_exact ft :
  let days := s64 ft `div` kDay100ns in
  exists t, time_to_fields ft = Ok t /\
  civil_from_days (days - 134774) = Ok (tf_year t, tf_month t, tf_day t) /\
  1 <= tf_month t <= 12 /\ 1 <= tf_day t <= 31 /\
  0 <= tf_hour t < 24 /\ 0 <= tf_minute t < 60 /\ 0 <= tf_second t < 60 /\
  0 <= tf_ms t < 1000 /\ tf_weekday t = (days + 1) `mod` 7 /\
  (exists sub, 0 <= sub < 10000 /\
    s64 ft = days * kDay100ns +
      ((((tf_hour t * 60 + tf_minute t) * 60 + tf_second t) * 1000 + tf_ms t) * 10000 + sub)).
Proof.
  intros days. unfold time_to_fields. rewrite split_filetime_floor. fold days.
  assert (Hx : s64 ft = kDay100ns * days + s64 ft `mod` kDay100ns) by (apply Z.div_mod; done).
  assert (Hr : 0 <= s64 ft `mod` kDay100ns < kDay100ns) by (apply Z.mod_pos_bound; unfold kDay100ns; lia).
  set (rem := s64 ft `mod` kDay100ns) in *. pose proof (civil_ranges (days - 134774)) as Hc.
  assert (Hday : civil_day (days - 134774)).
  { unfold civil_day. assert (- 2 ^ 63 <= s64 ft < 2 ^ 63) by (unfold s64; pose proof (u64_range ft); case_if; bool_facts; lia). unfold kDay100ns in *. lia. }
  rewrite (civil_from_days_ok _ Hday). destruct (civil (days - 134774)) as [[y m] d]. cbn [obind].
  eexists. split; [reflexivity|]. simpl.
  unfold kDay100ns in *.
  assert (Hms : 0 <= rem `div` 10000 < 86400000)
    by (Z.to_euclidean_division_equations; lia).
  set (ms := rem `div` 10000) in *.
  assert (Hsub : rem = 10000 * ms + rem `mod` 10000) by (apply Z.div_mod; lia).
  assert (0 <= rem `mod` 10000 < 10000) by (apply Z.mod_pos_bound; lia).
  assert (H1 : 0 <= ms `mod` 1000 < 1000) by (apply Z.mod_pos_bound; lia).
  assert (H2 : 0 <= (ms `div` 1000) `mod` 60 < 60) by (apply Z.mod_pos_bound; lia).
  assert (H3 : 0 <= (ms `div` 60000) `mod` 60 < 60) by (apply Z.mod_pos_bound; lia).
  assert (H4 : 0 <= ms `div` 3600000 < 24) by (clear -Hms; Z.to_euclidean_division_equations; lia).
  rewrite !u32_small by (lia || (clear; Z.to_euclidean_division_equations; lia)).
  split_and!; try lia; try done.
  - clear. Z.to_euclidean_division_equations; lia.
  - exists (rem `mod` 10000). split; [done|]. rewrite Hx at 1. rewrite Hsub at 1.
    assert (ms = ((ms `div` 3600000 * 60 + (ms `div` 60000) `mod` 60) * 60 +
      (ms `div` 1000) `mod` 60) * 1000 + ms `mod` 1000); [|lia].
    clear -Hms. Z.to_euclidean_division_equations; lia.
Qed.

(** ** Intervals *)

(** A relative interval of up to 2^32 - 1 milliseconds becomes the least
    number of ticks that covers it, never 0, so a delay cannot turn into an
    immediate return or into a wait without a deadline; an absolute deadline
    is immediate exactly when it has passed, and otherwise covers the time
    left. *)
Theorem interval_ticks_cover now q :
  0 <= now < 2 ^ 63 -> - 2 ^ 63 < q < 2 ^ 63 ->
  (- 10000 * (2 ^ 32 - 1) <= q < 0 ->
    exists ticks, interval_to_ticks now q = Ok (false, ticks) /\ 1 <= ticks /\
      10000 * (ticks - 1) < - q <= 10000 * ticks) /\
  (0 < q <= now -> interval_to_ticks now q = Ok (true, 0)) /\
  (now < q <= now + 10000 * (2 ^ 32 - 1) -> 0 < q ->
    exists ticks, interval_to_ticks now q = Ok (false, ticks) /\ 1 <= ticks /\
      10000 * (ticks - 1) < q - now <= 10000 * ticks).
Proof.
  intros Hn Hq. unfold interval_to_ticks.
  assert (Hceil : forall x, 0 < x <= 10000 * (2 ^ 32 - 1) ->
    1 <= ceil_ms x /\ 10000 * (ceil_ms x - 1) < x <= 10000 * ceil_ms x).
  { intros x Hx. unfold ceil_ms. rewrite (u64_small (x + 9999)) by lia.
    rewrite u32_small; Z.to_euclidean_division_equations; lia. }
  split_and!.
  - intros H. replace (q =? 0) with false by lia. replace (0 <? q) with false by lia.
    replace (q =? - 2 ^ 63) with false by lia. rewrite (u64_small (- q)) by lia.
    destruct (Hceil (- q)) as [H1 H2]; [lia|]. replace (ceil_ms (- q) =? 0) with false by lia. eauto.
  - intros H. replace (q =? 0) with false by lia. replace (0 <? q) with true by lia.
    rewrite u64_small by lia. by replace (q <=? now) with true by lia.
  - intros H H0. replace (q =? 0) with false by lia. replace (0 <? q) with true by lia.
    rewrite (u64_small q) by lia. replace (q <=? now) with false by lia.
    rewrite (u64_small (q - now)) by lia. destruct (Hceil (q - now)) as [H1 H2]; [lia|].
    replace (ceil_ms (q - now) =? 0) with false by lia. eauto.
Qed.

(** Longer intervals are cut to 32 bits of milliseconds: a relative wait of
    any whole multiple of 2^32 milliseconds (about 49.7 days) is reported
    immediate, and the most negative interval overflows its negation. *)
Theorem long_interval_wraps now k :
  0 < k -> 10000 * (k * 2 ^ 32) < 2 ^ 63 ->
  interval_to_ticks now (- (10000 * (k * 2 ^ 32))) = Ok (true, 0) /\
  is_ub (interval_to_ticks now (- 2 ^ 63)) = true.
Proof.
  intros Hk Hb. split; [|reflexivity]. unfold interval_to_ticks.
  replace (- (10000 * (k * 2 ^ 32)) =? 0) with false by lia.
  replace (0 <? - (10000 * (k * 2 ^ 32))) with false by lia.
  replace (- (10000 * (k * 2 ^ 32)) =? - 2 ^ 63) with false by lia.
  rewrite Z.opp_involutive, (u64_small (10000 * _)) by lia. unfold ceil_ms.
  rewrite u64_small by lia.
  replace ((10000 * (k * 2 ^ 32) + 9999) `div` 10000) with (k * 2 ^ 32)
    by (Z.to_euclidean_division_equations; lia).
  unfold u32. rewrite Z.mod_mul by lia. reflexivity.
Qed.

Lemma civil_from_days_is_gregorian_witness :
  exists c, civil_from_days 58 = Ok c /\ civil_from_days (58 + 1) = Ok (next_day c) /\ c = (1970, 2, 28).
Proof.
  destruct civil_from_days_is_gregorian as (_ & H & _). destruct (H 58) as (c & H1 & H2); [lia|].
  exists c. split; [exact H1|]. split; [exact H2|]. vm_compute in H1. injection H1 as <-. reflexivity.
Defined.

Lemma interval_ticks_cover_witness :
  exists ticks, interval_to_ticks 1000 (- 15000) = Ok (false, ticks) /\ 1 <= ticks /\
    10000 * (ticks - 1) < 15000 <= 10000 * ticks.
Proof. apply (interval_ticks_cover 1000 (- 15000)); lia. Defined.

Lemma long_interval_wraps_witness :
  interval_to_ticks 0 (- (10000 * (1 * 2 ^ 32))) = Ok (true, 0) /\
  is_ub (interval_to_ticks 0 (- 2 ^ 63)) = true.
Proof. apply (long_interval_wraps 0 1); lia. Defined.

End KrnlTime.
