(* ===== verification/KrnlPrintf.v ===== *)
(** DbgPrint formatting (src/xbox_krnl.cpp): the guest's format string is
    split into conversions, widths and precisions are clamped, and each
    numeric conversion goes through [snprintf] into a 48-byte buffer. The
    part of [snprintf] used here follows the C standard: a conversion
    specification the standard leaves undefined is [Ub]. *)
From stdpp Require Import base numbers list gmap strings.
From Stdlib Require Import ZArith Lia.
From S2P Require Import Prelude.
Open Scope Z_scope.

Module KrnlPrintf.

(** Character codes. *)
Definition c_pct : Z := 37.
Definition c_minus : Z := 45.
Definition c_plus : Z := 43.
Definition c_space : Z := 32.
Definition c_hash : Z := 35.
Definition c_zero : Z := 48.
Definition c_dot : Z := 46.
Definition is_digit (c : Z) : bool := (48 <=? c) && (c <=? 57).

(** Longest prefix whose elements satisfy a test. *)
Fixpoint span (f : Z -> bool) (l : list Z) : list Z * list Z :=
  match l with
  | [] => ([], [])
  | x :: l' => if f x then let (a, b) := span f l' in (x :: a, b) else ([], l)
  end.

(** Value of a digit run ([strtol] saturates, far above any cap). *)
Definition dec_val (ds : list Z) : Z := foldl (fun acc c => acc * 10 + (c - 48)) 0 ds.

(** ** clamp_printf_spec *)

Definition kCap : Z := 64.

Fixpoint clamp_loop (fuel : nat) (raw : list Z) : list Z :=
  match fuel, raw with
  | O, _ => raw
  | _, [] => []
  | S fuel', c :: rest =>
      if is_digit c then
        let (run, rest') := span is_digit raw in
        (if kCap <? dec_val run then [54; 52] else run) ++ clamp_loop fuel' rest'
      else c :: clamp_loop fuel' rest
  end.
Definition clamp_printf_spec (raw : list Z) : list Z := clamp_loop (length raw) raw.

(** ** snprintf of one integer conversion *)

(** Digits of [n] in [base], most significant first; 0 has none. *)
Fixpoint digits_loop (fuel : nat) (base : Z) (upper : bool) (n : Z) (acc : list Z) : list Z :=
  match fuel with
  | O => acc
  | S fuel' =>
      if n =? 0 then acc
      else let d := n `mod` base in
           let c := if d <? 10 then 48 + d else (if upper then 55 else 87) + d in
           digits_loop fuel' base upper (n `div` base) (c :: acc)
  end.
Definition digits (base : Z) (upper : bool) (n : Z) : list Z := digits_loop 32 base upper n [].

Record spec := MkSpec {
  sp_minus : bool; sp_plus : bool; sp_space : bool; sp_hash : bool; sp_zero : bool;
  sp_width : Z; sp_prec : option Z; sp_mod : list Z;
}.

Definition is_flag (c : Z) : bool :=
  (c =? c_minus) || (c =? c_plus) || (c =? c_space) || (c =? c_hash) || (c =? c_zero).
Definition is_lh (c : Z) : bool := (c =? 108) || (c =? 104).

(** What [snprintf] makes of the characters between '%' and the conversion:
    flags, width, precision, length modifier, in this order only. *)
Definition parse_spec (s : list Z) : spec :=
  let (flags, s) := span is_flag s in
  let (width, s) := span is_digit s in
  let has c := bool_decide (c ∈ flags) in
  let mk p m := MkSpec (has c_minus) (has c_plus) (has c_space) (has c_hash) (has c_zero)
                       (dec_val width) p m in
  match s with
  | c :: s' => if c =? c_dot
               then let (prec, m) := span is_digit s' in mk (Some (dec_val prec)) m
               else mk None s
  | [] => mk None []
  end.

Definition pad (n : Z) (c : Z) : list Z := replicate (Z.to_nat n) c.

(** The argument as the length modifier converts it: none is int, "h" short,
    "hh" char; "l" and "ll" read a wider argument than the one passed, and
    any other string is no modifier at all. *)
Definition convert_arg (m : list Z) (signed : bool) (v : Z) : option Z :=
  let narrow w := let y := v `mod` 2 ^ w in
                  if signed && (2 ^ (w - 1) <=? y) then y - 2 ^ w else y in
  match m with
  | [] => Some (narrow 32)
  | [104] => Some (narrow 16)
  | [104; 104] => Some (narrow 8)
  | _ => None
  end.

Definition render (sp : spec) (conv n : Z) : list Z :=
  let signed := (conv =? 100) || (conv =? 105) in
  let mag := Z.abs n in
  let upper := conv =? 88 in
  let base := if (conv =? 120) || (conv =? 88) then 16 else if conv =? 111 then 8 else 10 in
  let ds := digits base upper mag in
  let ds := match sp_prec sp with
            | None => if mag =? 0 then [c_zero] else ds
            | Some p => pad (p - zlen ds) c_zero ++ ds
            end in
  let ds := if (conv =? 111) && sp_hash sp && negb (bool_decide (head ds = Some c_zero))
            then c_zero :: ds else ds in
  let prefix :=
    if signed then
      if n <? 0 then [c_minus] else if sp_plus sp then [c_plus]
      else if sp_space sp then [c_space] else []
    else if sp_hash sp && (base =? 16) && negb (mag =? 0) then [c_zero; conv] else [] in
  let fill := sp_width sp - zlen prefix - zlen ds in
  if sp_minus sp then prefix ++ ds ++ pad fill c_space
  else if sp_zero sp && bool_decide (sp_prec sp = None) then prefix ++ pad fill c_zero ++ ds
  else pad fill c_space ++ prefix ++ ds.

(** [snprintf(buf, size, (spec + conv).c_str(), v)] for d i u x X o; [spec]
    starts with '%'. *)
Definition snprintf_int (size : Z) (sp : list Z) (conv v : Z) : outcome (list Z) :=
  let p := parse_spec (tail sp) in
  let signed := (conv =? 100) || (conv =? 105) in
  if sp_hash p && (signed || (conv =? 117)) then Ub "# with a decimal conversion"
  else match convert_arg (sp_mod p) signed v with
       | None => Ub "conversion specification does not match its argument"
       | Some n => Ok (take (Z.to_nat (size - 1)) (render p conv n))
       end.

(** ** The DbgPrint loop *)

Definition is_spec_char (c : Z) : bool := is_flag c || (c =? c_dot) || is_digit c.

(** [args[argi++]], or 0 past the end. *)
Definition next_arg (args : list Z) : Z * list Z :=
  match args with v :: rest => (v, rest) | [] => (0, []) end.

Section dbg_print.
(** [read_cstr] of the guest memory of the call. *)
Context (cstr : Z -> list Z).

Definition null_text : list Z := [40; 110; 117; 108; 108; 41].

(** One conversion: its text and the arguments left. *)
Definition convert (conv : Z) (sp verbatim : list Z) (args : list Z)
    : outcome (list Z * list Z) :=
  if (conv =? 115) || (conv =? 83) then
    let (p, rest) := next_arg args in
    Ok (if p =? 0 then null_text else cstr p, rest)
  else if conv =? 99 then
    let (v, rest) := next_arg args in Ok ([u8 v], rest)
  else if bool_decide (conv ∈ [100; 105; 117; 120; 88; 111]) then
    let (v, rest) := next_arg args in
    let! t := snprintf_int 48 sp conv v in Ok (t, rest)
  else if conv =? 112 then
    let (v, rest) := next_arg args in
    Ok ([c_zero; 120] ++ (let ds := digits 16 false (u32 v) in pad (8 - zlen ds) c_zero ++ ds), rest)
  else Ok (verbatim, args).

Fixpoint format_loop (fuel : nat) (fmt args : list Z) : outcome (list Z) :=
  match fuel with
  | O => Ub "the format loop does not terminate"
  | S fuel' =>
      match fmt with
      | [] => Ok []
      | c :: rest =>
          if negb (c =? c_pct) then
            let! out := format_loop fuel' rest args in Ok (c :: out)
          else match rest with
               | c2 :: rest2 =>
                   if c2 =? c_pct then
                     let! out := format_loop fuel' rest2 args in Ok (c_pct :: out)
                   else
                     let (sp, r1) := span is_spec_char rest in
                     let (md, r2) := span is_lh r1 in
                     match r2 with
                     | [] => Ok fmt
                     | conv :: r3 =>
                         let! x := convert conv (clamp_printf_spec (c_pct :: sp ++ md))
                                           (c_pct :: sp ++ md ++ [conv]) args in
                         let! out := format_loop fuel' r3 (snd x) in
                         Ok (fst x ++ out)
                     end
               | [] => Ok fmt
               end
      end
  end.

(** Each iteration consumes at least one character of the format. *)
Definition format (fmt args : list Z) : outcome (list Z) :=
  format_loop (S (length fmt)) fmt args.

End dbg_print.

(** ** Examples: what guests print *)

Definition bytes_of (s : string) : list Z :=
  (fun a => Z.of_nat (Ascii.nat_of_ascii a)) <$> String.list_ascii_of_string s.

Example prints_numbers :
  format (fun _ => []) (bytes_of "x=%08x y=%d %%") [0xBEEF; 0xFFFFFFFE] =
  Ok (bytes_of "x=0000beef y=-2 %").
Proof. by vm_compute. Qed.

(** A wide field is cut to the cap and to the buffer. *)
Example clamps_width :
  format (fun _ => []) (bytes_of "%99999999d") [7] = Ok (pad 47 c_space).
Proof. by vm_compute. Qed.

(** The zero flag belongs to the digit run that is rewritten at the cap. *)
Example clamp_drops_zero_flag :
  clamp_printf_spec (bytes_of "%0100") = bytes_of "%64".
Proof. by vm_compute. Qed.

(** The modifier "l" reaches [snprintf] with an int argument. *)
Example long_modifier_mismatch :
  is_ub (format (fun _ => []) (bytes_of "%ld") [7]) = true.
Proof. by vm_compute. Qed.

(** ** Termination of the format loop *)

Lemma span_shorter f l : (length (snd (span f l)) <= length l)%nat.
Proof.
  induction l as [|x l IH]; simpl; [lia|]. destruct (f x); [|simpl; lia].
  destruct (span f l) as [a b]. simpl in *. lia.
Qed.

(** More fuel than characters never changes the result. *)
Lemma format_loop_fuel cstr n m fmt args :
  (length fmt < n)%nat -> (length fmt < m)%nat ->
  format_loop cstr n fmt args = format_loop cstr m fmt args.
Proof.
  revert m fmt args. induction n as [|n IH]; intros m fmt args Hn Hm; [lia|].
  destruct m as [|m]; [lia|]. simpl. destruct fmt as [|c rest]; [done|]. simpl in Hn, Hm.
  destruct (negb (c =? c_pct)); [by rewrite (IH m) by lia|].
  destruct rest as [|c2 rest2]; [done|]. simpl in Hn, Hm.
  destruct (c2 =? c_pct); [by rewrite (IH m) by lia|].
  pose proof (span_shorter is_spec_char (c2 :: rest2)) as H1.
  destruct (span is_spec_char (c2 :: rest2)) as [sp r1]. simpl in H1.
  pose proof (span_shorter is_lh r1) as H2.
  destruct (span is_lh r1) as [md r2]. simpl in H2. destruct r2 as [|conv r3]; [done|].
  simpl in H2. destruct (convert _ _ _ _ _) as [x| |]; simpl; [|done|done].
  by rewrite (IH m) by lia.
Qed.

End KrnlPrintf.
