(* ===== verification/KrnlState.v ===== *)
(** State of the Xbox kernel emulation ([class krnl::XboxKrnl],
    src/xbox_krnl.cpp, include/xbox_krnl.h) and the monad its operations run
    in: dispatcher objects live in a heap keyed by host address, the
    registries hold addresses, guest RAM and the scheduler are the components
    modelled in their own files. *)
From stdpp Require Import base numbers list gmap strings.
From Stdlib Require Import ZArith Lia.
From S2P Require Import Prelude XbeRam CpuSched KrnlMm.
Open Scope Z_scope.

Module KrnlState.
Import XbeRam CpuSched KrnlMm.

(** ** Dispatcher objects *)

Inductive Kind := Event | Mutant | Semaphore | Thread.

#[export] Instance Kind_eq_dec : EqDecision Kind.
Proof. solve_decision. Defined.

Record event_part := MkEvent { ev_type : Z; ev_signaled : bool }.
Record mutant_part := MkMutant { mu_state : Z; mu_owner : Z; mu_abandoned : bool }.
Record semaphore_part := MkSemaphore { se_count : Z; se_limit : Z }.
Record thread_part := MkThread {
  th_start_routine : Z;
  th_start_context : Z;
  th_system_routine : Z;
  th_stack_size : Z;
  th_tls_size : Z;
  th_sched : Z;          (* sched_handle *)
  th_object : Z;         (* object_handle *)
  th_id : Z;             (* thread_id *)
  th_suspend : Z;        (* suspend_count *)
  th_priority : Z;       (* base_priority *)
  th_running : bool;
  th_missing_core : bool;
}.

Record DispatcherObject := MkObject {
  o_kind : Kind;
  o_guest_va : Z;
  o_token : Z;
  o_mw : list Z;         (* mw_waiters *)
  o_event : event_part;
  o_mutant : mutant_part;
  o_semaphore : semaphore_part;
  o_thread : thread_part;
}.

(** [std::make_unique<DispatcherObject>()]: the member initialisers. *)
Definition fresh_object : DispatcherObject :=
  MkObject Event 0 0 [] (MkEvent 0 false) (MkMutant 1 0 false) (MkSemaphore 0 0)
           (MkThread 0 0 0 0 0 0 0 0 0 0 false false).

Definition set_mw (l : list Z) (o : DispatcherObject) : DispatcherObject :=
  MkObject (o_kind o) (o_guest_va o) (o_token o) l (o_event o) (o_mutant o)
           (o_semaphore o) (o_thread o).
Definition set_event (e : event_part) (o : DispatcherObject) : DispatcherObject :=
  MkObject (o_kind o) (o_guest_va o) (o_token o) (o_mw o) e (o_mutant o)
           (o_semaphore o) (o_thread o).
Definition set_mutant (m : mutant_part) (o : DispatcherObject) : DispatcherObject :=
  MkObject (o_kind o) (o_guest_va o) (o_token o) (o_mw o) (o_event o) m
           (o_semaphore o) (o_thread o).
Definition set_semaphore (s : semaphore_part) (o : DispatcherObject) : DispatcherObject :=
  MkObject (o_kind o) (o_guest_va o) (o_token o) (o_mw o) (o_event o) (o_mutant o) s (o_thread o).
Definition set_thread (t : thread_part) (o : DispatcherObject) : DispatcherObject :=
  MkObject (o_kind o) (o_guest_va o) (o_token o) (o_mw o) (o_event o) (o_mutant o)
           (o_semaphore o) t.

Definition set_signaled (b : bool) (o : DispatcherObject) : DispatcherObject :=
  set_event (MkEvent (ev_type (o_event o)) b) o.

Definition th_with_running (b : bool) (t : thread_part) : thread_part :=
  MkThread (th_start_routine t) (th_start_context t) (th_system_routine t) (th_stack_size t)
    (th_tls_size t) (th_sched t) (th_object t) (th_id t) (th_suspend t) (th_priority t) b
    (th_missing_core t).
Definition th_with_missing (b : bool) (t : thread_part) : thread_part :=
  MkThread (th_start_routine t) (th_start_context t) (th_system_routine t) (th_stack_size t)
    (th_tls_size t) (th_sched t) (th_object t) (th_id t) (th_suspend t) (th_priority t)
    (th_running t) b.
Definition th_with_suspend (n : Z) (t : thread_part) : thread_part :=
  MkThread (th_start_routine t) (th_start_context t) (th_system_routine t) (th_stack_size t)
    (th_tls_size t) (th_sched t) (th_object t) (th_id t) n (th_priority t)
    (th_running t) (th_missing_core t).
Definition th_with_priority (n : Z) (t : thread_part) : thread_part :=
  MkThread (th_start_routine t) (th_start_context t) (th_system_routine t) (th_stack_size t)
    (th_tls_size t) (th_sched t) (th_object t) (th_id t) (th_suspend t) n
    (th_running t) (th_missing_core t).
Definition th_with_object (n : Z) (t : thread_part) : thread_part :=
  MkThread (th_start_routine t) (th_start_context t) (th_system_routine t) (th_stack_size t)
    (th_tls_size t) (th_sched t) n (th_id t) (th_suspend t) (th_priority t)
    (th_running t) (th_missing_core t).

(** ** The kernel *)

(** [k_free] is [free_slots_] with its back first; [k_fibers] is the ordered
    map [fiber_threads_]; [k_dbg_sent] is what the sink received. *)
Record kernel := MkKernel {
  k_ram : ram;
  k_sched : sched;
  k_heap : gmap Z DispatcherObject;
  k_objects : list (option Z);
  k_free : list nat;
  k_va : list Z;
  k_fibers : list (Z * Z);
  k_next_tid : Z;
  k_data_va : Z;
  k_mm : mm;
  k_sink : bool;
  k_dbg_lines : list (list Z);
  k_dbg_sent : list (list Z);
  k_runner : bool;
}.

Definition with_ram (k : kernel) (r : ram) : kernel :=
  MkKernel r (k_sched k) (k_heap k) (k_objects k) (k_free k) (k_va k) (k_fibers k)
    (k_next_tid k) (k_data_va k) (k_mm k) (k_sink k) (k_dbg_lines k) (k_dbg_sent k) (k_runner k).
Definition with_sched (k : kernel) (s : sched) : kernel :=
  MkKernel (k_ram k) s (k_heap k) (k_objects k) (k_free k) (k_va k) (k_fibers k)
    (k_next_tid k) (k_data_va k) (k_mm k) (k_sink k) (k_dbg_lines k) (k_dbg_sent k) (k_runner k).
Definition with_heap (k : kernel) (h : gmap Z DispatcherObject) : kernel :=
  MkKernel (k_ram k) (k_sched k) h (k_objects k) (k_free k) (k_va k) (k_fibers k)
    (k_next_tid k) (k_data_va k) (k_mm k) (k_sink k) (k_dbg_lines k) (k_dbg_sent k) (k_runner k).
Definition with_objects (k : kernel) (l : list (option Z)) (f : list nat) : kernel :=
  MkKernel (k_ram k) (k_sched k) (k_heap k) l f (k_va k) (k_fibers k)
    (k_next_tid k) (k_data_va k) (k_mm k) (k_sink k) (k_dbg_lines k) (k_dbg_sent k) (k_runner k).
Definition with_va (k : kernel) (l : list Z) : kernel :=
  MkKernel (k_ram k) (k_sched k) (k_heap k) (k_objects k) (k_free k) l (k_fibers k)
    (k_next_tid k) (k_data_va k) (k_mm k) (k_sink k) (k_dbg_lines k) (k_dbg_sent k) (k_runner k).
Definition with_fibers (k : kernel) (l : list (Z * Z)) : kernel :=
  MkKernel (k_ram k) (k_sched k) (k_heap k) (k_objects k) (k_free k) (k_va k) l
    (k_next_tid k) (k_data_va k) (k_mm k) (k_sink k) (k_dbg_lines k) (k_dbg_sent k) (k_runner k).
Definition with_tid (k : kernel) (n : Z) : kernel :=
  MkKernel (k_ram k) (k_sched k) (k_heap k) (k_objects k) (k_free k) (k_va k) (k_fibers k)
    n (k_data_va k) (k_mm k) (k_sink k) (k_dbg_lines k) (k_dbg_sent k) (k_runner k).
Definition with_data (k : kernel) (va : Z) : kernel :=
  MkKernel (k_ram k) (k_sched k) (k_heap k) (k_objects k) (k_free k) (k_va k) (k_fibers k)
    (k_next_tid k) va (k_mm k) (k_sink k) (k_dbg_lines k) (k_dbg_sent k) (k_runner k).
Definition with_mm (k : kernel) (m : mm) : kernel :=
  MkKernel (k_ram k) (k_sched k) (k_heap k) (k_objects k) (k_free k) (k_va k) (k_fibers k)
    (k_next_tid k) (k_data_va k) m (k_sink k) (k_dbg_lines k) (k_dbg_sent k) (k_runner k).
Definition with_dbg (k : kernel) (lines sent : list (list Z)) : kernel :=
  MkKernel (k_ram k) (k_sched k) (k_heap k) (k_objects k) (k_free k) (k_va k) (k_fibers k)
    (k_next_tid k) (k_data_va k) (k_mm k) (k_sink k) lines sent (k_runner k).

(** What the outside world answers during one call: the addresses
    [make_unique] returns for a new object and for an implicit thread object,
    the system time, the performance counter, and whether mapping a fiber
    stack succeeds. *)
Record env := MkEnv {
  e_addr : Z;
  e_thread_addr : Z;
  e_now : Z;
  e_qpc : Z;
  e_map_ok : bool;
}.

(** ** The monad of kernel operations *)

Definition K (A : Type) : Type := kernel -> outcome (A * kernel).

Definition kret {A} (x : A) : K A := fun k => Ok (x, k).
Definition kbind {A B} (m : K A) (f : A -> K B) : K B :=
  fun k => match m k with
           | Ok (x, k') => f x k'
           | Fail e => Fail e
           | Ub e => Ub e
           end.
Definition kub {A} (what : string) : K A := fun _ => Ub what.
Definition kget : K kernel := fun k => Ok (k, k).
Definition kput (k : kernel) : K unit := fun _ => Ok (tt, k).
Definition kmod (f : kernel -> kernel) : K unit := fun k => Ok (tt, f k).

Declare Scope krnl_scope.
Delimit Scope krnl_scope with krnl.
Notation "'let*' x := m 'in' k" := (kbind m (fun x => k))
  (at level 10, x pattern, m at level 100, k at level 200) : krnl_scope.
Notation "m ;; k" := (kbind m (fun _ => k))
  (at level 100, k at level 200, right associativity) : krnl_scope.
Open Scope krnl_scope.

(** Dereference and update through a [DispatcherObject*]. *)
Definition load (a : Z) : K DispatcherObject :=
  fun k => match k_heap k !! a with
           | Some o => Ok (o, k)
           | None => Ub "use of a freed dispatcher object"
           end.
Definition store (a : Z) (o : DispatcherObject) : K unit :=
  fun k => match k_heap k !! a with
           | Some _ => Ok (tt, with_heap k (<[a := o]> (k_heap k)))
           | None => Ub "use of a freed dispatcher object"
           end.
Definition update (a : Z) (f : DispatcherObject -> DispatcherObject) : K unit :=
  let* o := load a in store a (f o).

Section guest_memory.
Context `{os : HostOS}.

(** Guest accesses through [ram_]; the address arithmetic is 32-bit. *)
Definition wr32 (va v : Z) : K unit := kmod (fun k => with_ram k (write32_ (k_ram k) (u32 va) v)).
Definition wr32_ok (va v : Z) : K bool :=
  fun k => match write32 (k_ram k) (u32 va) v with
           | Some r => Ok (true, with_ram k r)
           | None => Ok (false, k)
           end.
Definition wr_bytes (va : Z) (bs : list Z) : K unit :=
  kmod (fun k => with_ram k (write_bytes_ (k_ram k) (u32 va) bs)).
Definition rd32 (va : Z) : K (option Z) := fun k => Ok (read32 (k_ram k) (u32 va), k).
Definition can_write (va n : Z) : K bool := fun k => Ok (writable (k_ram k) va n, k).
Definition can_read (va n : Z) : K bool := fun k => Ok (readable (k_ram k) va n, k).

(** [write64]: low part first; the high part only if the low part succeeded. *)
Definition write64 (va v : Z) : K bool :=
  let* lo := wr32_ok va (Z.land v 0xFFFFFFFF) in
  if negb lo then kret false else wr32_ok (va + 4) (Z.shiftr v 32).

Definition read64 (va : Z) : K (option Z) :=
  let* lo := rd32 va in
  let* hi := rd32 (va + 4) in
  kret (match lo, hi with
        | Some l, Some h => Some (Z.lor l (Z.shiftl h 32))
        | _, _ => None
        end).

(** [read_cstr]: at most [n] bytes, stopping at a NUL or an unreadable byte. *)
Fixpoint cstr_loop (r : ram) (va : Z) (n : nat) : list Z :=
  match n with
  | O => []
  | S n' =>
      match read_bytes r (u32 va) 1 with
      | Some [b] => if b =? 0 then [] else b :: cstr_loop r (va + 1) n'
      | _ => []
      end
  end.
Definition read_cstr (va : Z) : K (list Z) := fun k => Ok (cstr_loop (k_ram k) va 4096, k).

End guest_memory.

(** ** Scheduler calls *)

Definition sched_handle : K Z := fun k => Ok (current_handle (k_sched k), k).
Definition in_fiber : K bool :=
  fun k => Ok (negb (current_handle (k_sched k) =? 0), k).

Definition ksignal (token : Z) (all : bool) : K Z :=
  fun k => let (n, s) := signal (k_sched k) token all in Ok (n, with_sched k s).

(** [block_current] up to the context switch: [false] when called from the
    host, where it returns at once. *)
Definition kblock (token ticks : Z) : K bool :=
  fun k => match block_current (k_sched k) token ticks with
           | Some s => Ok (true, with_sched k s)
           | None => Ok (false, k)
           end.

(** Its result, read by the fiber once it runs again. *)
Definition kwoken : K bool :=
  fun k => match current (k_sched k) with
           | Some i => Ok (block_result (k_sched k) i, k)
           | None => Ok (false, k)
           end.

End KrnlState.
