(* ===== verification/KrnlObjects.v ===== *)
(** Dispatcher objects of the kernel (src/xbox_krnl.cpp): the handle table,
    the VA registry and the per-fiber thread identities, the headers mirrored
    into guest memory, the wait core shared by single and multiple waits, and
    thread termination. A wait that must block stops at its context switch and
    is continued by its [_resume] counterpart when the fiber runs again. *)
From stdpp Require Import base numbers list gmap strings.
From Stdlib Require Import ZArith Lia.
From S2P Require Import Prelude XbeRam CpuSched KrnlMm KrnlTime KrnlState.
Open Scope Z_scope.

Module KrnlObjects.
Import XbeRam CpuSched KrnlMm KrnlTime KrnlState.
Open Scope krnl_scope.

Definition kStatusSuccess : Z := 0.
Definition kStatusAbandoned : Z := 0x80.
Definition kStatusTimeout : Z := 0x102.
Definition kStatusInvalidParameter : Z := 0xC000000D.
Definition kMaxWaitObjects : Z := 64.
Definition kEventNotify : Z := 0.
Definition kEventSync : Z := 1.

(** ** Wait channels *)

Definition event_token (addr : Z) : Z := Z.lor (u64 (Z.shiftl addr 1)) 1.
Definition cs_token_of (cs_va : Z) : Z := Z.shiftl cs_va 1.
Definition kMwTokenBase : Z := 0x51AC000000000000.
Definition kDelayToken : Z := 0x51AB000000000000.

(** ** Loops *)

Fixpoint mapK {A} (f : A -> K unit) (l : list A) : K unit :=
  match l with
  | [] => kret tt
  | x :: l' => f x ;; mapK f l'
  end.

(** ** Registries *)

Definition slot_of (handle : Z) : nat := Z.to_nat (handle `div` 4 - 1).

Definition find_handle (k : kernel) (handle : Z) : option Z :=
  if (handle =? 0) || negb (Z.land handle 3 =? 0) then None
  else match k_objects k !! slot_of handle with Some x => x | None => None end.
Definition find_object_by_handle (handle : Z) : K (option Z) :=
  fun k => Ok (find_handle k handle, k).

Definition obj_at (k : kernel) (a : Z) : option DispatcherObject := k_heap k !! a.

(** First address of a list whose object satisfies a test. *)
Fixpoint first_obj (k : kernel) (test : DispatcherObject -> bool) (l : list Z) : option Z :=
  match l with
  | [] => None
  | a :: l' =>
      match obj_at k a with
      | Some o => if test o then Some a else first_obj k test l'
      | None => first_obj k test l'
      end
  end.

Definition find_object_by_va (va : Z) : K (option Z) :=
  fun k => Ok (first_obj k (fun o => o_guest_va o =? va) (k_va k), k).

(** [make_unique] at address [a], with the object's final contents. An
    allocator never answers with the address of a live object: a run in which
    it would is no run of the program. *)
Definition new_object (a : Z) (o : DispatcherObject) : K unit :=
  fun k => match k_heap k !! a with
           | None => Ok (tt, with_heap k (<[a := o]> (k_heap k)))
           | Some _ => Fail "not an answer of an allocator"
           end.

Definition insert_object (a : Z) : K Z :=
  fun k =>
    match k_free k with
    | slot :: free =>
        Ok (u32 (4 * (Z.of_nat slot + 1)), with_objects k (<[slot := Some a]> (k_objects k)) free)
    | [] =>
        Ok (u32 (4 * (zlen (k_objects k) + 1)), with_objects k (k_objects k ++ [Some a]) [])
    end.

(** [fiber_threads_] is a [std::map]: ordered by handle. *)
Fixpoint fiber_find (l : list (Z * Z)) (h : Z) : option Z :=
  match l with
  | [] => None
  | (h', a) :: l' => if h' =? h then Some a else fiber_find l' h
  end.
Fixpoint fiber_emplace (l : list (Z * Z)) (h a : Z) : list (Z * Z) :=
  match l with
  | [] => [(h, a)]
  | (h', a') :: l' => if h <? h' then (h, a) :: (h', a') :: l'
                      else (h', a') :: fiber_emplace l' h a
  end.

Definition is_kind (kd : Kind) (o : DispatcherObject) : bool := bool_decide (o_kind o = kd).

Definition implicit_thread (a h tid : Z) : DispatcherObject :=
  MkObject Thread 0 (event_token a) [] (o_event fresh_object) (o_mutant fresh_object)
    (o_semaphore fresh_object) (MkThread 0 0 0 0 0 (u32 h) 0 tid 0 0 true false).

Definition ensure_thread_object (e : env) (h : Z) : K Z :=
  let* k := kget in
  match fiber_find (k_fibers k) h with
  | Some a => kret a
  | None =>
      let a := e_thread_addr e in
      new_object a (implicit_thread a h (k_next_tid k)) ;;
      kmod (fun k => with_fibers (with_tid k (u32 (k_next_tid k + 2)))
                                 (fiber_emplace (k_fibers k) h a)) ;;
      kret a
  end.

(** Addresses in the handle table, in slot order. *)
Definition live_addrs (k : kernel) : list Z := omap id (k_objects k).

Definition find_thread_by_id (id : Z) : K (option Z) :=
  fun k =>
    if id =? 0 then Ok (None, k) else
    match first_obj k (fun o => th_id (o_thread o) =? id) (snd <$> k_fibers k) with
    | Some a => Ok (Some a, k)
    | None =>
        Ok (first_obj k (fun o => is_kind Thread o && (th_id (o_thread o) =? id))
                      (live_addrs k ++ k_va k), k)
    end.

Definition find_thread_by_fiber (h : Z) : K (option Z) :=
  fun k =>
    if h =? 0 then Ok (None, k) else
    match first_obj k (fun o => th_sched (o_thread o) =? h)
                    (option_list (fiber_find (k_fibers k) h)) with
    | Some a => Ok (Some a, k)
    | None =>
        Ok (first_obj k (fun o => is_kind Thread o && (th_sched (o_thread o) =? h))
                      (live_addrs k), k)
    end.

Definition current_thread_token (e : env) : K Z :=
  let* h := sched_handle in
  if h =? 0 then kret 0 else
  let* a := ensure_thread_object e h in
  let* o := load a in
  kret (th_id (o_thread o)).

Section ops.
Context `{os : HostOS}.
Context (e : env).

(** ** Guest-visible headers *)

Definition bool_val (b : bool) : Z := if b then 1 else 0.

Definition write_dispatcher_header (o : DispatcherObject) : K unit :=
  if o_guest_va o =? 0 then kret tt else
  let va := o_guest_va o in
  let head (size state : Z) :=
    wr32 va (Z.shiftl size 16) ;; wr32 (va + 4) (u32 state) ;;
    wr32 (va + 8) (u32 (va + 8)) ;; wr32 (va + 12) (u32 (va + 8)) in
  match o_kind o with
  | Event => head 2 (bool_val (ev_signaled (o_event o)))
  | Mutant =>
      head 4 (mu_state (o_mutant o)) ;;
      wr32 (va + 0x10) (u32 (va + 0x10)) ;; wr32 (va + 0x14) (u32 (va + 0x10)) ;;
      wr32 (va + 0x18) (mu_owner (o_mutant o)) ;;
      wr_bytes (va + 0x1C) [bool_val (mu_abandoned (o_mutant o))]
  | Semaphore =>
      head 3 (se_count (o_semaphore o)) ;; wr32 (va + 0x10) (u32 (se_limit (o_semaphore o)))
  | Thread => kret tt
  end.

Definition write_signal_state (o : DispatcherObject) : K unit :=
  if o_guest_va o =? 0 then kret tt else
  match o_kind o with
  | Event => wr32 (o_guest_va o + 4) (bool_val (ev_signaled (o_event o)))
  | Mutant => wr32 (o_guest_va o + 4) (u32 (mu_state (o_mutant o)))
  | Semaphore => wr32 (o_guest_va o + 4) (u32 (se_count (o_semaphore o)))
  | Thread => kret tt
  end.

(** Update an object and mirror its signal state. *)
Definition update_signal (a : Z) (f : DispatcherObject -> DispatcherObject) : K unit :=
  update a f ;; let* o := load a in write_signal_state o.

(** ** Wait core *)

Definition dispatcher_satisfied (a : Z) : K bool :=
  let* o := load a in
  match o_kind o with
  | Event => kret (ev_signaled (o_event o))
  | Mutant =>
      if 0 <? mu_state (o_mutant o) then kret true
      else if mu_owner (o_mutant o) =? 0 then kret false
      else let* tok := current_thread_token e in kret (mu_owner (o_mutant o) =? tok)
  | Semaphore => kret (0 <? se_count (o_semaphore o))
  | Thread => kret (negb (th_running (o_thread o)))
  end.

(** int32 increments and decrements; leaving the range is undefined. *)
Definition int32_add (x d : Z) : K Z :=
  if (x + d <? - 2 ^ 31) || (2 ^ 31 <=? x + d) then kub "signed overflow" else kret (x + d).

Definition dispatcher_acquire (a : Z) : K Z :=
  let* o := load a in
  match o_kind o with
  | Event =>
      (if ev_type (o_event o) =? kEventSync then update_signal a (set_signaled false)
       else kret tt) ;;
      kret kStatusSuccess
  | Mutant =>
      let* tok := current_thread_token e in
      if tok =? 0 then kret kStatusInvalidParameter else
      let* st := int32_add (mu_state (o_mutant o)) (-1) in
      update a (set_mutant (MkMutant st tok false)) ;;
      let* o' := load a in
      if mu_abandoned (o_mutant o)
      then write_dispatcher_header o' ;; kret kStatusAbandoned
      else write_signal_state o' ;; kret kStatusSuccess
  | Semaphore =>
      let* n := int32_add (se_count (o_semaphore o)) (-1) in
      update_signal a (set_semaphore (MkSemaphore n (se_limit (o_semaphore o)))) ;;
      kret kStatusSuccess
  | Thread => kret kStatusSuccess
  end.

(** A wait returns a status or has switched away. *)
Inductive wait_out := WDone (status : Z) | WBlock.

Definition wait_dispatch (a : Z) (immediate : bool) (ticks : Z) : K wait_out :=
  let* sat := dispatcher_satisfied a in
  if sat then let* st := dispatcher_acquire a in kret (WDone st)
  else if immediate then kret (WDone kStatusTimeout)
  else
    let* fib := in_fiber in
    if negb fib then kret (WDone kStatusInvalidParameter) else
    let* o := load a in
    kblock (o_token o) ticks ;; kret WBlock.

Definition wait_resume (a : Z) (ticks : Z) : K wait_out :=
  let* woken := kwoken in
  if negb woken then kret (WDone kStatusTimeout) else
  let* o := load a in
  if is_kind Event o then kret (WDone kStatusSuccess)
  else wait_dispatch a false ticks.

(** [for (o : objs) if (!satisfied(o)) { all = false; break; }] *)
Fixpoint all_satisfied (l : list Z) : K bool :=
  match l with
  | [] => kret true
  | a :: l' => let* s := dispatcher_satisfied a in
               if s then all_satisfied l' else kret false
  end.

(** Acquire every object in order; the first failure decides the status. *)
Fixpoint acquire_all (l : list Z) (i worst : Z) : K Z :=
  match l with
  | [] => kret worst
  | a :: l' =>
      let* st := dispatcher_acquire a in
      acquire_all l' (i + 1)
        (if negb (st =? kStatusSuccess) && (worst =? kStatusSuccess)
         then kStatusAbandoned + i else worst)
  end.

(** Acquire the first satisfied object, if any. *)
Fixpoint acquire_any (l : list Z) (i : Z) : K (option Z) :=
  match l with
  | [] => kret None
  | a :: l' =>
      let* s := dispatcher_satisfied a in
      if s then
        let* st := dispatcher_acquire a in
        kret (Some (if st =? kStatusAbandoned then kStatusAbandoned + i else i))
      else acquire_any l' (i + 1)
  end.

Definition mw_token_of (h : Z) : Z := Z.lor kMwTokenBase h.

(** Register on every object that is not satisfied. *)
Definition register_mw (token : Z) (a : Z) : K unit :=
  let* s := dispatcher_satisfied a in
  if s then kret tt else update a (fun o => set_mw (o_mw o ++ [token]) o).

Definition unregister_mw (token : Z) (a : Z) : K unit :=
  update a (fun o => set_mw (filter (fun t => t <> token) (o_mw o)) o).

Definition wait_multiple (objs : list Z) (wait_all immediate : bool) (ticks : Z) : K wait_out :=
  let* hit := (if wait_all then
                 let* all := all_satisfied objs in
                 if all then let* st := acquire_all objs 0 kStatusSuccess in kret (Some st)
                 else kret None
               else acquire_any objs 0) in
  match hit with
  | Some st => kret (WDone st)
  | None =>
      if immediate then kret (WDone kStatusTimeout) else
      let* fib := in_fiber in
      if negb fib then kret (WDone kStatusInvalidParameter) else
      let* h := sched_handle in
      mapK (register_mw (mw_token_of h)) objs ;;
      kblock (mw_token_of h) ticks ;; kret WBlock
  end.

Definition wait_multiple_resume (objs : list Z) (wait_all : bool) (ticks : Z) : K wait_out :=
  let* woken := kwoken in
  let* h := sched_handle in
  mapK (unregister_mw (mw_token_of h)) objs ;;
  if negb woken then kret (WDone kStatusTimeout)
  else wait_multiple objs wait_all false ticks.

(** ** Waking *)

Fixpoint wake_units (token : Z) (units : nat) : K unit :=
  match units with
  | O => kret tt
  | S n => let* w := ksignal token false in
           if w =? 0 then kret tt else wake_units token n
  end.

Definition wake_object (a : Z) (units : Z) : K unit :=
  let* o := load a in
  wake_units (o_token o) (Z.to_nat units) ;;
  match o_mw o with
  | [] => kret tt
  | waiters => update a (set_mw []) ;;
               mapK (fun t => let* n := ksignal t false in kret tt) waiters
  end.

(** Optional PLARGE_INTEGER timeout: [None] when it cannot be read. *)
Definition read_timeout (ptr : Z) : K (option (bool * Z)) :=
  if ptr =? 0 then kret (Some (false, kNoTimeout)) else
  let* q := read64 ptr in
  match q with
  | None => kret None
  | Some q => fun k => let! r := interval_to_ticks (e_now e) (s64 q) in Ok (Some r, k)
  end.

(** ** Thread termination *)

Definition abandon (token : Z) (a : Z) : K unit :=
  let* m := load a in
  if is_kind Mutant m && (mu_owner (o_mutant m) =? token) then
    update_signal a (set_mutant (MkMutant 1 0 true)) ;; wake_object a 1
  else kret tt.

Definition finish_thread_object (a : Z) : K unit :=
  update a (fun o => set_thread (th_with_running false (o_thread o)) o) ;;
  let* t := load a in
  let* k := kget in
  mapK (abandon (th_id (o_thread t))) (live_addrs k) ;;
  mapK (abandon (th_id (o_thread t))) (k_va k) ;;
  wake_object a 1.

(** The finish hook the constructor installs, run by the exiting fiber. *)
Definition finish_hook (h : Z) : K unit :=
  let* t := find_thread_by_fiber (u32 h) in
  match t with Some a => finish_thread_object a | None => kret tt end.

(** ** Events *)

Definition ke_set_event (a : Z) : K Z :=
  let* o := load a in
  let prev := bool_val (ev_signaled (o_event o)) in
  (if ev_type (o_event o) =? kEventNotify then
     update_signal a (set_signaled true) ;;
     let* n := ksignal (o_token o) true in kret tt
   else
     let* woken := ksignal (o_token o) false in
     update_signal a (set_signaled (woken =? 0))) ;;
  wake_object a 0 ;; kret prev.

Definition ke_reset_event (a : Z) : K Z :=
  let* o := load a in
  update_signal a (set_signaled false) ;;
  kret (bool_val (ev_signaled (o_event o))).

End ops.

(** ** Introspection *)

Definition object_count (k : kernel) : Z := zlen (live_addrs k).

Definition event_count (k : kernel) : Z :=
  zlen (List.filter (fun a => match obj_at k a with Some o => is_kind Event o | None => false end)
               (live_addrs k)).

Definition test_object (k : kernel) (a : option Z) (f : DispatcherObject -> bool) : bool :=
  match a with
  | Some a => match obj_at k a with Some o => f o | None => false end
  | None => false
  end.

Definition event_signaled_by_va (k : kernel) (va : Z) : bool :=
  test_object k (first_obj k (fun o => o_guest_va o =? va) (k_va k))
    (fun o => is_kind Event o && ev_signaled (o_event o)).

Definition event_signaled_by_handle (k : kernel) (h : Z) : bool :=
  test_object k (find_handle k h) (fun o => is_kind Event o && ev_signaled (o_event o)).

Definition thread_running_by_handle (k : kernel) (h : Z) : bool :=
  test_object k (find_handle k h) (fun o => is_kind Thread o && th_running (o_thread o)).

(** [thread_start_info]: the five recorded start parameters. *)
Definition thread_start_info (k : kernel) (h : Z) : option (Z * Z * Z * Z * Z) :=
  match find_handle k h with
  | Some a =>
      match obj_at k a with
      | Some o => if is_kind Thread o
                  then let t := o_thread o in
                       Some (th_start_routine t, th_start_context t, th_system_routine t,
                             th_stack_size t, th_tls_size t)
                  else None
      | None => None
      end
  | None => None
  end.

End KrnlObjects.
