(* ===== verification/KrnlCall.v ===== *)
(** The kernel call interface ([XboxKrnl::call], src/xbox_krnl.cpp): one
    definition per export handler, critical sections, memory exports, thunk
    installation, the dispatcher, and the continuation of calls that blocked. *)
From stdpp Require Import base numbers list gmap strings.
From Stdlib Require Import ZArith Lia.
From S2P Require Import Prelude XbeRam XbeImage CpuSched KrnlExports KrnlMm KrnlTime.
From S2P Require Import KrnlPrintf KrnlState KrnlObjects.
Open Scope Z_scope.

Module KrnlCall.
Import XbeRam CpuSched KrnlExports KrnlMm KrnlTime KrnlState KrnlObjects.
Open Scope krnl_scope.

(** Where a call that switched away continues. *)
Inductive pending :=
  | PWait (a ticks : Z)                             (* wait_dispatch *)
  | PMulti (objs : list Z) (wait_all : bool) (ticks : Z)   (* wait_multiple *)
  | PDelay                                          (* KeDelayExecutionThread *)
  | PSuspend (prev out_ptr : Z)                     (* NtSuspendThread *)
  | PSuspendKe (prev : Z)                           (* KeSuspendThread *)
  | PYield                                          (* NtYieldExecution *)
  | PCs (va : Z).                                   (* cs_enter *)

(** How one call ends: EAX, [*ok] and the EDX written if any; switched away;
    or the fiber exited. *)
Inductive call_out :=
  | Ret (eax : Z) (ok : bool) (edx : option Z)
  | Blocked (p : pending)
  | Exited.

Definition ret (eax : Z) : K call_out := kret (Ret eax true None).
Definition REJECT : K call_out := kret (Ret kStatusInvalidParameter false None).
Definition VOID_FAIL : K call_out := kret (Ret 0 false None).

Definition arg (args : list Z) (i : nat) : Z := nth i args 0.

Definition kHleMarker : Z := 0xF00F0000.
Definition kQpcFreq : Z := 10000000.

Section handlers.
Context `{os : HostOS}.
Context (e : env).

(** [if (!a || a->kind != kind) REJECT();] *)
Definition with_object (kd : Kind) (a : option Z) (f : Z -> K call_out) : K call_out :=
  match a with
  | None => REJECT
  | Some a => let* o := load a in if is_kind kd o then f a else REJECT
  end.

(** [if (p != 0 && ram_.writable(p, 4)) ram_.write32(p, v);] *)
Definition store_out (p v : Z) : K unit :=
  if p =? 0 then kret tt else
  let* w := can_write p 4 in if w then wr32 p v else kret tt.

(** ** Debug output *)

Definition emit_dbg (line : list Z) : K unit :=
  kmod (fun k => if k_sink k then with_dbg k (k_dbg_lines k) (k_dbg_sent k ++ [line])
                 else with_dbg k (k_dbg_lines k ++ [line]) (k_dbg_sent k)).

Definition DbgBreakPoint : K call_out :=
  emit_dbg (KrnlPrintf.bytes_of "DbgBreakPoint") ;; ret 0.

Definition DbgPrint (args : list Z) : K call_out :=
  let* fmt := read_cstr (arg args 0) in
  let* k := kget in
  match KrnlPrintf.format (fun p => cstr_loop (k_ram k) p 4096) fmt (drop 1 args) with
  | Ok out => emit_dbg out ;; ret (u32 (zlen out))
  | Fail msg => kub msg
  | Ub msg => kub msg
  end.

(** ** Interlocked operations *)

(** Read a LONG that is also writable, or reject. *)
Definition rmw (va : Z) (f : Z -> K call_out) : K call_out :=
  let* v := rd32 va in
  let* w := can_write va 4 in
  match v with
  | Some v => if w then f v else REJECT
  | None => REJECT
  end.

Definition InterlockedIncrement (args : list Z) : K call_out :=
  rmw (arg args 0) (fun v => wr32 (arg args 0) (u32 (v + 1)) ;; ret (u32 (v + 1))).
Definition InterlockedDecrement (args : list Z) : K call_out :=
  rmw (arg args 0) (fun v => wr32 (arg args 0) (u32 (v - 1)) ;; ret (u32 (v - 1))).
Definition InterlockedExchange (args : list Z) : K call_out :=
  rmw (arg args 0) (fun old => wr32 (arg args 0) (arg args 1) ;; ret old).
Definition InterlockedCompareExchange (args : list Z) : K call_out :=
  rmw (arg args 0) (fun old =>
    (if old =? arg args 2 then wr32 (arg args 0) (arg args 1) else kret tt) ;; ret old).
Definition InterlockedExchangeAdd (args : list Z) : K call_out :=
  rmw (arg args 0) (fun old => wr32 (arg args 0) (u32 (old + arg args 1)) ;; ret old).

(** ** Time *)

Definition KeQueryPerformanceCounter : K call_out :=
  kret (Ret (u32 (e_qpc e)) true (Some (u32 (Z.shiftr (e_qpc e) 32)))).
Definition KeQueryPerformanceFrequency : K call_out :=
  kret (Ret (u32 kQpcFreq) true (Some (u32 (Z.shiftr kQpcFreq 32)))).
Definition KeQuerySystemTime (args : list Z) : K call_out :=
  let* ok := write64 (arg args 0) (e_now e) in if ok then ret 0 else REJECT.

Definition KeDelayExecutionThread (args : list Z) : K call_out :=
  let* q := (if arg args 2 =? 0 then kret (Some 0) else read64 (arg args 2)) in
  match q with
  | None => REJECT
  | Some q =>
      match interval_to_ticks (e_now e) (s64 q) with
      | Ok (true, _) => ret kStatusSuccess
      | Ok (false, ticks) =>
          let* fib := in_fiber in
          if negb fib then REJECT
          else kblock kDelayToken ticks ;; kret (Blocked PDelay)
      | Fail m => kub m
      | Ub m => kub m
      end
  end.

Definition RtlTimeToTimeFields (args : list Z) : K call_out :=
  let* ft := read64 (arg args 0) in
  match ft with
  | None => REJECT
  | Some ft =>
      let* w := can_write (arg args 1) 16 in
      if negb w then REJECT else
      match time_to_fields ft with
      | Ok t =>
          (fix go (va : Z) (l : list Z) : K call_out :=
             match l with
             | [] => ret 0
             | v :: l' => wr32 va v ;; go (va + 4) l'
             end) (arg args 1) (fields_words t)
      | Fail m | Ub m => kub m
      end
  end.

(** ** Events *)

Definition KeInitializeEvent (args : list Z) : K call_out :=
  let va := arg args 0 in
  let type := arg args 1 in
  if kEventSync <? type then REJECT else
  let* w := can_write va 16 in
  if negb w then REJECT else
  let* ev := find_object_by_va va in
  let init a :=
    update a (set_event (MkEvent type (negb (Z.land (arg args 2) 1 =? 0)))) ;;
    let* o := load a in write_dispatcher_header o ;; ret 0 in
  match ev with
  | Some a => let* o := load a in if is_kind Event o then init a else REJECT
  | None =>
      let a := e_addr e in
      new_object a (MkObject Event va (event_token a) [] (o_event fresh_object)
                      (o_mutant fresh_object) (o_semaphore fresh_object) (o_thread fresh_object)) ;;
      kmod (fun k => with_va k (k_va k ++ [a])) ;;
      init a
  end.

Definition KeSetEvent (args : list Z) : K call_out :=
  let* ev := find_object_by_va (arg args 0) in
  with_object Event ev (fun a => let* prev := ke_set_event a in ret prev).

Definition KeResetEvent (args : list Z) : K call_out :=
  let* ev := find_object_by_va (arg args 0) in
  with_object Event ev (fun a => let* prev := ke_reset_event a in ret prev).

Definition pool_object (kd : Kind) (a : Z) (ev : event_part) (mu : mutant_part)
    (se : semaphore_part) : DispatcherObject :=
  MkObject kd 0 (event_token a) [] ev mu se (o_thread fresh_object).

(** Insert a new pool object and hand its handle to the guest. *)
Definition create_object (o : DispatcherObject) (handle_ptr : Z) : K call_out :=
  new_object (e_addr e) o ;;
  let* handle := insert_object (e_addr e) in
  wr32 handle_ptr handle ;; ret kStatusSuccess.

Definition NtCreateEvent (args : list Z) : K call_out :=
  if kEventSync <? arg args 2 then REJECT else
  let* w := can_write (arg args 0) 4 in
  if negb w then REJECT else
  create_object (pool_object Event (e_addr e)
      (MkEvent (arg args 2) (negb (Z.land (arg args 3) 1 =? 0)))
      (o_mutant fresh_object) (o_semaphore fresh_object)) (arg args 0).

Definition NtSetEvent (args : list Z) : K call_out :=
  let* ev := find_object_by_handle (arg args 0) in
  with_object Event ev (fun a =>
    let* prev := ke_set_event a in store_out (arg args 1) prev ;; ret kStatusSuccess).

Definition NtClearEvent (args : list Z) : K call_out :=
  let* ev := find_object_by_handle (arg args 0) in
  with_object Event ev (fun a => update_signal a (set_signaled false) ;; ret kStatusSuccess).

Definition NtPulseEvent (args : list Z) : K call_out :=
  let* ev := find_object_by_handle (arg args 0) in
  with_object Event ev (fun a =>
    let* o := load a in
    let* n := ksignal (o_token o) (ev_type (o_event o) =? kEventNotify) in
    update_signal a (set_signaled false) ;;
    wake_object a 0 ;;
    store_out (arg args 1) (bool_val (ev_signaled (o_event o))) ;; ret kStatusSuccess).

(** ** Waits *)

Definition finish_wait (w : wait_out) (p : pending) : K call_out :=
  match w with
  | WDone st => kret (Ret st (negb (st =? kStatusInvalidParameter)) None)
  | WBlock => kret (Blocked p)
  end.

Definition wait_single (a : option Z) (timeout_ptr : Z) : K call_out :=
  match a with
  | None => REJECT
  | Some a =>
      let* t := read_timeout e timeout_ptr in
      match t with
      | None => REJECT
      | Some (immediate, ticks) =>
          let* w := wait_dispatch e a immediate ticks in finish_wait w (PWait a ticks)
      end
  end.

Definition KeWaitForSingleObject (args : list Z) : K call_out :=
  let* a := find_object_by_va (arg args 0) in wait_single a (arg args 4).
Definition NtWaitForSingleObject (args : list Z) : K call_out :=
  let* a := find_object_by_handle (arg args 0) in wait_single a (arg args 2).
Definition NtWaitForSingleObjectEx (args : list Z) : K call_out :=
  let* a := find_object_by_handle (arg args 0) in wait_single a (arg args 3).

(** The handle array: [None] at the first unreadable or unknown handle. *)
Fixpoint collect_handles (va : Z) (n : nat) : K (option (list Z)) :=
  match n with
  | O => kret (Some [])
  | S n' =>
      let* h := rd32 va in
      match h with
      | None => kret None
      | Some h =>
          let* a := find_object_by_handle h in
          match a with
          | None => kret None
          | Some a => let* r := collect_handles (va + 4) n' in
                      kret (match r with Some l => Some (a :: l) | None => None end)
          end
      end
  end.

Definition NtWaitForMultipleObjectsEx (args : list Z) : K call_out :=
  let count := arg args 0 in
  if (count =? 0) || (kMaxWaitObjects <? count) then REJECT else
  let* r := can_read (arg args 1) (4 * count) in
  if negb r then REJECT else
  if 1 <? arg args 2 then REJECT else
  let wait_all := arg args 2 =? 0 in
  let* t := read_timeout e (arg args 5) in
  match t with
  | None => REJECT
  | Some (immediate, ticks) =>
      let* objs := collect_handles (arg args 1) (Z.to_nat count) in
      match objs with
      | None => REJECT
      | Some objs =>
          let* w := wait_multiple e objs wait_all immediate ticks in
          finish_wait w (PMulti objs wait_all ticks)
      end
  end.

(** ** Mutants *)

(** The state of a new mutant; [None] when initial ownership is asked for
    outside any fiber. *)
Definition initial_mutant (initial_owner : Z) : K (option mutant_part) :=
  if Z.land initial_owner 1 =? 0 then kret (Some (MkMutant 1 0 false)) else
  let* fib := in_fiber in
  if negb fib then kret None else
  let* tok := current_thread_token e in kret (Some (MkMutant 0 tok false)).

Definition NtCreateMutant (args : list Z) : K call_out :=
  let* w := can_write (arg args 0) 4 in
  if negb w then REJECT else
  let* m := initial_mutant (arg args 2) in
  match m with
  | None => REJECT
  | Some m => create_object (pool_object Mutant (e_addr e) (o_event fresh_object) m
                               (o_semaphore fresh_object)) (arg args 0)
  end.

(** Release one level; the last one frees the mutant and wakes a waiter. *)
Definition release_mutant (a : Z) : K Z :=
  let* m := load a in
  let prev := mu_state (o_mutant m) in
  let* st := int32_add prev 1 in
  update a (set_mutant (MkMutant st (if 0 <? st then 0 else mu_owner (o_mutant m))
                                 (mu_abandoned (o_mutant m)))) ;;
  (if 0 <? st then wake_object a 1 else kret tt) ;;
  let* m' := load a in write_signal_state m' ;; kret prev.

Definition NtReleaseMutant (args : list Z) : K call_out :=
  let* a := find_object_by_handle (arg args 0) in
  with_object Mutant a (fun a =>
    let* self := current_thread_token e in
    let* m := load a in
    if (mu_owner (o_mutant m) =? 0) || negb (mu_owner (o_mutant m) =? self) then REJECT else
    let* prev := release_mutant a in
    store_out (arg args 1) (u32 prev) ;; ret kStatusSuccess).

Definition NtQueryMutant (args : list Z) : K call_out :=
  let* a := find_object_by_handle (arg args 0) in
  with_object Mutant a (fun a =>
    let* w := can_write (arg args 1) 8 in
    if negb w then REJECT else
    let* m := load a in
    wr32 (arg args 1) (u32 (mu_state (o_mutant m))) ;;
    let* owned := (if mu_owner (o_mutant m) =? 0 then kret false
                   else let* tok := current_thread_token e in
                        kret (mu_owner (o_mutant m) =? tok)) in
    wr_bytes (arg args 1 + 4) [bool_val owned] ;;
    wr_bytes (arg args 1 + 5) [bool_val (mu_abandoned (o_mutant m))] ;;
    ret kStatusSuccess).

(** Register a new object at a guest address and mirror its header. *)
Definition register_va (o : DispatcherObject) : K call_out :=
  new_object (e_addr e) o ;;
  kmod (fun k => with_va k (k_va k ++ [e_addr e])) ;;
  write_dispatcher_header o ;; ret 0.

Definition KeInitializeMutant (args : list Z) : K call_out :=
  let va := arg args 0 in
  let* w := can_write va 28 in
  if negb w then REJECT else
  let* m := initial_mutant (arg args 1) in
  match m with
  | None => REJECT
  | Some m => register_va (MkObject Mutant va (event_token (e_addr e)) [] (o_event fresh_object) m
                             (o_semaphore fresh_object) (o_thread fresh_object))
  end.

Definition KeReleaseMutant (args : list Z) : K call_out :=
  let* a := find_object_by_va (arg args 0) in
  with_object Mutant a (fun a => let* prev := release_mutant a in ret (u32 prev)).

(** ** Semaphores *)

Definition NtCreateSemaphore (args : list Z) : K call_out :=
  let* w := can_write (arg args 0) 4 in
  if negb w then REJECT else
  let initial := s32 (arg args 2) in
  let maximum := s32 (arg args 3) in
  if (maximum <=? 0) || (initial <? 0) || (maximum <? initial) then REJECT else
  create_object (pool_object Semaphore (e_addr e) (o_event fresh_object) (o_mutant fresh_object)
                   (MkSemaphore initial maximum)) (arg args 0).

(** Add [rel] units: the previous count, or [None] past the limit. *)
Definition release_semaphore (a rel : Z) : K (option Z) :=
  let* s := load a in
  let prev := se_count (o_semaphore s) in
  let* room := int32_add (se_limit (o_semaphore s)) (- rel) in
  if room <? prev then kret None else
  let* n := int32_add prev rel in
  update a (set_semaphore (MkSemaphore n (se_limit (o_semaphore s)))) ;;
  wake_object a (u32 (Z.min rel n)) ;;
  let* s' := load a in write_signal_state s' ;; kret (Some prev).

Definition NtReleaseSemaphore (args : list Z) : K call_out :=
  let* a := find_object_by_handle (arg args 0) in
  with_object Semaphore a (fun a =>
    let rel := s32 (arg args 1) in
    if rel <=? 0 then REJECT else
    let* prev := release_semaphore a rel in
    match prev with
    | None => REJECT
    | Some prev => store_out (arg args 2) (u32 prev) ;; ret kStatusSuccess
    end).

Definition NtQuerySemaphore (args : list Z) : K call_out :=
  let* a := find_object_by_handle (arg args 0) in
  with_object Semaphore a (fun a =>
    let* w := can_write (arg args 1) 8 in
    if negb w then REJECT else
    let* s := load a in
    wr32 (arg args 1) (u32 (se_count (o_semaphore s))) ;;
    wr32 (arg args 1 + 4) (u32 (se_limit (o_semaphore s))) ;;
    ret kStatusSuccess).

Definition KeInitializeSemaphore (args : list Z) : K call_out :=
  let va := arg args 0 in
  let* w := can_write va 20 in
  if negb w then REJECT else
  register_va (MkObject Semaphore va (event_token (e_addr e)) [] (o_event fresh_object)
                 (o_mutant fresh_object) (MkSemaphore (s32 (arg args 1)) (s32 (arg args 2)))
                 (o_thread fresh_object)).

Definition KeReleaseSemaphore (args : list Z) : K call_out :=
  let* a := find_object_by_va (arg args 0) in
  with_object Semaphore a (fun a =>
    let adj := s32 (arg args 2) in
    if adj <=? 0 then REJECT else
    let* prev := release_semaphore a adj in
    match prev with None => REJECT | Some prev => ret (u32 prev) end).

(** ** Threads *)

Definition KeGetCurrentThread : K call_out :=
  let* tok := current_thread_token e in ret tok.

Definition KeSetBasePriorityThread (args : list Z) : K call_out :=
  let* t := find_thread_by_id (arg args 0) in
  match t with
  | None => REJECT
  | Some a =>
      let* o := load a in
      update a (set_thread (th_with_priority (s32 (arg args 1)) (o_thread o))) ;;
      ret (u32 (th_priority (o_thread o)))
  end.

(** The new thread's id is taken before the fiber is spawned, and stays taken
    when the spawn fails. *)
Definition PsCreateSystemThreadEx (args : list Z) : K call_out :=
  let* w := can_write (arg args 0) 4 in
  if negb w then REJECT else
  let* k := kget in
  let tid := k_next_tid k in
  kmod (fun k => with_tid k (u32 (tid + 2))) ;;
  let* k := kget in
  let (fiber, s) := spawn_reserved (e_map_ok e) (k_sched k) "systhread" (arg args 3) in
  kput (with_sched k s) ;;
  if fiber =? 0 then REJECT else
  let th handle :=
    MkThread (arg args 5) (arg args 6) (arg args 9) (arg args 2) (arg args 3) (u32 fiber)
      handle tid (if Z.land (arg args 7) 1 =? 0 then 0 else 1) 0 true false in
  let a := e_addr e in
  let obj handle := MkObject Thread 0 (event_token a) [] (o_event fresh_object)
                      (o_mutant fresh_object) (o_semaphore fresh_object) (th handle) in
  new_object a (obj 0) ;;
  let* handle := insert_object a in
  let* self := find_object_by_handle handle in
  match self with
  | Some b => update b (fun o => set_thread (th_with_object handle (o_thread o)) o)
  | None => kret tt
  end ;;
  wr32 (arg args 0) handle ;;
  store_out (arg args 4) handle ;;
  ret kStatusSuccess.

(** [g->exit(code)]: [thread_finish], then the finish hooks. *)
Definition thread_exit (code : Z) : K unit :=
  let* k := kget in
  match current (k_sched k) with
  | None => kret tt
  | Some i =>
      kput (with_sched k (thread_finish (k_sched k) i code)) ;;
      let* h := sched_handle in
      finish_hook h
  end.

Definition PsTerminateSystemThread (args : list Z) : K call_out :=
  let* h := sched_handle in
  let* t := find_thread_by_fiber (u32 h) in
  match t with
  | None => REJECT
  | Some a =>
      finish_thread_object a ;;
      let* k := kget in
      match find (k_sched k) (u32 h) with
      | Some _ => thread_exit (s32 (arg args 0)) ;; kret Exited
      | None => REJECT
      end
  end.

Definition NtClose (args : list Z) : K call_out :=
  let* a := find_object_by_handle (arg args 0) in
  match a with
  | None => REJECT
  | Some a =>
      let slot := slot_of (arg args 0) in
      kmod (fun k => with_objects (with_heap k (delete a (k_heap k)))
                       (<[slot := None]> (k_objects k)) (slot :: k_free k)) ;;
      ret kStatusSuccess
  end.

(** Decrement a positive suspend count; at zero the parked fiber is woken. *)
Definition resume_thread (a : Z) : K Z :=
  let* o := load a in
  let prev := th_suspend (o_thread o) in
  (if 0 <? prev then
     update a (set_thread (th_with_suspend (prev - 1) (o_thread o))) ;;
     (if prev - 1 =? 0 then let* n := ksignal (o_token o) false in kret tt else kret tt)
   else kret tt) ;;
  kret prev.

Definition NtResumeThread (args : list Z) : K call_out :=
  let* a := find_object_by_handle (arg args 0) in
  with_object Thread a (fun a =>
    let* prev := resume_thread a in store_out (arg args 1) prev ;; ret kStatusSuccess).

Definition KeResumeThread (args : list Z) : K call_out :=
  let* a := find_thread_by_id (arg args 0) in
  with_object Thread a (fun a => let* prev := resume_thread a in ret prev).

(** [None]: another started fiber, which cannot be suspended; otherwise the
    previous count, and whether the caller is now parked. *)
Definition suspend_thread (a : Z) : K (option (Z * bool)) :=
  let* self := current_thread_token e in
  let* o := load a in
  let is_self := th_id (o_thread o) =? self in
  if negb is_self && th_running (o_thread o) && negb (th_sched (o_thread o) =? 0)
  then kret None else
  let prev := th_suspend (o_thread o) in
  update a (set_thread (th_with_suspend (u32 (prev + 1)) (o_thread o))) ;;
  if is_self
  then let* b := kblock (o_token o) kNoTimeout in kret (Some (prev, b))
  else kret (Some (prev, false)).

Definition NtSuspendThread (args : list Z) : K call_out :=
  let* a := find_object_by_handle (arg args 0) in
  with_object Thread a (fun a =>
    let* r := suspend_thread a in
    match r with
    | None => REJECT
    | Some (prev, true) => kret (Blocked (PSuspend prev (arg args 1)))
    | Some (prev, false) => store_out (arg args 1) prev ;; ret kStatusSuccess
    end).

Definition KeSuspendThread (args : list Z) : K call_out :=
  let* a := find_thread_by_id (arg args 0) in
  with_object Thread a (fun a =>
    let* r := suspend_thread a in
    match r with
    | None => REJECT
    | Some (prev, true) => kret (Blocked (PSuspendKe prev))
    | Some (prev, false) => ret prev
    end).

Definition NtYieldExecution : K call_out :=
  let* k := kget in
  match find (k_sched k) (current_handle (k_sched k)) with
  | Some i => kput (with_sched k (thread_yield (k_sched k) i)) ;; kret (Blocked PYield)
  | None => ret kStatusSuccess
  end.

(** ** Memory exports *)

Definition kmm_alloc (size lowest highest alignment protect : Z) : K call_out :=
  let* k := kget in
  match mm_alloc (k_ram k) (k_mm k) size lowest highest alignment protect with
  | Ok (va, r, m) => kput (with_mm (with_ram k r) m) ;; ret va
  | Fail msg => kub msg
  | Ub msg => kub msg
  end.

Definition MmAllocateContiguousMemory (args : list Z) : K call_out :=
  kmm_alloc (arg args 0) 0 0 0 kPageReadWrite.
Definition MmAllocateContiguousMemoryEx (args : list Z) : K call_out :=
  kmm_alloc (arg args 0) (arg args 1) (arg args 2) (arg args 3) (arg args 4).

Definition MmFreeContiguousMemory (args : list Z) : K call_out :=
  let* k := kget in
  let '(ok, r, m) := mm_free (k_ram k) (k_mm k) (arg args 0) in
  kput (with_mm (with_ram k r) m) ;; if ok then ret 0 else VOID_FAIL.

Definition MmQueryAllocationSize (args : list Z) : K call_out :=
  let* k := kget in ret (mm_size (k_mm k) (arg args 0)).

(** [memset] through [host_ptr] after the range check. *)
Definition fill_guest (va n v : Z) : K call_out :=
  if n =? 0 then ret 0 else
  let* w := can_write va n in
  if negb w then REJECT else
  let* k := kget in
  match host_ptr (k_ram k) va with
  | None => ret 0
  | Some p => match host_memset (k_ram k) p v n with
              | Ok r => kput (with_ram k r) ;; ret 0
              | Fail msg => kub msg
              | Ub msg => kub msg
              end
  end.

Definition RtlZeroMemory (args : list Z) : K call_out := fill_guest (arg args 0) (arg args 1) 0.
Definition RtlFillMemory (args : list Z) : K call_out :=
  fill_guest (arg args 0) (arg args 1) (Z.land (arg args 2) 0xFF).

(** [memmove]: the source is read before the destination is written. *)
Definition RtlMoveMemory (args : list Z) : K call_out :=
  let n := arg args 2 in
  if n =? 0 then ret 0 else
  let* w := can_write (arg args 0) n in
  let* r := can_read (arg args 1) n in
  if negb w || negb r then REJECT else
  let* k := kget in
  match host_ptr (k_ram k) (arg args 0), host_ptr (k_ram k) (arg args 1) with
  | Some d, Some s =>
      let bs := mem_read (r_bytes (k_ram k)) s n in
      if host_readable (k_ram k) s n && host_writable (k_ram k) d n
      then kput (with_ram k (set_bytes (k_ram k) (mem_write (r_bytes (k_ram k)) d bs))) ;; ret 0
      else kub "memmove on a page the host protects"
  | _, _ => kub "memmove on a null pointer"
  end.

(** ** Critical sections *)

Definition kCsLockCount : Z := 0x10.
Definition kCsRecursion : Z := 0x14.
Definition kCsOwningThread : Z := 0x18.
Definition kCsSize : Z := 0x1C.

Definition cs_init (va : Z) : K Z :=
  let* w := can_write va kCsSize in
  if negb w then kret kStatusInvalidParameter else
  write_dispatcher_header (MkObject Event va 0 [] (MkEvent 0 false) (o_mutant fresh_object)
                             (o_semaphore fresh_object) (o_thread fresh_object)) ;;
  wr32 (va + kCsLockCount) (u32 (-1)) ;;
  wr32 (va + kCsRecursion) 0 ;;
  wr32 (va + kCsOwningThread) 0 ;;
  kret kStatusSuccess.

(** LockCount and RecursionCount as int32, OwningThread as uint32. *)
Definition cs_fields (va : Z) : K (option (Z * Z * Z)) :=
  let* lock := rd32 (va + kCsLockCount) in
  let* rc := rd32 (va + kCsRecursion) in
  let* owner := rd32 (va + kCsOwningThread) in
  kret (match lock, rc, owner with
        | Some l, Some r, Some o => Some (s32 l, s32 r, o)
        | _, _, _ => None
        end).

Inductive cs_out := CsDone (status : Z) | CsBlock.

Definition cs_enter (va : Z) : K cs_out :=
  let* cur := sched_handle in
  let* f := cs_fields va in
  match f with
  | None => kret (CsDone kStatusInvalidParameter)
  | Some (lock, rc, owner) =>
      if (owner =? cur) && negb (cur =? 0) then
        let* n := int32_add rc 1 in
        wr32 (va + kCsRecursion) (u32 n) ;; kret (CsDone kStatusSuccess)
      else if owner =? 0 then
        wr32 (va + kCsOwningThread) (u32 cur) ;;
        wr32 (va + kCsRecursion) 1 ;; kret (CsDone kStatusSuccess)
      else
        let* fib := in_fiber in
        if negb fib then kret (CsDone kStatusInvalidParameter) else
        let* n := int32_add lock 1 in
        wr32 (va + kCsLockCount) (u32 n) ;;
        kblock (cs_token_of va) kNoTimeout ;; kret CsBlock
  end.

Definition cs_leave (va : Z) : K Z :=
  let* f := cs_fields va in
  match f with
  | None => kret kStatusInvalidParameter
  | Some (lock, rc, owner) =>
      let* cur := sched_handle in
      if negb (owner =? cur) then kret kStatusInvalidParameter
      else if 1 <? rc then
        wr32 (va + kCsRecursion) (u32 (rc - 1)) ;; kret kStatusSuccess
      else
        wr32 (va + kCsOwningThread) 0 ;;
        wr32 (va + kCsRecursion) 0 ;;
        (if 0 <=? lock then
           wr32 (va + kCsLockCount) (u32 (lock - 1)) ;;
           let* n := ksignal (cs_token_of va) false in kret tt
         else kret tt) ;;
        kret kStatusSuccess
  end.

Definition cs_try_enter (va : Z) : K Z :=
  let* rc := rd32 (va + kCsRecursion) in
  let* owner := rd32 (va + kCsOwningThread) in
  match rc, owner with
  | Some rc, Some owner =>
      let* cur := sched_handle in
      if (owner =? cur) && negb (cur =? 0) then
        let* n := int32_add (s32 rc) 1 in
        wr32 (va + kCsRecursion) (u32 n) ;; kret 1
      else if negb (owner =? 0) then kret 0
      else wr32 (va + kCsOwningThread) (u32 cur) ;; wr32 (va + kCsRecursion) 1 ;; kret 1
  | _, _ => kret 0
  end.

Definition finish_cs (c : cs_out) (va : Z) : K call_out :=
  match c with
  | CsDone st => if st =? kStatusSuccess then ret 0 else VOID_FAIL
  | CsBlock => kret (Blocked (PCs va))
  end.

Definition RtlInitializeCriticalSection (args : list Z) : K call_out :=
  let* st := cs_init (arg args 0) in if st =? kStatusSuccess then ret 0 else VOID_FAIL.
Definition RtlEnterCriticalSection (args : list Z) : K call_out :=
  let* c := cs_enter (arg args 0) in finish_cs c (arg args 0).
Definition RtlLeaveCriticalSection (args : list Z) : K call_out :=
  let* st := cs_leave (arg args 0) in if st =? kStatusSuccess then ret 0 else VOID_FAIL.
Definition RtlTryEnterCriticalSection (args : list Z) : K call_out :=
  let* r := cs_try_enter (arg args 0) in ret r.

(** ** Dispatch *)

Definition refresh_data : K unit :=
  let* k := kget in
  if k_data_va k =? 0 then kret tt
  else wr32 (k_data_va k + 0x08) (u32 (tick (k_sched k))).

(** The argument count each handler insists on ([NEED]) and its body. *)
Definition handler (ordinal : Z) (args : list Z) : option (nat * K call_out) :=
  match ordinal with
  | 5 => Some (0%nat, DbgBreakPoint)
  | 8 => Some (1%nat, DbgPrint args)
  | 51 => Some (3%nat, InterlockedCompareExchange args)
  | 52 => Some (1%nat, InterlockedDecrement args)
  | 53 => Some (1%nat, InterlockedIncrement args)
  | 54 => Some (2%nat, InterlockedExchange args)
  | 55 => Some (2%nat, InterlockedExchangeAdd args)
  | 99 => Some (3%nat, KeDelayExecutionThread args)
  | 104 => Some (0%nat, KeGetCurrentThread)
  | 108 => Some (3%nat, KeInitializeEvent args)
  | 110 => Some (2%nat, KeInitializeMutant args)
  | 112 => Some (3%nat, KeInitializeSemaphore args)
  | 126 => Some (0%nat, KeQueryPerformanceCounter)
  | 127 => Some (0%nat, KeQueryPerformanceFrequency)
  | 128 => Some (1%nat, KeQuerySystemTime args)
  | 131 => Some (4%nat, KeReleaseMutant args)
  | 132 => Some (4%nat, KeReleaseSemaphore args)
  | 138 => Some (1%nat, KeResetEvent args)
  | 140 => Some (1%nat, KeResumeThread args)
  | 143 => Some (2%nat, KeSetBasePriorityThread args)
  | 145 => Some (3%nat, KeSetEvent args)
  | 152 => Some (1%nat, KeSuspendThread args)
  | 159 => Some (5%nat, KeWaitForSingleObject args)
  | 165 => Some (1%nat, MmAllocateContiguousMemory args)
  | 166 => Some (5%nat, MmAllocateContiguousMemoryEx args)
  | 171 => Some (1%nat, MmFreeContiguousMemory args)
  | 180 => Some (1%nat, MmQueryAllocationSize args)
  | 186 => Some (1%nat, NtClearEvent args)
  | 187 => Some (1%nat, NtClose args)
  | 189 => Some (4%nat, NtCreateEvent args)
  | 192 => Some (3%nat, NtCreateMutant args)
  | 193 => Some (4%nat, NtCreateSemaphore args)
  | 205 => Some (2%nat, NtPulseEvent args)
  | 213 => Some (2%nat, NtQueryMutant args)
  | 214 => Some (2%nat, NtQuerySemaphore args)
  | 221 => Some (2%nat, NtReleaseMutant args)
  | 222 => Some (3%nat, NtReleaseSemaphore args)
  | 224 => Some (2%nat, NtResumeThread args)
  | 225 => Some (2%nat, NtSetEvent args)
  | 231 => Some (2%nat, NtSuspendThread args)
  | 233 => Some (3%nat, NtWaitForSingleObject args)
  | 234 => Some (4%nat, NtWaitForSingleObjectEx args)
  | 235 => Some (6%nat, NtWaitForMultipleObjectsEx args)
  | 238 => Some (0%nat, NtYieldExecution)
  | 255 => Some (10%nat, PsCreateSystemThreadEx args)
  | 258 => Some (1%nat, PsTerminateSystemThread args)
  | 277 => Some (1%nat, RtlEnterCriticalSection args)
  | 284 => Some (3%nat, RtlFillMemory args)
  | 291 => Some (1%nat, RtlInitializeCriticalSection args)
  | 294 => Some (1%nat, RtlLeaveCriticalSection args)
  | 298 => Some (3%nat, RtlMoveMemory args)
  | 305 => Some (2%nat, RtlTimeToTimeFields args)
  | 306 => Some (1%nat, RtlTryEnterCriticalSection args)
  | 320 => Some (2%nat, RtlZeroMemory args)
  | _ => None
  end.

Definition call (ordinal : Z) (args : list Z) : K call_out :=
  refresh_data ;;
  match find_export ordinal with
  | None => VOID_FAIL
  | Some x =>
      if bool_decide (x_conv x = Data) then VOID_FAIL
      else match handler ordinal args with
           | None => VOID_FAIL
           | Some (need, body) => if (length args <? need)%nat then VOID_FAIL else body
           end
  end.

(** The rest of a call that switched away, run when its fiber runs again. *)
Definition resume (p : pending) : K call_out :=
  match p with
  | PWait a ticks => let* w := wait_resume e a ticks in finish_wait w p
  | PMulti objs wait_all ticks =>
      let* w := wait_multiple_resume e objs wait_all ticks in finish_wait w p
  | PDelay => ret kStatusSuccess
  | PSuspend prev out_ptr => store_out out_ptr prev ;; ret kStatusSuccess
  | PSuspendKe prev => ret prev
  | PYield => ret kStatusSuccess
  | PCs va => let* c := cs_enter va in finish_cs c va
  end.

(** ** The body of a created thread *)

(** Up to the guest routine: parked on the thread object, running it through
    the runner (with the thread's own handle), or at its end. *)
Inductive body_out := BParked (self : Z) | BRun (self : option Z) (handle : Z) | BEnd.

Definition systhread_run (self : option Z) : K body_out :=
  let* k := kget in
  if k_runner k then
    match self with
    | Some a => let* o := load a in kret (BRun self (th_object (o_thread o)))
    | None => kret (BRun None 0)
    end
  else
    match self with
    | Some a =>
        update a (fun o => set_thread (th_with_missing true (o_thread o)) o) ;;
        finish_thread_object a ;; kret BEnd
    | None => kret BEnd
    end.

Definition systhread_start : K body_out :=
  let* cur := sched_handle in
  let* self := find_thread_by_fiber (u32 cur) in
  match self with
  | Some a =>
      let* o := load a in
      if 0 <? th_suspend (o_thread o)
      then kblock (o_token o) kNoTimeout ;; kret (BParked a)
      else systhread_run self
  | None => systhread_run self
  end.

(** The runner returned: the routine's thread object is finished. *)
Definition systhread_return (self : option Z) : K unit :=
  match self with Some a => finish_thread_object a | None => kret tt end.

(** ** Thunk installation *)

Record ThunkSlot := MkSlot {
  s_slot_va : Z; s_raw : Z; s_ordinal : Z; s_exp : option Export;
  s_implemented : bool; s_new_value : Z;
}.

(** The guest address of an implemented data export. *)
Definition data_address (data_va ordinal : Z) : Z :=
  if ordinal =? 156 then u32 (data_va + 0x08)
  else if ordinal =? 164 then u32 (data_va + 0x120)
  else if ordinal =? 324 then data_va
  else u32 (data_va + 0x10).

Definition resolve_slot (data_va slot_va raw : Z) : ThunkSlot :=
  let ordinal := Z.land raw 0x7FFFFFFF in
  let exp := if Z.land raw 0x80000000 =? 0 then None else find_export ordinal in
  match exp with
  | None => MkSlot slot_va raw ordinal None false raw
  | Some x =>
      let is_data := bool_decide (x_conv x = Data) in
      if negb is_data && implemented_function ordinal
      then MkSlot slot_va raw ordinal exp true (Z.lor kHleMarker ordinal)
      else if is_data && implemented_data ordinal
      then MkSlot slot_va raw ordinal exp true (data_address data_va ordinal)
      else MkSlot slot_va raw ordinal exp false raw
  end.

(** Lift the read-only protection around the store when it is set. *)
Definition patch_slot (r : ram) (s : ThunkSlot) : ram :=
  if negb (s_implemented s) then r else
  let was_ro := negb (writable r (s_slot_va s) 4) in
  let r := if was_ro then snd (protect_rw r (s_slot_va s) 4) else r in
  let r := write32_ r (s_slot_va s) (s_new_value s) in
  if was_ro then snd (protect_ro r (s_slot_va s) 4) else r.

Fixpoint thunk_loop (fuel : nat) (data_va va : Z) (r : ram) : list ThunkSlot * ram :=
  match fuel with
  | O => ([], r)
  | S fuel' =>
      match read32 r va with
      | None => ([], r)
      | Some raw =>
          if raw =? 0 then ([], r)
          else let s := resolve_slot data_va va raw in
               let (rest, r) := thunk_loop fuel' data_va (u32 (va + 4)) (patch_slot r s) in
               (s :: rest, r)
      end
  end.

Definition kThunkBound : nat := Z.to_nat 100000.
#[global] Opaque kThunkBound.

(** The name the image gives itself. *)
Definition image_name (i : XbeImage.image) : outcome (list Z) :=
  let! n := XbeImage.debug_pathname i in
  match n with [] => XbeImage.debug_filename i | _ => Ok n end.

(** The kernel data window: committed, zeroed, with the image's name as an
    ANSI_STRING when it has one and it fits. *)
Definition data_window (r : ram) (i : XbeImage.image) (data_va : Z) : outcome ram :=
  let (_, r) := commit r data_va 0x1000 in
  let! r := match host_ptr r data_va with
            | Some p => host_memset r p 0 0x1000
            | None => Ok r
            end in
  let! name := image_name i in
  Ok (match name with
      | [] => r
      | _ =>
          if zlen name <? 0xE0 then
            let r := write32_ r (u32 (data_va + 0x10))
                       (u32 (Z.lor (zlen name) (Z.shiftl (zlen name + 1) 16))) in
            let r := write32_ r (u32 (data_va + 0x14)) (u32 (data_va + 0x20)) in
            write_bytes_ r (u32 (data_va + 0x20)) (name ++ [0])
          else r
      end).

Definition install_thunks (i : XbeImage.image) : K (list ThunkSlot) :=
  fun k =>
    let lo := align_down (u32 (XbeImage.image_end_abs i + 4096 - 1)) 4096 in
    let data_va := u32 (u32 (r_size (k_ram k)) - 0x1000) in
    let hi := data_va in
    let lo := if hi <=? lo then hi else lo in
    let! r := data_window (k_ram k) i data_va in
    let r := if data_va =? 0 then r
             else write32_ r (u32 (data_va + 0x08)) (u32 (tick (k_sched k))) in
    let (slots, r) := thunk_loop kThunkBound data_va (XbeImage.kernel_thunk_va i) r in
    Ok (slots, MkKernel r (k_sched k) ∅ [] [] [] [] (k_next_tid k) data_va
                 (MkMm lo hi [] (mm_obs (k_mm k))) (k_sink k) [] (k_dbg_sent k) (k_runner k)).

End handlers.
End KrnlCall.
