(* ===== verification/KrnlInv.v ===== *)
(** Invariants of the kernel object tables, kept by every export handler, by
    the continuation of every blocked call and by thread termination, whatever
    the guest does and however calls of different fibers interleave. *)
From stdpp Require Import base numbers list gmap strings.
From Stdlib Require Import ZArith Lia.
From S2P Require Import Prelude XbeRam CpuSched KrnlExports KrnlMm KrnlTime.
From S2P Require Import KrnlState KrnlObjects KrnlCall.
Open Scope Z_scope.

Module KrnlInv.
Import XbeRam CpuSched KrnlExports KrnlMm KrnlTime KrnlState KrnlObjects KrnlCall.
Open Scope krnl_scope.

(** ** Triples of the kernel monad *)

Definition triple {A} (P : kernel -> Prop) (m : K A) (Q : A -> kernel -> Prop) : Prop :=
  forall k x k', P k -> m k = Ok (x, k') -> Q x k'.

(** [m] keeps [P]. *)
Definition keeps {A} (P : kernel -> Prop) (m : K A) : Prop := triple P m (fun _ => P).

Lemma triple_bind {A B} P (m : K A) Q (f : A -> K B) R :
  triple P m Q -> (forall x, triple (Q x) (f x) R) -> triple P (kbind m f) R.
Proof.
  intros Hm Hf k y k' Hk Hb. unfold kbind in Hb.
  destruct (m k) as [[x k1]| |] eqn:E; [|done|done].
  eapply Hf; [|exact Hb]. by eapply Hm.
Qed.

Lemma keeps_bind {A B} P (m : K A) (f : A -> K B) :
  keeps P m -> (forall x, keeps P (f x)) -> keeps P (kbind m f).
Proof. intros Hm Hf. by eapply triple_bind. Qed.

Lemma triple_conseq {A} (P P' : kernel -> Prop) (m : K A) (Q Q' : A -> kernel -> Prop) :
  triple P' m Q' -> (forall k, P k -> P' k) -> (forall x k, Q' x k -> Q x k) -> triple P m Q.
Proof. intros H HP HQ k x k' Hk Hm. apply HQ. eapply H; eauto. Qed.

Lemma keeps_ret {A} P (x : A) : keeps P (kret x).
Proof. intros k y k' Hk [= <- <-]. done. Qed.

Lemma keeps_ub {A} P msg : keeps P (@kub A msg).
Proof. done. Qed.

(** An operation that only looks at the state. *)
Lemma keeps_read {A} P (f : kernel -> A) : keeps P (fun k => Ok (f k, k)).
Proof. intros k y k' Hk [= <- <-]. done. Qed.

Lemma keeps_load P a : keeps P (load a).
Proof. intros k o k' Hk. unfold load. destruct (k_heap k !! a); [|done]. by intros [= <- <-]. Qed.

Lemma keeps_mapK {A} P (f : A -> K unit) l : (forall x, keeps P (f x)) -> keeps P (mapK f l).
Proof.
  intros Hf. induction l as [|x l IH]; simpl; [apply keeps_ret|].
  apply keeps_bind; [apply Hf|done].
Qed.

(** ** The invariant *)

(** A mutant is free (count 1, no owner) or owned (count 0 or below, owner
    recorded, nothing left to report as abandoned); a semaphore never exceeds
    its limit. *)
Definition obj_ok (o : DispatcherObject) : Prop :=
  match o_kind o with
  | Mutant => mu_state (o_mutant o) = 1 /\ mu_owner (o_mutant o) = 0 \/
              mu_state (o_mutant o) <= 0 /\ mu_owner (o_mutant o) <> 0 /\
              mu_abandoned (o_mutant o) = false
  | Semaphore => se_count (o_semaphore o) <= se_limit (o_semaphore o) /\
                 0 < se_limit (o_semaphore o)
  | _ => True
  end.

(** Every address some registry owns. *)
Definition owned (k : kernel) : list Z := live_addrs k ++ k_va k ++ (snd <$> k_fibers k).

Record tables_ok (k : kernel) : Prop := {
  to_live : forall a, a ∈ owned k -> is_Some (k_heap k !! a);
  to_nodup : NoDup (owned k);
  to_free : forall s, s ∈ k_free k <-> k_objects k !! s = Some None;
  to_free_nodup : NoDup (k_free k);
  to_token : forall a o, k_heap k !! a = Some o -> o_token o = event_token a;
  to_obj : forall a o, a ∈ live_addrs k -> k_heap k !! a = Some o -> obj_ok o;
  to_tid : Z.odd (k_next_tid k) = true;
  to_thread : forall a o, a ∈ snd <$> k_fibers k -> k_heap k !! a = Some o ->
    Z.odd (th_id (o_thread o)) = true;
}.

(** The invariant sees the heap and the registries only. *)
Definition same_tables (k k' : kernel) : Prop :=
  k_heap k' = k_heap k /\ k_objects k' = k_objects k /\ k_free k' = k_free k /\
  k_va k' = k_va k /\ k_fibers k' = k_fibers k /\ k_next_tid k' = k_next_tid k.

Lemma tables_ok_same k k' : same_tables k k' -> tables_ok k -> tables_ok k'.
Proof.
  intros (H1 & H2 & H3 & H4 & H5 & H6) [].
  assert (Ho : owned k' = owned k) by (unfold owned, live_addrs; congruence).
  assert (Hl : live_addrs k' = live_addrs k) by (unfold live_addrs; congruence).
  split; rewrite ?Ho, ?Hl, ?H1, ?H2, ?H3, ?H5, ?H6; done.
Qed.

Lemma keeps_same {A} (m : K A) :
  (forall k x k', m k = Ok (x, k') -> same_tables k k') -> keeps tables_ok m.
Proof. intros H k x k' Hk Hm. eapply tables_ok_same; [by eapply H|done]. Qed.

(** A change of one object that keeps what identifies it. *)
Definition same_id (o o' : DispatcherObject) : Prop :=
  o_token o' = o_token o /\ th_id (o_thread o') = th_id (o_thread o).

Lemma tables_ok_update k a o o' :
  tables_ok k -> k_heap k !! a = Some o -> same_id o o' ->
  (a ∈ live_addrs k -> obj_ok o') -> tables_ok (with_heap k (<[a := o']> (k_heap k))).
Proof.
  intros [] Ha [Ht Hi] Hobj. split; try done; simpl.
  - intros b Hb. destruct (decide (b = a)) as [->|]; [by rewrite lookup_insert_eq|].
    rewrite lookup_insert_ne by done. by apply to_live0.
  - intros b ob. destruct (decide (b = a)) as [->|].
    + rewrite lookup_insert_eq. intros [= <-]. rewrite Ht. by apply to_token0.
    + rewrite lookup_insert_ne by done. apply to_token0.
  - intros b ob Hb. destruct (decide (b = a)) as [->|].
    + rewrite lookup_insert_eq. intros [= <-]. by apply Hobj.
    + rewrite lookup_insert_ne by done. by apply to_obj0.
  - intros b ob Hb. destruct (decide (b = a)) as [->|].
    + rewrite lookup_insert_eq. intros [= <-]. rewrite Hi. by eapply to_thread0.
    + rewrite lookup_insert_ne by done. by apply to_thread0.
Qed.

Lemma keeps_update a f :
  (forall o, same_id o (f o)) -> (forall o, obj_ok o -> obj_ok (f o)) ->
  keeps tables_ok (update a f).
Proof.
  intros Hid Hok k x k' Hk. unfold update, kbind, load, store.
  destruct (k_heap k !! a) as [o|] eqn:E; [|done]. rewrite E. intros [= <- <-].
  eapply tables_ok_update; [done|done|apply Hid|]. intros Ha. by apply Hok, (to_obj _ Hk a).
Qed.

Create HintDb keeps.

Ltac same_tables_tac := intros; simplify_eq/=; repeat split.

Lemma keeps_wr32 `{HostOS} va v : keeps tables_ok (wr32 va v).
Proof. apply keeps_same. unfold wr32, kmod. same_tables_tac. Qed.
Lemma keeps_wr32_ok `{HostOS} va v : keeps tables_ok (wr32_ok va v).
Proof. apply keeps_same. unfold wr32_ok. intros k x k' H0. case_match; by same_tables_tac. Qed.
Lemma keeps_wr_bytes `{HostOS} va bs : keeps tables_ok (wr_bytes va bs).
Proof. apply keeps_same. unfold wr_bytes, kmod. same_tables_tac. Qed.
Lemma keeps_ksignal t all : keeps tables_ok (ksignal t all).
Proof.
  apply keeps_same. unfold ksignal. intros k x k' H. destruct (signal _ _ _). by same_tables_tac.
Qed.
Lemma keeps_kblock t n : keeps tables_ok (kblock t n).
Proof. apply keeps_same. unfold kblock. intros k x k' H. case_match; by same_tables_tac. Qed.
Lemma keeps_kwoken : keeps tables_ok kwoken.
Proof. apply keeps_same. unfold kwoken. intros k x k' H. case_match; by same_tables_tac. Qed.

#[export] Hint Resolve keeps_ret keeps_ub keeps_read keeps_load keeps_mapK keeps_wr32
  keeps_wr32_ok keeps_wr_bytes keeps_ksignal keeps_kblock keeps_kwoken : keeps.

(** Walk through a handler: sequencing, tests and case analyses, then the
    lemmas of the database. *)
Ltac keeps_step :=
  match goal with
  | |- triple ?P ?m (fun _ => ?P) => change (keeps P m)
  | |- keeps _ (kbind _ _) => apply keeps_bind; [|intros ?]
  | |- keeps _ (mapK _ _) => apply keeps_mapK; intros ?
  | |- keeps _ (match ?x with _ => _ end) => destruct x
  | |- forall _, keeps _ _ => intros ?
  | |- keeps _ (let _ := _ in _) => cbv zeta
  end.
Ltac keeps_tac := repeat (cbv beta zeta; (solve [auto with keeps nocore]) || keeps_step).

(** ** Registries *)

Lemma live_addrs_insert (l : list (option Z)) s x y :
  l !! s = Some x ->
  omap id (<[s := y]> l) = omap id (take s l) ++ option_list y ++ omap id (drop (S s) l) /\
  omap id l = omap id (take s l) ++ option_list x ++ omap id (drop (S s) l).
Proof.
  intros Hs. split.
  - rewrite insert_take_drop by (by eapply lookup_lt_Some). rewrite omap_app. simpl.
    by destruct y.
  - rewrite <- (take_drop_middle l s x Hs) at 1. rewrite omap_app. simpl. by destruct x.
Qed.

(** A new object enters the heap before any registry owns it. *)
Lemma tables_ok_new k a o :
  tables_ok k -> k_heap k !! a = None -> o_token o = event_token a ->
  tables_ok (with_heap k (<[a := o]> (k_heap k))) /\ a ∉ owned k.
Proof.
  intros [] Ha Ht.
  assert (Hno : a ∉ owned k).
  { intros Hin. destruct (to_live0 a Hin) as [o' Ho']. congruence. }
  assert (Hsub1 : forall b, b ∈ live_addrs k -> b <> a).
  { intros b Hb ->. apply Hno. unfold owned. apply elem_of_app. by left. }
  assert (Hsub2 : forall b, b ∈ snd <$> k_fibers k -> b <> a).
  { intros b Hb ->. apply Hno. unfold owned. rewrite !elem_of_app. auto. }
  split; [|done]. split; try done; simpl.
  - intros b Hb. rewrite lookup_insert_ne by (intros ->; done). by apply to_live0.
  - intros b ob. destruct (decide (b = a)) as [->|].
    + rewrite lookup_insert_eq. by intros [= <-].
    + rewrite lookup_insert_ne by done. apply to_token0.
  - intros b ob Hb. rewrite lookup_insert_ne by (intros ->; by eapply Hsub1). by apply to_obj0.
  - intros b ob Hb. rewrite lookup_insert_ne by (intros ->; by eapply Hsub2). by apply to_thread0.
Qed.

(** Where a fresh object [o] is: alive and owned by nobody. *)
Definition unowned (a : Z) (o : DispatcherObject) (k : kernel) : Prop :=
  tables_ok k /\ a ∉ owned k /\ k_heap k !! a = Some o.

Lemma triple_new a o :
  o_token o = event_token a -> triple tables_ok (new_object a o) (fun _ => unowned a o).
Proof.
  intros Ht k x k' Hk. unfold new_object. destruct (k_heap k !! a) eqn:E; [done|].
  intros [= <- <-]. destruct (tables_ok_new k a o Hk E Ht) as [H1 H2].
  split; [done|]. split; [done|]. simpl. by rewrite lookup_insert_eq.
Qed.

(** Adding an unowned address to the handle table, at a free slot or at its end. *)
Lemma tables_ok_add k a o objs free slot :
  unowned a o k -> obj_ok o ->
  (k_free k = slot :: free /\ objs = <[slot := Some a]> (k_objects k) \/
   k_free k = [] /\ free = [] /\ objs = k_objects k ++ [Some a]) ->
  tables_ok (with_objects k objs free).
Proof.
  intros (Hk & Hno & Ho) Hok Hcase.
  assert (Hperm : owned (with_objects k objs free) ≡ₚ a :: owned k).
  { unfold owned, live_addrs. simpl. destruct Hcase as [[Hf ->]|(Hf & -> & ->)].
    - assert (Hs : k_objects k !! slot = Some None) by (apply (to_free _ Hk); rewrite Hf; left).
      destruct (live_addrs_insert _ _ _ (Some a) Hs) as [-> ->]. simpl.
      by rewrite <- Permutation_middle.
    - rewrite omap_app. simpl. rewrite <- app_assoc. simpl. by rewrite <- Permutation_middle. }
  assert (Hlive : forall b, b ∈ live_addrs (with_objects k objs free) <-> b = a \/ b ∈ live_addrs k).
  { intros b. unfold live_addrs. simpl. destruct Hcase as [[Hf ->]|(Hf & -> & ->)].
    - assert (Hs : k_objects k !! slot = Some None) by (apply (to_free _ Hk); rewrite Hf; left).
      destruct (live_addrs_insert _ _ _ (Some a) Hs) as [-> ->]. simpl.
      rewrite !elem_of_app, elem_of_cons. tauto.
    - rewrite omap_app. simpl. rewrite elem_of_app, list_elem_of_singleton. tauto. }
  destruct Hk. split; simpl; try done.
  - intros b Hb. rewrite Hperm in Hb. apply elem_of_cons in Hb as [->|Hb]; [by eexists|].
    by apply to_live0.
  - rewrite Hperm. by apply NoDup_cons.
  - intros s. destruct Hcase as [[Hf ->]|(Hf & -> & ->)].
    + assert (Hs : k_objects k !! slot = Some None) by (apply to_free0; rewrite Hf; left).
      rewrite Hf in to_free_nodup0. apply NoDup_cons in to_free_nodup0 as [Hni _].
      destruct (decide (s = slot)) as [->|Hne].
      * rewrite list_lookup_insert_eq by (by eapply lookup_lt_Some). split; done.
      * rewrite list_lookup_insert_ne by done. rewrite <- to_free0, Hf, elem_of_cons. naive_solver.
    + split; [by intros ?%elem_of_nil|]. intros Hs. exfalso.
      apply lookup_app_Some in Hs as [Hs|[_ Hs]].
      * apply to_free0 in Hs. rewrite Hf in Hs. by apply elem_of_nil in Hs.
      * by apply list_lookup_singleton_Some in Hs as [_ ?].
  - destruct Hcase as [[Hf ->]|(Hf & -> & ->)]; [|constructor].
    rewrite Hf in to_free_nodup0. by apply NoDup_cons in to_free_nodup0 as [_ ?].
  - intros b ob Hb Hob. apply Hlive in Hb as [->|Hb]; [congruence|by eapply to_obj0].
Qed.

Lemma triple_insert a o :
  obj_ok o -> triple (unowned a o) (insert_object a) (fun _ => tables_ok).
Proof.
  intros Hok k h k' Hk. unfold insert_object. destruct (k_free k) as [|slot free] eqn:Ef;
    intros [= <- <-].
  - eapply (tables_ok_add _ _ o _ _ 0%nat); [done|done|]. by right.
  - eapply (tables_ok_add _ _ o _ _ slot); [done|done|]. by left.
Qed.

(** Adding an unowned address to the VA registry. *)
Lemma tables_ok_va k a o : unowned a o k -> tables_ok (with_va k (k_va k ++ [a])).
Proof.
  intros (Hk & Hno & Ho).
  assert (Hperm : owned (with_va k (k_va k ++ [a])) ≡ₚ a :: owned k).
  { unfold owned, live_addrs. simpl. rewrite <- app_assoc. simpl.
    by rewrite (Permutation_app_comm (k_va k)), <- app_comm_cons, <- Permutation_middle,
      (Permutation_app_comm _ (k_va k)). }
  destruct Hk. split; simpl; try done.
  - intros b Hb. rewrite Hperm in Hb. apply elem_of_cons in Hb as [->|Hb]; [by eexists|].
    by apply to_live0.
  - rewrite Hperm. by apply NoDup_cons.
Qed.

Lemma fiber_emplace_perm l h a : snd <$> fiber_emplace l h a ≡ₚ a :: (snd <$> l).
Proof.
  induction l as [|[h' a'] l IH]; simpl; [done|]. case_if; simpl; [done|].
  rewrite IH. apply Permutation_swap.
Qed.

Lemma keeps_ensure e h : keeps tables_ok (ensure_thread_object e h).
Proof.
  intros k x k' Hk. unfold ensure_thread_object, kbind, kget.
  destruct (fiber_find _ _); [by intros [= <- <-]|]. unfold new_object, kmod, kret.
  destruct (k_heap k !! e_thread_addr e) eqn:E; [done|]. simpl. intros [= <- <-].
  set (a := e_thread_addr e) in *. set (o := implicit_thread a h (k_next_tid k)).
  destruct (tables_ok_new k a o Hk E eq_refl) as [[] Hno].
  set (k1 := with_heap k (<[a := o]> (k_heap k))) in *.
  assert (Hperm : owned (with_fibers (with_tid k1 (u32 (k_next_tid k + 2)))
    (fiber_emplace (k_fibers k) h a)) ≡ₚ a :: owned k).
  { unfold owned. simpl. rewrite fiber_emplace_perm.
    rewrite !app_assoc. by rewrite <- Permutation_middle. }
  split; simpl; try done.
  - intros b Hb. rewrite Hperm in Hb. apply elem_of_cons in Hb as [->|Hb].
    + rewrite lookup_insert_eq. by eexists.
    + by apply (to_live0 b).
  - rewrite Hperm. by apply NoDup_cons.
  - unfold u32. rewrite <- (to_tid _ Hk).
    replace (2 ^ 32) with (2 * 2 ^ 31) by lia. rewrite (Z.mod_eq (k_next_tid k + 2)) by lia.
    rewrite Z.odd_sub, Z.odd_add. rewrite <- Z.mul_assoc, (Z.odd_mul 2).
    simpl. by rewrite !xorb_false_r.
  - intros b ob Hb Hob. rewrite fiber_emplace_perm in Hb.
    apply elem_of_cons in Hb as [->|Hb].
    + rewrite lookup_insert_eq in Hob. injection Hob as <-. simpl. apply (to_tid _ Hk).
    + by apply (to_thread0 b).
Qed.

Lemma keeps_token e : keeps tables_ok (current_thread_token e).
Proof.
  unfold current_thread_token. apply keeps_bind; [apply keeps_read|intros h].
  destruct (h =? 0); [apply keeps_ret|]. apply keeps_bind; [apply keeps_ensure|intros a].
  apply keeps_bind; [apply keeps_load|intros o]. apply keeps_ret.
Qed.

#[export] Hint Resolve keeps_ensure keeps_token : keeps.

(** ** Operations on objects *)

Section ops.
Context `{os : HostOS} (e : env).

Lemma keeps_header o : keeps tables_ok (write_dispatcher_header o).
Proof. unfold write_dispatcher_header. keeps_tac. Qed.
Lemma keeps_signal_state o : keeps tables_ok (write_signal_state o).
Proof. unfold write_signal_state. keeps_tac. Qed.
Hint Resolve keeps_header keeps_signal_state : keeps.

Lemma keeps_update_signal a f :
  (forall o, same_id o (f o)) -> (forall o, obj_ok o -> obj_ok (f o)) ->
  keeps tables_ok (update_signal a f).
Proof.
  intros Hid Hok. unfold update_signal. apply keeps_bind; [by apply keeps_update|]. keeps_tac.
Qed.

Lemma keeps_signaled a b : keeps tables_ok (update_signal a (set_signaled b)).
Proof. by apply keeps_update_signal. Qed.
Lemma keeps_mw a f : keeps tables_ok (update a (fun o => set_mw (f o) o)).
Proof. by apply keeps_update. Qed.
Lemma keeps_mw_const a l : keeps tables_ok (update a (set_mw l)).
Proof. by apply keeps_update. Qed.
Lemma keeps_thread a f :
  (forall t, th_id (f t) = th_id t) ->
  keeps tables_ok (update a (fun o => set_thread (f (o_thread o)) o)).
Proof. intros Hf. apply keeps_update; [|done]. intros o. split; [done|apply Hf]. Qed.
Hint Resolve keeps_signaled keeps_mw keeps_mw_const : keeps.

Lemma keeps_satisfied a : keeps tables_ok (dispatcher_satisfied e a).
Proof. unfold dispatcher_satisfied. keeps_tac. Qed.
Lemma keeps_int32 x d : keeps tables_ok (int32_add x d).
Proof. unfold int32_add. keeps_tac. Qed.
Hint Resolve keeps_satisfied keeps_int32 : keeps.

(** The token of a running fiber is an odd number; the host has none. *)
Lemma token_in_fiber k t k' :
  tables_ok k -> current_handle (k_sched k) <> 0 -> current_thread_token e k = Ok (t, k') ->
  Z.odd t = true.
Proof.
  intros Hk Hh. unfold current_thread_token, kbind, sched_handle.
  replace (current_handle (k_sched k) =? 0) with false by lia.
  destruct (ensure_thread_object e _ k) as [[a k1]| |] eqn:E; [|done|done].
  pose proof (keeps_ensure e _ k a k1 Hk E) as Hk1. unfold load, kret.
  destruct (k_heap k1 !! a) as [o|] eqn:Ea; [|done]. intros [= <- <-].
  eapply (to_thread _ Hk1 a); [|done]. clear Hk Hk1 Ea.
  unfold ensure_thread_object, kbind, kget in E.
  destruct (fiber_find _ _) as [b|] eqn:Ef.
  - injection E as <- <-. clear -Ef. induction (k_fibers k) as [|[h' b'] l IH]; simpl in *; [done|].
    case_if_in Ef; [injection Ef as <-; left|right; by apply IH].
  - unfold new_object, kmod, kret in E. destruct (k_heap k !! _); [done|]. injection E as <- <-.
    simpl. rewrite fiber_emplace_perm. left.
Qed.

Lemma token_odd :
  triple tables_ok (current_thread_token e) (fun t k => tables_ok k /\ (t = 0 \/ Z.odd t = true)).
Proof.
  intros k t k' Hk Hm. split; [by eapply keeps_token|].
  destruct (decide (current_handle (k_sched k) = 0)) as [E|E].
  - left. revert Hm. unfold current_thread_token, kbind, sched_handle. rewrite E. by intros [= <- _].
  - right. by eapply token_in_fiber.
Qed.

(** ** Knowing an object's contents *)

(** The invariant, with the contents of the object at [a]. *)
Definition at_obj (a : Z) (o : DispatcherObject) (k : kernel) : Prop :=
  tables_ok k /\ k_heap k !! a = Some o.

Lemma triple_load {A} a (f : DispatcherObject -> K A) Q :
  (forall o, triple (at_obj a o) (f o) Q) -> triple tables_ok (kbind (load a) f) Q.
Proof.
  intros Hf k x k' Hk. unfold kbind, load. destruct (k_heap k !! a) as [o|] eqn:E; [|done].
  by apply Hf.
Qed.

Lemma triple_load_again {A} a o (f : DispatcherObject -> K A) Q :
  triple (at_obj a o) (f o) Q -> triple (at_obj a o) (kbind (load a) f) Q.
Proof.
  intros Hf k x k' [Hk Ha]. unfold kbind, load. rewrite Ha. by apply Hf.
Qed.

Lemma triple_forget {A} a o (m : K A) Q : triple tables_ok m Q -> triple (at_obj a o) m Q.
Proof. intros H k x k' [Hk _]. by apply H. Qed.

Lemma triple_int32 {A} P x d (f : Z -> K A) Q :
  triple P (f (x + d)) Q -> triple P (kbind (int32_add x d) f) Q.
Proof.
  intros Hf k y k' Hk. unfold kbind, int32_add. case_if; [done|]. by apply Hf.
Qed.

Lemma triple_ret {A} P (x : A) (Q : A -> kernel -> Prop) :
  (forall k, P k -> Q x k) -> triple P (kret x) Q.
Proof. intros H k y k' Hk [= <- <-]. by apply H. Qed.

Lemma triple_update_at a o f :
  same_id o (f o) -> (obj_ok o -> obj_ok (f o)) ->
  triple (at_obj a o) (update a f) (fun _ => at_obj a (f o)).
Proof.
  intros Hid Hok k x k' [Hk Ha]. unfold update, kbind, load, store. rewrite Ha, Ha.
  intros [= <- <-]. split; [|simpl; by rewrite lookup_insert_eq].
  eapply tables_ok_update; [done|done|done|]. intros Hl. by apply Hok, (to_obj _ Hk a).
Qed.

Lemma triple_token_at {A} a o (f : Z -> K A) Q :
  (forall t, t = 0 \/ Z.odd t = true -> triple (at_obj a o) (f t) Q) ->
  triple (at_obj a o) (kbind (current_thread_token e) f) Q.
Proof.
  intros Hf k x k' [Hk Ha]. unfold kbind.
  destruct (current_thread_token e k) as [[t k1]| |] eqn:Et; [|done|done].
  destruct (token_odd k t k1 Hk Et) as [Hk1 Ht]. apply Hf; [done|]. split; [done|].
  revert Et. unfold current_thread_token, kbind, sched_handle, kret.
  destruct (current_handle _ =? 0); [by intros [= <- <-]|].
  unfold ensure_thread_object, kbind, kget, kret, load. simpl.
  destruct (fiber_find _ _) as [b|].
  - destruct (k_heap k !! b); [|done]. by intros [= <- <-].
  - unfold new_object, kmod. destruct (k_heap k !! e_thread_addr e) eqn:E; [done|]. simpl.
    rewrite lookup_insert_eq. intros [= <- <-]. simpl.
    rewrite lookup_insert_ne; [done|]. intros Heq. rewrite Heq in E. congruence.
Qed.

(** Update, then an operation that keeps the invariant. *)
Lemma keeps_update_at {A} a o f (m : K A) :
  same_id o (f o) -> (obj_ok o -> obj_ok (f o)) -> keeps tables_ok m ->
  triple (at_obj a o) (update a f ;; m) (fun _ => tables_ok).
Proof.
  intros H1 H2 Hm. eapply triple_bind; [by apply triple_update_at|].
  intros ?. by apply triple_forget.
Qed.

Lemma keeps_update_signal_at {A} a o f (m : K A) :
  same_id o (f o) -> (obj_ok o -> obj_ok (f o)) -> keeps tables_ok m ->
  triple (at_obj a o) (update_signal a f ;; m) (fun _ => tables_ok).
Proof.
  intros H1 H2 Hm. eapply triple_bind; [|intros ?; exact Hm].
  unfold update_signal. apply keeps_update_at; [done..|]. keeps_tac.
Qed.

Lemma keeps_acquire a : keeps tables_ok (dispatcher_acquire e a).
Proof.
  unfold dispatcher_acquire. apply triple_load. intros o. destruct (o_kind o) eqn:Ek.
  - apply triple_forget. keeps_tac.
  - apply triple_token_at. intros t Ht. destruct (t =? 0) eqn:E0.
    + apply triple_forget, keeps_ret.
    + bool_facts. apply triple_int32, keeps_update_at; [done| |keeps_tac].
      unfold obj_ok. simpl. rewrite Ek. intros [[-> _]|(? & _ & _)]; right; simpl; lia || split_and!; lia || done.
  - apply triple_int32, keeps_update_signal_at; [done| |apply keeps_ret].
    unfold obj_ok. simpl. rewrite Ek. simpl. lia.
  - apply triple_forget, keeps_ret.
Qed.
Hint Resolve keeps_acquire : keeps.

Lemma keeps_wait a im n : keeps tables_ok (wait_dispatch e a im n).
Proof. unfold wait_dispatch, in_fiber. keeps_tac. Qed.
Lemma keeps_wait_resume a n : keeps tables_ok (wait_resume e a n).
Proof. unfold wait_resume. pose proof keeps_wait. keeps_tac. Qed.
Lemma keeps_all_satisfied l : keeps tables_ok (all_satisfied e l).
Proof. induction l; simpl; keeps_tac. Qed.
Lemma keeps_acquire_all l i w : keeps tables_ok (acquire_all e l i w).
Proof. revert i w. induction l; intros i w; simpl; keeps_tac. Qed.
Lemma keeps_acquire_any l i : keeps tables_ok (acquire_any e l i).
Proof. revert i. induction l; intros i; simpl; keeps_tac. Qed.
Lemma keeps_register t a : keeps tables_ok (register_mw e t a).
Proof. unfold register_mw. keeps_tac. Qed.
Lemma keeps_unregister t a : keeps tables_ok (unregister_mw t a).
Proof. unfold unregister_mw. keeps_tac. Qed.
Hint Resolve keeps_wait keeps_wait_resume keeps_all_satisfied keeps_acquire_all keeps_acquire_any
  keeps_register keeps_unregister : keeps.

Lemma keeps_wait_multiple l all im n : keeps tables_ok (wait_multiple e l all im n).
Proof. unfold wait_multiple, in_fiber, sched_handle. keeps_tac. Qed.
Hint Resolve keeps_wait_multiple : keeps.
Lemma keeps_wait_multiple_resume l all n : keeps tables_ok (wait_multiple_resume e l all n).
Proof. unfold wait_multiple_resume, sched_handle. keeps_tac. Qed.

Lemma keeps_wake_units t n : keeps tables_ok (wake_units t n).
Proof. induction n; simpl; keeps_tac. Qed.
Hint Resolve keeps_wait_multiple_resume keeps_wake_units : keeps.
Lemma keeps_wake a u : keeps tables_ok (wake_object a u).
Proof. unfold wake_object. keeps_tac. Qed.
Hint Resolve keeps_wake : keeps.

Lemma keeps_abandon t a : keeps tables_ok (abandon t a).
Proof.
  unfold abandon. apply keeps_bind; [apply keeps_load|]. intros m.
  case_if; [|apply keeps_ret]. apply keeps_bind; [|keeps_tac]. apply keeps_update_signal; [done|].
  intros o. unfold obj_ok. destruct (o_kind o) eqn:E; simpl; rewrite ?E; [done| |done|done].
  intros _. by left.
Qed.
Hint Resolve keeps_abandon : keeps.

Lemma keeps_finish a : keeps tables_ok (finish_thread_object a).
Proof.
  unfold finish_thread_object, kget. apply keeps_bind; [by apply keeps_thread|]. keeps_tac.
Qed.
Hint Resolve keeps_finish : keeps.

Lemma keeps_by_fiber h : keeps tables_ok (find_thread_by_fiber h).
Proof.
  intros k x k' Hk. unfold find_thread_by_fiber. repeat case_match; by intros [= <- <-].
Qed.
Lemma keeps_by_id h : keeps tables_ok (find_thread_by_id h).
Proof.
  intros k x k' Hk. unfold find_thread_by_id. repeat case_match; by intros [= <- <-].
Qed.
Hint Resolve keeps_by_fiber keeps_by_id : keeps.
Lemma keeps_finish_hook h : keeps tables_ok (finish_hook h).
Proof. unfold finish_hook. keeps_tac. Qed.
Lemma keeps_set_event a : keeps tables_ok (ke_set_event a).
Proof. unfold ke_set_event. keeps_tac. Qed.
Lemma keeps_reset_event a : keeps tables_ok (ke_reset_event a).
Proof. unfold ke_reset_event. keeps_tac. Qed.
Hint Resolve keeps_finish_hook keeps_set_event keeps_reset_event : keeps.

(** ** Handlers *)

Lemma keeps_reject : keeps tables_ok REJECT.
Proof. apply keeps_ret. Qed.
Lemma keeps_void_fail : keeps tables_ok VOID_FAIL.
Proof. apply keeps_ret. Qed.
Lemma keeps_kret_out x : keeps tables_ok (ret x).
Proof. apply keeps_ret. Qed.
Lemma keeps_store_out p v : keeps tables_ok (store_out p v).
Proof. unfold store_out, can_write. keeps_tac. Qed.
Lemma keeps_handle h : keeps tables_ok (find_object_by_handle h).
Proof. apply keeps_read. Qed.
Lemma keeps_va v : keeps tables_ok (find_object_by_va v).
Proof. apply keeps_read. Qed.
Lemma keeps_rd32 v : keeps tables_ok (rd32 v).
Proof. apply keeps_read. Qed.
Lemma keeps_can_write v n : keeps tables_ok (can_write v n).
Proof. apply keeps_read. Qed.
Lemma keeps_can_read v n : keeps tables_ok (can_read v n).
Proof. apply keeps_read. Qed.
Lemma keeps_in_fiber : keeps tables_ok in_fiber.
Proof. apply keeps_read. Qed.
Lemma keeps_sched_handle : keeps tables_ok sched_handle.
Proof. apply keeps_read. Qed.
Lemma keeps_kget : keeps tables_ok kget.
Proof. intros k x k' Hk [= <- <-]. done. Qed.
Hint Resolve keeps_reject keeps_void_fail keeps_kret_out keeps_store_out keeps_handle keeps_va
  keeps_rd32 keeps_can_write keeps_can_read keeps_in_fiber keeps_sched_handle keeps_kget : keeps.

Lemma keeps_read64 v : keeps tables_ok (read64 v).
Proof. unfold read64. keeps_tac. Qed.
Lemma keeps_write64 v x : keeps tables_ok (write64 v x).
Proof. unfold write64. keeps_tac. Qed.
Hint Resolve keeps_read64 keeps_write64 : keeps.
Lemma keeps_read_timeout p : keeps tables_ok (read_timeout e p).
Proof.
  unfold read_timeout. case_if; [keeps_tac|]. apply keeps_bind; [keeps_tac|]. intros [q|]; [|keeps_tac].
  intros k x k' Hk. unfold obind. case_match; [|done..]. by intros [= <- <-].
Qed.
Lemma keeps_emit l : keeps tables_ok (emit_dbg l).
Proof.
  apply keeps_same. unfold emit_dbg, kmod. intros k x k' [= <- <-]. by destruct (k_sink k).
Qed.
Lemma keeps_rmw v f : (forall x, keeps tables_ok (f x)) -> keeps tables_ok (rmw v f).
Proof. intros Hf. unfold rmw. keeps_tac. Qed.
Lemma keeps_with_object kd a f :
  (forall x, keeps tables_ok (f x)) -> keeps tables_ok (with_object kd a f).
Proof. intros Hf. unfold with_object. keeps_tac. Qed.
Lemma keeps_finish_wait w p : keeps tables_ok (finish_wait w p).
Proof. unfold finish_wait. keeps_tac. Qed.
Hint Resolve keeps_read_timeout keeps_emit keeps_finish_wait : keeps.
Lemma keeps_wait_single a p : keeps tables_ok (wait_single e a p).
Proof. unfold wait_single. keeps_tac. Qed.
Lemma keeps_collect va n : keeps tables_ok (collect_handles va n).
Proof. revert va. induction n; intros va; simpl; keeps_tac. Qed.
Hint Resolve keeps_wait_single keeps_collect : keeps.

Ltac handler_tac :=
  repeat (cbv beta zeta; (solve [auto with keeps nocore]) ||
    match goal with
    | |- keeps _ (rmw _ _) => apply keeps_rmw; intros ?
    | |- keeps _ (with_object _ _ _) => apply keeps_with_object; intros ?
    end || keeps_step).

(** *** Creation *)

Lemma keeps_create o p :
  o_token o = event_token (e_addr e) -> obj_ok o -> keeps tables_ok (create_object e o p).
Proof.
  intros Ht Hok. unfold create_object. eapply triple_bind; [by apply triple_new|intros ?].
  eapply triple_bind; [by apply triple_insert|intros h]. keeps_tac.
Qed.

Lemma triple_va a o : triple (unowned a o)
  (kmod (fun k => with_va k (k_va k ++ [a]))) (fun _ => tables_ok).
Proof. intros k x k' Hk [= <- <-]. by eapply tables_ok_va. Qed.

Lemma keeps_register_va o :
  o_token o = event_token (e_addr e) -> keeps tables_ok (register_va e o).
Proof.
  intros Ht. unfold register_va. eapply triple_bind; [by apply triple_new|intros ?].
  eapply triple_bind; [apply triple_va|intros ?]. keeps_tac.
Qed.

(** The state a new mutant starts in is well formed. *)
Lemma initial_mutant_ok x :
  triple tables_ok (initial_mutant e x) (fun m k => tables_ok k /\
    forall mu, m = Some mu ->
      mu_state mu = 1 /\ mu_owner mu = 0 \/
      mu_state mu <= 0 /\ mu_owner mu <> 0 /\ mu_abandoned mu = false).
Proof.
  unfold initial_mutant. case_if.
  - apply triple_ret. intros k Hk. split; [done|]. intros mu [= <-]. by left.
  - intros k m k' Hk. unfold kbind at 1, in_fiber.
    destruct (current_handle (k_sched k) =? 0) eqn:Eh; simpl.
    + intros [= <- <-]. by split.
    + unfold kbind. destruct (current_thread_token e k) as [[t k1]| |] eqn:Et; [|done|done].
      bool_facts. pose proof (token_in_fiber k t k1 Hk Eh Et) as Ht. intros [= <- <-].
      split; [by eapply keeps_token|]. intros mu [= <-]. right. simpl. split_and!; [done| |done].
      by intros ->.
Qed.

(** *** Mutant and semaphore release *)

(** Releasing a level of an owned mutant. *)
Lemma release_owned a o :
  o_kind o = Mutant -> mu_owner (o_mutant o) <> 0 ->
  triple (at_obj a o) (release_mutant a) (fun _ => tables_ok).
Proof.
  intros Ek Hown. unfold release_mutant. apply triple_load_again, triple_int32.
  apply keeps_update_at; [done| |keeps_tac].
  unfold obj_ok. simpl. rewrite Ek. intros [[_ ?]|(H1 & H2 & H3)]; [done|].
  simpl. destruct (0 <? mu_state (o_mutant o) + 1) eqn:E; bool_facts; [left; lia|].
  right. split_and!; [lia|done|done].
Qed.

(** Releasing an object outside the handle table. *)
Lemma release_va a :
  triple (fun k => tables_ok k /\ a ∉ live_addrs k) (release_mutant a) (fun _ => tables_ok).
Proof.
  intros k x k' [Hk Hna] Hm. unfold release_mutant in Hm.
  unfold kbind at 1, load at 1 in Hm. destruct (k_heap k !! a) as [o|] eqn:Ea; [|done].
  unfold int32_add, kbind at 1 in Hm. case_if_in Hm; [done|]. unfold kret at 1 in Hm.
  refine (triple_bind (fun k0 => k0 = k) _ (fun _ => tables_ok) _ (fun _ => tables_ok) _ _
    k x k' eq_refl Hm).
  - intros k0 u k1 ->.
    unfold update, kbind, load, store. rewrite Ea, Ea. intros [= <- <-].
    eapply tables_ok_update; [done|done|done|]. intros ?. done.
  - intros ?. keeps_tac.
Qed.

Lemma keeps_release_semaphore a rel : keeps tables_ok (release_semaphore a rel).
Proof.
  unfold release_semaphore. apply triple_load. intros o. apply triple_int32.
  destruct (_ <? _) eqn:E; [apply triple_forget, keeps_ret|]. bool_facts. apply triple_int32.
  apply keeps_update_at; [done| |keeps_tac].
  unfold obj_ok. simpl. destruct (o_kind o); simpl; try done. lia.
Qed.
Hint Resolve keeps_release_semaphore : keeps.

(** *** Every export *)

Lemma keeps_DbgBreakPoint : keeps tables_ok DbgBreakPoint.
Proof. unfold DbgBreakPoint. handler_tac. Qed.
Lemma keeps_DbgPrint args : keeps tables_ok (DbgPrint args).
Proof. unfold DbgPrint, read_cstr. handler_tac. Qed.
Lemma keeps_Increment args : keeps tables_ok (InterlockedIncrement args).
Proof. unfold InterlockedIncrement. handler_tac. Qed.
Lemma keeps_Decrement args : keeps tables_ok (InterlockedDecrement args).
Proof. unfold InterlockedDecrement. handler_tac. Qed.
Lemma keeps_Exchange args : keeps tables_ok (InterlockedExchange args).
Proof. unfold InterlockedExchange. handler_tac. Qed.
Lemma keeps_CompareExchange args : keeps tables_ok (InterlockedCompareExchange args).
Proof. unfold InterlockedCompareExchange. handler_tac. Qed.
Lemma keeps_ExchangeAdd args : keeps tables_ok (InterlockedExchangeAdd args).
Proof. unfold InterlockedExchangeAdd. handler_tac. Qed.
Lemma keeps_Qpc : keeps tables_ok (KeQueryPerformanceCounter e).
Proof. apply keeps_ret. Qed.
Lemma keeps_QpcFreq : keeps tables_ok KeQueryPerformanceFrequency.
Proof. apply keeps_ret. Qed.
Lemma keeps_SystemTime args : keeps tables_ok (KeQuerySystemTime e args).
Proof. unfold KeQuerySystemTime. handler_tac. Qed.
Lemma keeps_Delay args : keeps tables_ok (KeDelayExecutionThread e args).
Proof. unfold KeDelayExecutionThread. handler_tac. Qed.
Lemma keeps_TimeFields args : keeps tables_ok (RtlTimeToTimeFields args).
Proof.
  unfold RtlTimeToTimeFields. apply keeps_bind; [keeps_tac|]. intros [ft|]; [|keeps_tac].
  apply keeps_bind; [keeps_tac|]. intros w. case_if; [keeps_tac|].
  destruct (time_to_fields ft) as [t| |]; [|apply keeps_ub..]. generalize (arg args 1). induction (fields_words _) as [|v l IH]; intros va; handler_tac.
Qed.
Hint Resolve keeps_DbgBreakPoint keeps_DbgPrint keeps_Increment keeps_Decrement keeps_Exchange
  keeps_CompareExchange keeps_ExchangeAdd keeps_Qpc keeps_QpcFreq keeps_SystemTime keeps_Delay
  keeps_TimeFields : keeps.

Lemma keeps_KeInitializeEvent args : keeps tables_ok (KeInitializeEvent e args).
Proof.
  assert (Hinit : forall a, keeps tables_ok
    (update a (set_event (MkEvent (arg args 1) (negb (Z.land (arg args 2) 1 =? 0)))) ;;
     let* o := load a in write_dispatcher_header o ;; ret 0)).
  { intros a. apply keeps_bind; [by apply keeps_update|]. handler_tac. }
  unfold KeInitializeEvent. cbv zeta. case_if; [handler_tac|].
  apply keeps_bind; [handler_tac|intros w]. case_if; [handler_tac|].
  apply keeps_bind; [handler_tac|intros [a|]].
  - apply keeps_bind; [handler_tac|intros o]. case_if; [apply Hinit|handler_tac].
  - eapply triple_bind; [by apply triple_new|intros ?].
    eapply triple_bind; [apply triple_va|intros ?]. apply Hinit.
Qed.
Lemma keeps_KeSetEvent args : keeps tables_ok (KeSetEvent args).
Proof. unfold KeSetEvent. handler_tac. Qed.
Lemma keeps_KeResetEvent args : keeps tables_ok (KeResetEvent args).
Proof. unfold KeResetEvent. handler_tac. Qed.
Lemma keeps_NtCreateEvent args : keeps tables_ok (NtCreateEvent e args).
Proof.
  unfold NtCreateEvent. case_if; [handler_tac|]. apply keeps_bind; [handler_tac|intros w].
  case_if; [handler_tac|]. by apply keeps_create.
Qed.
Lemma keeps_NtSetEvent args : keeps tables_ok (NtSetEvent args).
Proof. unfold NtSetEvent. handler_tac. Qed.
Lemma keeps_NtClearEvent args : keeps tables_ok (NtClearEvent args).
Proof. unfold NtClearEvent. handler_tac. Qed.
Lemma keeps_NtPulseEvent args : keeps tables_ok (NtPulseEvent args).
Proof. unfold NtPulseEvent. handler_tac. Qed.
Lemma keeps_KeWait args : keeps tables_ok (KeWaitForSingleObject e args).
Proof. unfold KeWaitForSingleObject. handler_tac. Qed.
Lemma keeps_NtWait args : keeps tables_ok (NtWaitForSingleObject e args).
Proof. unfold NtWaitForSingleObject. handler_tac. Qed.
Lemma keeps_NtWaitEx args : keeps tables_ok (NtWaitForSingleObjectEx e args).
Proof. unfold NtWaitForSingleObjectEx. handler_tac. Qed.
Lemma keeps_NtWaitMultiple args : keeps tables_ok (NtWaitForMultipleObjectsEx e args).
Proof. unfold NtWaitForMultipleObjectsEx. handler_tac. Qed.
Hint Resolve keeps_KeInitializeEvent keeps_KeSetEvent keeps_KeResetEvent keeps_NtCreateEvent
  keeps_NtSetEvent keeps_NtClearEvent keeps_NtPulseEvent keeps_KeWait keeps_NtWait keeps_NtWaitEx
  keeps_NtWaitMultiple : keeps.

Lemma keeps_NtCreateMutant args : keeps tables_ok (NtCreateMutant e args).
Proof.
  unfold NtCreateMutant. apply keeps_bind; [handler_tac|intros w]. case_if; [handler_tac|].
  eapply triple_bind; [apply initial_mutant_ok|]. intros [mu|].
  - intros k x k' [Hk Hmu]. apply keeps_create; [done| |done]. unfold obj_ok. simpl. by apply Hmu.
  - intros k x k' [Hk _]. by apply keeps_reject.
Qed.
Lemma keeps_KeInitializeMutant args : keeps tables_ok (KeInitializeMutant e args).
Proof.
  unfold KeInitializeMutant. apply keeps_bind; [handler_tac|intros w]. case_if; [handler_tac|].
  eapply triple_bind; [apply initial_mutant_ok|]. intros [mu|].
  - intros k x k' [Hk Hmu]. by apply keeps_register_va.
  - intros k x k' [Hk _]. by apply keeps_reject.
Qed.
Lemma keeps_NtReleaseMutant args : keeps tables_ok (NtReleaseMutant e args).
Proof.
  unfold NtReleaseMutant. apply keeps_bind; [handler_tac|intros [a|]]; [|handler_tac].
  simpl. apply triple_load. intros o. unfold is_kind. case_bool_decide as Ek; [|apply triple_forget; handler_tac].
  apply triple_token_at. intros t _. apply triple_load_again.
  destruct (_ || _) eqn:E; [apply triple_forget; handler_tac|].
  apply orb_false_iff in E as [E _]. bool_facts.
  eapply triple_bind; [by apply release_owned|intros prev]. handler_tac.
Qed.
Lemma keeps_NtQueryMutant args : keeps tables_ok (NtQueryMutant e args).
Proof. unfold NtQueryMutant. handler_tac. Qed.

Lemma first_obj_in k f l a : first_obj k f l = Some a -> a ∈ l.
Proof.
  induction l as [|b l IH]; simpl; [done|]. case_match; [case_if|]; intros H0.
  - injection H0 as <-. left.
  - right. by apply IH.
  - right. by apply IH.
Qed.

Lemma va_not_live k a : tables_ok k -> a ∈ k_va k -> a ∉ live_addrs k.
Proof.
  intros Hk Ha Hl. pose proof (to_nodup _ Hk) as Hnd. unfold owned in Hnd.
  apply NoDup_app in Hnd as (_ & Hd & _). apply (Hd a Hl). apply elem_of_app. by left.
Qed.

Lemma keeps_KeReleaseMutant args : keeps tables_ok (KeReleaseMutant args).
Proof.
  intros k x k' Hk. unfold KeReleaseMutant, find_object_by_va, kbind at 1.
  destruct (first_obj _ _ _) as [a|] eqn:Ea; [|by apply keeps_reject].
  apply first_obj_in in Ea. simpl. unfold kbind at 1, load at 1.
  destruct (k_heap k !! a) as [o|] eqn:Eo; [|done]. case_if; [|by apply keeps_reject].
  revert x k'. intros x k'.
  apply (triple_bind (fun k => tables_ok k /\ a ∉ live_addrs k) _ (fun _ => tables_ok) _ (fun _ => tables_ok)).
  - apply release_va.
  - intros prev. handler_tac.
  - split; [done|by apply va_not_live].
Qed.
Lemma keeps_NtCreateSemaphore args : keeps tables_ok (NtCreateSemaphore e args).
Proof.
  unfold NtCreateSemaphore. cbv zeta. apply keeps_bind; [handler_tac|intros w].
  case_if; [handler_tac|]. destruct (_ || _) eqn:E; [handler_tac|].
  apply keeps_create; [done|]. unfold obj_ok. simpl.
  apply orb_false_iff in E as [E1 E2]. apply orb_false_iff in E1 as [E1 E3]. lia.
Qed.
Lemma keeps_NtReleaseSemaphore args : keeps tables_ok (NtReleaseSemaphore args).
Proof. unfold NtReleaseSemaphore. handler_tac. Qed.
Lemma keeps_NtQuerySemaphore args : keeps tables_ok (NtQuerySemaphore args).
Proof. unfold NtQuerySemaphore. handler_tac. Qed.
Lemma keeps_KeReleaseSemaphore args : keeps tables_ok (KeReleaseSemaphore args).
Proof. unfold KeReleaseSemaphore. handler_tac. Qed.
Hint Resolve keeps_NtCreateMutant keeps_KeInitializeMutant keeps_NtReleaseMutant keeps_NtQueryMutant
  keeps_KeReleaseMutant keeps_NtCreateSemaphore keeps_NtReleaseSemaphore keeps_NtQuerySemaphore
  keeps_KeReleaseSemaphore : keeps.

Lemma keeps_KeInitializeSemaphore args : keeps tables_ok (KeInitializeSemaphore e args).
Proof.
  unfold KeInitializeSemaphore. cbv zeta. apply keeps_bind; [handler_tac|intros w].
  case_if; [handler_tac|]. by apply keeps_register_va.
Qed.
Lemma keeps_KeGetCurrentThread : keeps tables_ok (KeGetCurrentThread e).
Proof. unfold KeGetCurrentThread. handler_tac. Qed.
Lemma keeps_KeSetBasePriority args : keeps tables_ok (KeSetBasePriorityThread args).
Proof.
  unfold KeSetBasePriorityThread. apply keeps_bind; [handler_tac|intros [a|]]; [|handler_tac].
  apply triple_load. intros o. by apply keeps_update_at; [..|handler_tac].
Qed.

Lemma keeps_tid x d : Z.odd x = true ->
  triple (fun k => tables_ok k) (kmod (fun k => with_tid k (u32 (x + 2 * d)))) (fun _ => tables_ok).
Proof.
  intros Hx k u k' Hk [= <- <-]. destruct Hk. split; try done. simpl. unfold u32.
  rewrite <- Hx. replace (2 ^ 32) with (2 * 2 ^ 31) by lia. rewrite Z.mod_eq by lia.
  rewrite Z.odd_sub, Z.odd_add, <- Z.mul_assoc, !(Z.odd_mul 2). simpl. by rewrite !xorb_false_r.
Qed.

(** Reading the whole state, and putting back one with the same tables. *)
Lemma triple_get {A} (f : kernel -> K A) Q :
  (forall k0, tables_ok k0 -> triple (fun k => k = k0) (f k0) Q) ->
  triple tables_ok (kbind kget f) Q.
Proof. intros Hf k x k' Hk. unfold kbind, kget. by apply Hf. Qed.

Lemma keeps_kput {A} k0 k1 (m : K A) :
  tables_ok k0 -> same_tables k0 k1 -> keeps tables_ok m ->
  triple (fun k => k = k0) (kput k1 ;; m) (fun _ => tables_ok).
Proof.
  intros Hk Hs Hm k x k' ->. unfold kbind, kput. apply Hm. by eapply tables_ok_same.
Qed.

Lemma keeps_at {A} k0 (m : K A) Q :
  tables_ok k0 -> triple tables_ok m Q -> triple (fun k => k = k0) m Q.
Proof. intros Hk Hm k x k' ->. by apply Hm. Qed.

Lemma keeps_PsCreate args : keeps tables_ok (PsCreateSystemThreadEx e args).
Proof.
  unfold PsCreateSystemThreadEx. apply keeps_bind; [handler_tac|intros w]. case_if; [handler_tac|].
  apply triple_get. intros k0 Hk0. apply keeps_at; [done|].
  eapply triple_bind; [apply (keeps_tid (k_next_tid k0) 1), Hk0|intros ?].
  apply triple_get. intros k1 Hk1. destruct (spawn_reserved _ _ _ _) as [fiber s'].
  apply keeps_kput; [done|done|]. case_if; [handler_tac|].
  eapply triple_bind; [by apply triple_new|intros ?].
  eapply triple_bind; [by apply triple_insert|intros h].
  apply keeps_bind; [handler_tac|intros [b|]]; [|handler_tac].
  apply keeps_bind; [by apply keeps_update|]. handler_tac.
Qed.

Lemma keeps_NtClose args : keeps tables_ok (NtClose args).
Proof.
  intros k x k' Hk. unfold NtClose, find_object_by_handle, kbind at 1.
  destruct (find_handle k (arg args 0)) as [a|] eqn:Ef; [|by apply keeps_reject].
  unfold kbind, kmod, ret, kret. intros [= <- <-].
  assert (Hs : k_objects k !! slot_of (arg args 0) = Some (Some a)).
  { unfold find_handle in Ef. case_if_in Ef; [done|].
    destruct (k_objects k !! slot_of (arg args 0)) as [y|]; [by subst|done]. }
  set (s := slot_of (arg args 0)) in *. clear Ef.
  destruct (live_addrs_insert _ _ _ None Hs) as [E1 E2].
  assert (Hperm : owned k ≡ₚ a :: owned (with_objects (with_heap k (delete a (k_heap k)))
    (<[s := None]> (k_objects k)) (s :: k_free k))).
  { unfold owned, live_addrs. simpl. rewrite E1, E2. simpl. by rewrite <- Permutation_middle. }
  pose proof (to_nodup _ Hk) as Hnd. rewrite Hperm in Hnd. apply NoDup_cons in Hnd as [Hna Hnd].
  assert (Hlive : forall b, b ∈ live_addrs (with_objects (with_heap k (delete a (k_heap k)))
    (<[s := None]> (k_objects k)) (s :: k_free k)) -> b ∈ live_addrs k).
  { intros b. unfold live_addrs. simpl. rewrite E1, E2. simpl. rewrite !elem_of_app. intros [?|?]; auto.
    right. by right. }
  destruct Hk. split; simpl; try done.
  - intros b Hb. rewrite lookup_delete_ne by (intros ->; done). apply to_live0.
    rewrite Hperm. by right.
  - intros s'. destruct (decide (s' = s)) as [->|Hne].
    + rewrite list_lookup_insert_eq by (by eapply lookup_lt_Some). split; [done|]. intros _. left.
    + rewrite list_lookup_insert_ne by done. rewrite <- to_free0, elem_of_cons. naive_solver.
  - apply NoDup_cons. split; [|done]. intros Hin. apply to_free0 in Hin. congruence.
  - intros b o Hb. apply lookup_delete_Some in Hb as [_ Hb]. by apply to_token0.
  - intros b o Hb Hob. apply lookup_delete_Some in Hob as [_ Hob]. eapply to_obj0; [|done]. by apply Hlive.
  - intros b o Hb Hob. apply lookup_delete_Some in Hob as [_ Hob]. by eapply to_thread0.
Qed.
Hint Resolve keeps_KeInitializeSemaphore keeps_KeGetCurrentThread keeps_KeSetBasePriority keeps_NtClose : keeps.

Lemma keeps_thread_exit c : keeps tables_ok (thread_exit c).
Proof.
  unfold thread_exit. apply triple_get. intros k0 Hk0. destruct (current _) as [i|].
  - apply keeps_kput; [done|done|]. handler_tac.
  - apply keeps_at; [done|]. handler_tac.
Qed.
Hint Resolve keeps_PsCreate keeps_thread_exit : keeps.
Lemma keeps_PsTerminate args : keeps tables_ok (PsTerminateSystemThread args).
Proof. unfold PsTerminateSystemThread. handler_tac. Qed.
Lemma keeps_resume_thread a : keeps tables_ok (resume_thread a).
Proof.
  unfold resume_thread. apply triple_load. intros o. cbv zeta. case_if.
  - eapply triple_bind; [by apply keeps_update_at; [..|handler_tac]|]. intros ?. handler_tac.
  - apply triple_forget. handler_tac.
Qed.
Lemma keeps_suspend_thread a : keeps tables_ok (suspend_thread e a).
Proof.
  unfold suspend_thread. apply keeps_bind; [handler_tac|intros t]. apply triple_load. intros o.
  cbv zeta. case_if; [apply triple_forget; handler_tac|].
  by apply keeps_update_at; [..|handler_tac].
Qed.
Hint Resolve keeps_resume_thread keeps_suspend_thread : keeps.
Lemma keeps_NtResume args : keeps tables_ok (NtResumeThread args).
Proof. unfold NtResumeThread. handler_tac. Qed.
Lemma keeps_KeResume args : keeps tables_ok (KeResumeThread args).
Proof. unfold KeResumeThread. handler_tac. Qed.
Lemma keeps_NtSuspend args : keeps tables_ok (NtSuspendThread e args).
Proof. unfold NtSuspendThread. handler_tac. Qed.
Lemma keeps_KeSuspend args : keeps tables_ok (KeSuspendThread e args).
Proof. unfold KeSuspendThread. handler_tac. Qed.
Lemma keeps_NtYield : keeps tables_ok NtYieldExecution.
Proof.
  unfold NtYieldExecution. apply triple_get. intros k0 Hk0. destruct (find _ _) as [i|].
  - apply keeps_kput; [done|done|handler_tac].
  - apply keeps_at; [done|handler_tac].
Qed.
Lemma keeps_kmm_alloc a b c d f : keeps tables_ok (kmm_alloc a b c d f).
Proof.
  unfold kmm_alloc. apply triple_get. intros k0 Hk0. destruct (mm_alloc _ _ _ _ _ _ _) as [[[va r] m]| |];
    [|done|done]. by apply keeps_kput; [..|handler_tac].
Qed.
Hint Resolve keeps_PsTerminate keeps_NtResume keeps_KeResume keeps_NtSuspend keeps_KeSuspend
  keeps_NtYield keeps_kmm_alloc : keeps.
Lemma keeps_MmAlloc args : keeps tables_ok (MmAllocateContiguousMemory args).
Proof. apply keeps_kmm_alloc. Qed.
Lemma keeps_MmAllocEx args : keeps tables_ok (MmAllocateContiguousMemoryEx args).
Proof. apply keeps_kmm_alloc. Qed.
Lemma keeps_MmFree args : keeps tables_ok (MmFreeContiguousMemory args).
Proof.
  unfold MmFreeContiguousMemory. apply triple_get. intros k0 Hk0.
  destruct (mm_free _ _ _) as [[ok r] m]. by apply keeps_kput; [..|handler_tac].
Qed.
Lemma keeps_MmQuery args : keeps tables_ok (MmQueryAllocationSize args).
Proof. unfold MmQueryAllocationSize. handler_tac. Qed.
Lemma keeps_fill va n v : keeps tables_ok (fill_guest va n v).
Proof.
  unfold fill_guest. case_if; [handler_tac|]. apply keeps_bind; [handler_tac|intros w].
  case_if; [handler_tac|]. apply triple_get. intros k0 Hk0.
  destruct (host_ptr _ _); [|apply keeps_at; [done|handler_tac]].
  destruct (host_memset _ _ _ _); [|done|done]. by apply keeps_kput; [..|handler_tac].
Qed.
Lemma keeps_RtlMove args : keeps tables_ok (RtlMoveMemory args).
Proof.
  unfold RtlMoveMemory. cbv zeta. case_if; [handler_tac|]. apply keeps_bind; [handler_tac|intros w].
  apply keeps_bind; [handler_tac|intros r]. case_if; [handler_tac|].
  apply triple_get. intros k0 Hk0. destruct (host_ptr _ _); [|done]. destruct (host_ptr _ _); [|done].
  case_if; [|done]. by apply keeps_kput; [..|handler_tac].
Qed.
Lemma keeps_RtlZero args : keeps tables_ok (RtlZeroMemory args).
Proof. apply keeps_fill. Qed.
Lemma keeps_RtlFill args : keeps tables_ok (RtlFillMemory args).
Proof. apply keeps_fill. Qed.
Hint Resolve keeps_MmAlloc keeps_MmAllocEx keeps_MmFree keeps_MmQuery keeps_RtlMove keeps_RtlZero
  keeps_RtlFill : keeps.

Lemma keeps_cs_init va : keeps tables_ok (cs_init va).
Proof. unfold cs_init. handler_tac. Qed.
Lemma keeps_cs_fields va : keeps tables_ok (cs_fields va).
Proof. unfold cs_fields. handler_tac. Qed.
Hint Resolve keeps_cs_init keeps_cs_fields : keeps.
Lemma keeps_cs_enter va : keeps tables_ok (cs_enter va).
Proof. unfold cs_enter. handler_tac. Qed.
Lemma keeps_cs_leave va : keeps tables_ok (cs_leave va).
Proof. unfold cs_leave. handler_tac. Qed.
Lemma keeps_cs_try va : keeps tables_ok (cs_try_enter va).
Proof. unfold cs_try_enter. handler_tac. Qed.
Lemma keeps_finish_cs c va : keeps tables_ok (finish_cs c va).
Proof. unfold finish_cs. handler_tac. Qed.
Hint Resolve keeps_cs_enter keeps_cs_leave keeps_cs_try keeps_finish_cs : keeps.
Lemma keeps_RtlInit args : keeps tables_ok (RtlInitializeCriticalSection args).
Proof. unfold RtlInitializeCriticalSection. handler_tac. Qed.
Lemma keeps_RtlEnter args : keeps tables_ok (RtlEnterCriticalSection args).
Proof. unfold RtlEnterCriticalSection. handler_tac. Qed.
Lemma keeps_RtlLeave args : keeps tables_ok (RtlLeaveCriticalSection args).
Proof. unfold RtlLeaveCriticalSection. handler_tac. Qed.
Lemma keeps_RtlTry args : keeps tables_ok (RtlTryEnterCriticalSection args).
Proof. unfold RtlTryEnterCriticalSection. handler_tac. Qed.
Hint Resolve keeps_RtlInit keeps_RtlEnter keeps_RtlLeave keeps_RtlTry : keeps.

Lemma keeps_handler o args n body : handler e o args = Some (n, body) -> keeps tables_ok body.
Proof.
  unfold handler. intros H.
  repeat match type of H with
  | match ?x with _ => _ end = _ => destruct x; try discriminate H
  end; injection H as <- <-; auto with keeps nocore.
Qed.

Lemma keeps_refresh : keeps tables_ok refresh_data.
Proof. unfold refresh_data. handler_tac. Qed.
Hint Resolve keeps_refresh : keeps.

Lemma keeps_call o args : keeps tables_ok (call e o args).
Proof.
  unfold call. apply keeps_bind; [handler_tac|intros _]. case_match; [|handler_tac].
  case_if; [handler_tac|]. destruct (handler e o args) as [[n body]|] eqn:E; [|handler_tac].
  case_if; [handler_tac|]. by eapply keeps_handler.
Qed.

Lemma keeps_resume p : keeps tables_ok (resume e p).
Proof. unfold resume. handler_tac. Qed.
Lemma keeps_systhread_run s : keeps tables_ok (systhread_run s).
Proof.
  unfold systhread_run. apply keeps_bind; [handler_tac|intros k]. case_if; [handler_tac|].
  destruct s as [a|]; [|handler_tac]. apply keeps_bind; [by apply keeps_update|]. handler_tac.
Qed.
Hint Resolve keeps_systhread_run : keeps.
Lemma keeps_systhread_start : keeps tables_ok systhread_start.
Proof. unfold systhread_start. handler_tac. Qed.
Lemma keeps_systhread_return s : keeps tables_ok (systhread_return s).
Proof. unfold systhread_return. handler_tac. Qed.

End ops.
End KrnlInv.
