(* ===== verification/KrnlSpec.v ===== *)
(** What the kernel promises: reachable states, the life of a handle, wait
    channels, mutant ownership and event signalling; and the places where the
    code does not keep such a promise. *)
From stdpp Require Import base numbers list gmap strings.
From Stdlib Require Import ZArith Lia.
From S2P Require Import Prelude XbeRam CpuSched KrnlExports KrnlMm KrnlTime.
From S2P Require Import KrnlState KrnlObjects KrnlCall KrnlInv.
Open Scope Z_scope.

Module KrnlSpec.
Import XbeRam CpuSched KrnlExports KrnlMm KrnlTime KrnlState KrnlObjects KrnlCall KrnlInv.
Open Scope krnl_scope.

(** ** Reachable kernels *)

Definition new_kernel (r : ram) (s : sched) (sink runner : bool) : kernel :=
  MkKernel r s ∅ [] [] [] [] 1 0 (MkMm 0 0 [] []) sink [] [] runner.

(** One step of the whole system: a kernel call by any fiber or the host, with
    any answers of the outside world; the continuation of a blocked call; the
    body of a created thread; a fiber's finish hook; thunk installation; and
    whatever the scheduler and the guest do to their own state in between. *)
Inductive kstep `{HostOS} (k : kernel) : kernel -> Prop :=
  | ks_call e o args out k' : call e o args k = Ok (out, k') -> kstep k k'
  | ks_resume e p out k' : resume e p k = Ok (out, k') -> kstep k k'
  | ks_start out k' : systhread_start k = Ok (out, k') -> kstep k k'
  | ks_run s out k' : systhread_run s k = Ok (out, k') -> kstep k k'
  | ks_return s u k' : systhread_return s k = Ok (u, k') -> kstep k k'
  | ks_hook h u k' : finish_hook h k = Ok (u, k') -> kstep k k'
  | ks_install i slots k' : install_thunks i k = Ok (slots, k') -> kstep k k'
  | ks_sched s : kstep k (with_sched k s)
  | ks_ram r : kstep k (with_ram k r).

Inductive kreachable `{HostOS} : kernel -> Prop :=
  | kr_new r s sink runner : kreachable (new_kernel r s sink runner)
  | kr_step k k' : kreachable k -> kstep k k' -> kreachable k'.

Section spec.
Context `{os : HostOS}.

Lemma empty_tables_ok k :
  k_heap k = ∅ -> k_objects k = [] -> k_free k = [] -> k_va k = [] -> k_fibers k = [] ->
  Z.odd (k_next_tid k) = true -> tables_ok k.
Proof.
  intros H1 H2 H3 H4 H5 H6.
  assert (Ho : owned k = []) by (unfold owned, live_addrs; by rewrite H2, H4, H5).
  split; rewrite ?Ho, ?H1, ?H2, ?H3, ?H5; try done.
  - by intros a ?%elem_of_nil.
  - constructor.
  - intros s. split; [by intros ?%elem_of_nil|done].
  - constructor.
Qed.

Lemma keeps_install i : keeps tables_ok (install_thunks i).
Proof.
  intros k x k' Hk. unfold install_thunks, obind.
  destruct (data_window _ _ _) as [r1| |]; [|done|done].
  destruct (thunk_loop _ _ _ _) as [slots r2]. intros [= <- <-].
  apply empty_tables_ok; try done. apply Hk.
Qed.

Lemma kstep_ok k k' : tables_ok k -> kstep k k' -> tables_ok k'.
Proof.
  intros Hk [e o args out k1 H|e p out k1 H|out k1 H|s out k1 H|s u k1 H|h u k1 H|i sl k1 H|s|r].
  - by eapply keeps_call.
  - by eapply keeps_resume.
  - by eapply keeps_systhread_start.
  - by eapply keeps_systhread_run.
  - by eapply keeps_systhread_return.
  - by eapply keeps_finish_hook.
  - by eapply keeps_install.
  - by apply (tables_ok_same k).
  - by apply (tables_ok_same k).
Qed.

Lemma kreachable_ok k : kreachable k -> tables_ok k.
Proof.
  induction 1; [|by eapply kstep_ok]. by apply empty_tables_ok.
Qed.

(** C1. In every reachable kernel, whatever calls guests make in whatever
    interleaving: each registry entry points to a live object and each object
    has exactly one owner; the free list holds exactly the empty slots, each
    once; every object waits on the channel of its own address; every mutant
    of the handle table is either free (count 1, no owner) or owned (count at
    most 0, owner recorded, no abandonment pending); and no semaphore of the
    handle table exceeds its limit. *)
Theorem kernel_tables_invariant k : kreachable k -> tables_ok k.
Proof. apply kreachable_ok. Qed.

(** ** Handles *)

Lemma handle_slot h a k : find_handle k h = Some a -> 0 <= h ->
  exists s, k_objects k !! s = Some (Some a) /\ h = 4 * (Z.of_nat s + 1).
Proof.
  unfold find_handle. case_if; [done|]. intros Hs Hh.
  apply orb_false_iff in Heqb as [H0 H3]. bool_facts.
  destruct (k_objects k !! slot_of h) as [x|] eqn:E; [|done]. subst.
  exists (slot_of h). split; [done|]. unfold slot_of.
  change 3 with (Z.ones 2) in H3. rewrite Z.land_ones in H3 by lia.
  change (2 ^ 2) with 4 in H3. Z.to_euclidean_division_equations. lia.
Qed.

Lemma slot_handle s k :
  find_handle k (4 * (Z.of_nat s + 1)) =
  match k_objects k !! s with Some x => x | None => None end.
Proof.
  unfold find_handle. change 3 with (Z.ones 2). rewrite Z.land_ones by lia.
  rewrite (proj2 (Z.eqb_neq _ 0)) by lia.
  change (2 ^ 2) with 4. rewrite (Z.mul_comm 4), Z.mod_mul by lia. simpl.
  unfold slot_of. replace (Z.to_nat _) with s; [done|].
  rewrite Z.div_mul by lia. lia.
Qed.

Definition is_handle (h : Z) : Prop := 0 < h /\ h `mod` 4 = 0.

Lemma handle_of_slot h : is_handle h -> h = 4 * (Z.of_nat (slot_of h) + 1).
Proof. unfold is_handle, slot_of. intros. Z.to_euclidean_division_equations. lia. Qed.

Lemma not_handle h k : 0 <= h -> ~ is_handle h -> find_handle k h = None.
Proof.
  intros Hh Hn. unfold find_handle. change 3 with (Z.ones 2). rewrite Z.land_ones by lia.
  change (2 ^ 2) with 4. unfold is_handle in Hn.
  destruct (h =? 0) eqn:E; [done|]. destruct (h `mod` 4 =? 0) eqn:E2; [lia|done].
Qed.

(** Lookups only see the table. *)
Lemma find_handle_insert k k' slot x h :
  k_objects k' = <[slot := x]> (k_objects k) -> (slot < length (k_objects k))%nat -> 0 <= h ->
  find_handle k' h = if decide (h = 4 * (Z.of_nat slot + 1)) then x else find_handle k h.
Proof.
  intros Hk Hlen Hh. destruct (decide (is_handle h)) as [Hok|Hno].
  - rewrite (handle_of_slot h Hok), !slot_handle, Hk. case_decide as Hd.
    + replace (slot_of h) with slot by lia. by rewrite list_lookup_insert_eq.
    + by rewrite list_lookup_insert_ne by (intros ->; lia).
  - rewrite !not_handle by done. case_decide; [|done]. subst. exfalso. apply Hno. split; [lia|].
    rewrite Z.mul_comm. apply Z.mod_mul. lia.
Qed.

Lemma find_handle_app k k' x h :
  k_objects k' = k_objects k ++ [x] -> 0 <= h ->
  find_handle k' h = if decide (h = 4 * (zlen (k_objects k) + 1)) then x else find_handle k h.
Proof.
  intros Hk Hh. destruct (decide (is_handle h)) as [Hok|Hno].
  - rewrite (handle_of_slot h Hok), !slot_handle, Hk. case_decide as Hd.
    + replace (slot_of h) with (length (k_objects k)) by lia. by rewrite lookup_app_r, Nat.sub_diag by lia.
    + destruct (decide (slot_of h < length (k_objects k))%nat).
      * by rewrite lookup_app_l.
      * rewrite (lookup_ge_None_2 (_ ++ _)); [|rewrite length_app; simpl; lia].
        rewrite lookup_ge_None_2 by lia. done.
  - rewrite !not_handle by done. case_decide; [|done]. subst. exfalso. apply Hno. split; [lia|].
    rewrite Z.mul_comm. apply Z.mod_mul. lia.
Qed.

Lemma insert_object_spec k a h k' :
  tables_ok k -> 4 * (zlen (k_objects k) + 1) < 2 ^ 32 -> insert_object a k = Ok (h, k') ->
  is_handle h /\ find_handle k h = None /\
  forall h', 0 <= h' -> find_handle k' h' = if decide (h' = h) then Some a else find_handle k h'.
Proof.
  intros Hk Hb. unfold insert_object. destruct (k_free k) as [|s l] eqn:Ef; intros [= <- <-].
  - unfold u32. rewrite Z.mod_small by lia. split; [split; [lia|]|split].
    + rewrite Z.mul_comm. apply Z.mod_mul. lia.
    + rewrite slot_handle, lookup_ge_None_2 by lia. done.
    + intros h' Hh'. by apply find_handle_app.
  - assert (Hs : k_objects k !! s = Some None) by (apply (to_free _ Hk); rewrite Ef; left).
    pose proof (lookup_lt_Some _ _ _ Hs) as Hlt.
    unfold u32. rewrite Z.mod_small by lia. split; [split; [lia|]|split].
    + rewrite Z.mul_comm. apply Z.mod_mul. lia.
    + by rewrite slot_handle, Hs.
    + intros h' Hh'. by apply find_handle_insert.
Qed.

(** C23. Handles, in every reachable kernel with fewer than 2^30 - 1 table
    slots. A new object gets a positive multiple of 4 that named nothing
    before, now names the object, and leaves every other handle as it was.
    Closing a live handle succeeds, destroys exactly its object, makes the
    handle (and no other) name nothing; closing a handle that names nothing is
    rejected without any effect. *)
Theorem handle_lifecycle k :
  kreachable k -> 4 * (zlen (k_objects k) + 1) < 2 ^ 32 ->
  (forall a, exists h k', insert_object a k = Ok (h, k') /\
     is_handle h /\ find_handle k h = None /\
     forall h', 0 <= h' -> find_handle k' h' = if decide (h' = h) then Some a else find_handle k h') /\
  (forall h, 0 <= h -> exists out k', NtClose [h] k = Ok (out, k') /\
     match find_handle k h with
     | Some a => out = Ret kStatusSuccess true None /\ k_heap k' = delete a (k_heap k) /\
         forall h', 0 <= h' -> find_handle k' h' = if decide (h' = h) then None else find_handle k h'
     | None => out = Ret kStatusInvalidParameter false None /\ k' = k
     end).
Proof.
  intros Hk%kreachable_ok Hb. split.
  - intros a. destruct (insert_object a k) as [[h k']| |] eqn:E;
      [|unfold insert_object in E; by destruct (k_free k)..].
    exists h, k'. split; [done|]. by apply insert_object_spec.
  - intros h Hh. unfold NtClose, find_object_by_handle, kbind at 1. change (arg [h] 0) with h.
    destruct (find_handle k h) as [a|] eqn:Ef; [|eexists _, _; split; [reflexivity|done]].
    eexists _, _. split; [reflexivity|]. split; [done|]. split; [done|]. intros h' Hh'.
    destruct (handle_slot _ _ _ Ef Hh) as (s & Hs & ->).
    assert (E : slot_of (4 * (Z.of_nat s + 1)) = s)
      by (unfold slot_of; rewrite Z.mul_comm, Z.div_mul by lia; lia).
    rewrite E. apply find_handle_insert; [done| |done]. by eapply lookup_lt_Some.
Qed.

(** ** Wait channels *)

(** Everything a fiber can block on. *)
Inductive channel := ChObject (addr : Z) | ChCs (va : Z) | ChMulti (fiber : Z) | ChDelay.

Definition channel_ok (c : channel) : Prop :=
  match c with
  | ChObject a => 0 <= a < 2 ^ 47
  | ChCs va => is_u32 va
  | ChMulti h => 0 <= h < 2 ^ 48
  | ChDelay => True
  end.

Definition channel_token (c : channel) : Z :=
  match c with
  | ChObject a => event_token a
  | ChCs va => cs_token_of va
  | ChMulti h => mw_token_of h
  | ChDelay => kDelayToken
  end.

Lemma event_token_val a : 0 <= a < 2 ^ 47 -> event_token a = 2 * a + 1.
Proof.
  intros Ha. unfold event_token, u64. rewrite Z.shiftl_mul_pow2 by lia.
  rewrite Z.mod_small, lor_split by lia. lia.
Qed.

Lemma mw_token_val h : 0 <= h < 2 ^ 48 -> mw_token_of h = kMwTokenBase + h.
Proof.
  intros Hh. unfold mw_token_of. change kMwTokenBase with (0x51AC * 2 ^ 48).
  apply lor_split; lia.
Qed.

Lemma channel_token_val c : channel_ok c -> channel_token c =
  match c with
  | ChObject a => 2 * a + 1
  | ChCs va => 2 * va
  | ChMulti h => kMwTokenBase + h
  | ChDelay => kDelayToken
  end.
Proof.
  destruct c; simpl; intros H; [by apply event_token_val| |by apply mw_token_val|done].
  unfold cs_token_of. rewrite Z.shiftl_mul_pow2 by lia. change (2 ^ 1) with 2. lia.
Qed.

(** No two things a fiber can block on share a wake-up token: objects
    below the 47-bit user address limit, critical sections at any guest
    address, the private channel of a multiple wait of any fiber, and the
    delay channel. A signal therefore reaches only the waiters it is for. *)
Theorem wait_channels_are_distinct c c' :
  channel_ok c -> channel_ok c' -> channel_token c = channel_token c' -> c = c'.
Proof.
  intros Hc Hc'. rewrite !channel_token_val by done.
  destruct c, c'; unfold channel_ok, is_u32, kMwTokenBase, kDelayToken in *; intros; try done;
    try (f_equal; lia); lia.
Qed.

(** ** Concrete runs *)

(** A script: who runs, and what they call or continue. *)
Inductive action :=
  | As (fiber : option nat)
  | Calls (e : env) (ordinal : Z) (args : list Z)
  | Resumes (e : env) (p : pending).

Definition act (x : action) (k : kernel) : outcome (list call_out * kernel) :=
  match x with
  | As f => Ok ([], with_sched k (with_current (k_sched k) f))
  | Calls e o args => match call e o args k with
                      | Ok (out, k') => Ok ([out], k')
                      | Fail m => Fail m
                      | Ub m => Ub m
                      end
  | Resumes e p => match resume e p k with
                   | Ok (out, k') => Ok ([out], k')
                   | Fail m => Fail m
                   | Ub m => Ub m
                   end
  end.

Fixpoint script (l : list action) (k : kernel) : outcome (list call_out * kernel) :=
  match l with
  | [] => Ok ([], k)
  | x :: l' =>
      let! r := act x k in
      let! rs := script l' (snd r) in
      Ok (fst r ++ fst rs, snd rs)
  end.

Lemma script_reachable l k outs k' :
  kreachable k -> script l k = Ok (outs, k') -> kreachable k'.
Proof.
  revert k outs. induction l as [|x l IH]; intros k outs Hk; simpl; [by intros [= _ <-]|].
  unfold obind. destruct (act x k) as [[o1 k1]| |] eqn:E; [|done|done].
  simpl. destruct (script l k1) as [[outs2 k2]| |] eqn:E2; [|done|done]. intros [= _ <-].
  eapply IH; [|exact E2]. eapply kr_step; [exact Hk|]. destruct x; simpl in E.
  - injection E as _ <-. apply ks_sched.
  - destruct (call e ordinal args k) as [[out k']| |] eqn:Ec; [|done|done].
    injection E as _ <-. by eapply ks_call.
  - destruct (resume e p k) as [[out k']| |] eqn:Ec; [|done|done].
    injection E as _ <-. by eapply ks_resume.
Qed.

End spec.

(** Two started fibers over a small guest memory. *)
Definition demo_kernel : kernel := new_kernel demo_ram two_threads false false.
Definition envn (n : Z) : env := MkEnv (0x1000 * n) (0x1000 * n + 0x100) 0 0 true.

(** Fiber 1 creates an event and a mutant it owns. *)
Definition demo_script : list action :=
  [As (Some 0%nat); Calls (envn 1) 189 [4096; 0; 1; 0]; Calls (envn 2) 192 [4100; 0; 1]].

Definition outcome_kernel (o : outcome (list call_out * kernel)) : kernel :=
  match o with Ok (_, k) => k | _ => demo_kernel end.
Definition demo_k : kernel := outcome_kernel (script demo_script demo_kernel).

Lemma demo_k_reachable : kreachable demo_k.
Proof.
  destruct (script demo_script demo_kernel) as [[outs k]| |] eqn:E; [|by vm_compute in E..].
  apply (script_reachable demo_script demo_kernel outs).
  - apply kr_new.
  - unfold demo_k. by rewrite E.
Qed.

Lemma kernel_tables_invariant_witness :
  tables_ok demo_k /\ k_objects demo_k = [Some 4096; Some 8192] /\ k_fibers demo_k = [(1, 8448)].
Proof.
  split; [apply kernel_tables_invariant, demo_k_reachable|]. split; vm_compute; reflexivity.
Defined.

Lemma handle_lifecycle_witness :
  find_handle demo_k 4 = Some 4096 /\
  exists k', NtClose [4] demo_k = Ok (Ret 0 true None, k') /\ find_handle k' 4 = None.
Proof.
  assert (Hf : find_handle demo_k 4 = Some 4096) by (vm_compute; reflexivity).
  split; [exact Hf|].
  destruct (handle_lifecycle demo_k demo_k_reachable) as [_ H]; [vm_compute; reflexivity|].
  destruct (H 4 ltac:(lia)) as (out & k' & E & Hk'). rewrite Hf in Hk'.
  destruct Hk' as (-> & _ & Hl). exists k'. split; [exact E|]. rewrite Hl by lia. reflexivity.
Defined.

Lemma wait_channels_are_distinct_witness : channel_token (ChObject 0x7f0000001000) <> channel_token (ChCs 0x1000).
Proof.
  intros E. apply wait_channels_are_distinct in E; [discriminate E|simpl; lia|simpl; unfold is_u32; lia].
Defined.

(** ** Where the code does not keep its promises *)

(** Closing a handle frees its object even while a fiber is waiting on it:
    fiber 1 waits on an event, fiber 2 sets it and closes the handle before
    fiber 1 runs again, and the resumed wait dereferences the freed object. *)
Theorem close_under_waiter_uses_freed_object :
  script [As (Some 0%nat); Calls (envn 1) 189 [4096; 0; 1; 0]; Calls (envn 3) 233 [4; 0; 0];
          As (Some 1%nat); Calls (envn 4) 225 [4; 0]; Calls (envn 5) 187 [4];
          As (Some 0%nat); Resumes (envn 6) (PWait 4096 0)] demo_kernel
  = Ub "use of a freed dispatcher object".
Proof. vm_compute. reflexivity. Qed.

(** A wait-all on the same semaphore handle twice takes two units of a
    semaphore that holds one: the count becomes -1. *)
Theorem wait_all_overdraws_duplicate :
  exists outs k, script [As (Some 0%nat); Calls (envn 1) 193 [4096; 0; 1; 5];
      Calls (envn 2) 53 [4100]; Calls (envn 2) 54 [4104; 4]; Calls (envn 2) 54 [4108; 4];
      Calls (envn 3) 235 [2; 4104; 0; 0; 0; 0]] demo_kernel = Ok (outs, k) /\
    last outs = Some (Ret kStatusSuccess true None) /\
    se_count (o_semaphore (default fresh_object (k_heap k !! 4096))) = -1.
Proof. eexists _, _. split; [vm_compute; reflexivity|]. split; vm_compute; reflexivity. Qed.

(** [KeReleaseMutant] checks neither the owner nor the count: after two
    releases of a free mutant the next two waits by different fibers both
    succeed at once, so two fibers hold it together. *)
Theorem over_released_mutant_has_two_owners :
  exists outs k, script [As (Some 0%nat); Calls (envn 1) 110 [4096; 0];
      Calls (envn 2) 131 [4096; 0; 0; 0];
      Calls (envn 3) 159 [4096; 0; 0; 0; 0]; As (Some 1%nat);
      Calls (envn 4) 159 [4096; 0; 0; 0; 0]] demo_kernel = Ok (outs, k) /\
    drop 2 outs = [Ret kStatusSuccess true None; Ret kStatusSuccess true None].
Proof. eexists _, _. split; [vm_compute; reflexivity|]. vm_compute. reflexivity. Qed.

(** When a thread ends only one of the fibers waiting on it is released:
    fibers 1 and 2 wait on a created thread, which then finishes, and fiber 2
    stays blocked although the object is signalled for good. *)
Theorem thread_end_releases_one_waiter :
  exists outs k k', script [As (Some 0%nat); Calls (envn 1) 255 [4096; 0; 0; 0; 0; 0; 0; 0; 0; 0];
      Calls (envn 2) 233 [4; 0; 0]; As (Some 1%nat); Calls (envn 3) 233 [4; 0; 0]; As (Some 2%nat)]
      demo_kernel = Ok (outs, k) /\
    finish_thread_object 4096 k = Ok (tt, k') /\
    (t_state <$> threads (k_sched k')) = [Ready; BlockedWait; Ready].
Proof. eexists _, _, _. split; [vm_compute; reflexivity|]. split; vm_compute; reflexivity. Qed.

End KrnlSpec.
