(* ===== verification/KrnlSync.v ===== *)
(** Synchronisation semantics of the kernel: who owns a mutant after a wait or
    a release, and whom setting an event wakes. *)
From stdpp Require Import base numbers list gmap strings.
From Stdlib Require Import ZArith Lia.
From S2P Require Import Prelude XbeRam CpuSched KrnlExports KrnlMm KrnlTime.
From S2P Require Import KrnlState KrnlObjects KrnlCall KrnlInv KrnlSpec.
Open Scope Z_scope.

Module KrnlSync.
Import XbeRam CpuSched KrnlExports KrnlMm KrnlTime KrnlState KrnlObjects KrnlCall KrnlInv KrnlSpec.
Open Scope krnl_scope.

(** ** Running the monad *)

Lemma kbind_ok {A B} (m : K A) (f : A -> K B) k x k' :
  m k = Ok (x, k') -> kbind m f k = f x k'.
Proof. unfold kbind. by intros ->. Qed.

Lemma load_ok {B} a o (f : DispatcherObject -> K B) k :
  k_heap k !! a = Some o -> kbind (load a) f k = f o k.
Proof. intros H. apply kbind_ok. unfold load. by rewrite H. Qed.

Lemma update_ok a o f k :
  k_heap k !! a = Some o -> update a f k = Ok (tt, with_heap k (<[a := f o]> (k_heap k))).
Proof. intros H. unfold update. rewrite (load_ok a o) by done. unfold store. by rewrite H. Qed.

Section sync.
Context `{os : HostOS}.

(** Mirroring a header touches guest memory only. *)
Definition ram_only (m : K unit) : Prop :=
  forall k, exists r, m k = Ok (tt, with_ram k r).

Lemma ram_only_ret : ram_only (kret tt).
Proof. intros k. exists (k_ram k). by destruct k. Qed.

Lemma ram_only_wr32 va v : ram_only (wr32 va v).
Proof. intros k. by eexists. Qed.

Lemma ram_only_bytes va bs : ram_only (wr_bytes va bs).
Proof. intros k. by eexists. Qed.

Lemma ram_only_bind m m' : ram_only m -> ram_only m' -> ram_only (m ;; m').
Proof.
  intros H H' k. destruct (H k) as [r E]. rewrite (kbind_ok _ _ _ _ _ E).
  destruct (H' (with_ram k r)) as [r' E']. rewrite E'. by exists r'.
Qed.

Hint Resolve ram_only_ret ram_only_wr32 ram_only_bytes ram_only_bind : ram_only.

Lemma ram_only_header o : ram_only (write_dispatcher_header o).
Proof. unfold write_dispatcher_header. case_if; [|destruct (o_kind o)]; eauto 12 with ram_only. Qed.

Lemma ram_only_signal_state o : ram_only (write_signal_state o).
Proof. unfold write_signal_state. case_if; [|destruct (o_kind o)]; eauto with ram_only. Qed.

Lemma ram_only_store_out p v : ram_only (store_out p v).
Proof.
  unfold store_out. case_if; [auto with ram_only|]. intros k. unfold kbind, can_write.
  destruct (writable _ _ _); [apply ram_only_wr32|apply ram_only_ret].
Qed.

Lemma update_signal_ok a o f k :
  k_heap k !! a = Some o ->
  exists r, update_signal a f k = Ok (tt, with_ram (with_heap k (<[a := f o]> (k_heap k))) r).
Proof.
  intros H. unfold update_signal. rewrite (kbind_ok _ _ _ _ _ (update_ok _ _ _ _ H)).
  rewrite (load_ok a (f o)) by apply lookup_insert_eq. apply ram_only_signal_state.
Qed.

(** ** The caller's identity *)

Lemma fiber_find_emplace l h a : fiber_find l h = None -> fiber_find (fiber_emplace l h a) h = Some a.
Proof.
  induction l as [|[h' a'] l IH]; simpl; [by rewrite Z.eqb_refl|].
  destruct (h' =? h) eqn:E; [done|]. intros Hl. case_if; simpl; [by rewrite Z.eqb_refl|].
  rewrite E. auto.
Qed.

(** Reading it may create an implicit thread object; nothing else changes, and
    reading it again gives the same answer. *)
Lemma token_spec e k t k1 :
  current_thread_token e k = Ok (t, k1) ->
  (forall a o, k_heap k !! a = Some o -> k_heap k1 !! a = Some o) /\
  k_sched k1 = k_sched k /\ k_objects k1 = k_objects k /\ k_va k1 = k_va k /\ k_ram k1 = k_ram k /\
  current_thread_token e k1 = Ok (t, k1) /\ (t <> 0 -> current_handle (k_sched k) <> 0).
Proof.
  unfold current_thread_token, sched_handle, ensure_thread_object, kget.
  unfold kbind at 1. destruct (_ =? 0) eqn:Eh.
  { intros [= <- <-]. repeat split; try done. unfold kbind at 1. by rewrite Eh. }
  unfold kbind at 1 2. destruct (fiber_find (k_fibers k) _) as [b|] eqn:Ef.
  { unfold kret, kbind, load. destruct (k_heap k !! b) as [o|] eqn:Eb; [|done].
    intros [= <- <-]. repeat split; try done; [|lia]. by rewrite Eh, Ef, Eb. }
  unfold new_object, kmod, kret, kbind, load.
  destruct (k_heap k !! e_thread_addr e) as [x|] eqn:Ea; [done|]. simpl k_heap.
  rewrite lookup_insert_eq. intros [= <- <-]. simpl. split.
  - intros a o Ho. rewrite lookup_insert_ne; [done|]. intros <-. congruence.
  - repeat split; try done; [|lia]. rewrite Eh. simpl.
    rewrite fiber_find_emplace by done. simpl. by rewrite lookup_insert_eq.
Qed.

(** ** Mutants *)

Definition mutant_status (m : mutant_part) : Z :=
  if mu_abandoned m then kStatusAbandoned else kStatusSuccess.

Lemma acquire_mutant e k a o t :
  k_heap k !! a = Some o -> o_kind o = Mutant -> current_thread_token e k = Ok (t, k) -> t <> 0 ->
  - 2 ^ 31 < mu_state (o_mutant o) < 2 ^ 31 ->
  exists r, dispatcher_acquire e a k =
    Ok (mutant_status (o_mutant o),
        with_ram (with_heap k (<[a := set_mutant (MkMutant (mu_state (o_mutant o) - 1) t false) o]>
                                 (k_heap k))) r).
Proof.
  intros Ho Hk Ht Ht0 Hst. unfold dispatcher_acquire. rewrite (load_ok a o), Hk by done.
  rewrite (kbind_ok _ _ _ _ _ Ht), (proj2 (Z.eqb_neq t 0)) by done.
  unfold int32_add. replace (_ || _) with false by lia.
  unfold kbind at 1, kret at 1. rewrite (kbind_ok _ _ _ _ _ (update_ok _ _ _ _ Ho)).
  rewrite (load_ok a (set_mutant (MkMutant (mu_state (o_mutant o) + -1) t false) o))
    by apply lookup_insert_eq.
  unfold mutant_status. destruct (mu_abandoned (o_mutant o)).
  - destruct (ram_only_header (set_mutant (MkMutant (mu_state (o_mutant o) + -1) t false) o)
      (with_heap k (<[a:=set_mutant (MkMutant (mu_state (o_mutant o) + -1) t false) o]> (k_heap k))))
      as [r E]. exists r. by rewrite (kbind_ok _ _ _ _ _ E).
  - destruct (ram_only_signal_state (set_mutant (MkMutant (mu_state (o_mutant o) + -1) t false) o)
      (with_heap k (<[a:=set_mutant (MkMutant (mu_state (o_mutant o) + -1) t false) o]> (k_heap k))))
      as [r E]. exists r. by rewrite (kbind_ok _ _ _ _ _ E).
Qed.

(** ** Waking *)

(** Signal a list of private channels in order. *)
Definition signal_tokens (s : sched) (l : list Z) : sched :=
  fold_left (fun s t => snd (signal s t false)) l s.

Lemma mapK_signal l k :
  mapK (fun t => let* n := ksignal t false in kret tt) l k =
  Ok (tt, with_sched k (signal_tokens (k_sched k) l)).
Proof.
  revert k. induction l as [|t l IH]; intros k; [by destruct k|]. simpl.
  unfold kbind at 1 2, ksignal at 1, signal_tokens. simpl.
  destruct (signal (k_sched k) t false) as [n s]. unfold kret at 1. by rewrite IH.
Qed.

Lemma wake_units_ok t n k : exists s, wake_units t n k = Ok (tt, with_sched k s).
Proof.
  revert k. induction n as [|n IH]; intros k; [exists (k_sched k); by destruct k|]. simpl.
  unfold kbind, ksignal. destruct (signal (k_sched k) t false) as [w s].
  case_if; [by exists s|]. destruct (IH (with_sched k s)) as [s' E]. rewrite E. by exists s'.
Qed.

Lemma set_mw_nil o : o_mw o = [] -> set_mw [] o = o.
Proof. destruct o; simpl. by intros ->. Qed.

Lemma wake_object_after o a k k1 n :
  k_heap k !! a = Some o -> wake_units (o_token o) (Z.to_nat n) k = Ok (tt, k1) ->
  k_heap k1 = k_heap k ->
  wake_object a n k = Ok (tt, with_sched (with_heap k1 (<[a := set_mw [] o]> (k_heap k1)))
                                (signal_tokens (k_sched k1) (o_mw o))).
Proof.
  intros Ho Hw Hh. unfold wake_object. rewrite (load_ok a o), (kbind_ok _ _ _ _ _ Hw) by done.
  destruct (o_mw o) as [|t l] eqn:El.
  - unfold kret. rewrite set_mw_nil, insert_id by (congruence || done). by destruct k1.
  - rewrite (kbind_ok _ _ _ _ _ (update_ok a o _ k1 ltac:(congruence))). by rewrite mapK_signal.
Qed.

Lemma wake_object_ok o a k n :
  k_heap k !! a = Some o ->
  exists s, wake_object a n k = Ok (tt, with_sched (with_heap k (<[a := set_mw [] o]> (k_heap k))) s).
Proof.
  intros Ho. destruct (wake_units_ok (o_token o) (Z.to_nat n) k) as [s E].
  rewrite (wake_object_after o a k _ n Ho E eq_refl). by eexists.
Qed.

(** ** Releasing a mutant *)

(** The count and owner after one release. *)
Definition released (m : mutant_part) : mutant_part :=
  MkMutant (mu_state m + 1) (if 0 <? mu_state m + 1 then 0 else mu_owner m) (mu_abandoned m).

Lemma release_mutant_ok a o k :
  k_heap k !! a = Some o -> - 2 ^ 31 <= mu_state (o_mutant o) < 2 ^ 31 - 1 ->
  exists k' o', release_mutant a k = Ok (mu_state (o_mutant o), k') /\
    k_heap k' !! a = Some o' /\ o_kind o' = o_kind o /\ o_mutant o' = released (o_mutant o).
Proof.
  intros Ho Hst. unfold release_mutant. rewrite (load_ok a o) by done. unfold int32_add.
  replace (_ || _) with false by lia. unfold kbind at 1, kret at 1.
  rewrite (kbind_ok _ _ _ _ _ (update_ok _ _ _ _ Ho)). fold (released (o_mutant o)).
  set (o1 := set_mutant (released (o_mutant o)) o).
  set (k1 := with_heap k (<[a := o1]> (k_heap k))).
  assert (H1 : k_heap k1 !! a = Some o1) by apply lookup_insert_eq.
  assert (exists s o', (if 0 <? mu_state (o_mutant o) + 1 then wake_object a 1 else kret tt) k1
    = Ok (tt, with_sched (with_heap k1 (<[a := o']> (k_heap k1))) s) /\
    o_kind o' = o_kind o1 /\ o_mutant o' = o_mutant o1) as (s & o2 & E & Ek & Em).
  { case_if.
    - destruct (wake_object_ok o1 a k1 1 H1) as [s E]. by exists s, (set_mw [] o1).
    - exists (k_sched k1), o1. rewrite insert_id by done. done. }
  rewrite (kbind_ok _ _ _ _ _ E). rewrite (load_ok a o2) by apply lookup_insert_eq.
  destruct (ram_only_signal_state o2 (with_sched (with_heap k1 (<[a := o2]> (k_heap k1))) s)) as [r Er].
  rewrite (kbind_ok _ _ _ _ _ Er). eexists _, o2. split; [done|]. split; [apply lookup_insert_eq|].
  by rewrite Ek, Em.
Qed.

(** ** Waiting on a mutant *)

Lemma satisfied_mutant e k a o t k1 :
  k_heap k !! a = Some o -> o_kind o = Mutant -> obj_ok o -> current_thread_token e k = Ok (t, k1) ->
  exists k2, (k2 = k \/ k2 = k1) /\
    dispatcher_satisfied e a k = Ok (bool_decide (mu_owner (o_mutant o) ∈ [0; t]), k2) /\
    (mu_owner (o_mutant o) <> 0 -> k2 = k1).
Proof.
  intros Ho Hk Hok Ht. unfold dispatcher_satisfied. rewrite (load_ok a o), Hk by done.
  unfold obj_ok in Hok. rewrite Hk in Hok.
  destruct Hok as [[Hs Hw]|(Hs & Hw & _)].
  - replace (0 <? _) with true by lia. exists k. split; [by left|]. split; [|done].
    rewrite Hw. done.
  - replace (0 <? _) with false by lia. rewrite (proj2 (Z.eqb_neq _ 0)) by done.
    rewrite (kbind_ok _ _ _ _ _ Ht). exists k1. split; [by right|]. split; [|done].
    unfold kret. do 2 f_equal. apply eq_bool_prop_intro. rewrite bool_decide_spec.
    rewrite !elem_of_cons, elem_of_nil. destruct (_ =? _) eqn:E; simpl; [split; [|done]|split; [done|]].
    + intros _. right. left. lia.
    + intros [?|[?|?]]; lia || done.
Qed.

Lemma wait_mutant_free e k a o t k1 im ticks k2 :
  k_heap k2 !! a = Some o -> o_kind o = Mutant -> t <> 0 ->
  - 2 ^ 31 < mu_state (o_mutant o) < 2 ^ 31 -> 
  (forall a o, k_heap k2 !! a = Some o -> k_heap k1 !! a = Some o) ->
  current_thread_token e k2 = Ok (t, k1) -> current_thread_token e k1 = Ok (t, k1) ->
  dispatcher_satisfied e a k = Ok (true, k2) ->
  exists k', wait_dispatch e a im ticks k = Ok (WDone (mutant_status (o_mutant o)), k') /\
    k_heap k' !! a = Some (set_mutant (MkMutant (mu_state (o_mutant o) - 1) t false) o).
Proof.
  intros Ho Hk Ht Hst Hmono Htok Htok1 Hsat. unfold wait_dispatch.
  rewrite (kbind_ok _ _ _ _ _ Hsat).
  destruct (acquire_mutant e k1 a o t (Hmono _ _ Ho) Hk Htok1 Ht Hst) as [r E].
  assert (E2 : dispatcher_acquire e a k2 = dispatcher_acquire e a k1).
  { unfold dispatcher_acquire. rewrite (load_ok a o), (load_ok a o), Hk by auto.
    by rewrite (kbind_ok _ _ _ _ _ Htok), (kbind_ok _ _ _ _ _ Htok1). }
  rewrite (kbind_ok _ _ _ _ _ (eq_trans E2 E)).
  eexists. split; [reflexivity|]. apply lookup_insert_eq.
Qed.

Lemma wait_mutant_busy e k a o im ticks k1 :
  k_heap k1 !! a = Some o -> current_handle (k_sched k1) <> 0 ->
  dispatcher_satisfied e a k = Ok (false, k1) ->
  wait_dispatch e a im ticks k =
    if im then Ok (WDone kStatusTimeout, k1)
    else Ok (WBlock, with_sched k1 (default (k_sched k1) (block_current (k_sched k1) (o_token o) ticks))).
Proof.
  intros Ho Hh Hsat. unfold wait_dispatch. rewrite (kbind_ok _ _ _ _ _ Hsat).
  destruct im; [done|].
  assert (Ei : in_fiber k1 = Ok (true, k1))
    by (unfold in_fiber; by rewrite (proj2 (Z.eqb_neq _ 0))).
  rewrite (kbind_ok _ _ _ _ _ Ei). change (negb true) with false. cbv iota.
  rewrite (load_ok a o) by done.
  unfold kbind, kblock, kret. destruct (block_current _ _ _); [done|]. by destruct k1.
Qed.

Lemma nt_release_eq e k h a o t k1 p :
  find_handle k h = Some a -> k_heap k !! a = Some o -> o_kind o = Mutant ->
  current_thread_token e k = Ok (t, k1) -> k_heap k1 !! a = Some o ->
  NtReleaseMutant e [h; p] k =
    (if (mu_owner (o_mutant o) =? 0) || negb (mu_owner (o_mutant o) =? t) then REJECT
     else let* prev := release_mutant a in store_out p (u32 prev) ;; ret kStatusSuccess) k1.
Proof.
  intros Hf Ho Hk Ht Ho1. unfold NtReleaseMutant, find_object_by_handle. unfold kbind at 1.
  change (arg [h; p] 0) with h. rewrite Hf. unfold with_object. rewrite (load_ok a o) by done.
  unfold is_kind. rewrite (bool_decide_true (o_kind o = Mutant) Hk), (kbind_ok _ _ _ _ _ Ht).
  by rewrite (load_ok a o).
Qed.

(** C8. Mutual exclusion, in every reachable kernel, for a mutant of the
    handle table and a calling fiber with identity [t]. A wait takes a free
    mutant (reporting and clearing abandonment) and makes the caller its only
    owner; it deepens the recursion of one the caller owns; if anyone else
    owns it the wait times out or parks the caller on the mutant's channel,
    without touching the mutant. NtReleaseMutant is accepted from the owner
    only, one level per call, and the last level frees it. (KeReleaseMutant, for
    mutants in guest memory, checks no owner.) *)
Theorem mutant_ownership e k h a o t k1 :
  kreachable k -> 0 <= h -> find_handle k h = Some a ->
  k_heap k !! a = Some o -> o_kind o = Mutant -> - 2 ^ 31 < mu_state (o_mutant o) ->
  current_thread_token e k = Ok (t, k1) -> t <> 0 ->
  let m := o_mutant o in
  (forall im ticks,
    if bool_decide (mu_owner m = 0 \/ mu_owner m = t)
    then exists k', wait_dispatch e a im ticks k = Ok (WDone (mutant_status m), k') /\
           k_heap k' !! a = Some (set_mutant (MkMutant (mu_state m - 1) t false) o)
    else wait_dispatch e a im ticks k =
           if im then Ok (WDone kStatusTimeout, k1)
           else Ok (WBlock, with_sched k1
                  (default (k_sched k) (block_current (k_sched k) (o_token o) ticks)))) /\
  (forall p,
    if bool_decide (mu_owner m = t)
    then exists k' o', NtReleaseMutant e [h; p] k = Ok (Ret kStatusSuccess true None, k') /\
           k_heap k' !! a = Some o' /\ o_kind o' = Mutant /\
           o_mutant o' = MkMutant (mu_state m + 1) (if mu_state m =? 0 then 0 else t) false
    else NtReleaseMutant e [h; p] k = Ok (Ret kStatusInvalidParameter false None, k1)).
Proof.
  intros Hr Hh Hf Ho Hkd Hst Ht Ht0 m. apply kreachable_ok in Hr.
  destruct (handle_slot _ _ _ Hf Hh) as (s & Hs & _).
  assert (Hlive : a ∈ live_addrs k).
  { unfold live_addrs. apply list_elem_of_omap. exists (Some a). split; [|done].
    by eapply list_elem_of_lookup_2. }
  pose proof (to_obj _ Hr _ _ Hlive Ho) as Hobj.
  destruct (token_spec _ _ _ _ Ht) as (Hmono & Hsch & _ & _ & _ & Ht1 & Hcur).
  destruct (satisfied_mutant e k a o t k1 Ho Hkd Hobj Ht) as (k2 & Hk2 & Hsat & Hne).
  assert (Hm : mu_state m <= 1) by (unfold obj_ok in Hobj; rewrite Hkd in Hobj; unfold m; lia).
  assert (Hst2 : - 2 ^ 31 < mu_state (o_mutant o) < 2 ^ 31) by (fold m; fold m in Hst; lia).
  split.
  - intros im ticks. destruct (decide (mu_owner m = 0 \/ mu_owner m = t)) as [Hd|Hd];
      [rewrite (bool_decide_true _ Hd)|rewrite (bool_decide_false _ Hd)].
    + rewrite bool_decide_true in Hsat by (rewrite !elem_of_cons; naive_solver).
      destruct Hk2 as [->| ->].
      * by apply (wait_mutant_free e k a o t k1 im ticks k).
      * apply (wait_mutant_free e k a o t k1 im ticks k1); auto.
    + rewrite bool_decide_false in Hsat by (rewrite !elem_of_cons, elem_of_nil; naive_solver).
      rewrite Hne in Hsat by (intros E; apply Hd; by left).
      rewrite <- Hsch. apply wait_mutant_busy; auto. rewrite Hsch. auto.
  - intros p. rewrite (nt_release_eq e k h a o t k1 p) by auto. fold m.
    destruct (decide (mu_owner m = t)) as [Hd|Hd];
      [rewrite (bool_decide_true _ Hd)|rewrite (bool_decide_false _ Hd)].
    + replace (_ || _) with false by (rewrite Hd, Z.eqb_refl; lia).
      destruct (release_mutant_ok a o k1) as (k' & o' & E & Ho' & Hk' & Hm'); [auto|unfold m in Hm; lia|].
      rewrite (kbind_ok _ _ _ _ _ E).
      destruct (ram_only_store_out p (u32 (mu_state m)) k') as [r Er].
      rewrite (kbind_ok _ _ _ _ _ Er). eexists _, o'. split; [reflexivity|]. split; [done|].
      split; [congruence|]. rewrite Hm'. unfold released. fold m.
      unfold obj_ok in Hobj. rewrite Hkd in Hobj. fold m in Hobj.
      destruct Hobj as [[??]|(?&?& ->)]; [lia|]. f_equal. rewrite Hd.
      destruct (mu_state m =? 0) eqn:E0; case_if; lia.
    + by rewrite (proj2 (Z.eqb_neq _ t) Hd), orb_true_r.
Qed.

(** ** Setting an event *)

Lemma signal_frame s tok all i t :
  threads s !! i = Some t -> waits_on tok t = false ->
  threads (snd (signal s tok all)) !! i = Some t.
Proof.
  unfold signal. destruct (signal_loop tok all (threads s)) as [n ts] eqn:E. simpl.
  apply signal_loop_spec in E as [H _]. apply H.
Qed.

(** A thread after a signal was the same before, or has just been woken. *)
Lemma signal_inv s tok all i t :
  threads (snd (signal s tok all)) !! i = Some t ->
  exists t0, threads s !! i = Some t0 /\ (t = t0 \/ waits_on tok t0 = true /\ t = wake t0).
Proof.
  unfold signal. revert i. generalize (threads s) as ts. intros ts.
  enough (H : forall i, snd (signal_loop tok all ts) !! i = Some t -> exists t0,
    ts !! i = Some t0 /\ (t = t0 \/ waits_on tok t0 = true /\ t = wake t0)).
  { intros i. specialize (H i). by destruct (signal_loop tok all ts). }
  induction ts as [|u ts IH]; intros i; simpl; [done|].
  destruct (signal_loop tok all ts) as [n r]. destruct (waits_on tok u) eqn:Eu; [destruct all|];
    destruct i as [|i]; simpl in *; intros H; try (injection H as <-); eauto 6.
Qed.

Lemma wake_not_waiting tok t : waits_on tok (wake t) = false.
Proof. done. Qed.

Lemma waits_on_other tok x t : waits_on tok t = true -> tok <> x -> waits_on x t = false.
Proof. unfold waits_on. destruct (is_state _ _); simpl; [|done]. lia. Qed.

(** A single signal reaches the first waiter only. *)
Lemma signal_one_at tok ts n ts' i t :
  signal_loop tok false ts = (n, ts') -> ts !! i = Some t -> waits_on tok t = true ->
  ts' !! i = Some (if forallb (fun t => negb (waits_on tok t)) (take i ts) then wake t else t).
Proof.
  revert n ts' i. induction ts as [|u ts IH]; intros n ts' i; simpl; [done|].
  destruct (signal_loop tok false ts) as [m r] eqn:El. destruct (waits_on tok u) eqn:Eu.
  - intros [= <- <-]. destruct i as [|i]; simpl; [congruence|]. by rewrite Eu.
  - intros [= <- <-]. destruct i as [|i]; simpl; [congruence|]. rewrite Eu. simpl. by eapply IH.
Qed.

(** Thread [i] is the only one waiting on [tok]. *)
Definition sole_waiter (s : sched) (tok : Z) (i : nat) (t : gthread) : Prop :=
  threads s !! i = Some t /\ waits_on tok t = true /\
  forall j t', threads s !! j = Some t' -> waits_on tok t' = true -> j = i.

Lemma signal_sole s tok all i t :
  sole_waiter s tok i t -> threads (snd (signal s tok all)) !! i = Some (wake t).
Proof.
  intros (Hi & Hw & Hu). unfold signal.
  destruct (signal_loop tok all (threads s)) as [n ts] eqn:E. simpl.
  apply signal_loop_spec in E as (_ & Hz & Ha & Hs). destruct all; [by apply Ha|].
  assert (n <> 0) as Hn by (intros H0; apply Hz with (i := i) (t := t) in H0; congruence).
  destruct (Hs eq_refl Hn) as (_ & j & t' & Hj & Hw' & _ & ->).
  pose proof (Hu _ _ Hj Hw') as ->. assert (t' = t) as -> by congruence.
  apply list_lookup_insert_eq. by eapply lookup_lt_Some.
Qed.

Lemma sole_waiter_frame s tok tok' all i t :
  tok' <> tok -> sole_waiter s tok i t -> sole_waiter (snd (signal s tok' all)) tok i t.
Proof.
  intros Hne (Hi & Hw & Hu). split; [|split; [done|]].
  - apply signal_frame; [done|]. by apply (waits_on_other tok).
  - intros j t' Hj Hw'. apply signal_inv in Hj as (t0 & Hj & [->|[_ ->]]); [by eapply Hu|].
    by rewrite wake_not_waiting in Hw'.
Qed.

Lemma signal_tokens_frame l s i t :
  threads s !! i = Some t -> (forall tok, tok ∈ l -> waits_on tok t = false) ->
  threads (signal_tokens s l) !! i = Some t.
Proof.
  revert s. induction l as [|x l IH]; intros s Hi Hl; [done|]. simpl. apply IH.
  - apply signal_frame; [done|]. apply Hl. left.
  - intros tok Ht. apply Hl. by right.
Qed.

Lemma signal_tokens_sole l s tok i t :
  tok ∈ l -> sole_waiter s tok i t -> threads (signal_tokens s l) !! i = Some (wake t).
Proof.
  revert s. induction l as [|x l IH]; intros s Hin Hs; [by apply elem_of_nil in Hin|]. simpl.
  destruct (decide (x = tok)) as [->|Hne].
  - apply signal_tokens_frame; [by apply signal_sole|done].
  - apply IH; [by apply elem_of_cons in Hin as [?|?]|]. by apply sole_waiter_frame.
Qed.

(** What [ke_set_event] does, as one equation. *)
Lemma set_event_eq a o k :
  k_heap k !! a = Some o ->
  let notify := ev_type (o_event o) =? kEventNotify in
  let (n, s) := signal (k_sched k) (o_token o) notify in
  exists r, ke_set_event a k = Ok (bool_val (ev_signaled (o_event o)),
    with_sched (with_heap (with_ram k r)
       (<[a := set_mw [] (set_signaled (notify || (n =? 0)) o)]> (k_heap k)))
       (signal_tokens s (o_mw o))).
Proof.
  intros Ho notify. destruct (signal (k_sched k) (o_token o) notify) as [n s] eqn:Es.
  set (o1 := set_signaled (notify || (n =? 0)) o).
  assert (exists r, (if notify then update_signal a (set_signaled true) ;;
      let* m := ksignal (o_token o) true in kret tt
    else let* woken := ksignal (o_token o) false in
         update_signal a (set_signaled (woken =? 0))) k =
    Ok (tt, with_sched (with_heap (with_ram k r) (<[a := o1]> (k_heap k))) s)) as [r E].
  { destruct notify eqn:En.
    - destruct (update_signal_ok a o (set_signaled true) k Ho) as [r E]. exists r.
      rewrite (kbind_ok _ _ _ _ _ E). unfold kbind, ksignal. simpl k_sched. by rewrite Es.
    - unfold kbind, ksignal. rewrite Es.
      destruct (update_signal_ok a o (set_signaled (n =? 0)) (with_sched k s) Ho) as [r E].
      exists r. by rewrite E. }
  exists r. unfold ke_set_event. rewrite (load_ok a o) by done. fold notify. cbv zeta.
  rewrite (kbind_ok _ _ _ _ _ E).
  set (k1 := with_sched (with_heap (with_ram k r) (<[a := o1]> (k_heap k))) s).
  assert (H1 : k_heap k1 !! a = Some o1) by apply lookup_insert_eq.
  assert (Hw : wake_units (o_token o1) (Z.to_nat 0) k1 = Ok (tt, k1)) by done.
  rewrite (kbind_ok _ _ _ _ _ (wake_object_after o1 a k1 k1 0 H1 Hw eq_refl)).
  unfold kret. unfold k1. simpl k_heap. rewrite insert_insert_eq. done.
Qed.

(** C9. Setting an event loses no wake-up and delivers none twice. It returns
    the previous state. A notification event stays signalled and releases
    every thread blocked on it; a synchronisation event releases exactly the
    first blocked thread in spawn order and stays clear, and only if there was
    none stays signalled. Every fiber in a multiple wait registered on the
    object is released to re-check its objects and the registration list is
    emptied; no other thread changes. *)
Theorem set_event_delivers a o k :
  k_heap k !! a = Some o -> o_token o ∉ o_mw o ->
  let tok := o_token o in
  let notify := ev_type (o_event o) =? kEventNotify in
  let direct t := waits_on tok t in
  exists k', ke_set_event a k = Ok (bool_val (ev_signaled (o_event o)), k') /\
    (exists o', k_heap k' !! a = Some o' /\ o_mw o' = [] /\
       (ev_signaled (o_event o') = true <-> notify = true \/
        forall i t, threads (k_sched k) !! i = Some t -> direct t = false)) /\
    (notify = true -> forall i t, threads (k_sched k) !! i = Some t -> direct t = true ->
       threads (k_sched k') !! i = Some (wake t)) /\
    (notify = false -> forall i t, threads (k_sched k) !! i = Some t -> direct t = true ->
       threads (k_sched k') !! i = Some
         (if forallb (fun t => negb (direct t)) (take i (threads (k_sched k))) then wake t else t)) /\
    (forall x i t, x ∈ o_mw o -> sole_waiter (k_sched k) x i t ->
       threads (k_sched k') !! i = Some (wake t)) /\
    (forall i t, threads (k_sched k) !! i = Some t -> direct t = false ->
       (forall x, x ∈ o_mw o -> waits_on x t = false) -> threads (k_sched k') !! i = Some t).
Proof.
  intros Ho Hmw tok notify direct. pose proof (set_event_eq a o k Ho) as Heq. cbv zeta in Heq.
  fold notify tok in Heq.
  destruct (signal (k_sched k) tok notify) as [n s] eqn:Es. destruct Heq as [r E].
  eexists. split; [exact E|]. simpl k_sched. simpl k_heap.
  assert (Hs : s = snd (signal (k_sched k) tok notify)) by (by rewrite Es).
  assert (El : signal_loop tok notify (threads (k_sched k)) = (n, threads s)).
  { unfold signal in Es. destruct (signal_loop _ _ _) as [m ts]. by injection Es as <- <-. }
  destruct (signal_loop_spec _ _ _ _ _ El) as (Hsame & Hzero & Hall & _).
  split_and!.
  - eexists. split; [apply lookup_insert_eq|]. split; [done|]. simpl.
    rewrite orb_true_iff, Z.eqb_eq, Hzero. done.
  - intros Hn i t Hi Hd. apply signal_tokens_frame; [by apply Hall|done].
  - intros Hn i t Hi Hd.
    apply signal_tokens_frame; [rewrite Hn in El; by apply (signal_one_at _ _ _ _ _ _ El)|].
    intros x Hx. case_if; [done|]. apply (waits_on_other tok); [done|]. by intros <-.
  - intros x i t Hx Hsole. eapply signal_tokens_sole; [done|]. rewrite Hs.
    apply sole_waiter_frame; [|done]. intros <-. done.
  - intros i t Hi Hd Hx. apply signal_tokens_frame; [|done]. by apply Hsame.
Qed.

End sync.

(** ** Witnesses and runs *)

Lemma mutant_ownership_witness :
  exists k' o', NtReleaseMutant (envn 9) [8; 0] demo_k = Ok (Ret kStatusSuccess true None, k') /\
    k_heap k' !! 8192 = Some o' /\ o_kind o' = Mutant /\ o_mutant o' = MkMutant 1 0 false.
Proof.
  destruct (k_heap demo_k !! 8192) as [o|] eqn:Eo; [|vm_compute in Eo; discriminate Eo].
  assert (Ho : (fun o => (o_mutant o, o_kind o)) <$> k_heap demo_k !! 8192
    = Some (MkMutant 0 1 false, Mutant)) by (vm_compute; reflexivity).
  rewrite Eo in Ho. injection Ho as Hm Hk.
  destruct (mutant_ownership (envn 9) demo_k 8 8192 o 1 demo_k demo_k_reachable) as [_ H];
    [lia|vm_compute; reflexivity|exact Eo|exact Hk|rewrite Hm; simpl; lia|vm_compute; reflexivity|lia|].
  specialize (H 0). rewrite Hm in H. exact H.
Defined.

(** An auto-reset event with fibers 1 and 2 blocked on it. *)
Definition demo_waiters : kernel := outcome_kernel (script
  [As (Some 0%nat); Calls (envn 1) 189 [4096; 0; 1; 0]; Calls (envn 3) 233 [4; 0; 0];
   As (Some 1%nat); Calls (envn 4) 233 [4; 0; 0]; As None] demo_kernel).

Lemma set_event_delivers_witness :
  exists k', ke_set_event 4096 demo_waiters = Ok (0, k') /\
    (t_state <$> threads (k_sched k') !! 0%nat) = Some Ready /\
    (t_state <$> threads (k_sched k') !! 1%nat) = Some BlockedWait.
Proof.
  destruct (k_heap demo_waiters !! 4096) as [o|] eqn:Eo; [|vm_compute in Eo; discriminate Eo].
  assert (Ho : (fun o => (o_token o, o_mw o, o_event o)) <$> k_heap demo_waiters !! 4096
    = Some (8193, [], MkEvent 1 false)) by (vm_compute; reflexivity).
  rewrite Eo in Ho. injection Ho as Ht Hmw Hev.
  destruct (set_event_delivers 4096 o demo_waiters Eo) as (k' & E & _ & _ & Hone & _).
  { rewrite Hmw. apply not_elem_of_nil. }
  rewrite Hev in E, Hone. exists k'. split; [exact E|]. rewrite Ht in Hone.
  specialize (Hone eq_refl). split.
  - erewrite Hone; [|vm_compute; reflexivity|reflexivity]. reflexivity.
  - erewrite Hone; [|vm_compute; reflexivity|reflexivity]. vm_compute. reflexivity.
Defined.

End KrnlSync.
