(* ===== verification/KrnlCs.v ===== *)
(** Critical sections (XboxKrnl::cs_*, src/xbox_krnl.cpp): their state lives in
    guest memory and their waiters in the scheduler. The fibers that use one
    section are modelled as a step system in which any number of them enter,
    retry, try, leave and do anything else that leaves the section alone. *)
From stdpp Require Import base numbers list gmap strings.
From Stdlib Require Import ZArith Lia.
From S2P Require Import Prelude XbeRam CpuSched KrnlMm KrnlTime.
From S2P Require Import KrnlState KrnlObjects KrnlCall KrnlSpec KrnlSync.
Open Scope Z_scope.

Module KrnlCs.
Import XbeRam CpuSched KrnlState KrnlObjects KrnlCall KrnlSync.
Open Scope krnl_scope.

Definition is_s32 (x : Z) : Prop := - 2 ^ 31 <= x < 2 ^ 31.

Section cs.
Context `{os : HostOS} `{laws : !HostLaws os}.

(** ** The section in guest memory *)

Record cs_mem (r : ram) (va l rc o : Z) : Prop := {
  cm_va : 0 <= va /\ va + kCsSize <= 2 ^ 32;
  cm_writable : writable r va kCsSize = true;
  cm_lock : read32 r (va + kCsLockCount) = Some (u32 l);
  cm_rec : read32 r (va + kCsRecursion) = Some (u32 rc);
  cm_owner : read32 r (va + kCsOwningThread) = Some o;
  cm_lock_range : is_s32 l;
  cm_rec_range : is_s32 rc;
}.

(** A sub-range of a writable range is writable. *)
Lemma writable_sub r a n b m :
  0 <= a -> a + n <= 2 ^ 32 -> a <= b -> 0 < m -> b + m <= a + n ->
  writable r a n = true -> writable r b m = true.
Proof.
  intros Ha Hn Hab Hm Hbm [Hc Hro]%writable_spec. apply is_committed_spec in Hc as (Hb & Hr & Hp).
  apply range_ok_spec in Hr. pose proof page_size_pos as Hps.
  assert (Hsub : forall p, p ∈ page_range b m -> p ∈ page_range a n).
  { intros p. rewrite !page_range_elem by lia. intros [H1 H2].
    pose proof (Z.div_le_mono a b page_size Hps Hab).
    pose proof (Z.div_le_mono (b + m - 1) (a + n - 1) page_size Hps). lia. }
  apply writable_spec. split; [|auto]. apply is_committed_spec. split_and!; [done| |auto].
  apply range_ok_spec. lia.
Qed.

(** Storing one word of a writable range. *)
Lemma store_word r va n off v :
  0 <= va -> va + n <= 2 ^ 32 -> 0 <= off -> off + 4 <= n -> is_u32 v -> writable r va n = true ->
  let r' := write32_ r (u32 (va + off)) v in
  writable r' va n = true /\ read32 r' (va + off) = Some v /\
  forall a, a + 4 <= va + off \/ va + off + 4 <= a -> read32 r' a = read32 r a.
Proof.
  intros Hva Hn Ho Hon Hv Hw. rewrite u32_small by lia.
  assert (Hw4 : writable r (va + off) (zlen (le_bytes 4 v)) = true)
    by (apply (writable_sub r va n); simpl; lia || done).
  unfold write32_, write32, write_bytes. rewrite Hw4. cbv beta iota delta [from_option id]. split; [done|].
  apply writable_spec in Hw4 as [Hc4 _]. unfold read32, read_bytes, readable. split.
  - change (is_committed (set_bytes r _) (va + off) 4) with (is_committed r (va + off) 4).
    change (zlen (le_bytes 4 v)) with 4 in Hc4. rewrite Hc4. cbn [set_bytes r_bytes].
    pose proof (mem_read_write (r_bytes r) (va + off) (le_bytes 4 v)) as E.
    change (zlen (le_bytes 4 v)) with 4 in E. rewrite E. cbn [fmap option_fmap option_map].
    by rewrite le32_roundtrip.
  - intros a Ha. change (is_committed (set_bytes r _) a 4) with (is_committed r a 4).
    cbn [set_bytes r_bytes]. by rewrite mem_read_write_disjoint by (simpl; lia).
Qed.

Lemma u32_is x : is_u32 (u32 x).
Proof. apply u32_range. Qed.

Ltac cs_store H off :=
  let Hf := fresh "Hf" in
  destruct H;
  match goal with |- cs_mem (write32_ ?r (u32 (?va + _)) ?v) _ _ _ _ =>
    destruct (store_word r va kCsSize off v) as (? & ? & Hf);
      [lia|lia|done|done|first [apply u32_is|done]|done|] end;
  split; try done; rewrite Hf; done || (unfold kCsLockCount, kCsRecursion, kCsOwningThread; lia).

Lemma set_lock r va l rc o l' :
  is_s32 l' -> cs_mem r va l rc o -> cs_mem (write32_ r (u32 (va + kCsLockCount)) (u32 l')) va l' rc o.
Proof. intros Hi H. cs_store H kCsLockCount. Qed.

Lemma set_rec r va l rc o rc' :
  is_s32 rc' -> cs_mem r va l rc o -> cs_mem (write32_ r (u32 (va + kCsRecursion)) (u32 rc')) va l rc' o.
Proof. intros Hi H. cs_store H kCsRecursion. Qed.

Lemma set_owner r va l rc o o' :
  is_u32 o' -> cs_mem r va l rc o -> cs_mem (write32_ r (u32 (va + kCsOwningThread)) o') va l rc o'.
Proof. intros Hi H. cs_store H kCsOwningThread. Qed.

(** ** Waiters in the scheduler *)

Lemma waiter_count_cons tok t ts :
  waiter_count tok (t :: ts) = Z.b2z (waits_on tok t) + waiter_count tok ts.
Proof.
  unfold waiter_count. rewrite filter_cons. destruct (waits_on tok t) eqn:E.
  - rewrite decide_True by done. simpl Z.b2z. rewrite length_cons. lia.
  - rewrite decide_False by congruence. done.
Qed.

Lemma waiter_count_insert tok ts i t t' :
  ts !! i = Some t ->
  waiter_count tok (<[i := t']> ts) =
  waiter_count tok ts - Z.b2z (waits_on tok t) + Z.b2z (waits_on tok t').
Proof.
  revert i. induction ts as [|u ts IH]; intros [|i]; simpl; try done.
  - intros [= ->]. rewrite !waiter_count_cons. lia.
  - intros Hi. rewrite !waiter_count_cons, (IH i Hi). lia.
Qed.

Lemma list_alter_insert {A} (f : A -> A) (l : list A) i x :
  l !! i = Some x -> alter f i l = <[i := f x]> l.
Proof.
  revert i. induction l as [|y l IH]; intros [|i]; simpl; try done; [by intros [= ->]|].
  intros Hi. change (y :: alter f i l = y :: <[i := f x]> l). by rewrite (IH i Hi).
Qed.

Lemma waiter_count_pos tok ts :
  0 <= waiter_count tok ts /\
  (0 < waiter_count tok ts <-> exists i t, ts !! i = Some t /\ waits_on tok t = true).
Proof.
  induction ts as [|u ts [IH0 IH]]; [split; [done|]; split; [done|intros (i & t & Hi & _); by destruct i]|].
  rewrite waiter_count_cons. split; [destruct (waits_on tok u); simpl; lia|].
  destruct (waits_on tok u) eqn:Eu; simpl Z.b2z.
  - split; [intros _; by exists 0%nat, u|lia].
  - rewrite Z.add_0_l, IH. split.
    + intros (i & t & Hi & Hw). by exists (S i), t.
    + intros ([|i] & t & Hi & Hw); simpl in Hi; [congruence|]. by exists i, t.
Qed.

(** A single signal removes one waiter when there is one. *)
Lemma signal_one_spec s tok :
  exists n s', signal s tok false = (n, s') /\
    current s' = current s /\
    (waiter_count tok (threads s) = 0 /\ threads s' = threads s \/
     exists i t, threads s !! i = Some t /\ waits_on tok t = true /\
       threads s' = <[i := wake t]> (threads s)).
Proof.
  unfold signal. destruct (signal_loop tok false (threads s)) as [n ts] eqn:E.
  exists n, (with_threads s ts). split; [done|]. split; [done|]. simpl.
  destruct (signal_loop_spec _ _ _ _ _ E) as (Hsame & Hz & _ & Hone).
  destruct (decide (n = 0)) as [->|Hn].
  - left. pose proof (proj1 Hz eq_refl) as Hnone. split.
    + destruct (waiter_count_pos tok (threads s)) as [H0 H1].
      destruct (decide (0 < waiter_count tok (threads s))) as [Hp|]; [|lia].
      apply H1 in Hp as (i & t & Hi & Hw). rewrite (Hnone _ _ Hi) in Hw. done.
    + clear -E Hnone. revert ts E. induction (threads s) as [|t l IH]; simpl; intros ts E.
      * by injection E as <-.
      * rewrite (Hnone 0%nat t eq_refl) in E. destruct (signal_loop tok false l) as [m r] eqn:El.
        injection E as -> <-. f_equal. apply IH; [intros i; apply (Hnone (S i))|done].
  - right. destruct (Hone eq_refl Hn) as (_ & i & t & Hi & Hw & _ & Hts). eauto.
Qed.

(** ** What the operations do *)

Lemma cs_fields_ok va l rc o k :
  cs_mem (k_ram k) va l rc o -> cs_fields va k = Ok (Some (l, rc, o), k).
Proof.
  intros [Hva _ Hl Hr Ho ? ?]. unfold cs_fields, rd32, kbind, kret.
  unfold kCsSize, kCsLockCount, kCsRecursion, kCsOwningThread in *.
  rewrite !u32_small by lia. rewrite Hl, Hr, Ho. by rewrite !s32_u32.
Qed.

Lemma int32_add_ok x d k :
  int32_add x d k = Ok (x + d, k) /\ is_s32 (x + d) \/ exists m, int32_add x d k = Ub m.
Proof.
  unfold int32_add, is_s32. destruct (_ || _) eqn:E; [right; by eexists|left]. split; [done|lia].
Qed.

(** Entering as the current fiber [cur]: re-enter, take, or block. *)
Lemma cs_enter_spec va l rc o k cur out k' :
  cs_mem (k_ram k) va l rc o -> current_handle (k_sched k) = cur -> cur <> 0 -> is_u32 cur ->
  cs_enter va k = Ok (out, k') ->
  (o = cur /\ out = CsDone kStatusSuccess /\ k_sched k' = k_sched k /\
     cs_mem (k_ram k') va l (rc + 1) o) \/
  (o = 0 /\ out = CsDone kStatusSuccess /\ k_sched k' = k_sched k /\
     cs_mem (k_ram k') va l 1 cur) \/
  (o <> 0 /\ o <> cur /\ out = CsBlock /\ cs_mem (k_ram k') va (l + 1) rc o /\
     exists i, current (k_sched k) = Some i /\
       k_sched k' = thread_block (k_sched k) i (cs_token_of va) kNoTimeout).
Proof.
  intros Hm Hc Hc0 Hcu. unfold cs_enter, sched_handle. unfold kbind at 1. rewrite Hc.
  rewrite (kbind_ok _ _ _ _ _ (cs_fields_ok _ _ _ _ _ Hm)).
  rewrite (proj2 (Z.eqb_neq cur 0)) by done. simpl negb. rewrite andb_true_r.
  destruct (o =? cur) eqn:Eo; [|destruct (o =? 0) eqn:E0].
  - apply Z.eqb_eq in Eo as ->. destruct (int32_add_ok rc 1 k) as [[E Hr]|[m E]];
      [rewrite (kbind_ok _ _ _ _ _ E)|unfold kbind at 1; by rewrite E].
    unfold kbind, wr32, kmod, kret. intros [= <- <-]. left. split_and!; try done. by eapply set_rec.
  - apply Z.eqb_eq in E0 as ->. unfold kbind, wr32, kmod, kret. intros [= <- <-]. right; left.
    split_and!; try done. simpl. rewrite (u32_small cur) by exact Hcu.
    change 1 with (u32 1). eapply set_rec; [done|]. by eapply set_owner.
  - assert (Ei : in_fiber k = Ok (true, k))
      by (unfold in_fiber; by rewrite Hc, (proj2 (Z.eqb_neq _ 0))).
    rewrite (kbind_ok _ _ _ _ _ Ei). change (negb true) with false. cbv iota.
    destruct (int32_add_ok l 1 k) as [[E Hr]|[m E]];
      [rewrite (kbind_ok _ _ _ _ _ E)|unfold kbind at 1; by rewrite E].
    unfold kbind, wr32, kmod, kret, kblock, block_current. simpl k_sched.
    unfold current_handle in Hc. destruct (current (k_sched k)) as [i|] eqn:Ei2; [|congruence].
    intros [= <- <-]. right; right. split_and!; try lia; try done; [by eapply set_lock|by exists i].
Qed.

Lemma cs_leave_spec va l rc o k cur st k' :
  cs_mem (k_ram k) va l rc o -> current_handle (k_sched k) = cur ->
  cs_leave va k = Ok (st, k') ->
  (o <> cur /\ st = kStatusInvalidParameter /\ k' = k) \/
  (o = cur /\ st = kStatusSuccess /\ 1 < rc /\ k_sched k' = k_sched k /\
     cs_mem (k_ram k') va l (rc - 1) o) \/
  (o = cur /\ st = kStatusSuccess /\ rc <= 1 /\
     ((l < 0 /\ k_sched k' = k_sched k /\ cs_mem (k_ram k') va l 0 0) \/
      (0 <= l /\ k_sched k' = snd (signal (k_sched k) (cs_token_of va) false) /\
         cs_mem (k_ram k') va (l - 1) 0 0))).
Proof.
  intros Hm Hc. unfold cs_leave. rewrite (kbind_ok _ _ _ _ _ (cs_fields_ok _ _ _ _ _ Hm)).
  unfold sched_handle. unfold kbind at 1. rewrite Hc.
  destruct (o =? cur) eqn:Eo; cbn [negb].
  2:{ unfold kret. intros [= <- <-]. left. split; [lia|done]. }
  apply Z.eqb_eq in Eo as ->. pose proof (cm_rec_range _ _ _ _ _ Hm) as Hrr.
  pose proof (cm_lock_range _ _ _ _ _ Hm) as Hlr. unfold is_s32 in *.
  destruct (1 <? rc) eqn:E1.
  { unfold kbind, wr32, kmod, kret. intros [= <- <-]. right; left. split_and!; try done; [lia|].
    eapply set_rec; [unfold is_s32; lia|done]. }
  assert (H2 : cs_mem (write32_ (write32_ (k_ram k) (u32 (va + kCsOwningThread)) 0)
    (u32 (va + kCsRecursion)) (u32 0)) va l 0 0)
    by (eapply set_rec; [done|]; by eapply set_owner).
  destruct (0 <=? l) eqn:El.
  - unfold kbind, wr32, kmod, kret, ksignal. cbn [k_sched with_ram].
    destruct (signal (k_sched k) (cs_token_of va) false) as [n s].
    intros [= <- <-]. right; right. split_and!; try done; [lia|]. right. split_and!; try done; [lia|].
    eapply set_lock; [unfold is_s32; lia|done].
  - unfold kbind, wr32, kmod, kret. intros [= <- <-]. right; right. split_and!; try done; [lia|].
    left. split_and!; try done; lia.
Qed.

Lemma cs_try_spec va l rc o k cur x k' :
  cs_mem (k_ram k) va l rc o -> current_handle (k_sched k) = cur -> cur <> 0 -> is_u32 cur ->
  cs_try_enter va k = Ok (x, k') ->
  k_sched k' = k_sched k /\
  ((o = cur /\ x = 1 /\ cs_mem (k_ram k') va l (rc + 1) o) \/
   (o = 0 /\ x = 1 /\ cs_mem (k_ram k') va l 1 cur) \/
   (o <> 0 /\ o <> cur /\ x = 0 /\ k' = k)).
Proof.
  intros Hm Hc Hc0 Hcu. unfold cs_try_enter.
  destruct (Hm) as [Hva _ Hl Hr Ho Hlr Hrr].
  unfold kCsSize, kCsLockCount, kCsRecursion, kCsOwningThread in *.
  unfold kbind at 1, rd32. unfold kbind at 1. rewrite !u32_small, Hr, Ho by lia.
  unfold kbind at 1, sched_handle. rewrite Hc, s32_u32 by done.
  rewrite (proj2 (Z.eqb_neq cur 0)) by done. simpl negb. rewrite andb_true_r.
  destruct (o =? cur) eqn:Eo; [|destruct (o =? 0) eqn:E0]; cbn [negb].
  - apply Z.eqb_eq in Eo as ->. destruct (int32_add_ok rc 1 k) as [[E Hr2]|[m E]];
      [rewrite (kbind_ok _ _ _ _ _ E)|unfold kbind at 1; by rewrite E].
    unfold kbind, wr32, kmod, kret. intros [= <- <-]. split; [done|]. left. split_and!; try done.
    by eapply set_rec.
  - apply Z.eqb_eq in E0 as ->. unfold kbind, wr32, kmod, kret. intros [= <- <-].
    split; [done|]. right; left. split_and!; try done. simpl.
    rewrite (u32_small cur) by exact Hcu. change 1 with (u32 1). eapply set_rec; [done|].
    by eapply set_owner.
  - unfold kret. intros [= <- <-]. split; [done|]. right; right. split_and!; try done; lia.
Qed.

(** ** Many fibers, one section *)

(** Everybody else's steps: they leave the section's memory and its waiters
    alone (no other channel shares its token). *)
Record leaves_alone (va : Z) (k k' : kernel) : Prop := {
  la_mem : forall l rc o, cs_mem (k_ram k) va l rc o -> cs_mem (k_ram k') va l rc o;
  la_old : forall i t, threads (k_sched k) !! i = Some t ->
    exists t', threads (k_sched k') !! i = Some t' /\
      waits_on (cs_token_of va) t' = waits_on (cs_token_of va) t;
  la_new : waiter_count (cs_token_of va) (threads (k_sched k')) =
           waiter_count (cs_token_of va) (threads (k_sched k));
  la_none : forall i, threads (k_sched k) !! i = None -> forall t',
    threads (k_sched k') !! i = Some t' -> waits_on (cs_token_of va) t' = false;
}.

(** The running fiber [i], which is blocked on nothing. *)
Record runs (va : Z) (k : kernel) (i : nat) : Prop := {
  ru_current : current (k_sched k) = Some i;
  ru_thread : exists t, threads (k_sched k) !! i = Some t /\
    waits_on (cs_token_of va) t = false;
  ru_handle : 0 < current_handle (k_sched k) < 2 ^ 32;
}.

Definition after_enter (out : cs_out) (i : nat) (P : gset nat) : gset nat :=
  match out with CsDone _ => P ∖ {[i]} | CsBlock => {[i]} ∪ P end.

(** [P]: the fibers inside an unfinished [cs_enter]. *)
Inductive cs_reachable (va : Z) : kernel -> gset nat -> Prop :=
  | cr_init k k' :
      0 <= va -> va + kCsSize <= 2 ^ 32 -> cs_init va k = Ok (kStatusSuccess, k') ->
      waiter_count (cs_token_of va) (threads (k_sched k)) = 0 -> cs_reachable va k' ∅
  | cr_enter k P i out k' : cs_reachable va k P -> runs va k i ->
      cs_enter va k = Ok (out, k') -> cs_reachable va k' (after_enter out i P)
  | cr_leave k P i st k' : cs_reachable va k P -> runs va k i -> i ∉ P ->
      cs_leave va k = Ok (st, k') -> cs_reachable va k' P
  | cr_try k P i x k' : cs_reachable va k P -> runs va k i -> i ∉ P ->
      cs_try_enter va k = Ok (x, k') -> cs_reachable va k' P
  | cr_other k P k' : cs_reachable va k P -> leaves_alone va k k' -> cs_reachable va k' P.

Record cs_inv (va : Z) (k : kernel) (P : gset nat) (l rc o : Z) : Prop := {
  ci_mem : cs_mem (k_ram k) va l rc o;
  ci_count : l + 1 = waiter_count (cs_token_of va) (threads (k_sched k));
  ci_held : o = 0 /\ rc = 0 \/ o <> 0 /\ 1 <= rc;
  ci_pending : forall i t, threads (k_sched k) !! i = Some t ->
    waits_on (cs_token_of va) t = true -> i ∈ P;
  ci_handoff : o = 0 -> 0 <= l -> exists i t, i ∈ P /\ threads (k_sched k) !! i = Some t /\
    waits_on (cs_token_of va) t = false;
}.

(** Initialisation, from any memory that can be written. *)
Lemma wr32_keeps va n off v k :
  0 <= va -> va + n <= 2 ^ 32 -> 0 <= off -> off + 4 <= n -> is_u32 v ->
  writable (k_ram k) va n = true ->
  exists r, wr32 (va + off) v k = Ok (tt, with_ram k r) /\ writable r va n = true /\
    read32 r (va + off) = Some v /\
    forall a, a + 4 <= va + off \/ va + off + 4 <= a -> read32 r a = read32 (k_ram k) a.
Proof. intros. eexists. split; [reflexivity|]. by apply (store_word _ va n off v). Qed.

Lemma header_keeps va n k o :
  0 <= va -> va + n <= 2 ^ 32 -> 16 <= n -> o_kind o = Event -> o_guest_va o = va ->
  writable (k_ram k) va n = true ->
  exists r, write_dispatcher_header o k = Ok (tt, with_ram k r) /\ writable r va n = true.
Proof.
  intros Hva Hn Hn16 Hk Hg Hw. unfold write_dispatcher_header. rewrite Hk, Hg.
  case_if; [exists (k_ram k); by destruct k|].
  assert (Hb : is_u32 (u32 (bool_val (ev_signaled (o_event o))))) by apply u32_is.
  destruct (wr32_keeps va n 0 (Z.shiftl 2 16) k) as (r1 & E1 & W1 & _); [done..|lia|done|done|].
  destruct (wr32_keeps va n 4 (u32 (bool_val (ev_signaled (o_event o)))) (with_ram k r1))
    as (r2 & E2 & W2 & _); [done..|lia|done|done|].
  destruct (wr32_keeps va n 8 (u32 (va + 8)) (with_ram k r2)) as (r3 & E3 & W3 & _);
    [done..|lia|apply u32_is|done|].
  destruct (wr32_keeps va n 12 (u32 (va + 8)) (with_ram k r3)) as (r4 & E4 & W4 & _);
    [done..|lia|apply u32_is|done|].
  exists r4. split; [|done]. rewrite Z.add_0_r in E1.
  rewrite (kbind_ok _ _ _ _ _ E1), (kbind_ok _ _ _ _ _ E2), (kbind_ok _ _ _ _ _ E3). exact E4.
Qed.

Lemma cs_init_spec va k k' :
  0 <= va -> va + kCsSize <= 2 ^ 32 -> cs_init va k = Ok (kStatusSuccess, k') ->
  k_sched k' = k_sched k /\ cs_mem (k_ram k') va (-1) 0 0.
Proof.
  intros Hva Hn. unfold cs_init, can_write. unfold kbind at 1.
  destruct (writable (k_ram k) va kCsSize) eqn:Hw; cbn [negb]; [|unfold kret; by intros [=]].
  destruct (header_keeps va kCsSize k (MkObject Event va 0 [] (MkEvent 0 false)
    (o_mutant fresh_object) (o_semaphore fresh_object) (o_thread fresh_object)))
    as (r & E & W); [done..|].
  rewrite (kbind_ok _ _ _ _ _ E).
  unfold kCsSize, kCsLockCount, kCsRecursion, kCsOwningThread in *.
  destruct (wr32_keeps va 0x1C 0x10 (u32 (-1)) (with_ram k r)) as (r1 & E1 & W1 & R1 & _); [done..|].
  destruct (wr32_keeps va 0x1C 0x14 0 (with_ram k r1)) as (r2 & E2 & W2 & R2 & F2); [done..|].
  destruct (wr32_keeps va 0x1C 0x18 0 (with_ram k r2)) as (r3 & E3 & W3 & R3 & F3); [done..|].
  rewrite (kbind_ok _ _ _ _ _ E1), (kbind_ok _ _ _ _ _ E2), (kbind_ok _ _ _ _ _ E3).
  unfold kret. intros [= <-]. split; [done|]. cbn [k_ram with_ram] in *. split; try done.
  - unfold kCsLockCount. by rewrite F3, F2 by lia.
  - unfold kCsRecursion. by rewrite F3 by lia.
Qed.

(** ** The invariant *)

Lemma inv_same_sched va k k' P P' l rc o l' rc' o' :
  cs_inv va k P l rc o -> k_sched k' = k_sched k -> l' = l -> o' <> 0 -> 1 <= rc' ->
  cs_mem (k_ram k') va l' rc' o' ->
  (forall i t, threads (k_sched k) !! i = Some t -> waits_on (cs_token_of va) t = true ->
     i ∈ P -> i ∈ P') ->
  cs_inv va k' P' l' rc' o'.
Proof.
  intros [Hm Hc Hh Hp Hf] Hs -> Ho Hrc Hm' HP. split; rewrite ?Hs; try done.
  - by right.
  - eauto.
Qed.

Lemma inv_enter va k P l rc o i out k' :
  cs_inv va k P l rc o -> runs va k i -> cs_enter va k = Ok (out, k') ->
  exists l' rc' o', cs_inv va k' (after_enter out i P) l' rc' o'.
Proof.
  intros Hi [Hcur (t & Ht & Hw) Hh] E.
  pose proof Hi as [Hm Hc Hheld Hp Hf].
  assert (HP : forall j u, threads (k_sched k) !! j = Some u ->
    waits_on (cs_token_of va) u = true -> j ∈ P -> j ∈ P ∖ {[i]}).
  { intros j u Hj Hu HjP. apply elem_of_difference. split; [done|].
    intros ->%elem_of_singleton. congruence. }
  destruct (cs_enter_spec _ _ _ _ _ _ _ _ Hm eq_refl ltac:(lia) ltac:(unfold is_u32; lia) E)
    as [(Ho & -> & Hs & Hm')|[(Ho & -> & Hs & Hm')|(Ho & Hne & -> & Hm' & j & Hj & Hs)]].
  - exists l, (rc + 1), o. eapply inv_same_sched; eauto; lia.
  - exists l, 1, (current_handle (k_sched k)). eapply inv_same_sched; eauto; lia.
  - exists (l + 1), rc, o. assert (j = i) as -> by congruence.
    unfold thread_block, upd in Hs. split; try done; [|rewrite Hs; simpl..].
    + rewrite Hs. simpl threads. rewrite (list_alter_insert _ _ _ _ Ht).
      rewrite (waiter_count_insert _ _ _ _ _ Ht), Hw, <- Hc. simpl.
      unfold waits_on. simpl. rewrite Z.eqb_refl. simpl. lia.
    + intros j u. destruct (decide (j = i)) as [->|Hji]; [set_solver|].
      rewrite list_lookup_alter_ne by done. intros Hju Hu. apply elem_of_union_r. eauto.
Qed.

(** The last level is left with fibers waiting: one of them is handed on. *)
Lemma inv_handoff va k k' P l rc o :
  cs_inv va k P l rc o -> 0 <= l ->
  k_sched k' = snd (signal (k_sched k) (cs_token_of va) false) ->
  cs_mem (k_ram k') va (l - 1) 0 0 -> cs_inv va k' P (l - 1) 0 0.
Proof.
  intros [Hm Hc Hh Hp Hf] Hl Hs Hm'.
  destruct (signal_one_spec (k_sched k) (cs_token_of va)) as (n & s & E & _ & Hone).
  rewrite E in Hs. simpl in Hs. destruct Hone as [[H0 _]|(i & t & Hi & Hw & Hts)]; [lia|].
  pose proof (lookup_lt_Some _ _ _ Hi) as Hlt.
  split; try done; rewrite ?Hs, ?Hts.
  - rewrite (waiter_count_insert _ _ _ _ _ Hi), Hw, <- Hc. simpl. lia.
  - by left.
  - intros j u. destruct (decide (i = j)) as [->|Hne].
    + rewrite list_lookup_insert_eq by done. by intros [= <-].
    + rewrite list_lookup_insert_ne by done. apply Hp.
  - intros _ _. exists i, (wake t). split; [by eapply Hp|]. by rewrite list_lookup_insert_eq.
Qed.

Lemma inv_leave va k P l rc o st k' :
  cs_inv va k P l rc o -> 0 < current_handle (k_sched k) -> cs_leave va k = Ok (st, k') ->
  exists l' rc' o', cs_inv va k' P l' rc' o'.
Proof.
  intros Hi Hcur E. pose proof Hi as [Hm Hc Hh Hp Hf].
  destruct (cs_leave_spec _ _ _ _ _ _ _ _ Hm eq_refl E)
    as [(_ & _ & ->)|[(Ho & _ & Hr & Hs & Hm')|(Ho & _ & Hr & [(Hl & Hs & Hm')|(Hl & Hs & Hm')])]].
  - eauto.
  - exists l, (rc - 1), o. eapply inv_same_sched; eauto; lia.
  - exists l, 0, 0. split; rewrite ?Hs; try done; [by left|]. lia.
  - exists (l - 1), 0, 0. by eapply inv_handoff.
Qed.

Lemma inv_try va k P l rc o x k' :
  cs_inv va k P l rc o -> 0 < current_handle (k_sched k) < 2 ^ 32 ->
  cs_try_enter va k = Ok (x, k') -> exists l' rc' o', cs_inv va k' P l' rc' o'.
Proof.
  intros Hi Hcur E. pose proof Hi as [Hm Hc Hh Hp Hf].
  destruct (cs_try_spec _ _ _ _ _ _ _ _ Hm eq_refl ltac:(lia) ltac:(unfold is_u32; lia) E)
    as [Hs [(Ho & _ & Hm')|[(Ho & _ & Hm')|(_ & _ & _ & ->)]]]; [| |eauto].
  - exists l, (rc + 1), o. eapply inv_same_sched; eauto; lia.
  - exists l, 1, (current_handle (k_sched k)). eapply inv_same_sched; eauto; lia.
Qed.

Lemma inv_other va k k' P l rc o :
  cs_inv va k P l rc o -> leaves_alone va k k' -> cs_inv va k' P l rc o.
Proof.
  intros [Hm Hc Hh Hp Hf] [H1 H2 H3 H4]. split; try done.
  - by apply H1.
  - by rewrite H3.
  - intros i t' Ht' Hw. destruct (threads (k_sched k) !! i) as [t|] eqn:Et.
    + destruct (H2 _ _ Et) as (t2 & Et2 & Hw2). eapply Hp; [done|]. congruence.
    + by rewrite (H4 _ Et _ Ht') in Hw.
  - intros Ho Hl. destruct (Hf Ho Hl) as (i & t & HiP & Hi & Hw).
    destruct (H2 _ _ Hi) as (t2 & Et2 & Hw2). exists i, t2. rewrite Hw2. done.
Qed.

Lemma cs_reachable_inv va k P : cs_reachable va k P -> exists l rc o, cs_inv va k P l rc o.
Proof.
  induction 1 as [k k' Hva Hn E H0|k P i out k' _ (l & rc & o & IH) Hr E
    |k P i st k' _ (l & rc & o & IH) Hr HP E|k P i x k' _ (l & rc & o & IH) Hr HP E
    |k P k' _ (l & rc & o & IH) Hr].
  - destruct (cs_init_spec _ _ _ Hva Hn E) as [Hs Hm]. exists (-1), 0, 0.
    split; rewrite ?Hs; try done; [by left|].
    intros i t Hi Hw. destruct (waiter_count_pos (cs_token_of va) (threads (k_sched k))) as [_ Hp].
    enough (0 < 0) by lia. rewrite <- H0 at 2. apply Hp. eauto.
  - by eapply inv_enter.
  - eapply inv_leave; [done| |done]. apply Hr.
  - eapply inv_try; [done| |done]. apply Hr.
  - exists l, rc, o. by eapply inv_other.
Qed.

(** C6. Critical sections keep count and lose no wake-up. However fibers
    interleave, LockCount + 1 is the number of fibers blocked on the section;
    it is either free with recursion 0 or owned with recursion at least 1;
    every fiber blocked on it is inside an unfinished enter; and whenever it
    is free while fibers are blocked, some fiber has been released and is
    about to retry. *)
Theorem cs_waiters_accounted va k P :
  cs_reachable va k P ->
  exists l rc o, cs_mem (k_ram k) va l rc o /\
    l + 1 = waiter_count (cs_token_of va) (threads (k_sched k)) /\
    (o = 0 /\ rc = 0 \/ o <> 0 /\ 1 <= rc) /\
    (forall i t, threads (k_sched k) !! i = Some t -> waits_on (cs_token_of va) t = true -> i ∈ P) /\
    (o = 0 -> 0 < waiter_count (cs_token_of va) (threads (k_sched k)) ->
       exists i t, i ∈ P /\ threads (k_sched k) !! i = Some t /\ waits_on (cs_token_of va) t = false).
Proof.
  intros (l & rc & o & [Hm Hc Hh Hp Hf])%cs_reachable_inv. exists l, rc, o. split_and!; try done.
  intros Ho Hw. apply Hf; [done|lia].
Qed.

Lemma Zpos_ne x : 0 < x -> x <> 0.
Proof. lia. Qed.
Lemma u32_of x : 0 < x < 2 ^ 32 -> is_u32 x.
Proof. unfold is_u32. lia. Qed.

Lemma excl_enter va k l rc o me out k' i t :
  cs_mem (k_ram k) va l rc o -> current_handle (k_sched k) = me -> 0 < me < 2 ^ 32 ->
  current (k_sched k) = Some i -> threads (k_sched k) !! i = Some t ->
  cs_enter va k = Ok (out, k') ->
  if (o =? 0) || (o =? me)
  then out = CsDone kStatusSuccess /\ cs_mem (k_ram k') va l (if o =? 0 then 1 else rc + 1) me
  else out = CsBlock /\ cs_mem (k_ram k') va (l + 1) rc o /\
       exists t, threads (k_sched k') !! i = Some t /\ waits_on (cs_token_of va) t = true.
Proof.
  intros Hm Eme Hme Hcur Ht E.
  destruct (cs_enter_spec _ _ _ _ _ _ _ _ Hm Eme (Zpos_ne _ (proj1 Hme)) (u32_of _ Hme) E)
    as [(Ho & -> & Hs & Hm')|[(Ho & -> & Hs & Hm')|(Ho & Hne & -> & Hm' & j & Hj & Hs)]].
  - replace (o =? 0) with false by lia. replace (o =? me) with true by lia. simpl.
    split; [done|]. by rewrite <- Ho.
  - replace (o =? 0) with true by lia. done.
  - replace (o =? 0) with false by lia. replace (o =? me) with false by lia. simpl.
    split_and!; try done. rewrite Hs. assert (j = i) as -> by congruence.
    unfold thread_block, upd. simpl. rewrite list_lookup_alter_eq, Ht. simpl. eexists. split; [done|].
    unfold waits_on. simpl. apply Z.eqb_refl.
Qed.

Lemma excl_try va k l rc o me x k' :
  cs_mem (k_ram k) va l rc o -> current_handle (k_sched k) = me -> 0 < me < 2 ^ 32 ->
  cs_try_enter va k = Ok (x, k') ->
  if (o =? 0) || (o =? me)
  then x = 1 /\ cs_mem (k_ram k') va l (if o =? 0 then 1 else rc + 1) me
  else x = 0 /\ k' = k.
Proof.
  intros Hm Eme Hme E.
  destruct (cs_try_spec _ _ _ _ _ _ _ _ Hm Eme (Zpos_ne _ (proj1 Hme)) (u32_of _ Hme) E)
    as [Hs [(Ho & -> & Hm')|[(Ho & -> & Hm')|(Ho & Hne & -> & ->)]]].
  - replace (o =? 0) with false by lia. replace (o =? me) with true by lia. simpl.
    split; [done|]. by rewrite <- Ho.
  - replace (o =? 0) with true by lia. done.
  - replace (o =? 0) with false by lia. by replace (o =? me) with false by lia.
Qed.

Lemma excl_leave va k l rc o me st k' :
  cs_mem (k_ram k) va l rc o -> (o = 0 /\ rc = 0 \/ o <> 0 /\ 1 <= rc) ->
  current_handle (k_sched k) = me -> 0 < me -> cs_leave va k = Ok (st, k') ->
  if o =? me
  then st = kStatusSuccess /\ exists l', cs_mem (k_ram k') va l' (rc - 1) (if rc =? 1 then 0 else me)
  else st = kStatusInvalidParameter /\ k' = k.
Proof.
  intros Hm Hh Eme Hme E.
  destruct (cs_leave_spec _ _ _ _ _ _ _ _ Hm Eme E)
    as [(Ho & -> & ->)|[(Ho & -> & Hr & Hs & Hm')|(Ho & -> & Hr & Hl)]].
  - by replace (o =? me) with false by lia.
  - replace (o =? me) with true by lia. split; [done|]. exists l.
    replace (rc =? 1) with false by lia. by rewrite <- Ho.
  - replace (o =? me) with true by lia. split; [done|]. assert (rc = 1) as -> by lia. simpl.
    destruct Hl as [(_ & _ & ?)|(_ & _ & ?)]; by eexists.
Qed.

(** C11. Critical sections exclude. A running fiber enters a section exactly
    when it is free or its own, and then owns it; otherwise it is put to sleep
    on the section's channel (or, trying, turned away) and the owner is
    unchanged. Only the owner can leave; the section becomes free exactly when
    the outermost level is left, with recursion 0. *)
Theorem cs_mutual_exclusion va k P i :
  cs_reachable va k P -> runs va k i ->
  let me := current_handle (k_sched k) in
  exists l rc o, cs_mem (k_ram k) va l rc o /\
    (forall out k', cs_enter va k = Ok (out, k') ->
       if (o =? 0) || (o =? me)
       then out = CsDone kStatusSuccess /\ cs_mem (k_ram k') va l (if o =? 0 then 1 else rc + 1) me
       else out = CsBlock /\ cs_mem (k_ram k') va (l + 1) rc o /\
            exists t, threads (k_sched k') !! i = Some t /\ waits_on (cs_token_of va) t = true) /\
    (forall x k', cs_try_enter va k = Ok (x, k') ->
       if (o =? 0) || (o =? me)
       then x = 1 /\ cs_mem (k_ram k') va l (if o =? 0 then 1 else rc + 1) me
       else x = 0 /\ k' = k) /\
    (forall st k', cs_leave va k = Ok (st, k') ->
       if o =? me
       then st = kStatusSuccess /\ exists l', cs_mem (k_ram k') va l' (rc - 1) (if rc =? 1 then 0 else me)
       else st = kStatusInvalidParameter /\ k' = k).
Proof.
  intros (l & rc & o & [Hm Hc Hh _ _])%cs_reachable_inv [Hcur (t & Ht & Hw) Hme] me.
  exists l, rc, o. split; [done|]. split_and!; intros out k' E.
  - by eapply excl_enter.
  - by eapply excl_try.
  - eapply excl_leave; try done. apply Hme.
Qed.

(** Switching fibers leaves every section alone. *)
Lemma switch_alone va k c : leaves_alone va k (with_sched k (with_current (k_sched k) c)).
Proof. split; simpl; eauto. by intros i ->. Qed.

End cs.

(** ** Witnesses: one fiber inside, one blocked *)

Definition kernel_of {A} (o : outcome (A * kernel)) (k : kernel) : kernel :=
  match o with Ok (_, k') => k' | _ => k end.
Definition as_fiber (i : nat) (k : kernel) : kernel := with_sched k (with_current (k_sched k) (Some i)).

Definition cs_k1 : kernel := as_fiber 0 (kernel_of (cs_init 4096 KrnlSpec.demo_kernel) KrnlSpec.demo_kernel).
Definition cs_k2 : kernel := as_fiber 1 (kernel_of (cs_enter 4096 cs_k1) cs_k1).
Definition cs_k3 : kernel := as_fiber 0 (kernel_of (cs_enter 4096 cs_k2) cs_k2).

Lemma cs_run1 : runs 4096 cs_k1 0.
Proof.
  split; [vm_compute; reflexivity| |vm_compute; split; reflexivity].
  eexists. split; vm_compute; reflexivity.
Qed.
Lemma cs_run2 : runs 4096 cs_k2 1.
Proof.
  split; [vm_compute; reflexivity| |vm_compute; split; reflexivity].
  eexists. split; vm_compute; reflexivity.
Qed.
Lemma enter_step va k P i j :
  cs_reachable va k P -> runs va k i ->
  match cs_enter va k with
  | Ok (out, k') => cs_reachable va (as_fiber j k') (after_enter out i P)
  | _ => True
  end.
Proof.
  intros Hr Hi. destruct (cs_enter va k) as [[out k']| |] eqn:E; [|done|done].
  eapply cr_other; [by eapply cr_enter|apply switch_alone].
Qed.

Lemma cs_reach1 : cs_reachable 4096 cs_k1 ∅.
Proof.
  unfold cs_k1. destruct (cs_init 4096 KrnlSpec.demo_kernel) as [[st k]| |] eqn:E;
    [|vm_compute in E; discriminate E..].
  assert (st = kStatusSuccess) as ->.
  { assert (H : match cs_init 4096 KrnlSpec.demo_kernel with Ok (x, _) => x | _ => 1 end = 0)
      by (vm_compute; reflexivity). rewrite E in H. exact H. }
  eapply cr_other; [|apply switch_alone].
  apply (cr_init 4096 KrnlSpec.demo_kernel k); [lia|unfold kCsSize; lia|exact E|].
  vm_compute. reflexivity.
Qed.

(** The result of a run, apart from the kernel it ends in. *)
Definition res_of {A} (o : outcome (A * kernel)) : option A :=
  match o with Ok (x, _) => Some x | _ => None end.
Lemma res_ok {A} (o : outcome (A * kernel)) x : res_of o = Some x -> exists k, o = Ok (x, k).
Proof. destruct o as [[y k]| |]; simpl; [|done|done]. intros [= ->]. by exists k. Qed.

Lemma cs_reach2 : exists P, cs_reachable 4096 cs_k2 P.
Proof.
  pose proof (enter_step _ _ _ _ 1 cs_reach1 cs_run1) as H1.
  assert (E1 : exists k, cs_enter 4096 cs_k1 = Ok (CsDone 0, k))
    by (apply res_ok; vm_compute; reflexivity).
  destruct E1 as [k1 E1]. rewrite E1 in H1.
  assert (Hk2 : cs_k2 = as_fiber 1 k1) by (unfold cs_k2; by rewrite E1). rewrite <- Hk2 in H1.
  eexists. exact H1.
Qed.

Lemma cs_reach3 : exists P, cs_reachable 4096 cs_k3 P.
Proof.
  destruct cs_reach2 as [P H1].
  pose proof (enter_step _ _ _ _ 0 H1 cs_run2) as H2.
  assert (E2 : exists k, cs_enter 4096 cs_k2 = Ok (CsBlock, k))
    by (apply res_ok; vm_compute; reflexivity).
  destruct E2 as [k2 E2]. rewrite E2 in H2.
  assert (Hk3 : cs_k3 = as_fiber 0 k2) by (unfold cs_k3; by rewrite E2). rewrite <- Hk3 in H2.
  eexists. exact H2.
Qed.

Lemma cs_waiters_accounted_witness :
  exists l rc o, cs_mem (k_ram cs_k3) 4096 l rc o /\ l + 1 = 1.
Proof.
  destruct cs_reach3 as [P HP].
  destruct (cs_waiters_accounted 4096 cs_k3 P HP) as (l & rc & o & Hm & Hl & _).
  exists l, rc, o. split; [exact Hm|]. rewrite Hl. vm_compute. reflexivity.
Defined.

Lemma cs_mutual_exclusion_witness :
  exists l rc o, cs_mem (k_ram cs_k2) 4096 l rc o /\
    exists k', cs_try_enter 4096 cs_k2 = Ok (0, k') /\ k' = cs_k2.
Proof.
  destruct cs_reach2 as [P HP].
  destruct (cs_mutual_exclusion 4096 cs_k2 P 1 HP cs_run2) as (l & rc & o & Hm & _ & Htry & _).
  exists l, rc, o. split; [exact Hm|].
  assert (E : exists k', cs_try_enter 4096 cs_k2 = Ok (0, k')) by (apply res_ok; vm_compute; reflexivity).
  destruct E as [k' E]. exists k'. split; [exact E|].
  specialize (Htry 0 k' E). destruct ((o =? 0) || (o =? _)); [|apply Htry].
  destruct Htry as [H _]. discriminate H.
Defined.

End KrnlCs.
