(* ===== verification/Float32.v ===== *)
(** IEEE binary32 values and the parts of the C++ library the graphics code
    uses on them ([float] arithmetic, comparisons, [std::min], [std::max],
    [std::clamp], [std::floor], casts), on the Standard Library's executable
    floating-point specification. Arithmetic rounds to nearest even and is not
    contracted. The transcendental functions of libm are a class: only their
    names are known. *)
From stdpp Require Import base numbers list strings.
From Stdlib Require Import ZArith Lia.
From Stdlib Require Import SpecFloat.
From S2P Require Import Prelude.
Open Scope Z_scope.

Module Float32.

Definition prec : Z := 24.
Definition emax : Z := 128.

Definition f32 : Type := spec_float.

Definition fneg (x : f32) : f32 := SFopp x.
Definition fabs (x : f32) : f32 := SFabs x.
Definition fadd (x y : f32) : f32 := SFadd prec emax x y.
Definition fsub (x y : f32) : f32 := SFsub prec emax x y.
Definition fmul (x y : f32) : f32 := SFmul prec emax x y.
Definition fdiv (x y : f32) : f32 := SFdiv prec emax x y.
Definition fsqrt (x : f32) : f32 := SFsqrt prec emax x.
Definition flt (x y : f32) : bool := SFltb x y.
Definition fge (x y : f32) : bool := SFleb y x.
Definition feq (x y : f32) : bool := SFeqb x y.

(** Literals: [m * 2^e]. *)
Definition lit (m : positive) (e : Z) : f32 := binary_round prec emax false m e.
Definition fzero : f32 := S754_zero false.
Definition fone : f32 := lit 1 0.
Definition ftwo : f32 := lit 1 1.
Definition ffour : f32 := lit 1 2.
Definition fhalf : f32 := lit 1 (-1).
Definition f255 : f32 := lit 255 0.
Definition finf : f32 := S754_infinity false.
Definition fmone : f32 := fneg fone.

Definition fmin (a b : f32) : f32 := if flt b a then b else a.
Definition fmax (a b : f32) : f32 := if flt a b then b else a.
Definition fclamp (v lo hi : f32) : f32 := if flt v lo then lo else if flt hi v then hi else v.

Definition is_nan (x : f32) : bool := match x with S754_nan => true | _ => false end.
Definition is_inf (x : f32) : bool := match x with S754_infinity _ => true | _ => false end.

(** Integer parts, exact. *)
Definition floorZ (s : bool) (m : positive) (e : Z) : Z :=
  let v := if s then Zneg m else Zpos m in
  if 0 <=? e then v * 2 ^ e else v `div` 2 ^ (- e).
Definition truncZ (s : bool) (m : positive) (e : Z) : Z :=
  let v := if 0 <=? e then Zpos m * 2 ^ e else Zpos m `div` 2 ^ (- e) in
  if s then - v else v.

Definition ffloor (x : f32) : f32 :=
  match x with
  | S754_finite s m e => if 0 <=? e then x else binary_normalize prec emax (floorZ s m e) 0 s
  | _ => x
  end.

(** [static_cast<int>(x)]: undefined unless the truncated value fits. *)
Definition to_int (x : f32) : outcome Z :=
  match x with
  | S754_zero _ => Ok 0
  | S754_finite s m e =>
      let v := truncZ s m e in
      if (- 2 ^ 31 <=? v) && (v <? 2 ^ 31) then Ok v else Ub "float to int conversion"
  | _ => Ub "float to int conversion"
  end.

(** [exp2] and [log2] on float. *)
Class Libm := { exp2f : f32 -> f32; log2f : f32 -> f32 }.

(** ** Order *)

Lemma flt_irrefl x : flt x x = false.
Proof.
  unfold flt, SFltb, SFcompare. destruct x as [s|s| |s m e]; try done; destruct s; try done.
  - by rewrite Z.compare_refl, Pos.compare_cont_refl.
  - by rewrite Z.compare_refl, Pos.compare_cont_refl.
Qed.

(** A clamped value is NaN or between its bounds. *)
Lemma fclamp_range v lo hi :
  flt hi lo = false ->
  flt (fclamp v lo hi) lo = false /\ flt hi (fclamp v lo hi) = false.
Proof.
  intros Hb. unfold fclamp. destruct (flt v lo) eqn:E1; [split; [apply flt_irrefl|done]|].
  destruct (flt hi v) eqn:E2; [split; [done|apply flt_irrefl]|done].
Qed.

End Float32.
