(* ===== verification/XboxVs.v ===== *)
(** NV2A vertex-shader microcode (src/xbox_vs.cpp, include/xbox_vs.h): slot
    decoding and validation, and the interpreter over the guest register
    file. Indexing one of the fixed arrays out of range, an unrepresentable
    float-to-int conversion and int overflow are undefined behaviour. *)
From stdpp Require Import base numbers list strings pretty.
From Stdlib Require Import ZArith Lia.
From S2P Require Import Prelude Float32.
Open Scope Z_scope.

Module XboxVs.
Import Float32.

(** ** Data *)

Inductive VsIluOp := INop | IMov | Rcp | Rcc | Rsq | Exp | Log | Lit.
Inductive VsMacOp :=
  | MNop | MMov | Mul | Add | Mad | Dp3 | Dph | Dp4 | Dst | Min | Max | Slt | Sge | Arl.
Inductive VsSwizzle := X | Y | Z' | W.
Inductive VsSrcFile := None' | R | V | C.
Inductive VsOutFile := Constant | Register.

#[export] Instance VsIluOp_eq_dec : EqDecision VsIluOp.
Proof. solve_decision. Defined.
#[export] Instance VsMacOp_eq_dec : EqDecision VsMacOp.
Proof. solve_decision. Defined.
#[export] Instance VsSwizzle_eq_dec : EqDecision VsSwizzle.
Proof. solve_decision. Defined.
#[export] Instance VsSrcFile_eq_dec : EqDecision VsSrcFile.
Proof. solve_decision. Defined.
#[export] Instance VsOutFile_eq_dec : EqDecision VsOutFile.
Proof. solve_decision. Defined.

Definition ilu_ops : list VsIluOp := [INop; IMov; Rcp; Rcc; Rsq; Exp; Log; Lit].
Definition mac_ops : list VsMacOp :=
  [MNop; MMov; Mul; Add; Mad; Dp3; Dph; Dp4; Dst; Min; Max; Slt; Sge; Arl].
Definition swizzles : list VsSwizzle := [X; Y; Z'; W].
Definition src_files : list VsSrcFile := [None'; R; V; C].
Definition out_files : list VsOutFile := [Constant; Register].

(** [static_cast] to an enum, on its named values. *)
Definition enum {A} (l : list A) (d : A) (x : Z) : A := nth (Z.to_nat x) l d.

Record VsSource := MkSource {
  src_file : VsSrcFile;
  src_reg : Z;
  src_negate : bool;
  src_swizzle : VsSwizzle * VsSwizzle * VsSwizzle * VsSwizzle;
}.

Record VsSlot := MkSlot {
  sl_ilu : VsIluOp;
  sl_mac : VsMacOp;
  sl_const_index : Z;
  sl_input_index : Z;
  sl_a : VsSource;
  sl_b : VsSource;
  sl_c : VsSource;
  sl_mac_mask : Z;
  sl_temp_reg : Z;
  sl_ilu_mask : Z;
  sl_out_mask : Z;
  sl_out_file : VsOutFile;
  sl_out_address : Z;
  sl_out_from_ilu : bool;
  sl_a0_relative : bool;
  sl_final : bool;
}.

Record VsProgram := MkProgram { p_slots : list VsSlot; p_valid : bool; p_error : string }.

(** ** Decoding *)

(** Four dwords of one slot. *)
Record slot_words := MkWords { w0 : Z; w1 : Z; w2 : Z; w3 : Z }.

Definition bits (w bit len : Z) : Z := Z.land (Z.shiftr w bit) (Z.shiftl 1 len - 1).
Definition flag (w bit : Z) : bool := negb (bits w bit 1 =? 0).

Definition mac_uses_a (op : VsMacOp) : bool :=
  match op with MNop | Add => false | _ => true end.
Definition mac_uses_b (op : VsMacOp) : bool :=
  match op with MMov | Add | Arl => false | _ => true end.
Definition mac_uses_c (op : VsMacOp) : bool :=
  match op with Add | Mad => true | _ => false end.

Definition valid_output_index (idx : Z) : bool :=
  (idx =? 0) || ((3 <=? idx) && (idx <=? 12)).

Definition valid_r_index (file : VsSrcFile) (reg : Z) : bool :=
  negb (bool_decide (file = R)) || (reg <=? 12).

Definition swizzle_at (w b0 b1 b2 b3 : Z) : VsSwizzle * VsSwizzle * VsSwizzle * VsSwizzle :=
  (enum swizzles X (bits w b0 2), enum swizzles X (bits w b1 2),
   enum swizzles X (bits w b2 2), enum swizzles X (bits w b3 2)).

(** The field extraction of [vs_decode_slot]. *)
Definition decode_fields (w : slot_words) : VsSlot :=
  MkSlot
    (enum ilu_ops INop (bits (w1 w) 25 3))
    (enum mac_ops MNop (bits (w1 w) 21 4))
    (bits (w1 w) 13 8)
    (bits (w1 w) 9 4)
    (MkSource (enum src_files None' (bits (w2 w) 26 2)) (bits (w2 w) 28 4)
              (flag (w1 w) 8) (swizzle_at (w1 w) 6 4 2 0))
    (MkSource (enum src_files None' (bits (w2 w) 11 2)) (bits (w2 w) 13 4)
              (flag (w2 w) 25) (swizzle_at (w2 w) 23 21 19 17))
    (MkSource (enum src_files None' (bits (w3 w) 28 2))
              (Z.lor (Z.shiftl (bits (w2 w) 0 2) 2) (bits (w3 w) 30 2))
              (flag (w2 w) 10) (swizzle_at (w2 w) 8 6 4 2))
    (bits (w3 w) 24 4) (bits (w3 w) 20 4) (bits (w3 w) 16 4) (bits (w3 w) 12 4)
    (enum out_files Constant (bits (w3 w) 11 1))
    (bits (w3 w) 3 8)
    (flag (w3 w) 2) (flag (w3 w) 1) (flag (w3 w) 0).

Definition file_ok (s : VsSource) : bool :=
  negb (bool_decide (src_file s = None')) && valid_r_index (src_file s) (src_reg s).

Definition has_mac (s : VsSlot) : bool := negb (bool_decide (sl_mac s = MNop)).
Definition has_ilu (s : VsSlot) : bool := negb (bool_decide (sl_ilu s = INop)).

(** The checks, in the order of the code; [None] is success. *)
Definition check_slot (mac : Z) (s : VsSlot) : option string :=
  if 13 <? mac then Some "MAC opcode is reserved"
  else if 191 <? sl_const_index s then Some "constant index out of range"
  else if has_ilu s && negb (file_ok (sl_c s)) then Some "ILU source C is not a usable register"
  else if has_mac s && mac_uses_a (sl_mac s) && negb (file_ok (sl_a s))
  then Some "MAC source A is not a usable register"
  else if has_mac s && mac_uses_b (sl_mac s) && negb (file_ok (sl_b s))
  then Some "MAC source B is not a usable register"
  else if has_mac s && mac_uses_c (sl_mac s) && negb (file_ok (sl_c s))
  then Some "MAC source C is not a usable register"
  else
    let writes_temp := (has_mac s && negb (sl_mac_mask s =? 0)) ||
                       (has_ilu s && negb (sl_ilu_mask s =? 0)) in
    if writes_temp && (12 <? sl_temp_reg s) then Some "temporary register index out of range"
    else if negb (sl_out_mask s =? 0) then
      match sl_out_file s with
      | Constant => if 191 <? sl_out_address s
                    then Some "writeable constant index out of range" else None
      | Register => if negb (valid_output_index (Z.land (sl_out_address s) 0xF))
                    then Some "output register reserved" else None
      end
    else None.

Definition vs_decode_slot (w : slot_words) : VsSlot + string :=
  let s := decode_fields w in
  match check_slot (bits (w1 w) 21 4) s with
  | None => inl s
  | Some e => inr e
  end.

(** The loop over at most 136 slots, stopping at the final marker. *)
Fixpoint decode_loop (i : nat) (ws : list slot_words) (acc : list VsSlot) : VsProgram :=
  match ws with
  | [] => MkProgram acc false "final instruction marker missing"
  | w :: ws' =>
      match vs_decode_slot w with
      | inr e => MkProgram acc false ("slot " +:+ pretty i +:+ ": " +:+ e)
      | inl s =>
          if sl_final s then MkProgram (acc ++ [s]) true ""
          else decode_loop (S i) ws' (acc ++ [s])
      end
  end.

(** [None] is a null pointer; otherwise the [slot_count] slots it points to. *)
Definition vs_decode_program (words : option (list slot_words)) : VsProgram :=
  match words with
  | None => MkProgram [] false "null program"
  | Some ws => decode_loop 0 (take 136 ws) []
  end.

(** ** The register file *)

Record vec4 := MkVec { vx : f32; vy : f32; vz : f32; vw : f32 }.

Definition vzero : vec4 := MkVec fzero fzero fzero fzero.
Definition splat (x : f32) : vec4 := MkVec x x x x.
Definition vmap (f : f32 -> f32) (a : vec4) : vec4 := MkVec (f (vx a)) (f (vy a)) (f (vz a)) (f (vw a)).
Definition vmap2 (f : f32 -> f32 -> f32) (a b : vec4) : vec4 :=
  MkVec (f (vx a) (vx b)) (f (vy a) (vy b)) (f (vz a) (vz b)) (f (vw a) (vw b)).

Definition component (a : vec4) (s : VsSwizzle) : f32 :=
  match s with X => vx a | Y => vy a | Z' => vz a | W => vw a end.

Record VsRegisters := MkRegs {
  rg_v : list vec4;
  rg_c : list vec4;
  rg_r : list vec4;
  rg_o : list vec4;
  rg_a0 : Z;
}.

Definition with_c (g : VsRegisters) (l : list vec4) : VsRegisters :=
  MkRegs (rg_v g) l (rg_r g) (rg_o g) (rg_a0 g).
Definition with_r (g : VsRegisters) (l : list vec4) : VsRegisters :=
  MkRegs (rg_v g) (rg_c g) l (rg_o g) (rg_a0 g).
Definition with_o (g : VsRegisters) (l : list vec4) : VsRegisters :=
  MkRegs (rg_v g) (rg_c g) (rg_r g) l (rg_a0 g).
Definition with_a0 (g : VsRegisters) (a : Z) : VsRegisters :=
  MkRegs (rg_v g) (rg_c g) (rg_r g) (rg_o g) a.

Definition vs_init_registers : VsRegisters :=
  MkRegs (replicate 16 vzero) (replicate 192 vzero) (replicate 12 vzero)
         (replicate 16 (MkVec fzero fzero fzero fone)) 0.

(** [std::array::operator[]]. *)
Definition at_index (l : list vec4) (i : Z) : outcome vec4 :=
  match (if 0 <=? i then l !! Z.to_nat i else None) with
  | Some x => Ok x
  | None => Ub "array index out of range"
  end.
Definition put_index (l : list vec4) (i : Z) (x : vec4) : outcome (list vec4) :=
  let! _ := at_index l i in Ok (<[Z.to_nat i := x]> l).

Definition swizzle4 (b : vec4) (s : VsSwizzle * VsSwizzle * VsSwizzle * VsSwizzle) : vec4 :=
  let '(s0, s1, s2, s3) := s in
  MkVec (component b s0) (component b s1) (component b s2) (component b s3).

Definition apply_mask (dst v : vec4) (mask : Z) : vec4 :=
  MkVec (if Z.testbit mask 0 then vx v else vx dst) (if Z.testbit mask 1 then vy v else vy dst)
        (if Z.testbit mask 2 then vz v else vz dst) (if Z.testbit mask 3 then vw v else vw dst).

(** A step that can fail with a message, after which execution stops. *)
Definition vs_res (A : Type) : Type := A + string.

(** The register a source names: [inr] is the [false] result. *)
Definition source_base (s : VsSlot) (src : VsSource) (g : VsRegisters) : outcome (vs_res vec4) :=
  match src_file src with
  | R => if src_reg src =? 12 then let! x := at_index (rg_o g) 0 in Ok (inl x)
         else let! x := at_index (rg_r g) (src_reg src) in Ok (inl x)
  | V => let! x := at_index (rg_v g) (sl_input_index s) in Ok (inl x)
  | C =>
      let idx := if sl_a0_relative s then sl_const_index s + rg_a0 g else sl_const_index s in
      if (idx <? - 2 ^ 31) || (2 ^ 31 <=? idx) then Ub "int overflow"
      else if (idx <? 0) || (191 <? idx) then Ok (inr "relative constant index out of range")
      else let! x := at_index (rg_c g) idx in Ok (inl x)
  | None' => Ok (inr "source operand has no register file")
  end.

Definition read_source (s : VsSlot) (src : VsSource) (g : VsRegisters) (force_scalar : bool)
    : outcome (vs_res vec4) :=
  let! b := source_base s src g in
  match b with
  | inr e => Ok (inr e)
  | inl b =>
      let '(s0, _, _, _) := src_swizzle src in
      let out := if force_scalar then splat (component b s0) else swizzle4 b (src_swizzle src) in
      Ok (inl (if src_negate src then vmap fneg out else out))
  end.

(** A source that is read only when the opcode uses it. *)
Definition read_if (use : bool) (s : VsSlot) (src : VsSource) (g : VsRegisters)
    : outcome (vs_res vec4) :=
  if use then read_source s src g false else Ok (inl vzero).

(** ** The two units *)

Definition f_b2f (b : bool) : f32 := if b then fone else fzero.

Definition mac_compute (op : VsMacOp) (a b c : vec4) : vec4 :=
  match op with
  | MMov => a
  | Mul => vmap2 fmul a b
  | Add => vmap2 fadd a c
  | Mad => vmap2 fadd (vmap2 fmul a b) c
  | Dp3 => splat (fadd (fadd (fmul (vx a) (vx b)) (fmul (vy a) (vy b))) (fmul (vz a) (vz b)))
  | Dph => splat (fadd (fadd (fadd (fmul (vx a) (vx b)) (fmul (vy a) (vy b)))
                             (fmul (vz a) (vz b))) (vw b))
  | Dp4 => splat (fadd (fadd (fadd (fmul (vx a) (vx b)) (fmul (vy a) (vy b)))
                             (fmul (vz a) (vz b))) (fmul (vw a) (vw b)))
  | Dst => MkVec fone (fmul (vy a) (vy b)) (vz a) (vw b)
  | Min => vmap2 fmin a b
  | Max => vmap2 fmax a b
  | Slt => vmap2 (fun x y => f_b2f (flt x y)) a b
  | Sge => vmap2 (fun x y => f_b2f (fge x y)) a b
  | MNop | Arl => vzero
  end.

Definition ilu_forces_scalar (op : VsIluOp) : bool :=
  match op with Rcp | Rcc | Rsq | Exp | Log => true | _ => false end.

(** 5.42101e-20f, 1.884467e+19f, 128 - 1/256, 0.001f. *)
Definition kRccLo : f32 := lit 16777213 (-88).
Definition kRccHi : f32 := lit 8569564 41.
Definition kLitBound : f32 := lit 16776704 (-17).
Definition kArlBias : f32 := lit 8589935 (-33).

Section execute.
Context `{libm : Libm}.

Definition ilu_compute (op : VsIluOp) (c : vec4) : vec4 :=
  match op with
  | IMov => c
  | Rcp => splat (fdiv fone (vx c))
  | Rcc =>
      let t := fdiv fone (vx c) in
      splat (if flt fzero t then fclamp t kRccLo kRccHi
             else fclamp t (fneg kRccHi) (fneg kRccLo))
  | Rsq =>
      let s := vx c in
      splat (if feq s fzero then finf else if is_inf s then fzero
             else fdiv fone (fsqrt (fabs s)))
  | Exp =>
      let s := vx c in
      let fl := ffloor s in
      MkVec (exp2f fl) (fsub s fl) (exp2f s) fone
  | Log =>
      let tmp := fabs (vx c) in
      if feq tmp fzero then MkVec (fneg finf) fone (fneg finf) fone
      else let fl := ffloor (log2f tmp) in
           MkVec fl (fdiv tmp (exp2f fl)) (log2f tmp) fone
  | Lit =>
      let sw := fclamp (vw c) (fneg kLitBound) kLitBound in
      let sx := fmax (vx c) fzero in
      let sy := fmax (vy c) fzero in
      let z := if flt fzero sx then exp2f (fmul sw (log2f sy)) else fzero in
      MkVec fone sx z fone
  | INop => vzero
  end.

(** ** Execution *)

Definition write_temp (g : VsRegisters) (reg : Z) (v : vec4) (mask : Z) : outcome VsRegisters :=
  if reg =? 12 then
    let! d := at_index (rg_o g) 0 in
    let! l := put_index (rg_o g) 0 (apply_mask d v mask) in Ok (with_o g l)
  else
    let! d := at_index (rg_r g) reg in
    let! l := put_index (rg_r g) reg (apply_mask d v mask) in Ok (with_r g l).

Definition write_output (s : VsSlot) (v : vec4) (g : VsRegisters)
    : outcome (vs_res VsRegisters) :=
  match sl_out_file s with
  | Constant =>
      if 191 <? sl_out_address s then Ok (inr "writeable constant index out of range")
      else
        let! d := at_index (rg_c g) (sl_out_address s) in
        let! l := put_index (rg_c g) (sl_out_address s) (apply_mask d v (sl_out_mask s)) in
        Ok (inl (with_c g l))
  | Register =>
      let idx := Z.land (sl_out_address s) 0xF in
      if negb (valid_output_index idx) then Ok (inr "output register reserved")
      else
        let! d := at_index (rg_o g) idx in
        let! l := put_index (rg_o g) idx (apply_mask d v (sl_out_mask s)) in
        Ok (inl (with_o g l))
  end.

(** The MAC result of a slot and the registers after an ARL. *)
Definition run_mac (s : VsSlot) (g : VsRegisters) : outcome (vs_res (vec4 * VsRegisters)) :=
  if negb (has_mac s) then Ok (inl (vzero, g)) else
  let! a := read_if (mac_uses_a (sl_mac s)) s (sl_a s) g in
  match a with
  | inr e => Ok (inr e)
  | inl a =>
      let! b := read_if (mac_uses_b (sl_mac s)) s (sl_b s) g in
      match b with
      | inr e => Ok (inr e)
      | inl b =>
          let! c := read_if (mac_uses_c (sl_mac s)) s (sl_c s) g in
          match c with
          | inr e => Ok (inr e)
          | inl c =>
              if bool_decide (sl_mac s = Arl) then
                let! i := to_int (ffloor (fadd (vx a) kArlBias)) in
                Ok (inl (a, with_a0 g i))
              else Ok (inl (mac_compute (sl_mac s) a b c, g))
          end
      end
  end.

Definition run_ilu (s : VsSlot) (g : VsRegisters) : outcome (vs_res vec4) :=
  if negb (has_ilu s) then Ok (inl vzero) else
  let! c := read_source s (sl_c s) g (ilu_forces_scalar (sl_ilu s)) in
  match c with
  | inr e => Ok (inr e)
  | inl c => Ok (inl (ilu_compute (sl_ilu s) c))
  end.

(** Temporary writes: a paired ILU owns R1, and a MAC write to R1 is dropped. *)
Definition write_temps (s : VsSlot) (mac_res ilu_res : vec4) (g : VsRegisters)
    : outcome VsRegisters :=
  let! g := (if has_mac s && negb (has_ilu s && (sl_temp_reg s =? 1)) && negb (sl_mac_mask s =? 0)
             then write_temp g (sl_temp_reg s) mac_res (sl_mac_mask s) else Ok g) in
  if has_ilu s && negb (sl_ilu_mask s =? 0)
  then write_temp g (if has_mac s then 1 else sl_temp_reg s) ilu_res (sl_ilu_mask s)
  else Ok g.

Definition write_outputs (s : VsSlot) (mac_res ilu_res : vec4) (g : VsRegisters)
    : outcome (vs_res VsRegisters) :=
  if sl_out_mask s =? 0 then Ok (inl g)
  else if sl_out_from_ilu s && has_ilu s then write_output s ilu_res g
  else if negb (sl_out_from_ilu s) && has_mac s then write_output s mac_res g
  else Ok (inl g).

(** One slot: the registers afterwards, and the error it stopped with. *)
Definition exec_slot (s : VsSlot) (g : VsRegisters) : outcome (option string * VsRegisters) :=
  let! m := run_mac s g in
  match m with
  | inr e => Ok (Some e, g)
  | inl (mac_res, g) =>
      let! i := run_ilu s g in
      match i with
      | inr e => Ok (Some e, g)
      | inl ilu_res =>
          let! g := write_temps s mac_res ilu_res g in
          let! o := write_outputs s mac_res ilu_res g in
          Ok (match o with inr e => (Some e, g) | inl g => (None, g) end)
      end
  end.

Fixpoint exec_slots (l : list VsSlot) (g : VsRegisters) : outcome (option string * VsRegisters) :=
  match l with
  | [] => Ok (None, g)
  | s :: l' =>
      let! r := exec_slot s g in
      match r with
      | (Some e, g) => Ok (Some e, g)
      | (None, g) => exec_slots l' g
      end
  end.

Definition vs_execute (p : VsProgram) (g : VsRegisters) : outcome (option string * VsRegisters) :=
  if negb (p_valid p) then
    Ok (Some (if bool_decide (p_error p = "") then "invalid program" else p_error p), g)
  else exec_slots (p_slots p) g.

(** ** Decoded slots are well formed *)

Record slot_ok (s : VsSlot) : Prop := {
  so_const : 0 <= sl_const_index s <= 191;
  so_input : 0 <= sl_input_index s <= 15;
  so_a : has_mac s = true -> mac_uses_a (sl_mac s) = true -> file_ok (sl_a s) = true;
  so_b : has_mac s = true -> mac_uses_b (sl_mac s) = true -> file_ok (sl_b s) = true;
  so_c : has_mac s = true -> mac_uses_c (sl_mac s) = true -> file_ok (sl_c s) = true;
  so_ilu : has_ilu s = true -> file_ok (sl_c s) = true;
  so_regs : 0 <= src_reg (sl_a s) /\ 0 <= src_reg (sl_b s) /\ 0 <= src_reg (sl_c s);
  so_temp : has_mac s && negb (sl_mac_mask s =? 0) || has_ilu s && negb (sl_ilu_mask s =? 0) = true ->
            0 <= sl_temp_reg s <= 12;
  so_out : sl_out_mask s <> 0 ->
    match sl_out_file s with
    | Constant => 0 <= sl_out_address s <= 191
    | Register => valid_output_index (Z.land (sl_out_address s) 0xF) = true
    end;
}.

Lemma bits_range w b n : 0 <= n -> 0 <= bits w b n < 2 ^ n.
Proof.
  intros Hn. unfold bits. rewrite Z.shiftl_mul_pow2, Z.mul_1_l by done.
  replace (2 ^ n - 1) with (Z.ones n) by (rewrite Z.ones_equiv; lia).
  rewrite Z.land_ones by done. apply Z.mod_pos_bound. lia.
Qed.

(** A guard [if b then Some e else m] that let the checks go on. *)
Lemma guard_none (b : bool) (e : string) m :
  (if b then Some e else m) = None -> b = false /\ m = None.
Proof. by destruct b. Qed.

Lemma guard_use (p q : bool) : p && negb q = false -> p = true -> q = true.
Proof. by destruct p, q. Qed.

Lemma check_slot_ok mac s :
  0 <= sl_const_index s -> 0 <= sl_input_index s <= 15 ->
  0 <= src_reg (sl_a s) /\ 0 <= src_reg (sl_b s) /\ 0 <= src_reg (sl_c s) ->
  0 <= sl_temp_reg s -> 0 <= sl_out_address s ->
  check_slot mac s = None -> slot_ok s.
Proof.
  intros H1 H2 H3 H4 H5. unfold check_slot.
  intros [_ [E2 [E3 [E4 [E5 [E6 [E7 E8]%guard_none]%guard_none]%guard_none]%guard_none]%guard_none
    ]%guard_none]%guard_none.
  split; try done.
  - lia.
  - intros Hm Ha. apply (guard_use _ _ E4). by rewrite Hm, Ha.
  - intros Hm Ha. apply (guard_use _ _ E5). by rewrite Hm, Ha.
  - intros Hm Ha. apply (guard_use _ _ E6). by rewrite Hm, Ha.
  - intros Hi. by apply (guard_use _ _ E3).
  - intros Hw. rewrite Hw in E7. simpl in E7. lia.
  - intros Hm. rewrite (proj2 (Z.eqb_neq _ 0) Hm) in E8. simpl in E8.
    destruct (sl_out_file s); apply guard_none in E8 as [E8 _]; [lia|]. by apply negb_false_iff.
Qed.

Lemma decode_slot_ok w s : vs_decode_slot w = inl s -> slot_ok s.
Proof.
  unfold vs_decode_slot. destruct (check_slot _ _) eqn:E; [done|]. intros [= <-].
  revert E. apply check_slot_ok; simpl.
  - by apply bits_range.
  - pose proof (bits_range (w1 w) 9 4). lia.
  - split_and!; [by apply bits_range..|]. apply Z.lor_nonneg.
    split; [|by apply bits_range]. by apply Z.shiftl_nonneg, bits_range.
  - by apply bits_range.
  - by apply bits_range.
Qed.

Lemma decode_loop_ok i ws acc :
  Forall slot_ok acc -> Forall slot_ok (p_slots (decode_loop i ws acc)) /\
  (length (p_slots (decode_loop i ws acc)) <= length acc + length ws)%nat.
Proof.
  revert i acc. induction ws as [|w ws IH]; intros i acc Ha; cbn [decode_loop];
    [split; [done|cbn [p_slots length]; lia]|].
  destruct (vs_decode_slot w) as [s|e] eqn:E; [|split; [done|cbn [p_slots length]; lia]].
  assert (Hs : Forall slot_ok (acc ++ [s])).
  { apply Forall_app. split; [done|]. apply Forall_singleton. by eapply decode_slot_ok. }
  cbn [length]. destruct (sl_final s).
  - split; [done|]. cbn [p_slots]. rewrite length_app. cbn [length]. lia.
  - destruct (IH (S i) (acc ++ [s]) Hs) as [H1 H2]. split; [done|].
    rewrite length_app in H2. cbn [length] in H2. lia.
Qed.

(** ** Execution stays inside the register file *)

Record regs_ok (g : VsRegisters) : Prop := {
  ro_v : length (rg_v g) = 16%nat;
  ro_c : length (rg_c g) = 192%nat;
  ro_r : length (rg_r g) = 12%nat;
  ro_o : length (rg_o g) = 16%nat;
}.

(** The slot loads or adds the address register. *)
Definition uses_address (s : VsSlot) : bool := sl_a0_relative s || bool_decide (sl_mac s = Arl).

Definition kRelErr : string := "relative constant index out of range".

(** An outcome whose value satisfies [Q], or, for a slot that uses the address
    register, one of the two arithmetic conversions C++ leaves undefined. *)
Definition vs_safe {A} (addr : bool) (Q : A -> Prop) (o : outcome A) : Prop :=
  match o with
  | Ok x => Q x
  | Ub m => addr = true /\ (m = "float to int conversion" \/ m = "int overflow")
  | Fail _ => False
  end.

Definition res_safe {A} (addr : bool) (Q : A -> Prop) (r : vs_res A) : Prop :=
  match r with inl x => Q x | inr e => addr = true /\ e = kRelErr end.

Lemma vs_safe_bind {A B} addr (P : A -> Prop) (Q : B -> Prop) (o : outcome A) (f : A -> outcome B) :
  vs_safe addr P o -> (forall x, P x -> vs_safe addr Q (f x)) -> vs_safe addr Q (obind o f).
Proof. destruct o; simpl; auto. Qed.

Lemma at_index_ok l i : 0 <= i < zlen l -> exists x, at_index l i = Ok x.
Proof.
  intros Hi. unfold at_index. replace (0 <=? i) with true by lia.
  destruct (lookup_lt_is_Some_2 l (Z.to_nat i)) as [x Hx]; [lia|]. rewrite Hx. by exists x.
Qed.

Lemma put_index_ok l i x : 0 <= i < zlen l -> put_index l i x = Ok (<[Z.to_nat i := x]> l).
Proof. intros Hi. unfold put_index. by destruct (at_index_ok l i Hi) as [y ->]. Qed.

Lemma source_base_safe s src g :
  slot_ok s -> regs_ok g -> file_ok src = true -> 0 <= src_reg src ->
  vs_safe (uses_address s) (res_safe (uses_address s) (fun _ => True)) (source_base s src g).
Proof.
  intros Hs [Hv Hc Hr Ho] Hf Hreg. apply andb_true_iff in Hf as [Hf Hri].
  unfold valid_r_index in Hri. unfold source_base. destruct (src_file src) eqn:Ef.
  - by rewrite bool_decide_true in Hf.
  - rewrite bool_decide_true in Hri by done. simpl in Hri. case_if.
    + destruct (at_index_ok (rg_o g) 0) as [x ->]; [lia|]. done.
    + destruct (at_index_ok (rg_r g) (src_reg src)) as [x ->]; [lia|]. done.
  - destruct (so_input _ Hs). destruct (at_index_ok (rg_v g) (sl_input_index s)) as [x ->]; [lia|]. done.
  - pose proof (so_const _ Hs) as Hci. unfold uses_address. destruct (sl_a0_relative s); simpl.
    + case_if; [split; [done|by right]|]. case_if; [done|].
      destruct (at_index_ok (rg_c g) (sl_const_index s + rg_a0 g)) as [x ->]; [lia|]. done.
    + replace (_ || _) with false by lia. replace (_ || _) with false by lia.
      destruct (at_index_ok (rg_c g) (sl_const_index s)) as [x ->]; [lia|]. done.
Qed.

Lemma read_source_safe s src g f :
  slot_ok s -> regs_ok g -> file_ok src = true -> 0 <= src_reg src ->
  vs_safe (uses_address s) (res_safe (uses_address s) (fun _ => True)) (read_source s src g f).
Proof.
  intros Hs Hg Hf Hr. eapply vs_safe_bind; [by apply source_base_safe|].
  intros [b|e] Hb; [|done]. by destruct (src_swizzle src) as [[[??]?]?].
Qed.

Lemma read_if_safe (use : bool) s src g :
  slot_ok s -> regs_ok g -> (use = true -> file_ok src = true) -> 0 <= src_reg src ->
  vs_safe (uses_address s) (res_safe (uses_address s) (fun _ => True)) (read_if use s src g).
Proof. intros Hs Hg Hf Hr. destruct use; [|done]. apply read_source_safe; auto. Qed.

(** What a register file keeps through execution. *)
Definition regs_step (g g' : VsRegisters) : Prop := regs_ok g' /\ rg_v g' = rg_v g.

Lemma run_mac_safe s g :
  slot_ok s -> regs_ok g ->
  vs_safe (uses_address s) (res_safe (uses_address s) (fun x => regs_step g (snd x))) (run_mac s g).
Proof.
  intros Hs Hg. unfold run_mac. destruct (has_mac s) eqn:Em; [|by split]. cbn [negb].
  destruct (so_regs _ Hs) as (Ra & Rb & Rc).
  eapply vs_safe_bind; [apply read_if_safe; eauto using so_a|]. intros [a|ea] Ha; [|done].
  eapply vs_safe_bind; [apply read_if_safe; eauto using so_b|]. intros [b|eb] Hb; [|done].
  eapply vs_safe_bind; [apply read_if_safe; eauto using so_c|]. intros [c|ec] Hc; [|done].
  case_bool_decide as Hl; [|by split].
  assert (Hu : uses_address s = true)
    by (unfold uses_address; rewrite bool_decide_true by done; apply orb_true_r).
  destruct (to_int _) as [i|m|m] eqn:Ei; simpl.
  - split; [|done]. destruct Hg. by split.
  - unfold to_int in Ei. destruct (ffloor _); try done. cbv zeta in Ei. by case_if_in Ei.
  - split; [done|]. left. unfold to_int in Ei. destruct (ffloor _); try (by injection Ei as <-); try done.
    cbv zeta in Ei. case_if_in Ei; [done|]. by injection Ei as <-.
Qed.

Lemma run_ilu_safe s g :
  slot_ok s -> regs_ok g ->
  vs_safe (uses_address s) (res_safe (uses_address s) (fun _ => True)) (run_ilu s g).
Proof.
  intros Hs Hg. unfold run_ilu. destruct (has_ilu s) eqn:Ei; [|done]. cbn [negb].
  eapply vs_safe_bind; [apply read_source_safe; eauto using so_ilu; apply (so_regs _ Hs)|].
  by intros [c|e].
Qed.

Lemma write_temp_ok g reg v mask :
  regs_ok g -> 0 <= reg <= 12 -> exists g', write_temp g reg v mask = Ok g' /\ regs_step g g'.
Proof.
  intros [Hv Hc Hr Ho] Hreg. unfold write_temp. case_if.
  - destruct (at_index_ok (rg_o g) 0) as [x Ex]; [lia|]. rewrite Ex. cbn [obind].
    rewrite put_index_ok by lia. eexists. split; [done|]. split; [|done].
    split; simpl; rewrite ?length_insert; done.
  - destruct (at_index_ok (rg_r g) reg) as [x Ex]; [lia|]. rewrite Ex. cbn [obind].
    rewrite put_index_ok by lia. eexists. split; [done|]. split; [|done].
    split; simpl; rewrite ?length_insert; done.
Qed.

Lemma regs_step_trans g1 g2 g3 : regs_step g1 g2 -> regs_step g2 g3 -> regs_step g1 g3.
Proof. intros [? ?] [? ?]. split; [done|congruence]. Qed.

Lemma write_temps_ok s m i g :
  slot_ok s -> regs_ok g -> exists g', write_temps s m i g = Ok g' /\ regs_step g g'.
Proof.
  intros Hs Hg. pose proof (so_temp _ Hs) as Ht. unfold write_temps.
  assert (exists g1, (if has_mac s && negb (has_ilu s && (sl_temp_reg s =? 1)) &&
      negb (sl_mac_mask s =? 0) then write_temp g (sl_temp_reg s) m (sl_mac_mask s) else Ok g) = Ok g1
      /\ regs_step g g1) as (g1 & -> & Hg1).
  { case_if; [|by exists g]. apply write_temp_ok; [done|]. apply Ht.
    destruct (has_mac s), (sl_mac_mask s =? 0); simpl in *; done || by rewrite andb_false_r in *. }
  cbn [obind]. case_if; [|by exists g1].
  destruct (write_temp_ok g1 (if has_mac s then 1 else sl_temp_reg s) i (sl_ilu_mask s))
    as (g2 & -> & Hg2); [apply Hg1| |].
  - destruct (has_mac s); [lia|]. apply Ht. by rewrite orb_true_r.
  - exists g2. split; [done|]. by eapply regs_step_trans.
Qed.

Lemma write_output_ok s v g :
  slot_ok s -> regs_ok g -> sl_out_mask s <> 0 ->
  exists g', write_output s v g = Ok (inl g') /\ regs_step g g'.
Proof.
  intros Hs [Hv Hc Hr Ho] Hm. pose proof (so_out _ Hs Hm) as Hout. unfold write_output.
  destruct (sl_out_file s).
  - replace (191 <? _) with false by lia.
    destruct (at_index_ok (rg_c g) (sl_out_address s)) as [x Ex]; [lia|]. rewrite Ex. cbn [obind].
    rewrite put_index_ok by lia. eexists. split; [done|]. split; [|done].
    split; simpl; rewrite ?length_insert; done.
  - rewrite Hout. cbn [negb]. unfold valid_output_index in Hout.
    destruct (at_index_ok (rg_o g) (Z.land (sl_out_address s) 0xF)) as [x Ex]; [lia|].
    rewrite Ex. cbn [obind]. rewrite put_index_ok by lia. eexists. split; [done|]. split; [|done].
    split; simpl; rewrite ?length_insert; done.
Qed.

Lemma write_outputs_ok s m i g :
  slot_ok s -> regs_ok g -> exists g', write_outputs s m i g = Ok (inl g') /\ regs_step g g'.
Proof.
  intros Hs Hg. unfold write_outputs. destruct (sl_out_mask s =? 0) eqn:E0; [by exists g|].
  apply Z.eqb_neq in E0. case_if; [by apply write_output_ok|].
  case_if; [by apply write_output_ok|by exists g].
Qed.

Definition exec_safe (addr : bool) (g : VsRegisters) (x : option string * VsRegisters) : Prop :=
  regs_step g (snd x) /\ (fst x = None \/ addr = true /\ fst x = Some kRelErr).

Lemma exec_slot_safe s g :
  slot_ok s -> regs_ok g -> vs_safe (uses_address s) (exec_safe (uses_address s) g) (exec_slot s g).
Proof.
  intros Hs Hg. eapply vs_safe_bind; [by apply run_mac_safe|].
  intros [[m g1]|e] H1; [|destruct H1 as [? ->]; split; [by split|by right]]. cbn [res_safe snd] in H1.
  eapply vs_safe_bind; [apply run_ilu_safe; [done|apply H1]|].
  intros [i|e] H2; [|destruct H2 as [? ->]; split; [done|by right]].
  destruct (write_temps_ok s m i g1 Hs (proj1 H1)) as (g2 & -> & H3). cbn [obind].
  destruct (write_outputs_ok s m i g2 Hs (proj1 H3)) as (g3 & -> & H4). cbn [obind].
  split; [|by left]. by eapply regs_step_trans, regs_step_trans.
Qed.

Lemma vs_safe_mono {A} (b b' : bool) (Q Q' : A -> Prop) o :
  (b = true -> b' = true) -> (forall x, Q x -> Q' x) -> vs_safe b Q o -> vs_safe b' Q' o.
Proof. intros Hb HQ. destruct o; simpl; naive_solver. Qed.

Lemma exec_slots_safe l g :
  Forall slot_ok l -> regs_ok g ->
  vs_safe (existsb uses_address l) (exec_safe (existsb uses_address l) g) (exec_slots l g).
Proof.
  intros Hl. revert g. induction Hl as [|s l Hs Hl IH]; intros g Hg; [split; [by split|by left]|].
  cbn [exec_slots existsb]. eapply vs_safe_bind.
  - eapply vs_safe_mono; [| |by apply exec_slot_safe]; [by intros ->|intros x Hx; exact Hx].
  - intros [[e|] g1] [Hg1 He]; cbn [fst snd] in *.
    + split; [done|]. right. destruct He as [He|[Ha He]]; [done|]. by rewrite Ha.
    + eapply vs_safe_mono; [| |by apply IH, Hg1].
      * intros ->. apply orb_true_r.
      * intros x [Hx1 Hx2]. split; [by eapply regs_step_trans|].
        destruct Hx2 as [?|[Ha ?]]; [by left|]. right. by rewrite Ha, orb_true_r.
Qed.

(** C20. Decoding is a complete guard for execution. Whatever dwords a title
    supplies, an accepted program has at most 136 slots, and running it on a
    register file never indexes outside v0-v15, c0-c191, R0-R11 or the output
    registers and never changes the inputs; the only run-time error is a
    relative constant out of range. A program that does not use the address
    register always runs to the end. What decoding cannot rule out is only an
    address register load of a value no int can hold, or its sum with an index
    leaving the int range. *)
Theorem vs_decoded_programs_are_safe ws g :
  regs_ok g -> p_valid (vs_decode_program (Some ws)) = true ->
  let p := vs_decode_program (Some ws) in
  (length (p_slots p) <= 136)%nat /\
  match vs_execute p g with
  | Ok (e, g') => regs_ok g' /\ rg_v g' = rg_v g /\ (e = None \/ e = Some kRelErr)
  | Ub m => m = "float to int conversion" \/ m = "int overflow"
  | Fail _ => False
  end /\
  (existsb uses_address (p_slots p) = false -> exists g', vs_execute p g = Ok (None, g')).
Proof.
  intros Hg Hv p. destruct (decode_loop_ok 0 (take 136 ws) [] (Forall_nil_2 _)) as [Hs Hl].
  change (decode_loop 0 (take 136 ws) []) with p in Hs, Hl. fold p in Hv.
  rewrite length_take in Hl. cbn [length] in Hl. split; [lia|].
  unfold vs_execute. rewrite Hv. cbn [negb].
  pose proof (exec_slots_safe _ g Hs Hg) as H. unfold vs_safe in H.
  destruct (exec_slots (p_slots p) g) as [[e g']|m|m].
  - destruct H as [[H1 H2] H3]. cbn [fst snd] in *. split; [naive_solver|].
    intros Ha. rewrite Ha in H3. destruct H3 as [->|[? _]]; [by exists g'|done].
  - done.
  - destruct H as [Ha H]. split; [done|]. congruence.
Qed.

(** ** ADD *)

(** ADD does not add: its source A is neither required by the decoder nor
    read by the interpreter, so whatever A names the result is +0 plus source
    C; with A = c1 and C = c2 the unit yields c2, not c1 + c2. *)
Theorem vs_add_ignores_source_a s g c a' :
  sl_mac s = Add -> read_source s (sl_c s) g false = Ok (inl c) ->
  run_mac s g = Ok (inl (vmap (fadd fzero) c, g)) /\
  run_mac (MkSlot (sl_ilu s) (sl_mac s) (sl_const_index s) (sl_input_index s) a' (sl_b s) (sl_c s)
             (sl_mac_mask s) (sl_temp_reg s) (sl_ilu_mask s) (sl_out_mask s) (sl_out_file s)
             (sl_out_address s) (sl_out_from_ilu s) (sl_a0_relative s) (sl_final s)) g = run_mac s g.
Proof.
  intros Hm Hc. unfold run_mac, has_mac. cbn [sl_mac sl_a sl_b sl_c]. rewrite !Hm.
  cbn [mac_uses_a mac_uses_b mac_uses_c]. rewrite !bool_decide_false by done.
  unfold read_if. cbn [negb obind].
  replace (read_source (MkSlot _ _ _ _ a' _ _ _ _ _ _ _ _ _ _ _) (sl_c s) g false)
    with (read_source s (sl_c s) g false) by done.
  rewrite Hc. cbn [obind]. done.
Qed.

End execute.

(** ** The slot layout *)

(** Fields from the least significant bit up: width and value. *)
Fixpoint pack (l : list (Z * Z)) : Z :=
  match l with
  | [] => 0
  | (n, v) :: l' => v + 2 ^ n * pack l'
  end.
Fixpoint offset (l : list (Z * Z)) (i : nat) : Z :=
  match l, i with
  | (n, _) :: l', S i' => n + offset l' i'
  | _, _ => 0
  end.

Definition field_ok (f : Z * Z) : Prop := 0 <= fst f /\ 0 <= snd f < 2 ^ fst f.

Lemma bits_div w b n : 0 <= b -> 0 <= n -> bits w b n = (w `div` 2 ^ b) `mod` 2 ^ n.
Proof.
  intros Hb Hn. unfold bits. rewrite Z.shiftl_mul_pow2, Z.mul_1_l by done.
  replace (2 ^ n - 1) with (Z.ones n) by (rewrite Z.ones_equiv; lia).
  by rewrite Z.land_ones, Z.shiftr_div_pow2.
Qed.

Lemma offset_nonneg l i : Forall field_ok l -> 0 <= offset l i.
Proof.
  intros Hl. revert i. induction Hl as [|[n v] l [Hn _] _ IH]; intros [|i]; simpl in *; try lia.
  specialize (IH i). lia.
Qed.

Lemma bits_pack l i n v :
  Forall field_ok l -> l !! i = Some (n, v) -> bits (pack l) (offset l i) n = v.
Proof.
  intros Hl. revert i. induction Hl as [|[m u] l [Hm Hu] Hl IH]; intros i; [done|].
  simpl in Hm, Hu. assert (Hp : 0 < 2 ^ m) by lia.
  destruct i as [|i]; simpl lookup; cbn [pack offset].
  - intros [= -> ->]. rewrite bits_div, Z.pow_0_r, Z.div_1_r by lia.
    rewrite (Z.mul_comm (2 ^ n)), Z.mod_add by lia. by apply Z.mod_small.
  - intros Hi. pose proof (offset_nonneg l i Hl) as Ho.
    assert (Hn : 0 <= n) by (apply Forall_lookup_1 with (i := i) (x := (n, v)) in Hl as [? _]; done).
    rewrite bits_div by lia. rewrite Z.pow_add_r by lia. rewrite <- Z.div_div by lia.
    rewrite (Z.mul_comm (2 ^ m)), Z.div_add, (Z.div_small u), Z.add_0_l by lia.
    rewrite <- bits_div by done. by apply IH.
Qed.

(** Positions of the enum values. *)
Definition ilu_code (o : VsIluOp) : Z :=
  match o with INop => 0 | IMov => 1 | Rcp => 2 | Rcc => 3 | Rsq => 4 | Exp => 5 | Log => 6 | Lit => 7 end.
Definition mac_code (o : VsMacOp) : Z :=
  match o with
  | MNop => 0 | MMov => 1 | Mul => 2 | Add => 3 | Mad => 4 | Dp3 => 5 | Dph => 6 | Dp4 => 7
  | Dst => 8 | Min => 9 | Max => 10 | Slt => 11 | Sge => 12 | Arl => 13
  end.
Definition sw_code (s : VsSwizzle) : Z := match s with X => 0 | Y => 1 | Z' => 2 | W => 3 end.
Definition file_code (f : VsSrcFile) : Z := match f with None' => 0 | R => 1 | V => 2 | C => 3 end.
Definition out_code (f : VsOutFile) : Z := match f with Constant => 0 | Register => 1 end.
Definition sw (s : VsSource) (i : nat) : Z :=
  let '(a, b, c, d) := src_swizzle s in
  sw_code (match i with 0%nat => a | 1%nat => b | 2%nat => c | _ => d end).

(** The documented layout of one slot, written as an encoder. *)
Definition encode_w1 (s : VsSlot) : list (Z * Z) :=
  [(2, sw (sl_a s) 3); (2, sw (sl_a s) 2); (2, sw (sl_a s) 1); (2, sw (sl_a s) 0);
   (1, Z.b2z (src_negate (sl_a s))); (4, sl_input_index s); (8, sl_const_index s);
   (4, mac_code (sl_mac s)); (3, ilu_code (sl_ilu s)); (4, 0)].
Definition encode_w2 (s : VsSlot) : list (Z * Z) :=
  [(2, src_reg (sl_c s) `div` 4); (2, sw (sl_c s) 3); (2, sw (sl_c s) 2); (2, sw (sl_c s) 1);
   (2, sw (sl_c s) 0); (1, Z.b2z (src_negate (sl_c s))); (2, file_code (src_file (sl_b s)));
   (4, src_reg (sl_b s)); (2, sw (sl_b s) 3); (2, sw (sl_b s) 2); (2, sw (sl_b s) 1);
   (2, sw (sl_b s) 0); (1, Z.b2z (src_negate (sl_b s))); (2, file_code (src_file (sl_a s)));
   (4, src_reg (sl_a s))].
Definition encode_w3 (s : VsSlot) : list (Z * Z) :=
  [(1, Z.b2z (sl_final s)); (1, Z.b2z (sl_a0_relative s)); (1, Z.b2z (sl_out_from_ilu s));
   (8, sl_out_address s); (1, out_code (sl_out_file s)); (4, sl_out_mask s); (4, sl_ilu_mask s);
   (4, sl_temp_reg s); (4, sl_mac_mask s); (2, file_code (src_file (sl_c s)));
   (2, src_reg (sl_c s) `mod` 4)].
Definition encode (s : VsSlot) : slot_words :=
  MkWords 0 (pack (encode_w1 s)) (pack (encode_w2 s)) (pack (encode_w3 s)).

(** Slots whose fields fit their widths. *)
Record slot_fits (s : VsSlot) : Prop := {
  sf_const : 0 <= sl_const_index s < 256;
  sf_input : 0 <= sl_input_index s < 16;
  sf_a : 0 <= src_reg (sl_a s) < 16;
  sf_b : 0 <= src_reg (sl_b s) < 16;
  sf_c : 0 <= src_reg (sl_c s) < 16;
  sf_mac_mask : 0 <= sl_mac_mask s < 16;
  sf_temp : 0 <= sl_temp_reg s < 16;
  sf_ilu_mask : 0 <= sl_ilu_mask s < 16;
  sf_out_mask : 0 <= sl_out_mask s < 16;
  sf_addr : 0 <= sl_out_address s < 256;
}.

Lemma sw_range s i : 0 <= sw s i < 4.
Proof.
  unfold sw. destruct (src_swizzle s) as [[[a b] c] d]. destruct i as [|[|[|i]]];
    (destruct a, b, c, d; simpl; lia).
Qed.

Lemma b2z_range b : 0 <= Z.b2z b < 2.
Proof. destruct b; simpl; lia. Qed.
Lemma file_range f : 0 <= file_code f < 4.
Proof. destruct f; simpl; lia. Qed.

Lemma encode_fits s :
  slot_fits s -> Forall field_ok (encode_w1 s) /\ Forall field_ok (encode_w2 s) /\
  Forall field_ok (encode_w3 s).
Proof.
  intros []. pose proof sw_range as Hs. pose proof b2z_range as Hb. pose proof file_range as Hf.
  assert (Hc : 0 <= src_reg (sl_c s) `div` 4 < 4 /\ 0 <= src_reg (sl_c s) `mod` 4 < 4)
    by (Z.to_euclidean_division_equations; lia).
  split_and!; repeat constructor; cbn [fst snd]; try lia;
    try apply Hs; try apply Hb; try apply Hf; try apply Hc.
  - destruct (sl_mac s); simpl; lia.
  - destruct (sl_mac s); simpl; lia.
  - destruct (sl_ilu s); simpl; lia.
  - destruct (sl_ilu s); simpl; lia.
  - destruct (sl_out_file s); simpl; lia.
  - destruct (sl_out_file s); simpl; lia.
Qed.

(** The field of an encoded word, by its position in the layout. *)
Lemma bits_at l b n (i : nat) v :
  Forall field_ok l -> l !! i = Some (n, v) -> offset l i = b -> bits (pack l) b n = v.
Proof. intros Hl Hi <-. by apply bits_pack. Qed.

Lemma flag_at l b (i : nat) x :
  Forall field_ok l -> l !! i = Some (1, Z.b2z x) -> offset l i = b -> flag (pack l) b = x.
Proof. intros Hl Hi Ho. unfold flag. rewrite (bits_at l b 1 i (Z.b2z x)) by done. by destruct x. Qed.

Lemma enum_sw s : enum swizzles X (sw_code s) = s.
Proof. by destruct s. Qed.
Lemma enum_file f : enum src_files None' (file_code f) = f.
Proof. by destruct f. Qed.

Lemma swizzle_pack l b0 b1 b2 b3 i0 i1 i2 i3 s :
  Forall field_ok l ->
  l !! i0 = Some (2, sw s 0) -> offset l i0 = b0 -> l !! i1 = Some (2, sw s 1) -> offset l i1 = b1 ->
  l !! i2 = Some (2, sw s 2) -> offset l i2 = b2 -> l !! i3 = Some (2, sw s 3) -> offset l i3 = b3 ->
  swizzle_at (pack l) b0 b1 b2 b3 = src_swizzle s.
Proof.
  intros Hl E0 O0 E1 O1 E2 O2 E3 O3. unfold swizzle_at.
  rewrite (bits_at l b0 2 i0 _ Hl E0 O0), (bits_at l b1 2 i1 _ Hl E1 O1),
    (bits_at l b2 2 i2 _ Hl E2 O2), (bits_at l b3 2 i3 _ Hl E3 O3).
  unfold sw. destruct (src_swizzle s) as [[[a b] c] d]. by rewrite !enum_sw.
Qed.

Lemma decode_encode_fields s : slot_fits s -> decode_fields (encode s) = s.
Proof.
  intros Hs. destruct (encode_fits s Hs) as (F1 & F2 & F3).
  unfold decode_fields, encode. cbn [w1 w2 w3].
  rewrite (bits_at (encode_w1 s) 25 3 8 _ F1 eq_refl eq_refl).
  rewrite (bits_at (encode_w1 s) 21 4 7 _ F1 eq_refl eq_refl).
  rewrite (bits_at (encode_w1 s) 13 8 6 _ F1 eq_refl eq_refl).
  rewrite (bits_at (encode_w1 s) 9 4 5 _ F1 eq_refl eq_refl).
  rewrite (flag_at (encode_w1 s) 8 4 _ F1 eq_refl eq_refl).
  rewrite (swizzle_pack (encode_w1 s) 6 4 2 0 3 2 1 0 (sl_a s) F1) by reflexivity.
  rewrite (bits_at (encode_w2 s) 26 2 13 _ F2 eq_refl eq_refl).
  rewrite (bits_at (encode_w2 s) 28 4 14 _ F2 eq_refl eq_refl).
  rewrite (bits_at (encode_w2 s) 11 2 6 _ F2 eq_refl eq_refl).
  rewrite (bits_at (encode_w2 s) 13 4 7 _ F2 eq_refl eq_refl).
  rewrite (flag_at (encode_w2 s) 25 12 _ F2 eq_refl eq_refl).
  rewrite (swizzle_pack (encode_w2 s) 23 21 19 17 11 10 9 8 (sl_b s) F2) by reflexivity.
  rewrite (bits_at (encode_w3 s) 28 2 9 _ F3 eq_refl eq_refl).
  rewrite (bits_at (encode_w2 s) 0 2 0 _ F2 eq_refl eq_refl).
  rewrite (bits_at (encode_w3 s) 30 2 10 _ F3 eq_refl eq_refl).
  rewrite (flag_at (encode_w2 s) 10 5 _ F2 eq_refl eq_refl).
  rewrite (swizzle_pack (encode_w2 s) 8 6 4 2 4 3 2 1 (sl_c s) F2) by reflexivity.
  rewrite (bits_at (encode_w3 s) 24 4 8 _ F3 eq_refl eq_refl).
  rewrite (bits_at (encode_w3 s) 20 4 7 _ F3 eq_refl eq_refl).
  rewrite (bits_at (encode_w3 s) 16 4 6 _ F3 eq_refl eq_refl).
  rewrite (bits_at (encode_w3 s) 12 4 5 _ F3 eq_refl eq_refl).
  rewrite (bits_at (encode_w3 s) 11 1 4 _ F3 eq_refl eq_refl).
  rewrite (bits_at (encode_w3 s) 3 8 3 _ F3 eq_refl eq_refl).
  rewrite (flag_at (encode_w3 s) 2 2 _ F3 eq_refl eq_refl).
  rewrite (flag_at (encode_w3 s) 1 1 _ F3 eq_refl eq_refl).
  rewrite (flag_at (encode_w3 s) 0 0 _ F3 eq_refl eq_refl).
  rewrite !enum_file. rewrite Z.shiftl_mul_pow2 by lia. rewrite (lor_split _ 2)
    by (change (2 ^ 2) with 4; Z.to_euclidean_division_equations; lia).
  change (2 ^ 2) with 4.
  replace (src_reg (sl_c s) `div` 4 * 4 + src_reg (sl_c s) `mod` 4) with (src_reg (sl_c s))
    by (Z.to_euclidean_division_equations; lia).
  destruct s as [ilu mac ? ? a b c ? ? ? ? out ? ? ? ?]; cbn.
  destruct a, b, c, ilu, mac, out; done.
Qed.

(** C33. The decoder reads every field of a slot where the layout puts it, with
    no two fields overlapping: decoding the encoding of any slot whose fields
    fit gives back that slot, if it passes validation, and otherwise the error
    that validation reports for it. *)
Theorem vs_decode_inverts_layout s :
  slot_fits s ->
  vs_decode_slot (encode s) =
    match check_slot (mac_code (sl_mac s)) s with None => inl s | Some e => inr e end.
Proof.
  intros Hs. destruct (encode_fits s Hs) as (F1 & _ & _).
  unfold vs_decode_slot. rewrite decode_encode_fields by done.
  change (w1 (encode s)) with (pack (encode_w1 s)).
  by rewrite (bits_at (encode_w1 s) 21 4 7 _ F1 eq_refl eq_refl).
Qed.

(** ** Witnesses *)

(** [MOV oPos, -c3.wzyx] paired with [RCP R1.x, c3.w], final. *)
Definition demo_source : VsSource := MkSource C 0 true (W, Z', Y, X).
Definition demo_slot : VsSlot :=
  MkSlot Rcp MMov 3 0 demo_source (MkSource V 0 false (X, Y, Z', W)) demo_source
         0 2 1 15 Register 0 false false true.

Definition demo_libm : Libm := {| exp2f := fun x => x; log2f := fun x => x |}.

Lemma demo_slot_fits : slot_fits demo_slot.
Proof. split; cbn; lia. Qed.

Lemma vs_decode_inverts_layout_witness : vs_decode_slot (encode demo_slot) = inl demo_slot.
Proof. rewrite (vs_decode_inverts_layout demo_slot demo_slot_fits). vm_compute. reflexivity. Defined.

Lemma vs_decoded_programs_are_safe_witness :
  exists g', @vs_execute demo_libm (vs_decode_program (Some [encode demo_slot])) vs_init_registers
    = Ok (None, g').
Proof.
  assert (Hg : regs_ok vs_init_registers) by (split; reflexivity).
  destruct (@vs_decoded_programs_are_safe demo_libm [encode demo_slot] vs_init_registers Hg) as (_ & _ & H);
    [vm_compute; reflexivity|]. apply H. vm_compute. reflexivity.
Defined.

(** [ADD R0, c0, c0] over c0 = (1, 1, 1, 1). *)
Definition add_slot : VsSlot :=
  MkSlot INop Add 0 0 (MkSource C 0 false (X, Y, Z', W)) (MkSource V 0 false (X, Y, Z', W))
         (MkSource C 0 false (X, Y, Z', W)) 15 0 0 0 Register 0 false false true.
Definition ones_regs : VsRegisters := with_c vs_init_registers (replicate 192 (splat fone)).

Lemma vs_add_ignores_source_a_witness :
  run_mac add_slot ones_regs = Ok (inl (splat fone, ones_regs)).
Proof.
  destruct (vs_add_ignores_source_a add_slot ones_regs (splat fone) demo_source) as [H _];
    [reflexivity|vm_compute; reflexivity|].
  rewrite H. reflexivity.
Defined.

End XboxVs.
