(* ===== verification/XboxRc.v ===== *)
(** NV2A register combiners (src/xbox_rc.cpp, include/xbox_rc.h): validation of
    a configuration, the general combiner stages, the final combiner and the
    quantisation to RGBA8. *)
From stdpp Require Import base numbers list strings.
From Stdlib Require Import ZArith Lia.
From Stdlib Require Import SpecFloat.
From S2P Require Import Prelude Float32.
Open Scope Z_scope.

Module XboxRc.
Import Float32.

(** ** Configuration *)

(** Each enum has its named values and the others its byte can hold. *)
Inductive RcRegister :=
  | Zero | Const0 | Const1 | Fog | Primary | Secondary | Tex0 | Tex1 | Tex2 | Tex3
  | Spare0 | Spare1 | V1R0Sum | EFProduct | OtherReg (v : Z).
Inductive RcMapping :=
  | UnsignedIdentity | UnsignedInvert | ExpandNormal | ExpandNegate | HalfBiasNormal
  | HalfBiasNegate | SignedIdentity | SignedNegate | OtherMapping (v : Z).
Inductive RcChannel := Rgb | Alpha | OtherChannel (v : Z).
Inductive RcOutputScale :=
  | Identity | Bias | ShiftLeft1 | ShiftLeft1Bias | ShiftLeft2 | ShiftRight1 | OtherScale (v : Z).
Inductive RcMuxMode := Msb | Lsb.

#[export] Instance RcRegister_eq_dec : EqDecision RcRegister.
Proof. solve_decision. Defined.
#[export] Instance RcMapping_eq_dec : EqDecision RcMapping.
Proof. solve_decision. Defined.
#[export] Instance RcMuxMode_eq_dec : EqDecision RcMuxMode.
Proof. solve_decision. Defined.

Record RcInput := MkInput { in_reg : RcRegister; in_channel : RcChannel; in_mapping : RcMapping }.

Record RcOutput := MkOutput {
  out_ab : RcRegister; out_cd : RcRegister; out_sum : RcRegister;
  out_scale : RcOutputScale;
  ab_dot : bool; cd_dot : bool; mux_sum : bool;
  ab_blue_to_alpha : bool; cd_blue_to_alpha : bool;
}.

(** [std::array<RcInput, 4>]: A, B, C, D. *)
Record quad := MkQuad { qa : RcInput; qb : RcInput; qc : RcInput; qd : RcInput }.
Definition quad_list (q : quad) : list RcInput := [qa q; qb q; qc q; qd q].

Record RcStage := MkStage {
  st_rgb : quad; st_alpha : quad; st_rgb_out : RcOutput; st_alpha_out : RcOutput;
}.

(** A, B, C, D, E, F, G. *)
Record RcFinal := MkFinal {
  fA : RcInput; fB : RcInput; fC : RcInput; fD : RcInput; fE : RcInput; fF : RcInput; fG : RcInput;
  clamp_sum : bool; complement_v1 : bool; complement_r0 : bool;
}.
Definition final_list (f : RcFinal) : list RcInput := [fA f; fB f; fC f; fD f; fE f; fF f; fG f].

Record RcConfig := MkConfig {
  num_stages : Z; mux : RcMuxMode; unique_const0 : bool; unique_const1 : bool;
  stages : list RcStage; final : RcFinal;
}.

Record vec3 := MkV3 { x3 : f32; y3 : f32; z3 : f32 }.
Record vec4 := MkV4 { x4 : f32; y4 : f32; z4 : f32; w4 : f32 }.
Definition zero4 : vec4 := MkV4 fzero fzero fzero fzero.

Record RcInputs := MkInputs {
  i_primary : vec4; i_secondary : vec4; i_fog : vec4; i_tex : vec4 * vec4 * vec4 * vec4;
  i_const0 : list vec4; i_const1 : list vec4; i_spare0 : vec4; i_spare1 : vec4;
}.

(** The registers a stage can read and write. *)
Record Work := MkWork {
  k_primary : vec4; k_secondary : vec4; k_spare0 : vec4; k_spare1 : vec4;
  k_tex0 : vec4; k_tex1 : vec4; k_tex2 : vec4; k_tex3 : vec4;
}.

Definition kFinalConst : Z := 8.

Definition at_index {A} (l : list A) (i : Z) : outcome A :=
  match (if 0 <=? i then l !! Z.to_nat i else None) with
  | Some x => Ok x
  | None => Ub "array index out of range"
  end.

Definition load_value (inp : RcInputs) (w : Work) (cidx0 cidx1 : Z) (r : RcRegister) : outcome vec4 :=
  match r with
  | Const0 => at_index (i_const0 inp) cidx0
  | Const1 => at_index (i_const1 inp) cidx1
  | Fog => Ok (i_fog inp)
  | Primary => Ok (k_primary w)
  | Secondary => Ok (k_secondary w)
  | Tex0 => Ok (k_tex0 w)
  | Tex1 => Ok (k_tex1 w)
  | Tex2 => Ok (k_tex2 w)
  | Tex3 => Ok (k_tex3 w)
  | Spare0 => Ok (k_spare0 w)
  | Spare1 => Ok (k_spare1 w)
  | Zero | V1R0Sum | EFProduct | OtherReg _ => Ok zero4
  end.

Definition rc_map (m : RcMapping) (e : f32) : f32 :=
  match m with
  | UnsignedIdentity => fmax fzero e
  | UnsignedInvert => fsub fone (fmin (fmax e fzero) fone)
  | ExpandNormal => fsub (fmul ftwo (fmax fzero e)) fone
  | ExpandNegate => fadd (fmul (fneg ftwo) (fmax fzero e)) fone
  | HalfBiasNormal => fsub (fmax fzero e) fhalf
  | HalfBiasNegate => fadd (fneg (fmax fzero e)) fhalf
  | SignedIdentity => e
  | SignedNegate => fneg e
  | OtherMapping _ => e
  end.

Definition rgb_of (i : RcInput) (v : vec4) : vec3 :=
  match in_channel i with
  | Rgb => MkV3 (rc_map (in_mapping i) (x4 v)) (rc_map (in_mapping i) (y4 v)) (rc_map (in_mapping i) (z4 v))
  | _ => let a := rc_map (in_mapping i) (w4 v) in MkV3 a a a
  end.

Definition alpha_of (i : RcInput) (v : vec4) : f32 :=
  rc_map (in_mapping i) (match in_channel i with Alpha => w4 v | _ => z4 v end).

Definition scale_scalar (x : f32) (s : RcOutputScale) : f32 :=
  let y := match s with
           | Identity | OtherScale _ => x
           | Bias => fsub x fhalf
           | ShiftLeft1 => fmul x ftwo
           | ShiftLeft1Bias => fmul (fsub x fhalf) ftwo
           | ShiftLeft2 => fmul x ffour
           | ShiftRight1 => fmul x fhalf
           end in
  fclamp y fmone fone.

Definition scale_vec (v : vec3) (s : RcOutputScale) : vec3 :=
  MkV3 (scale_scalar (x3 v) s) (scale_scalar (y3 v) s) (scale_scalar (z3 v) s).

(** [target_ptr] and a store through it: [None] and discard are no change. *)
Definition update_target (w : Work) (r : RcRegister) (f : vec4 -> vec4) : Work :=
  match r with
  | Primary => MkWork (f (k_primary w)) (k_secondary w) (k_spare0 w) (k_spare1 w)
                 (k_tex0 w) (k_tex1 w) (k_tex2 w) (k_tex3 w)
  | Secondary => MkWork (k_primary w) (f (k_secondary w)) (k_spare0 w) (k_spare1 w)
                   (k_tex0 w) (k_tex1 w) (k_tex2 w) (k_tex3 w)
  | Spare0 => MkWork (k_primary w) (k_secondary w) (f (k_spare0 w)) (k_spare1 w)
                (k_tex0 w) (k_tex1 w) (k_tex2 w) (k_tex3 w)
  | Spare1 => MkWork (k_primary w) (k_secondary w) (k_spare0 w) (f (k_spare1 w))
                (k_tex0 w) (k_tex1 w) (k_tex2 w) (k_tex3 w)
  | Tex0 => MkWork (k_primary w) (k_secondary w) (k_spare0 w) (k_spare1 w)
              (f (k_tex0 w)) (k_tex1 w) (k_tex2 w) (k_tex3 w)
  | Tex1 => MkWork (k_primary w) (k_secondary w) (k_spare0 w) (k_spare1 w)
              (k_tex0 w) (f (k_tex1 w)) (k_tex2 w) (k_tex3 w)
  | Tex2 => MkWork (k_primary w) (k_secondary w) (k_spare0 w) (k_spare1 w)
              (k_tex0 w) (k_tex1 w) (f (k_tex2 w)) (k_tex3 w)
  | Tex3 => MkWork (k_primary w) (k_secondary w) (k_spare0 w) (k_spare1 w)
              (k_tex0 w) (k_tex1 w) (k_tex2 w) (f (k_tex3 w))
  | _ => w
  end.

Definition write_rgb (w : Work) (r : RcRegister) (v : vec3) : Work :=
  update_target w r (fun p => MkV4 (x3 v) (y3 v) (z3 v) (w4 p)).
Definition write_alpha (w : Work) (r : RcRegister) (a : f32) : Work :=
  update_target w r (fun p => MkV4 (x4 p) (y4 p) (z4 p) a).
Definition write_blue_to_alpha (w : Work) (r : RcRegister) (v : vec3) : Work :=
  update_target w r (fun p => MkV4 (x4 p) (y4 p) (z4 p) (z3 v)).

(** ** Validation *)

Definition is_writable_target (r : RcRegister) : bool :=
  match r with
  | Zero | Primary | Secondary | Spare0 | Spare1 | Tex0 | Tex1 | Tex2 | Tex3 => true
  | _ => false
  end.
Definition is_pseudo (r : RcRegister) : bool :=
  match r with V1R0Sum | EFProduct => true | _ => false end.

Definition same_target (a b : RcRegister) : bool := negb (bool_decide (a = Zero)) && bool_decide (a = b).
Definition targets_unique (o : RcOutput) : bool :=
  negb (same_target (out_ab o) (out_cd o)) && negb (same_target (out_ab o) (out_sum o)) &&
  negb (same_target (out_cd o) (out_sum o)).

Definition targets_writable (o : RcOutput) : bool :=
  is_writable_target (out_ab o) && is_writable_target (out_cd o) && is_writable_target (out_sum o).

(** [None] is success. *)
Definition validate_stage (st : RcStage) : option string :=
  if existsb (fun i => is_pseudo (in_reg i)) (quad_list (st_rgb st))
  then Some "pseudo register is only valid in the final combiner"
  else if existsb (fun i => is_pseudo (in_reg i)) (quad_list (st_alpha st))
  then Some "pseudo register is only valid in the final combiner"
  else if negb (targets_writable (st_rgb_out st))
  then Some "combiner output targets a non-writable register"
  else if negb (targets_unique (st_rgb_out st))
  then Some "combiner outputs must target unique registers"
  else if negb (targets_writable (st_alpha_out st))
  then Some "combiner output targets a non-writable register"
  else if negb (targets_unique (st_alpha_out st))
  then Some "combiner outputs must target unique registers"
  else if ab_dot (st_alpha_out st) || cd_dot (st_alpha_out st)
  then Some "dot product is valid only for the RGB combiner portion"
  else None.

Fixpoint validate_stages (n : nat) (s : Z) (l : list RcStage) : outcome (option string) :=
  match n with
  | O => Ok None
  | S n' =>
      let! st := at_index l s in
      match validate_stage st with
      | Some e => Ok (Some e)
      | None => validate_stages n' (s + 1) l
      end
  end.

Definition final_ok (m : RcMapping) : bool :=
  match m with UnsignedIdentity | UnsignedInvert => true | _ => false end.

Definition validate (c : RcConfig) : outcome (option string) :=
  if 8 <? num_stages c then Ok (Some "too many combiner stages")
  else if negb (bool_decide (mux c = Msb)) then Ok (Some "NV2A MUX LSB mode is not reverse-engineered")
  else
    let! r := validate_stages (Z.to_nat (num_stages c)) 0 (stages c) in
    match r with
    | Some e => Ok (Some e)
    | None =>
        let f := final c in
        if negb (forallb (fun i => final_ok (in_mapping i)) (final_list f))
        then Ok (Some "final combiner allows only unsigned identity/invert mappings")
        else if is_pseudo (in_reg (fE f)) || is_pseudo (in_reg (fF f)) || is_pseudo (in_reg (fG f))
        then Ok (Some "final combiner E/F/G cannot be a pseudo register")
        else if bool_decide (in_reg (fA f) = V1R0Sum)
        then Ok (Some "final combiner A cannot be the V1+Spare0 sum")
        else Ok None
    end.

(** ** Evaluation *)

Definition dot3 (a b : vec3) : vec3 :=
  let v := fadd (fadd (fmul (x3 a) (x3 b)) (fmul (y3 a) (y3 b))) (fmul (z3 a) (z3 b)) in MkV3 v v v.
Definition mul3 (a b : vec3) : vec3 :=
  MkV3 (fmul (x3 a) (x3 b)) (fmul (y3 a) (y3 b)) (fmul (z3 a) (z3 b)).
Definition add3 (a b : vec3) : vec3 :=
  MkV3 (fadd (x3 a) (x3 b)) (fadd (y3 a) (y3 b)) (fadd (z3 a) (z3 b)).

(** The RGB portion of a stage on its loaded registers. *)
Definition rgb_portion (st : RcStage) (spare0_alpha : f32) (va vb vc vd : vec4) (w : Work) : Work :=
  let o := st_rgb_out st in
  let a := rgb_of (qa (st_rgb st)) va in
  let b := rgb_of (qb (st_rgb st)) vb in
  let c := rgb_of (qc (st_rgb st)) vc in
  let d := rgb_of (qd (st_rgb st)) vd in
  let ab := if ab_dot o then dot3 a b else mul3 a b in
  let cd := if cd_dot o then dot3 c d else mul3 c d in
  let sum := if mux_sum o then (if fge spare0_alpha fhalf then cd else ab) else add3 ab cd in
  let w := write_rgb w (out_ab o) (scale_vec ab (out_scale o)) in
  let w := write_rgb w (out_cd o) (scale_vec cd (out_scale o)) in
  let w := write_rgb w (out_sum o) (scale_vec sum (out_scale o)) in
  let w := if ab_blue_to_alpha o then write_blue_to_alpha w (out_ab o) ab else w in
  if cd_blue_to_alpha o then write_blue_to_alpha w (out_cd o) cd else w.

(** The alpha portion, on the same loaded registers. *)
Definition alpha_portion (st : RcStage) (spare0_alpha : f32) (va vb vc vd : vec4) (w : Work) : Work :=
  let o := st_alpha_out st in
  let ab := fmul (alpha_of (qa (st_alpha st)) va) (alpha_of (qb (st_alpha st)) vb) in
  let cd := fmul (alpha_of (qc (st_alpha st)) vc) (alpha_of (qd (st_alpha st)) vd) in
  let sum := if mux_sum o then (if fge spare0_alpha fhalf then cd else ab) else fadd ab cd in
  let w := write_alpha w (out_ab o) (scale_scalar ab (out_scale o)) in
  let w := write_alpha w (out_cd o) (scale_scalar cd (out_scale o)) in
  write_alpha w (out_sum o) (scale_scalar sum (out_scale o)).

Definition eval_stage (inp : RcInputs) (cidx0 cidx1 : Z) (st : RcStage) (w : Work) : outcome Work :=
  let spare0_alpha := w4 (k_spare0 w) in
  let! va := load_value inp w cidx0 cidx1 (in_reg (qa (st_rgb st))) in
  let! vb := load_value inp w cidx0 cidx1 (in_reg (qb (st_rgb st))) in
  let! vc := load_value inp w cidx0 cidx1 (in_reg (qc (st_rgb st))) in
  let! vd := load_value inp w cidx0 cidx1 (in_reg (qd (st_rgb st))) in
  let w := rgb_portion st spare0_alpha va vb vc vd w in
  Ok (alpha_portion st spare0_alpha va vb vc vd w).

Fixpoint eval_stages (c : RcConfig) (inp : RcInputs) (n : nat) (s : Z) (w : Work) : outcome Work :=
  match n with
  | O => Ok w
  | S n' =>
      let! st := at_index (stages c) s in
      let! w := eval_stage inp (if unique_const0 c then s else 0) (if unique_const1 c then s else 0) st w in
      eval_stages c inp n' (s + 1) w
  end.

Definition map3 (f : f32 -> f32) (v : vec3) : vec3 := MkV3 (f (x3 v)) (f (y3 v)) (f (z3 v)).
Definition rgb3 (v : vec4) : vec3 := MkV3 (x4 v) (y4 v) (z4 v).
Definition clamp01 (x : f32) : f32 := fclamp x fzero fone.

Definition final_val (inp : RcInputs) (w : Work) (ef v1r0 : vec3) (r : RcRegister) : outcome vec4 :=
  match r with
  | EFProduct => Ok (MkV4 (x3 ef) (y3 ef) (z3 ef) fzero)
  | V1R0Sum => Ok (MkV4 (x3 v1r0) (y3 v1r0) (z3 v1r0) fzero)
  | _ => load_value inp w kFinalConst kFinalConst r
  end.

(** One channel: D + (1 - A) * C + A * B, clamped to the framebuffer range. *)
Definition final_channel (a b c d : f32) : f32 :=
  clamp01 (fmin (fadd (fadd d (fmul (fsub fone a) c)) (fmul a b)) fone).

Definition eval_final (f : RcFinal) (inp : RcInputs) (w : Work) : outcome vec4 :=
  let! ve := load_value inp w kFinalConst kFinalConst (in_reg (fE f)) in
  let! vf := load_value inp w kFinalConst kFinalConst (in_reg (fF f)) in
  let ef := mul3 (rgb_of (fE f) ve) (rgb_of (fF f) vf) in
  let v1 := map3 (rc_map UnsignedIdentity) (rgb3 (k_secondary w)) in
  let r0 := map3 (rc_map UnsignedIdentity) (rgb3 (k_spare0 w)) in
  let v1 := if complement_v1 f then map3 (rc_map UnsignedInvert) v1 else v1 in
  let r0 := if complement_r0 f then map3 (rc_map UnsignedInvert) r0 else r0 in
  let v1r0 := add3 v1 r0 in
  let v1r0 := if clamp_sum f then map3 clamp01 v1r0 else v1r0 in
  let! va := final_val inp w ef v1r0 (in_reg (fA f)) in
  let! vb := final_val inp w ef v1r0 (in_reg (fB f)) in
  let! vc := final_val inp w ef v1r0 (in_reg (fC f)) in
  let! vd := final_val inp w ef v1r0 (in_reg (fD f)) in
  let! vg := final_val inp w ef v1r0 (in_reg (fG f)) in
  let A := rgb_of (fA f) va in
  let B := rgb_of (fB f) vb in
  let C := rgb_of (fC f) vc in
  let D := rgb_of (fD f) vd in
  Ok (MkV4 (final_channel (x3 A) (x3 B) (x3 C) (x3 D)) (final_channel (y3 A) (y3 B) (y3 C) (y3 D))
           (final_channel (z3 A) (z3 B) (z3 C) (z3 D)) (clamp01 (alpha_of (fG f) vg))).

Definition initial_work (inp : RcInputs) : Work :=
  let '(t0, t1, t2, t3) := i_tex inp in
  MkWork (i_primary inp) (i_secondary inp) (i_spare0 inp) (i_spare1 inp) t0 t1 t2 t3.

(** [inr] is [ok = false] with its error. *)
Definition rc_evaluate (c : RcConfig) (inp : RcInputs) : outcome (vec4 + string) :=
  let! v := validate c in
  match v with
  | Some e => Ok (inr e)
  | None =>
      let! w := eval_stages c inp (Z.to_nat (num_stages c)) 0 (initial_work inp) in
      let! r := eval_final (final c) inp w in
      Ok (inl r)
  end.

(** [std::lround]: nearest, halves away from zero; [None] when the argument is
    not finite, where its value is unspecified. *)
Definition lround (x : f32) : option Z :=
  match x with
  | S754_zero _ => Some 0
  | S754_finite s m e =>
      let v := if 0 <=? e then Zpos m * 2 ^ e else (Zpos m + 2 ^ (- e - 1)) `div` 2 ^ (- e) in
      Some (if s then - v else v)
  | _ => None
  end.

Definition to_u8 (c : f32) : option Z := u8 <$> lround (fmul (clamp01 c) f255).
Definition rc_to_rgba8 (c : vec4) : option (list Z) := mapM to_u8 [x4 c; y4 c; z4 c; w4 c].

Example white_is_255 : rc_to_rgba8 (MkV4 fone fhalf fzero ftwo) = Some [255; 128; 0; 255].
Proof. vm_compute. reflexivity. Qed.

(** ** Shapes and ranges *)

Record config_ok (c : RcConfig) : Prop := {
  co_num : 0 <= num_stages c;
  co_stages : length (stages c) = 8%nat;
}.
Record inputs_ok (i : RcInputs) : Prop := {
  io_const0 : length (i_const0 i) = 9%nat;
  io_const1 : length (i_const1 i) = 9%nat;
}.

(** Not below 0 and not above 1: in the unit interval, or NaN. *)
Definition unit_or_nan (x : f32) : Prop := flt x fzero = false /\ flt fone x = false.

Lemma rc_index_ok {A} (l : list A) i : 0 <= i < zlen l -> exists x, at_index l i = Ok x.
Proof.
  intros Hi. unfold at_index. replace (0 <=? i) with true by lia.
  destruct (lookup_lt_is_Some_2 l (Z.to_nat i)) as [x Hx]; [lia|]. rewrite Hx. by exists x.
Qed.

Lemma rc_load_ok inp w i j r : inputs_ok inp -> 0 <= i <= 8 -> 0 <= j <= 8 ->
  exists v, load_value inp w i j r = Ok v.
Proof.
  intros [H0 H1] Hi Hj. destruct r; try (by eexists); apply rc_index_ok; lia.
Qed.

Lemma eval_stage_ok inp i j st w : inputs_ok inp -> 0 <= i <= 8 -> 0 <= j <= 8 ->
  exists w', eval_stage inp i j st w = Ok w'.
Proof.
  intros Hi H1 H2. unfold eval_stage.
  destruct (rc_load_ok inp w i j (in_reg (qa (st_rgb st))) Hi H1 H2) as [va ->].
  destruct (rc_load_ok inp w i j (in_reg (qb (st_rgb st))) Hi H1 H2) as [vb ->].
  destruct (rc_load_ok inp w i j (in_reg (qc (st_rgb st))) Hi H1 H2) as [vc ->].
  destruct (rc_load_ok inp w i j (in_reg (qd (st_rgb st))) Hi H1 H2) as [vd ->].
  by eexists.
Qed.

Lemma eval_stages_ok c inp n s w : config_ok c -> inputs_ok inp -> 0 <= s -> s + Z.of_nat n <= 8 ->
  exists w', eval_stages c inp n s w = Ok w'.
Proof.
  intros [Hn Hl] Hi. revert s w. induction n as [|n IH]; intros s w Hs Hb; [by exists w|].
  cbn [eval_stages]. destruct (rc_index_ok (stages c) s) as [st ->]; [lia|]. cbn [obind].
  destruct (eval_stage_ok inp (if unique_const0 c then s else 0) (if unique_const1 c then s else 0)
    st w Hi) as [w' ->]; [case_if; lia|case_if; lia|]. cbn [obind]. apply IH; lia.
Qed.

Lemma validate_stages_ok n s l : 0 <= s -> s + Z.of_nat n <= zlen l ->
  exists r, validate_stages n s l = Ok r.
Proof.
  revert s. induction n as [|n IH]; intros s Hs Hb; [by eexists|]. cbn [validate_stages].
  destruct (rc_index_ok l s) as [st ->]; [lia|]. cbn [obind].
  destruct (validate_stage st); [by eexists|]. apply IH; lia.
Qed.

Lemma clamp01_range x : unit_or_nan (clamp01 x).
Proof. by apply fclamp_range. Qed.

Lemma final_val_ok inp w ef vr r : inputs_ok inp -> exists v, final_val inp w ef vr r = Ok v.
Proof.
  intros Hi. destruct r; try (by eexists); apply rc_load_ok; unfold kFinalConst; done || lia.
Qed.

Lemma eval_final_ok f inp w : inputs_ok inp ->
  exists v, eval_final f inp w = Ok v /\ unit_or_nan (x4 v) /\ unit_or_nan (y4 v) /\
    unit_or_nan (z4 v) /\ unit_or_nan (w4 v).
Proof.
  intros Hi. unfold eval_final.
  destruct (rc_load_ok inp w kFinalConst kFinalConst (in_reg (fE f)) Hi) as [ve ->]; [done|done|].
  destruct (rc_load_ok inp w kFinalConst kFinalConst (in_reg (fF f)) Hi) as [vf ->]; [done|done|].
  cbn [obind]. cbv zeta.
  repeat (match goal with |- context [final_val ?i ?w ?e ?v ?r] =>
    destruct (final_val_ok i w e v r Hi) as [? ->]; cbn [obind] end).
  eexists. split; [reflexivity|]. split_and!; apply clamp01_range.
Qed.

(** C21. The combiner pipeline is total and its output fits the framebuffer: on
    a configuration of eight stages and nine constants per set, evaluation
    never indexes out of range; it reports an error exactly when validation
    does, and otherwise every channel of the colour is in the unit interval or
    NaN, whatever the inputs. *)
Theorem rc_evaluate_total_and_clamped c inp :
  config_ok c -> inputs_ok inp ->
  exists v, validate c = Ok v /\
    match v with
    | Some e => rc_evaluate c inp = Ok (inr e)
    | None => exists r, rc_evaluate c inp = Ok (inl r) /\ num_stages c <= 8 /\
        unit_or_nan (x4 r) /\ unit_or_nan (y4 r) /\ unit_or_nan (z4 r) /\ unit_or_nan (w4 r)
    end.
Proof.
  intros Hc Hi. pose proof Hc as [Hn Hl].
  assert (exists v, validate c = Ok v /\ (v = None -> num_stages c <= 8)) as (v & Ev & Hv).
  { unfold validate. case_if; [by eexists|]. case_if; [by eexists|].
    destruct (validate_stages_ok (Z.to_nat (num_stages c)) 0 (stages c)) as [r ->]; [lia..|].
    cbn [obind]. destruct r; [by eexists|]. cbv zeta.
    repeat (case_if; [by eexists|]). eexists. split; [done|]. lia. }
  exists v. split; [done|]. unfold rc_evaluate. rewrite Ev. cbn [obind]. destruct v as [e|]; [done|].
  specialize (Hv eq_refl).
  destruct (eval_stages_ok c inp (Z.to_nat (num_stages c)) 0 (initial_work inp) Hc Hi) as [w ->]; [lia..|].
  cbn [obind]. destruct (eval_final_ok (final c) inp w Hi) as (r & -> & H). cbn [obind].
  exists r. done.
Qed.

(** ** What a stage writes *)

Definition reg_of (w : Work) (r : RcRegister) : option vec4 :=
  match r with
  | Primary => Some (k_primary w) | Secondary => Some (k_secondary w)
  | Spare0 => Some (k_spare0 w) | Spare1 => Some (k_spare1 w)
  | Tex0 => Some (k_tex0 w) | Tex1 => Some (k_tex1 w)
  | Tex2 => Some (k_tex2 w) | Tex3 => Some (k_tex3 w)
  | _ => None
  end.

Lemma update_frame w t f r : r <> t -> reg_of (update_target w t f) r = reg_of w r.
Proof. by destruct t, r. Qed.

Lemma update_at w t f x : reg_of w t = Some x -> reg_of (update_target w t f) t = Some (f x).
Proof. by destruct t; intros [= <-]. Qed.

Definition targets (o : RcOutput) : list RcRegister := [out_ab o; out_cd o; out_sum o].

Lemma rgb_frame st sa va vb vc vd w r : r ∉ targets (st_rgb_out st) ->
  reg_of (rgb_portion st sa va vb vc vd w) r = reg_of w r.
Proof.
  unfold targets. rewrite !not_elem_of_cons. intros (H1 & H2 & H3 & _).
  unfold rgb_portion, write_rgb, write_blue_to_alpha. cbv zeta.
  repeat case_if; rewrite ?update_frame by done; done.
Qed.

Lemma alpha_frame st sa va vb vc vd w r : r ∉ targets (st_alpha_out st) ->
  reg_of (alpha_portion st sa va vb vc vd w) r = reg_of w r.
Proof.
  unfold targets. rewrite !not_elem_of_cons. intros (H1 & H2 & H3 & _).
  unfold alpha_portion, write_alpha. cbv zeta. by rewrite !update_frame.
Qed.

(** A stage changes only the registers its outputs name (discarded
    outputs change nothing): every other working register passes through to
    the next stage as it was. *)
Theorem rc_stage_writes_only_targets inp i j st w w' :
  eval_stage inp i j st w = Ok w' ->
  forall r, r ∉ targets (st_rgb_out st) -> r ∉ targets (st_alpha_out st) ->
  reg_of w' r = reg_of w r.
Proof.
  unfold eval_stage.
  destruct (load_value inp w i j (in_reg (qa (st_rgb st)))) as [va| |]; [|done|done].
  destruct (load_value inp w i j (in_reg (qb (st_rgb st)))) as [vb| |]; [|done|done].
  destruct (load_value inp w i j (in_reg (qc (st_rgb st)))) as [vc| |]; [|done|done].
  destruct (load_value inp w i j (in_reg (qd (st_rgb st)))) as [vd| |]; [|done|done].
  cbn [obind]. intros [= <-] r H1 H2. by rewrite alpha_frame, rgb_frame.
Qed.

(** ** Alpha inputs *)

(** A configuration with the register selectors of every alpha input renamed. *)
Definition rename_input (f : RcRegister -> RcRegister) (i : RcInput) : RcInput :=
  MkInput (f (in_reg i)) (in_channel i) (in_mapping i).
Definition rename_stage (f : RcRegister -> RcRegister) (st : RcStage) : RcStage :=
  MkStage (st_rgb st)
    (let q := st_alpha st in
     MkQuad (rename_input f (qa q)) (rename_input f (qb q)) (rename_input f (qc q)) (rename_input f (qd q)))
    (st_rgb_out st) (st_alpha_out st).
Definition rename_alpha (f : RcRegister -> RcRegister) (c : RcConfig) : RcConfig :=
  MkConfig (num_stages c) (mux c) (unique_const0 c) (unique_const1 c)
           (rename_stage f <$> stages c) (final c).

Lemma at_index_fmap {A B} (f : A -> B) l i :
  at_index (f <$> l) i = match at_index l i with Ok x => Ok (f x) | Fail m => Fail m | Ub m => Ub m end.
Proof.
  unfold at_index. case_if; [|done]. rewrite list_lookup_fmap. by destruct (l !! Z.to_nat i).
Qed.

Section rename.
Context (f : RcRegister -> RcRegister) (Hf : forall r, is_pseudo (f r) = false).

Lemma rename_validate st : validate_stage st = None -> validate_stage (rename_stage f st) = None.
Proof.
  unfold validate_stage. simpl. rewrite !Hf. simpl.
  destruct (_ || _); [done|]. by destruct (_ || _).
Qed.

Lemma rename_validate_stages n s l :
  validate_stages n s l = Ok None -> validate_stages n s (rename_stage f <$> l) = Ok None.
Proof.
  revert s. induction n as [|n IH]; intros s; [done|]. cbn [validate_stages].
  rewrite at_index_fmap. destruct (at_index l s) as [st| |]; [|done|done]. cbn [obind].
  destruct (validate_stage st) eqn:E; [done|]. rewrite (rename_validate _ E). apply IH.
Qed.

Lemma rename_eval c inp n s w :
  eval_stages (rename_alpha f c) inp n s w = eval_stages c inp n s w.
Proof.
  revert s w. induction n as [|n IH]; intros s w; [done|]. cbn [eval_stages].
  change (stages (rename_alpha f c)) with (rename_stage f <$> stages c). rewrite at_index_fmap.
  destruct (at_index (stages c) s) as [st| |]; [|done|done]. cbn [obind].
  change (eval_stage inp (if unique_const0 (rename_alpha f c) then s else 0)
    (if unique_const1 (rename_alpha f c) then s else 0) (rename_stage f st) w)
    with (eval_stage inp (if unique_const0 c then s else 0) (if unique_const1 c then s else 0) st w).
  destruct (eval_stage _ _ _ st w); [apply IH|done|done].
Qed.

(** The register selectors of the alpha inputs are ignored: the alpha
    portion of every stage works on the registers its RGB inputs selected. Any
    renaming of all alpha selectors to ordinary registers leaves the colour
    that a valid configuration computes unchanged. *)
Theorem rc_alpha_selectors_ignored c inp r :
  rc_evaluate c inp = Ok (inl r) -> rc_evaluate (rename_alpha f c) inp = Ok (inl r).
Proof.
  unfold rc_evaluate, validate. cbn [rename_alpha num_stages mux stages final].
  destruct (8 <? num_stages c); [done|]. destruct (negb (bool_decide (mux c = Msb))); [done|].
  destruct (validate_stages (Z.to_nat (num_stages c)) 0 (stages c)) as [[e|]| |] eqn:E; try done.
  rewrite (rename_validate_stages _ _ _ E). cbn [obind]. by rewrite rename_eval.
Qed.
End rename.

(** ** Witnesses *)

Definition demo_input (r : RcRegister) : RcInput := MkInput r Rgb UnsignedIdentity.
Definition no_out : RcOutput := MkOutput Zero Zero Zero Identity false false false false false.
Definition demo_quad : quad :=
  MkQuad (demo_input Primary) (demo_input Const0) (demo_input Tex0) (demo_input Const1).
Definition demo_stage : RcStage :=
  MkStage demo_quad demo_quad
    (MkOutput Zero Zero Spare0 ShiftLeft1 false false false false false) no_out.
Definition demo_final : RcFinal :=
  MkFinal (demo_input Zero) (demo_input Zero) (demo_input Spare0) (demo_input Zero)
          (demo_input Zero) (demo_input Zero) (demo_input Spare0) false false false.
Definition demo_config : RcConfig :=
  MkConfig 1 Msb false false (replicate 8 demo_stage) demo_final.
Definition demo_inputs : RcInputs :=
  MkInputs (MkV4 fone fhalf fzero fone) zero4 zero4 (zero4, zero4, zero4, zero4)
    (replicate 9 (MkV4 fhalf fhalf fhalf fhalf)) (replicate 9 zero4) zero4 zero4.

Lemma rc_evaluate_total_and_clamped_witness :
  exists r, rc_evaluate demo_config demo_inputs = Ok (inl r) /\ unit_or_nan (x4 r).
Proof.
  destruct (rc_evaluate_total_and_clamped demo_config demo_inputs) as (v & E & H);
    [split; [cbn; lia|reflexivity]|split; reflexivity|].
  assert (Hv : validate demo_config = Ok None) by (vm_compute; reflexivity).
  rewrite Hv in E. injection E as <-. destruct H as (r & Hr & _ & Hx & _). exists r. split; assumption.
Defined.

Lemma rc_stage_writes_only_targets_witness :
  exists w', eval_stage demo_inputs 0 0 demo_stage (initial_work demo_inputs) = Ok w' /\
    reg_of w' Primary = Some (i_primary demo_inputs).
Proof.
  destruct (eval_stage demo_inputs 0 0 demo_stage (initial_work demo_inputs)) as [w'| |] eqn:E;
    [|vm_compute in E; discriminate E..].
  exists w'. split; [reflexivity|].
  rewrite (rc_stage_writes_only_targets _ _ _ _ _ _ E Primary); [reflexivity|..];
    unfold targets; cbn; rewrite !not_elem_of_cons; repeat split; try discriminate; apply not_elem_of_nil.
Defined.

Lemma rc_alpha_selectors_ignored_witness :
  exists r, rc_evaluate (rename_alpha (fun _ => Tex3) demo_config) demo_inputs = Ok (inl r).
Proof.
  destruct (rc_evaluate demo_config demo_inputs) as [[r|]| |] eqn:E;
    [|vm_compute in E; discriminate E..].
  exists r. apply (rc_alpha_selectors_ignored (fun _ => Tex3)); [reflexivity|exact E].
Defined.

End XboxRc.
