(* ===== verification/Vfs.v ===== *)
(** The homebrew file system (src/xbox_vfs.cpp): a vector of files searched
    linearly under a lock, and the path rules. It is proved to implement a
    finite map from valid paths to contents. *)
From stdpp Require Import base numbers list gmap strings.
From Stdlib Require Import ZArith Lia.
From S2P Require Import Prelude.
Open Scope Z_scope.

Module Vfs.

(** Paths and contents are byte strings; [files_] is the vector. *)
Abbreviation path := (list Z).
Abbreviation vfs := (list (list Z * list Z)).

Definition kMaxFile : Z := Z.shiftl 64 20.

(** ** Paths *)

(** [rest.find("..") != npos]. *)
Fixpoint has_dotdot (l : list Z) : bool :=
  match l with
  | a :: (b :: _) as l' => ((a =? 46) && (b =? 46)) || has_dotdot l'
  | _ => false
  end.

Definition valid_path (p : path) : bool :=
  if zlen p <? 4 then false else
  match p with
  | drive :: colon :: slash :: rest =>
      if negb ((drive =? 83) || (drive =? 84) || (drive =? 85)) then false
      else if negb (colon =? 58) || negb (slash =? 92) then false
      else if bool_decide (rest = []) then false
      else if has_dotdot rest then false
      else forallb (fun c => negb ((c =? 0) || (c =? 58))) rest
  | _ => false
  end.

(** ** Operations *)

Fixpoint find (v : vfs) (p : path) : option (list Z) :=
  match v with
  | [] => None
  | (q, d) :: v' => if bool_decide (q = p) then Some d else find v' p
  end.

(** [*find(path) = data]. *)
Fixpoint assign (v : vfs) (p : path) (d : list Z) : vfs :=
  match v with
  | [] => []
  | (q, e) :: v' => if bool_decide (q = p) then (q, d) :: v' else (q, e) :: assign v' p d
  end.

Definition create_file (v : vfs) (p : path) (d : list Z) : bool * vfs :=
  if negb (valid_path p) || (kMaxFile <? zlen d) then (false, v)
  else match find v p with
       | Some _ => (false, v)
       | None => (true, v ++ [(p, d)])
       end.

(** The overload on a raw buffer: [None] is a null pointer of [size] bytes. *)
Definition create_file_raw (v : vfs) (p : path) (data : option (list Z)) (size : Z) : bool * vfs :=
  match data with
  | None => if negb (size =? 0) then (false, v)
            else if kMaxFile <? size then (false, v) else create_file v p []
  | Some d => if kMaxFile <? size then (false, v) else create_file v p (take (Z.to_nat size) d)
  end.

Definition write_file (v : vfs) (p : path) (d : list Z) : bool * vfs :=
  if negb (valid_path p) || (kMaxFile <? zlen d) then (false, v)
  else match find v p with
       | Some _ => (true, assign v p d)
       | None => (true, v ++ [(p, d)])
       end.

Definition read_file (v : vfs) (p : path) : option (list Z) :=
  if negb (valid_path p) then None else find v p.

Definition read_slice (v : vfs) (p : path) (offset size : Z) : option (list Z) :=
  if negb (valid_path p) || (size =? 0) then None
  else match find v p with
       | None => None
       | Some d =>
           if (zlen d <? offset) || (zlen d - offset <? size) then None
           else Some (take (Z.to_nat size) (drop (Z.to_nat offset) d))
       end.

Definition exists_ (v : vfs) (p : path) : bool :=
  if negb (valid_path p) then false else match find v p with Some _ => true | None => false end.

Definition file_size (v : vfs) (p : path) : option Z :=
  if negb (valid_path p) then None
  else match find v p with Some d => Some (zlen d) | None => None end.

Fixpoint erase (v : vfs) (p : path) : option vfs :=
  match v with
  | [] => None
  | (q, d) :: v' =>
      if bool_decide (q = p) then Some v'
      else match erase v' p with Some r => Some ((q, d) :: r) | None => None end
  end.

Definition remove_file (v : vfs) (p : path) : bool * vfs :=
  if negb (valid_path p) then (false, v)
  else match erase v p with Some v' => (true, v') | None => (false, v) end.

Definition file_count (v : vfs) : Z := zlen v.

(** ** The abstract file system: a finite map *)

Abbreviation files := (gmap (list Z) (list Z)).

(** The vector holds each path once, and only valid paths and sizes. *)
Record vfs_rep (v : vfs) (m : files) : Prop := {
  vr_nodup : NoDup v.*1;
  vr_map : list_to_map v = m;
  vr_valid : forall p d, m !! p = Some d -> valid_path p = true /\ zlen d <= kMaxFile;
}.

Lemma find_map (v : vfs) p : find v p = (list_to_map v : files) !! p.
Proof.
  induction v as [|[q d] v IH]; [done|]. rewrite list_to_map_cons. cbn [find].
  case_bool_decide as Hd.
  - subst. by rewrite lookup_insert_eq.
  - by rewrite lookup_insert_ne, IH.
Qed.

Lemma find_none_fst (v : vfs) p : find v p = None -> p ∉ v.*1.
Proof. rewrite find_map. apply not_elem_of_list_to_map_2. Qed.

Lemma assign_fst v p d : (assign v p d).*1 = v.*1.
Proof. induction v as [|[q e] v IH]; [done|]. simpl. case_bool_decide; simpl; by f_equal. Qed.

Lemma assign_map v p d : is_Some (find v p) ->
  (list_to_map (assign v p d) : files) = <[p := d]> (list_to_map v).
Proof.
  induction v as [|[q e] v IH]; [by intros [? [=]]|]. cbn [find assign].
  case_bool_decide as Hd; rewrite !list_to_map_cons.
  - intros _. subst. by rewrite insert_insert_eq.
  - intros Hs. rewrite IH by done. by rewrite insert_insert_ne.
Qed.

Lemma erase_spec (v : vfs) p : NoDup v.*1 ->
  match erase v p with
  | Some v' => is_Some (find v p) /\ NoDup v'.*1 /\ p ∉ v'.*1 /\ (forall q, q ∈ v'.*1 -> q ∈ v.*1) /\
      (list_to_map v' : files) = delete p (list_to_map v)
  | None => find v p = None
  end.
Proof.
  induction v as [|[q d] v IH]; [done|]. rewrite fmap_cons. intros [Hq Hn]%NoDup_cons.
  cbn [erase find fst]. rewrite list_to_map_cons. case_bool_decide as Hd.
  - subst. split_and!; try done; [by intros; right|].
    rewrite delete_insert_id; [done|]. by apply not_elem_of_list_to_map_1.
  - specialize (IH Hn). destruct (erase v p) as [v'|]; [|done].
    destruct IH as (H1 & H2 & H3 & H4 & H5). rewrite fmap_cons, list_to_map_cons. split_and!; cbn [fst].
    + done.
    + apply NoDup_cons. split; [|done]. intros Hin. by apply Hq, H4.
    + rewrite elem_of_cons. intros [?|?]; [congruence|done].
    + intros x. rewrite !elem_of_cons. intros [?|?]; auto.
    + rewrite H5. by rewrite delete_insert_ne.
Qed.

Lemma rep_app v m p d : vfs_rep v m -> find v p = None -> valid_path p = true -> zlen d <= kMaxFile ->
  vfs_rep (v ++ [(p, d)]) (<[p := d]> m).
Proof.
  intros [H1 H2 H3] Hf Hv Hd. pose proof (find_none_fst _ _ Hf) as Hn. split.
  - rewrite fmap_app. apply NoDup_app. split_and!; [done| |apply NoDup_singleton].
    intros x Hx Hx2. apply list_elem_of_singleton in Hx2 as ->. done.
  - rewrite list_to_map_app. simpl. rewrite <- H2. apply map_eq. intros q.
    destruct (decide (q = p)) as [->|Hne].
    + rewrite lookup_union_r by by apply not_elem_of_list_to_map_1. by rewrite !lookup_insert_eq.
    + rewrite lookup_insert_ne by done. destruct ((list_to_map v : files) !! q) eqn:E.
      * by apply lookup_union_Some_l.
      * rewrite lookup_union_r by done. by rewrite lookup_insert_ne.
  - intros q e. destruct (decide (q = p)) as [->|Hne].
    + rewrite lookup_insert_eq. intros [= <-]. done.
    + rewrite lookup_insert_ne by done. apply H3.
Qed.

Lemma rep_assign v m p d : vfs_rep v m -> is_Some (find v p) -> valid_path p = true -> zlen d <= kMaxFile ->
  vfs_rep (assign v p d) (<[p := d]> m).
Proof.
  intros [H1 H2 H3] Hf Hv Hd. split; [by rewrite assign_fst|by rewrite assign_map, H2|].
  intros q e. destruct (decide (q = p)) as [->|Hne].
  - rewrite lookup_insert_eq. intros [= <-]. done.
  - rewrite lookup_insert_ne by done. apply H3.
Qed.

Lemma rep_find v m p : vfs_rep v m -> find v p = m !! p.
Proof. intros H. rewrite find_map. by rewrite (vr_map _ _ H). Qed.

(** An invalid path names no file. *)
Lemma rep_invalid v m p : vfs_rep v m -> valid_path p = false -> m !! p = None.
Proof.
  intros H Hp. destruct (m !! p) eqn:E; [|done].
  destruct (vr_valid _ _ H _ _ E). congruence.
Qed.

Lemma create_refines v m p d : vfs_rep v m ->
  let (r, v') := create_file v p d in
  r = valid_path p && (zlen d <=? kMaxFile) && bool_decide (m !! p = None) /\
  vfs_rep v' (if r then <[p := d]> m else m).
Proof.
  intros H. unfold create_file. pose proof (rep_find v m p H) as Hf.
  destruct (valid_path p) eqn:Hv; [|done]. rewrite Z.leb_antisym.
  destruct (kMaxFile <? zlen d) eqn:Hd; [done|]. cbn [negb orb andb].
  destruct (find v p) as [e|] eqn:E; rewrite <- Hf.
  - by rewrite bool_decide_false.
  - rewrite bool_decide_true by done. split; [done|]. apply rep_app; [done|done|done|lia].
Qed.

Lemma write_refines v m p d : vfs_rep v m ->
  let (r, v') := write_file v p d in
  r = valid_path p && (zlen d <=? kMaxFile) /\ vfs_rep v' (if r then <[p := d]> m else m).
Proof.
  intros H. unfold write_file.
  destruct (valid_path p) eqn:Hv; [|done]. rewrite Z.leb_antisym.
  destruct (kMaxFile <? zlen d) eqn:Hd; [done|]. cbn [negb orb andb].
  destruct (find v p) as [e|] eqn:E.
  - split; [done|]. apply rep_assign; [done|by rewrite E|done|lia].
  - split; [done|]. apply rep_app; [done|done|done|lia].
Qed.

Lemma remove_refines v m p : vfs_rep v m ->
  let (r, v') := remove_file v p in
  r = bool_decide (is_Some (m !! p)) /\ vfs_rep v' (delete p m).
Proof.
  intros H. unfold remove_file. destruct (valid_path p) eqn:Hv; cbn [negb].
  2:{ pose proof (rep_invalid _ _ _ H Hv) as Hn. rewrite Hn, delete_id by done.
      by rewrite bool_decide_false by by intros [? [=]]. }
  pose proof (erase_spec v p (vr_nodup _ _ H)) as He. pose proof (rep_find v m p H) as Hf.
  destruct (erase v p) as [v'|]; rewrite <- Hf.
  - destruct He as (H1 & H2 & H3 & H4 & H5). rewrite bool_decide_true by done. split; [done|].
    split; [done|by rewrite H5, (vr_map _ _ H)|].
    intros q e [_ Hq]%lookup_delete_Some. by apply (vr_valid _ _ H).
  - rewrite He, bool_decide_false by by intros [? [=]]. split; [done|].
    rewrite delete_id by congruence. done.
Qed.

Lemma slice_refines v m p off n : vfs_rep v m -> 0 <= off -> 0 <= n ->
  read_slice v p off n =
    match m !! p with
    | Some e => if bool_decide (0 < n /\ off + n <= zlen e)
                then Some (take (Z.to_nat n) (drop (Z.to_nat off) e)) else None
    | None => None
    end.
Proof.
  intros H Ho Hn. unfold read_slice. destruct (valid_path p) eqn:Hv; cbn [negb orb].
  2:{ by rewrite (rep_invalid _ _ _ H Hv). }
  rewrite (rep_find v m p H). destruct (n =? 0) eqn:E0.
  - destruct (m !! p); [|done]. by rewrite bool_decide_false by lia.
  - destruct (m !! p) as [e|]; [|done]. case_bool_decide as Hb.
    + by replace (_ || _) with false by lia.
    + by replace (_ || _) with true by lia.
Qed.

(** C29. The file system implements a finite map from paths to contents. Create
    adds a file exactly when the path is valid, the data is at most 64 MiB and
    the path is new; write sets or replaces it; remove deletes it; reads,
    existence and sizes are lookups; a slice is returned exactly when it is
    non-empty and lies inside the file, and then is that part of the contents;
    a refused operation changes nothing. *)
Theorem vfs_refines_map v m p d :
  vfs_rep v m ->
  let ok := valid_path p && (zlen d <=? kMaxFile) in
  (let (r, v') := create_file v p d in
     r = ok && bool_decide (m !! p = None) /\ vfs_rep v' (if r then <[p := d]> m else m)) /\
  (let (r, v') := write_file v p d in
     r = ok /\ vfs_rep v' (if r then <[p := d]> m else m)) /\
  (let (r, v') := remove_file v p in
     r = bool_decide (is_Some (m !! p)) /\ vfs_rep v' (delete p m)) /\
  read_file v p = m !! p /\ exists_ v p = bool_decide (is_Some (m !! p)) /\
  file_size v p = (fun e => zlen e) <$> m !! p /\
  (forall off n, 0 <= off -> 0 <= n ->
     read_slice v p off n =
       match m !! p with
       | Some e => if bool_decide (0 < n /\ off + n <= zlen e)
                   then Some (take (Z.to_nat n) (drop (Z.to_nat off) e)) else None
       | None => None
       end).
Proof.
  intros H ok. split_and!.
  - by apply create_refines.
  - by apply write_refines.
  - by apply remove_refines.
  - unfold read_file. destruct (valid_path p) eqn:Hv; [by apply rep_find|].
    by rewrite (rep_invalid _ _ _ H Hv).
  - unfold exists_. destruct (valid_path p) eqn:Hv; cbn [negb].
    + rewrite (rep_find v m p H). by destruct (m !! p).
    + by rewrite (rep_invalid _ _ _ H Hv).
  - unfold file_size. destruct (valid_path p) eqn:Hv; cbn [negb].
    + rewrite (rep_find v m p H). by destruct (m !! p).
    + by rewrite (rep_invalid _ _ _ H Hv).
  - intros off n Ho Hn. by apply slice_refines.
Qed.

(** ** Witness *)

(** "S:\\a". *)
Definition demo_path : path := [83; 58; 92; 97].
Definition demo_vfs : vfs := [(demo_path, [1; 2; 3; 4])].

Lemma demo_rep : vfs_rep demo_vfs {[demo_path := [1; 2; 3; 4]]}.
Proof.
  split; [apply NoDup_singleton|by vm_compute|].
  intros p d Hp. apply lookup_singleton_Some in Hp as [<- <-]. split; [by vm_compute|].
  vm_compute. discriminate.
Qed.

Lemma vfs_refines_map_witness : read_slice demo_vfs demo_path 1 2 = Some [2; 3].
Proof.
  destruct (vfs_refines_map demo_vfs _ demo_path [] demo_rep) as (_ & _ & _ & _ & _ & _ & H).
  rewrite H by lia. vm_compute. reflexivity.
Defined.

End Vfs.
