(* ===== verification/IoQueue.v ===== *)
(** The asynchronous file-to-memory queue (src/io_queue.cpp). Every public call
    is a critical section of one mutex, so it is one step; the worker thread
    takes a request under the lock, performs the transfer without it, and
    completes it under the lock again, with any other steps in between. *)
From stdpp Require Import base numbers list gmap strings.
From Stdlib Require Import ZArith Lia.
From S2P Require Import Prelude XbeRam MemMap Vfs.
Open Scope Z_scope.

Module IoQueue.
Import XbeRam.

(** ** State *)

Inductive Status := Pending | InFlight | Done | Cancelled | Error.

#[export] Instance Status_eq_dec : EqDecision Status.
Proof. solve_decision. Defined.

Record Req := MkReq {
  q_path : list Z; q_off : Z; q_size : Z; q_dest : Z; q_tag : Z; q_status : Status;
}.
Definition set_status (s : Status) (r : Req) : Req :=
  MkReq (q_path r) (q_off r) (q_size r) (q_dest r) (q_tag r) s.

(** Where the worker thread is: waiting for work, between taking a request and
    transferring it, or between the transfer and taking the lock again. *)
Inductive worker := WIdle | WTaken (r : Req) | WMoved (r : Req) (ok : bool).

(** [io_waiting]: the requests of threads blocked in [enqueue_wait]. *)
Record ioq := MkIoq {
  io_reqs : list Req;
  io_inflight : Z;
  io_submitted : bool;
  io_auto : bool;
  io_stopping : bool;
  io_waiting : list Req;
  io_worker : worker;
  io_mem : MemMap.memmap;
  io_vfs : list (list Z * list Z);
}.

Definition with_reqs (q : ioq) l : ioq :=
  MkIoq l (io_inflight q) (io_submitted q) (io_auto q) (io_stopping q) (io_waiting q) (io_worker q)
        (io_mem q) (io_vfs q).
Definition with_submitted (q : ioq) b : ioq :=
  MkIoq (io_reqs q) (io_inflight q) b (io_auto q) (io_stopping q) (io_waiting q) (io_worker q)
        (io_mem q) (io_vfs q).
Definition with_waiting (q : ioq) l : ioq :=
  MkIoq (io_reqs q) (io_inflight q) (io_submitted q) (io_auto q) (io_stopping q) l (io_worker q)
        (io_mem q) (io_vfs q).
Definition with_auto (q : ioq) b : ioq :=
  MkIoq (io_reqs q) (io_inflight q) (io_submitted q) b (io_stopping q) (io_waiting q) (io_worker q)
        (io_mem q) (io_vfs q).
Definition with_stopping (q : ioq) b : ioq :=
  MkIoq (io_reqs q) (io_inflight q) (io_submitted q) (io_auto q) b (io_waiting q) (io_worker q)
        (io_mem q) (io_vfs q).
Definition with_worker (q : ioq) n w : ioq :=
  MkIoq (io_reqs q) n (io_submitted q) (io_auto q) (io_stopping q) (io_waiting q) w
        (io_mem q) (io_vfs q).
Definition with_world (q : ioq) m v : ioq :=
  MkIoq (io_reqs q) (io_inflight q) (io_submitted q) (io_auto q) (io_stopping q) (io_waiting q)
        (io_worker q) m v.

Definition kCapacity : Z := 8.
Definition kAutoSubmit : Z := kCapacity `div` 2.

Definition new_queue (m : MemMap.memmap) (v : list (list Z * list Z)) : ioq :=
  MkIoq [] 0 false true false [] WIdle m v.

(** ** Queries *)

Definition is_status (s : Status) (r : Req) : bool := bool_decide (q_status r = s).
Definition count_status (s : Status) (l : list Req) : Z := zlen (List.filter (is_status s) l).
Definition pending (q : ioq) : Z := count_status Pending (io_reqs q).
Definition completed (q : ioq) : Z := count_status Done (io_reqs q).
Definition slots_in_use (q : ioq) : Z := pending q + io_inflight q.

Fixpoint find_tag (l : list Req) (tag : Z) : option Req :=
  match l with
  | [] => None
  | r :: l' => if q_tag r =? tag then Some r else find_tag l' tag
  end.

Definition status (q : ioq) (tag : Z) : Status :=
  match find_tag (io_reqs q) tag with Some r => q_status r | None => Error end.

(** The conditions [wait_tag] and [wait_all] wait for. *)
Definition wait_tag_ready (q : ioq) (tag : Z) : bool :=
  match find_tag (io_reqs q) tag with
  | Some r => is_status Done r || is_status Cancelled r || is_status Error r
  | None => true
  end.
Definition wait_all_ready (q : ioq) : bool :=
  if 0 <? io_inflight q then false
  else if io_submitted q then pending q =? 0 else true.

Section ops.
Context `{os : HostOS}.

(** ** Requests *)

Definition request_ok (q : ioq) (r : Req) : bool :=
  negb (q_size r =? 0) && Vfs.valid_path (q_path r) && MemMap.in_range (q_dest r) (q_size r) &&
  MemMap.is_committed (io_mem q) (q_dest r) (q_size r).

Definition known_tag (q : ioq) (tag : Z) : bool := existsb (fun r => q_tag r =? tag) (io_reqs q).

(** Push and auto-submit at half capacity. *)
Definition push (q : ioq) (r : Req) : ioq :=
  let q := with_reqs q (io_reqs q ++ [set_status Pending r]) in
  if io_auto q && (kAutoSubmit <=? pending q) && negb (io_submitted q)
  then with_submitted q true else q.

Definition enqueue (q : ioq) (r : Req) : bool * ioq :=
  if negb (request_ok q r) then (false, q)
  else if known_tag q (q_tag r) then (false, q)
  else if kCapacity <=? slots_in_use q then (false, q)
  else (true, push q r).

(** [enqueue_wait] up to its wait: [None] when the caller blocks. *)
Definition enqueue_wait (q : ioq) (r : Req) : option bool * ioq :=
  if negb (request_ok q r) then (Some false, q)
  else if known_tag q (q_tag r) then (Some false, q)
  else if slots_in_use q <? kCapacity then (Some true, push q r)
  else (None, with_waiting q (io_waiting q ++ [r])).

(** A blocked [enqueue_wait] that finds a free slot pushes and returns true. *)
Definition wake_enqueue (q : ioq) (i : nat) : option ioq :=
  match io_waiting q !! i with
  | Some r => if slots_in_use q <? kCapacity
              then Some (push (with_waiting q (delete i (io_waiting q))) r) else None
  | None => None
  end.

Fixpoint cancel_first (l : list Req) (tag : Z) : option (list Req) :=
  match l with
  | [] => None
  | r :: l' =>
      if (q_tag r =? tag) && is_status Pending r then Some (set_status Cancelled r :: l')
      else match cancel_first l' tag with Some l'' => Some (r :: l'') | None => None end
  end.
Definition cancel (q : ioq) (tag : Z) : bool * ioq :=
  match cancel_first (io_reqs q) tag with
  | Some l => (true, with_reqs q l)
  | None => (false, q)
  end.

Definition submit (q : ioq) : bool * ioq :=
  if io_submitted q then (false, q)
  else if pending q =? 0 then (false, q)
  else (true, with_submitted q true).

(** ** The worker *)

Fixpoint take_first (l : list Req) : option (Req * list Req) :=
  match l with
  | [] => None
  | r :: l' =>
      if is_status Pending r then Some (set_status InFlight r, set_status InFlight r :: l')
      else match take_first l' with Some (x, l'') => Some (x, r :: l'') | None => None end
  end.

(** One pass of the loop up to the unlock: enabled when the gate is open. *)
Definition worker_take (q : ioq) : option ioq :=
  match io_worker q with
  | WIdle =>
      if io_stopping q || negb (io_submitted q) then None else
      match take_first (io_reqs q) with
      | Some (r, l) => Some (with_worker (with_reqs q l) (io_inflight q + 1) (WTaken r))
      | None => Some (with_submitted q false)
      end
  | _ => None
  end.

(** The transfer: [read_slice] into a buffer, then [write_bytes]. *)
Definition transfer (m : MemMap.memmap) (v : list (list Z * list Z)) (r : Req)
    : bool * MemMap.memmap :=
  match Vfs.read_slice v (q_path r) (q_off r) (q_size r) with
  | Some data => MemMap.write_bytes m (q_dest r) data
  | None => (false, m)
  end.
Definition worker_move (q : ioq) : option ioq :=
  match io_worker q with
  | WTaken r =>
      let (ok, m) := transfer (io_mem q) (io_vfs q) r in
      Some (with_world (with_worker q (io_inflight q) (WMoved r ok)) m (io_vfs q))
  | _ => None
  end.

(** Mark the first in-flight request with the tag. *)
Fixpoint finish_first (l : list Req) (tag : Z) (s : Status) : list Req :=
  match l with
  | [] => []
  | r :: l' => if (q_tag r =? tag) && is_status InFlight r then set_status s r :: l'
               else r :: finish_first l' tag s
  end.
Definition worker_finish (q : ioq) : option ioq :=
  match io_worker q with
  | WMoved r ok =>
      let q := with_reqs q (finish_first (io_reqs q) (q_tag r) (if ok then Done else Error)) in
      let q := with_worker q (io_inflight q - 1) WIdle in
      Some (if pending q =? 0 then with_submitted q false else q)
  | _ => None
  end.

(** The worker left alone: passes of the loop until the gate is closed. *)
Definition worker_round (q : ioq) : option ioq :=
  match worker_take q with
  | Some q1 => match worker_move q1 with Some q2 => worker_finish q2 | None => Some q1 end
  | None => None
  end.
Fixpoint worker_main (fuel : nat) (q : ioq) : option ioq :=
  if negb (io_submitted q) then Some q else
  match fuel with
  | O => None
  | S fuel => match worker_round q with Some q' => worker_main fuel q' | None => None end
  end.

(** ** Interleavings *)

(** The world step is the title: it may change guest memory and files. *)
Inductive io_step (q : ioq) : ioq -> Prop :=
  | st_enqueue r b q' : enqueue q r = (b, q') -> io_step q q'
  | st_wait r b q' : enqueue_wait q r = (b, q') -> io_step q q'
  | st_wake i q' : wake_enqueue q i = Some q' -> io_step q q'
  | st_cancel tag b q' : cancel q tag = (b, q') -> io_step q q'
  | st_submit b q' : submit q = (b, q') -> io_step q q'
  | st_auto b : io_step q (with_auto q b)
  | st_stop : io_step q (with_stopping q true)
  | st_take q' : worker_take q = Some q' -> io_step q q'
  | st_move q' : worker_move q = Some q' -> io_step q q'
  | st_finish q' : worker_finish q = Some q' -> io_step q q'
  | st_world m v : io_step q (with_world q m v).

Inductive io_reachable : ioq -> Prop :=
  | io_new m v : io_reachable (new_queue m v)
  | io_more q q' : io_reachable q -> io_step q q' -> io_reachable q'.

(** ** What one pass over the request list does *)

Lemma count_status_app s l r :
  count_status s (l ++ [r]) = count_status s l + (if is_status s r then 1 else 0).
Proof.
  unfold count_status. rewrite List.filter_app, length_app. cbn. destruct (is_status s r); cbn; lia.
Qed.

Lemma count_status_nonneg s l : 0 <= count_status s l.
Proof. unfold count_status. lia. Qed.

Lemma count_status_cons s r l :
  count_status s (r :: l) = (if is_status s r then 1 else 0) + count_status s l.
Proof. unfold count_status. cbn. destruct (is_status s r); cbn [length]; lia. Qed.

Lemma count_status_insert s l i r x :
  l !! i = Some r ->
  count_status s (<[i := x]> l) =
  count_status s l - (if is_status s r then 1 else 0) + (if is_status s x then 1 else 0).
Proof.
  revert i; induction l as [|a l IH]; intros [|i] Hr; cbn in Hr; try discriminate.
  - injection Hr as ->. change (<[0%nat := x]> (r :: l)) with (x :: l).
    rewrite !count_status_cons. lia.
  - change (<[S i := x]> (a :: l)) with (a :: <[i := x]> l).
    rewrite !count_status_cons, (IH i Hr). lia.
Qed.

Lemma count_status_zero s l : count_status s l = 0 -> Forall (fun r => q_status r <> s) l.
Proof.
  induction l as [|a l IH]; [constructor|]. rewrite count_status_cons.
  pose proof (count_status_nonneg s l). unfold is_status at 1. case_bool_decide; intros; [lia|].
  constructor; [done|]. apply IH. lia.
Qed.

Lemma count_status_none s l : Forall (fun r => q_status r <> s) l -> count_status s l = 0.
Proof.
  induction 1 as [|a l Ha Hl IH]; [reflexivity|]. rewrite count_status_cons, IH.
  unfold is_status. rewrite bool_decide_false by done. reflexivity.
Qed.

(** The request with a status that is held once. *)
Lemma count_status_unique s l i j a b :
  count_status s l <= 1 -> l !! i = Some a -> l !! j = Some b ->
  q_status a = s -> q_status b = s -> i = j.
Proof.
  intros Hc Hi Hj Ha Hb. destruct (decide (i = j)) as [|Hne]; [done|exfalso].
  assert (Hz : exists t, t <> s) by (destruct s; [exists Done|exists Done|exists Error|exists Done|exists Done]; done).
  destruct Hz as [t Ht].
  pose proof (count_status_insert s l i a (set_status t a) Hi) as H1.
  pose proof (count_status_insert s (<[i := set_status t a]> l) j b (set_status t b)) as H2.
  rewrite list_lookup_insert_ne in H2 by done. specialize (H2 Hj).
  pose proof (count_status_nonneg s (<[j := set_status t b]> (<[i := set_status t a]> l))).
  unfold is_status in *. cbn in *.
  rewrite (bool_decide_true (q_status a = s)), (bool_decide_false (t = s)) in H1 by done.
  rewrite (bool_decide_true (q_status b = s)), (bool_decide_false (t = s)) in H2 by done. lia.
Qed.

Lemma take_first_spec l x l' :
  take_first l = Some (x, l') ->
  exists i r, l !! i = Some r /\ q_status r = Pending /\ x = set_status InFlight r /\
              l' = <[i := x]> l /\
              forall j a, (j < i)%nat -> l !! j = Some a -> q_status a <> Pending.
Proof.
  revert l'; induction l as [|a l IH]; intros l'; cbn; [done|].
  unfold is_status; case_bool_decide as Ha.
  - intros [= <- <-]. exists 0%nat, a. split_and!; try done. intros; lia.
  - destruct (take_first l) as [[y m]|]; [|done]. intros [= -> <-].
    destruct (IH m eq_refl) as (i & r & Hi & Hr & Hx & Hm & Hp).
    exists (S i), r. split_and!; try done; [by rewrite Hm|].
    intros [|j] b Hj Hb; cbn in Hb; [congruence|]. eapply Hp; [|done]. lia.
Qed.

Lemma take_first_none l : take_first l = None -> count_status Pending l = 0.
Proof.
  induction l as [|a l IH]; [done|]. cbn. rewrite count_status_cons.
  destruct (is_status Pending a); [done|].
  destruct (take_first l) as [[y m]|]; [done|]. intros. rewrite IH by done. reflexivity.
Qed.

Lemma cancel_first_spec l tag l' :
  cancel_first l tag = Some l' ->
  exists i r, l !! i = Some r /\ q_status r = Pending /\ q_tag r = tag /\
              l' = <[i := set_status Cancelled r]> l.
Proof.
  revert l'; induction l as [|a l IH]; intros l'; cbn; [done|].
  unfold is_status. case_bool_decide as Ha; destruct (Z.eqb_spec (q_tag a) tag) as [Ht|Ht]; cbn;
    try (intros [= <-]; exists 0%nat, a; done);
    (destruct (cancel_first l tag) as [m|]; [|done]; intros [= <-];
     destruct (IH m eq_refl) as (i & r & Hi & Hr & Htg & ->); exists (S i), r; done).
Qed.

Lemma finish_first_spec l tag s i r :
  count_status InFlight l <= 1 -> l !! i = Some r -> q_status r = InFlight -> q_tag r = tag ->
  finish_first l tag s = <[i := set_status s r]> l.
Proof.
  revert i; induction l as [|a l IH]; intros [|i] Hc Hi Hr Ht; cbn in Hi; try discriminate.
  - injection Hi as ->. cbn. unfold is_status.
    rewrite Ht, Z.eqb_refl, bool_decide_true by done. reflexivity.
  - assert (Ha : q_status a <> InFlight).
    { intros Ha. pose proof (count_status_unique InFlight (a :: l) 0%nat (S i) a r Hc) as H.
      discriminate H; done. }
    cbn. unfold is_status at 1. rewrite bool_decide_false, andb_false_r by done.
    rewrite count_status_cons in Hc. rewrite (IH i); try done.
    destruct (is_status InFlight a); lia.
Qed.

(** ** The queue invariant *)

Definition unstarted (r : Req) : Prop := q_status r = Pending \/ q_status r = Cancelled.

(** No request is started while an earlier one is pending. *)
Definition in_order (l : list Req) : Prop :=
  forall i j a b, (i < j)%nat -> l !! i = Some a -> l !! j = Some b ->
    q_status a = Pending -> unstarted b.

(** The worker holds the request that is in flight, and no other is. *)
Definition worker_agrees (q : ioq) : Prop :=
  match io_worker q with
  | WIdle => io_inflight q = 0 /\ count_status InFlight (io_reqs q) = 0
  | WTaken r | WMoved r _ =>
      io_inflight q = 1 /\ count_status InFlight (io_reqs q) = 1 /\
      q_status r = InFlight /\ exists i, io_reqs q !! i = Some r
  end.

Record io_inv (q : ioq) : Prop := MkInv {
  inv_order : in_order (io_reqs q);
  inv_worker : worker_agrees q;
  inv_slots : slots_in_use q <= kCapacity;
}.

Lemma in_order_push l r : in_order l -> in_order (l ++ [set_status Pending r]).
Proof.
  intros Ho i j a b Hij Hi Hj Ha.
  apply lookup_app_Some in Hj as [Hj|[Hl Hj]].
  - rewrite lookup_app_l in Hi by (apply lookup_lt_Some in Hj; lia). by eapply Ho.
  - apply list_lookup_singleton_Some in Hj as [_ <-]. by left.
Qed.

(** Moving a pending request on, or ending a started one, keeps the order. *)
Lemma in_order_insert l k r s :
  in_order l -> l !! k = Some r -> s <> Pending ->
  (unstarted (set_status s r) \/
   ~ unstarted r \/ forall j a, (j < k)%nat -> l !! j = Some a -> q_status a <> Pending) ->
  in_order (<[k := set_status s r]> l).
Proof.
  intros Ho Hk Hs Hc i j a b Hij Hi Hj Ha.
  destruct (decide (i = k)) as [->|Hik].
  { rewrite list_lookup_insert_eq in Hi by (by eapply lookup_lt_Some).
    injection Hi as <-. done. }
  rewrite list_lookup_insert_ne in Hi by done.
  destruct (decide (j = k)) as [->|Hjk].
  - rewrite list_lookup_insert_eq in Hj by (by eapply lookup_lt_Some). injection Hj as <-.
    destruct Hc as [Hu|[Hn|Hf]]; [done| |].
    + destruct Hn. by eapply Ho.
    + by destruct (Hf i a Hij Hi).
  - rewrite list_lookup_insert_ne in Hj by done. by eapply Ho.
Qed.

Lemma pending_push l r : count_status Pending (l ++ [set_status Pending r]) = count_status Pending l + 1.
Proof. rewrite count_status_app. reflexivity. Qed.

Lemma worker_agrees_push q r :
  worker_agrees q -> worker_agrees (with_reqs q (io_reqs q ++ [set_status Pending r])).
Proof.
  unfold worker_agrees; cbn. rewrite count_status_app. cbn. rewrite Z.add_0_r.
  destruct (io_worker q) as [|x|x ok]; try done.
  all: intros (? & ? & ? & i & Hi); split_and!; try done; exists i; by apply lookup_app_l_Some.
Qed.

(** The gate, the waiters, the world and the switches are not constrained. *)
Lemma io_inv_frame q q' :
  io_reqs q' = io_reqs q -> io_inflight q' = io_inflight q -> io_worker q' = io_worker q ->
  io_inv q -> io_inv q'.
Proof.
  intros Hr Hn Hw [Ho Ha Hs]. split.
  - by rewrite Hr.
  - unfold worker_agrees in *. by rewrite Hw, Hn, Hr.
  - unfold slots_in_use, pending in *. by rewrite Hn, Hr.
Qed.

Lemma io_inv_push q r : io_inv q -> slots_in_use q < kCapacity -> io_inv (push q r).
Proof.
  intros [Ho Ha Hs] Hlt.
  apply (io_inv_frame (with_reqs q (io_reqs q ++ [set_status Pending r])));
    try (unfold push; by case_match).
  split; cbn.
  - by apply in_order_push.
  - by apply worker_agrees_push.
  - unfold slots_in_use, pending in *. cbn. rewrite pending_push. lia.
Qed.

Lemma io_inv_cancel q tag b q' : cancel q tag = (b, q') -> io_inv q -> io_inv q'.
Proof.
  unfold cancel. destruct (cancel_first _ _) as [l|] eqn:E; intros [= <- <-] [Ho Ha Hs]; [|done].
  apply cancel_first_spec in E as (i & r & Hi & Hr & Ht & ->). split; cbn.
  - apply in_order_insert; try done. left. by right.
  - unfold worker_agrees in *. cbn. rewrite (count_status_insert _ _ _ _ _ Hi).
    unfold is_status; cbn. rewrite Hr. cbn. rewrite Z.sub_0_r, Z.add_0_r.
    destruct (io_worker q) as [|x|x ok]; try done.
    all: destruct Ha as (? & ? & Hx & j & Hj); split_and!; try done; exists j;
      rewrite list_lookup_insert_ne; congruence.
  - unfold slots_in_use, pending in *. cbn. rewrite (count_status_insert _ _ _ _ _ Hi).
    unfold is_status; cbn. rewrite Hr. repeat case_bool_decide; try done; lia.
Qed.

Lemma io_inv_take q q' : worker_take q = Some q' -> io_inv q -> io_inv q'.
Proof.
  unfold worker_take. destruct (io_worker q) eqn:Ew; [|done..]. destruct (_ || _); [done|].
  destruct (take_first _) as [[x l]|] eqn:E; intros [= <-] Hinv; [|by apply (io_inv_frame q)].
  destruct Hinv as [Ho Ha Hs]. unfold worker_agrees in Ha. rewrite Ew in Ha. destruct Ha as [Hn Hc].
  apply take_first_spec in E as (i & r & Hi & Hr & -> & -> & Hp). split; cbn.
  - apply in_order_insert; try done. by do 2 right.
  - unfold worker_agrees; cbn. rewrite (count_status_insert _ _ _ _ _ Hi).
    unfold is_status; cbn. rewrite Hr.
    split_and!; try done; [lia|repeat case_bool_decide; try done; lia|].
    exists i. apply list_lookup_insert_eq. by eapply lookup_lt_Some.
  - unfold slots_in_use, pending in *. cbn. rewrite (count_status_insert _ _ _ _ _ Hi).
    unfold is_status; cbn. rewrite Hr. repeat case_bool_decide; try done; lia.
Qed.

Lemma finish_reqs q r ok :
  worker_agrees q -> io_worker q = WMoved r ok ->
  exists i, io_reqs q !! i = Some r /\ q_status r = InFlight /\
    forall s, finish_first (io_reqs q) (q_tag r) s = <[i := set_status s r]> (io_reqs q).
Proof.
  unfold worker_agrees. intros Ha Ew. rewrite Ew in Ha. destruct Ha as (? & ? & Hr & i & Hi).
  exists i. split_and!; try done. intros s. apply finish_first_spec; try done. lia.
Qed.

Lemma io_inv_finish q q' : worker_finish q = Some q' -> io_inv q -> io_inv q'.
Proof.
  unfold worker_finish. destruct (io_worker q) as [| |r ok] eqn:Ew; [done|done|].
  intros [= <-] [Ho Ha Hs].
  destruct (finish_reqs q r ok Ha Ew) as (i & Hi & Hr & ->).
  set (s := if ok then Done else Error).
  assert (Hs' : s <> Pending /\ s <> InFlight) by (unfold s; by destruct ok).
  unfold worker_agrees in Ha. rewrite Ew in Ha. destruct Ha as (Hn & Hc & _).
  eapply (io_inv_frame (with_worker (with_reqs q (<[i := set_status s r]> (io_reqs q)))
            (io_inflight q - 1) WIdle)); try by case_match.
  split; cbn.
  - apply in_order_insert; try done; [by destruct Hs'|]. right; left.
    unfold unstarted. rewrite Hr. by intros [|].
  - unfold worker_agrees; cbn. rewrite (count_status_insert _ _ _ _ _ Hi).
    unfold is_status; cbn. rewrite Hr. destruct Hs'. repeat case_bool_decide; try done; lia.
  - unfold slots_in_use, pending in *. cbn. rewrite (count_status_insert _ _ _ _ _ Hi).
    unfold is_status; cbn. rewrite Hr. destruct Hs'. repeat case_bool_decide; try done; lia.
Qed.

Lemma io_inv_step q q' : io_step q q' -> io_inv q -> io_inv q'.
Proof.
  destruct 1 as [r b q' H|r b q' H|i q' H|tag b q' H|b q' H|b| |q' H|q' H|q' H|m v]; intros Hi.
  - revert H. unfold enqueue. repeat case_match; intros [= <- <-]; try done.
    apply io_inv_push; [done|]. by apply Z.leb_gt.
  - revert H. unfold enqueue_wait. repeat case_match; intros [= <- <-]; try done.
    + apply io_inv_push; [done|]. by apply Z.ltb_lt.
    + by apply (io_inv_frame q).
  - revert H. unfold wake_enqueue. repeat case_match; intros [= <-].
    apply io_inv_push; [by apply (io_inv_frame q)|]. by apply Z.ltb_lt.
  - by eapply io_inv_cancel.
  - revert H. unfold submit. repeat case_match; intros [= <- <-]; try done. by apply (io_inv_frame q).
  - by apply (io_inv_frame q).
  - by apply (io_inv_frame q).
  - by eapply io_inv_take.
  - revert H. unfold worker_move. destruct (io_worker q) as [|r|] eqn:Ew; [done| |done].
    destruct (transfer _ _ _) as [ok m]. intros [= <-]. destruct Hi as [Ho Ha Hs].
    split; try done. unfold worker_agrees in *. by rewrite Ew in Ha.
  - by eapply io_inv_finish.
  - by apply (io_inv_frame q).
Qed.

Lemma io_reachable_inv q : io_reachable q -> io_inv q.
Proof.
  induction 1 as [m v|q q' _ IH Hs]; [|by eapply io_inv_step].
  split; [|done|done]. intros i j a b ? Hi. by destruct i.
Qed.

(** ** The life of a request *)

Definition moves (s t : Status) : Prop :=
  s = t \/ (s = Pending /\ (t = InFlight \/ t = Cancelled)) \/ (s = InFlight /\ (t = Done \/ t = Error)).

Definition evolves (l l' : list Req) : Prop :=
  forall i r, l !! i = Some r -> exists t, l' !! i = Some (set_status t r) /\ moves (q_status r) t.

Lemma set_status_same r : set_status (q_status r) r = r.
Proof. by destruct r. Qed.

Lemma evolves_refl l : evolves l l.
Proof. intros i r Hi. exists (q_status r). rewrite set_status_same. split; [done|by left]. Qed.

Lemma evolves_push l r : evolves l (l ++ [r]).
Proof.
  intros i a Hi. exists (q_status a). rewrite set_status_same.
  split; [by apply lookup_app_l_Some|by left].
Qed.

Lemma evolves_insert l k r t :
  l !! k = Some r -> moves (q_status r) t -> evolves l (<[k := set_status t r]> l).
Proof.
  intros Hk Ht i a Hi. destruct (decide (k = i)) as [->|Hne].
  - exists t. rewrite list_lookup_insert_eq by (by eapply lookup_lt_Some). by simplify_eq.
  - exists (q_status a). rewrite set_status_same, list_lookup_insert_ne by done.
    split; [done|by left].
Qed.

Lemma push_reqs q r : io_reqs (push q r) = io_reqs q ++ [set_status Pending r].
Proof. unfold push. by case_match. Qed.

Lemma step_evolves q q' : io_inv q -> io_step q q' -> evolves (io_reqs q) (io_reqs q').
Proof.
  intros Hi. pose proof (evolves_refl (io_reqs q)).
  destruct 1 as [r b q' H'|r b q' H'|i q' H'|tag b q' H'|b q' H'|b| |q' H'|q' H'|q' H'|m v];
    try done; revert H'.
  - unfold enqueue. repeat case_match; intros [= <- <-]; try done. rewrite push_reqs. apply evolves_push.
  - unfold enqueue_wait. repeat case_match; intros [= <- <-]; try done.
    rewrite push_reqs. apply evolves_push.
  - unfold wake_enqueue. repeat case_match; intros [= <-]. rewrite push_reqs. apply evolves_push.
  - unfold cancel. destruct (cancel_first _ _) as [l|] eqn:E; intros [= <- <-]; [|done].
    apply cancel_first_spec in E as (i & r & Hr & Hp & _ & ->).
    apply evolves_insert; [done|]. right; left. auto.
  - unfold submit. repeat case_match; intros [= <- <-]; done.
  - unfold worker_take. repeat case_match; intros [= <-]; try done.
    match goal with E : take_first _ = _ |- _ =>
      apply take_first_spec in E as (i & a & Hr & Hp & -> & -> & _) end.
    apply evolves_insert; [done|]. right; left. auto.
  - unfold worker_move. destruct (io_worker q); try done. destruct (transfer _ _ _).
    by intros [= <-].
  - unfold worker_finish. destruct (io_worker q) as [| |r ok] eqn:Ew; try done. intros [= <-].
    destruct (finish_reqs q r ok (inv_worker q Hi) Ew) as (i & Hr & Hp & ->).
    assert (He : evolves (io_reqs q)
                  (<[i := set_status (if ok then Done else Error) r]> (io_reqs q))).
    { apply evolves_insert; [done|]. right; right. destruct ok; auto. }
    by destruct (_ =? 0).
Qed.

(** ** The worker left alone processes the backlog in order *)

Fixpoint process_in_order (m : MemMap.memmap) (v : list (list Z * list Z)) (l : list Req)
    : list Req * MemMap.memmap :=
  match l with
  | [] => ([], m)
  | r :: l' =>
      if is_status Pending r then
        let (ok, m1) := transfer m v r in
        let (l'', m2) := process_in_order m1 v l' in
        (set_status (if ok then Done else Error) r :: l'', m2)
      else let (l'', m2) := process_in_order m v l' in (r :: l'', m2)
  end.

Lemma process_nothing m v l : count_status Pending l = 0 -> process_in_order m v l = (l, m).
Proof.
  induction l as [|r l IH]; [done|]. rewrite count_status_cons. intros Hc.
  pose proof (count_status_nonneg Pending l). cbn [process_in_order].
  destruct (is_status Pending r); [lia|]. by rewrite IH by lia.
Qed.

(** Processing the first pending request first changes nothing. *)
Lemma process_first m v l i r ok m' :
  l !! i = Some r -> q_status r = Pending ->
  (forall j a, (j < i)%nat -> l !! j = Some a -> q_status a <> Pending) ->
  transfer m v r = (ok, m') ->
  process_in_order m v l =
  process_in_order m' v (<[i := set_status (if ok then Done else Error) r]> l).
Proof.
  revert i; induction l as [|a l IH]; intros [|i] Hi Hr Hf Ht; cbn in Hi; try discriminate.
  - injection Hi as ->. change (<[0%nat := ?x]> (r :: l)) with (x :: l). cbn [process_in_order].
    unfold is_status. cbn. rewrite Hr, Ht. by destruct ok.
  - change (<[S i := ?x]> (a :: l)) with (a :: <[i := x]> l). cbn [process_in_order].
    assert (Ha : q_status a <> Pending) by (apply (Hf 0%nat); [lia|done]).
    unfold is_status. rewrite bool_decide_false by done.
    rewrite (IH i); [done..| |done]. intros j b Hj Hb. apply (Hf (S j)); [lia|done].
Qed.

(** The queue after the request at [i] is served. *)
Definition served (q : ioq) (i : nat) (r : Req) (ok : bool) (m : MemMap.memmap) : ioq :=
  let q := with_reqs q (<[i := set_status (if ok then Done else Error) r]> (io_reqs q)) in
  let q := with_world (with_worker q (io_inflight q + 1 - 1) WIdle) m (io_vfs q) in
  if pending q =? 0 then with_submitted q false else q.

(** One pass serves the first pending request. *)
Lemma round_serves q i r ok m :
  io_inv q -> io_worker q = WIdle -> io_submitted q = true -> io_stopping q = false ->
  take_first (io_reqs q) = Some (set_status InFlight r, <[i := set_status InFlight r]> (io_reqs q)) ->
  io_reqs q !! i = Some r -> transfer (io_mem q) (io_vfs q) r = (ok, m) ->
  worker_round q = Some (served q i r ok m) /\ io_inv (served q i r ok m).
Proof.
  intros Hinv Hw Hs Hst E Hi Ht.
  set (q1 := with_worker (with_reqs q (<[i := set_status InFlight r]> (io_reqs q)))
               (io_inflight q + 1) (WTaken (set_status InFlight r))).
  assert (Htake : worker_take q = Some q1) by (unfold worker_take; by rewrite Hw, Hst, Hs, E).
  set (q2 := with_world (with_worker q1 (io_inflight q1) (WMoved (set_status InFlight r) ok)) m (io_vfs q)).
  assert (Hmove : worker_move q1 = Some q2).
  { unfold worker_move. cbn. change (transfer _ _ (set_status InFlight r)) with
      (transfer (io_mem q) (io_vfs q) r). by rewrite Ht. }
  assert (Hinv2 : io_inv q2).
  { apply (io_inv_step q1); [by apply st_move|]. by apply (io_inv_take q). }
  assert (Hfin : worker_finish q2 = Some (served q i r ok m)).
  { unfold worker_finish. cbn [io_worker q2 with_world with_worker].
    rewrite (finish_first_spec _ _ _ i (set_status InFlight r)); try done.
    - cbn [q2 q1 io_reqs with_world with_worker with_reqs]. rewrite list_insert_insert_eq. reflexivity.
    - pose proof (inv_worker q2 Hinv2) as (_ & Hc & _). lia.
    - cbn. apply list_lookup_insert_eq. by eapply lookup_lt_Some. }
  split; [unfold worker_round; by rewrite Htake, Hmove|by apply (io_inv_finish q2)].
Qed.

Lemma served_pending q i r ok m :
  io_reqs q !! i = Some r -> q_status r = Pending -> pending (served q i r ok m) = pending q - 1.
Proof.
  intros Hi Hr. transitivity (count_status Pending
    (<[i := set_status (if ok then Done else Error) r]> (io_reqs q))).
  { unfold served. by destruct (_ =? 0). }
  rewrite (count_status_insert _ _ _ _ _ Hi). unfold pending, is_status. cbn.
  rewrite Hr. destruct ok; repeat case_bool_decide; try done; lia.
Qed.

Lemma served_fields q i r ok m :
  let q' := served q i r ok m in
  io_reqs q' = <[i := set_status (if ok then Done else Error) r]> (io_reqs q) /\
  io_mem q' = m /\ io_vfs q' = io_vfs q /\ io_worker q' = WIdle /\
  io_stopping q' = io_stopping q /\
  (io_submitted q = true -> io_submitted q' = negb (pending q' =? 0)).
Proof.
  cbn zeta. unfold served. destruct (_ =? 0) eqn:E; split_and!; try done.
  all: intros Hs; cbn; unfold pending in *; cbn in *; by rewrite E.
Qed.

(** The loop, run to completion, is [process_in_order]. *)
Lemma worker_main_drains n q :
  io_inv q -> io_worker q = WIdle -> io_stopping q = false ->
  (io_submitted q = false -> pending q = 0) -> pending q <= Z.of_nat n ->
  exists q', worker_main (S n) q = Some q' /\ io_submitted q' = false /\
    (io_reqs q', io_mem q') = process_in_order (io_mem q) (io_vfs q) (io_reqs q).
Proof.
  revert q; induction n as [|n IH]; intros q Hinv Hw Hst Hsub Hn;
    (destruct (io_submitted q) eqn:Hs;
     [|exists q; cbn; rewrite Hs; split_and!; try done; rewrite process_nothing; auto]);
    destruct (take_first (io_reqs q)) as [[x l]|] eqn:E.
  1: { exfalso. apply take_first_spec in E as (i & r & Hi & Hr & _).
       unfold pending in Hn. pose proof (count_status_nonneg Pending (io_reqs q)).
       assert (Hz : count_status Pending (io_reqs q) = 0) by lia.
       apply count_status_zero in Hz. rewrite Forall_lookup in Hz. by apply (Hz i r). }
  2: { pose proof E as E'. apply take_first_spec in E as (i & r & Hi & Hr & -> & -> & Hf).
       destruct (transfer (io_mem q) (io_vfs q) r) as [ok m'] eqn:Ht.
       destruct (round_serves q i r ok m' Hinv Hw Hs Hst E' Hi Ht) as [Hrd Hinv'].
       destruct (served_fields q i r ok m') as (Hreq & Hmem & Hv & Hw' & Hst' & Hsub').
       pose proof (served_pending q i r ok m' Hi Hr) as Hp.
       destruct (IH (served q i r ok m')) as (q' & Hq' & Hfin & Heq); try done.
       - by rewrite Hst'.
       - rewrite Hsub' by done. by destruct (Z.eqb_spec (pending (served q i r ok m')) 0).
       - lia.
       - exists q'. change (worker_main (S (S n)) q) with
           (if negb (io_submitted q) then Some q else
            match worker_round q with Some a => worker_main (S n) a | None => None end).
         rewrite Hs, Hrd. split_and!; try done. rewrite Heq, Hreq, Hmem, Hv.
         symmetry. by apply process_first. }
  all: exists (with_submitted q false);
    assert (Hrd : worker_round q = Some (with_submitted q false))
      by (unfold worker_round, worker_take; rewrite Hw, Hst, Hs, E; cbn; unfold worker_move; cbn; by rewrite Hw);
    cbn; rewrite Hs, Hrd; split_and!; try done; try (by destruct n);
    by rewrite process_nothing by (by apply take_first_none).
Qed.

(** ** Properties *)

(** C14. In every interleaving of the public calls with the worker, requests are
    started in the order they were accepted (none is started while an earlier
    one is pending), at most one is in flight and [in_flight_] counts it, the
    slots in use never exceed the capacity, and a step only moves a request
    along Pending -> InFlight -> Done or Error, or Pending -> Cancelled: a
    terminal status is final and no request is ever dropped. *)
Theorem io_queue_invariant (q q' : ioq) :
  io_reachable q -> io_step q q' ->
  in_order (io_reqs q) /\ slots_in_use q <= kCapacity /\
  io_inflight q = count_status InFlight (io_reqs q) /\ io_inflight q <= 1 /\
  evolves (io_reqs q) (io_reqs q').
Proof.
  intros Hr Hs. apply io_reachable_inv in Hr as Hi.
  pose proof (step_evolves q q' Hi Hs). destruct Hi as [Ho Ha Hc]. split_and!; try done.
  all: unfold worker_agrees in Ha; destruct (io_worker q); lia.
Qed.

(** C15. Once the gate is open the worker thread, left alone, closes it after at
    most one pass per pending request plus one: every pending request has been
    transferred in the order of acceptance and is Done or Error accordingly, the
    other requests are unchanged, and guest memory is what the transfers one
    after the other make of it. *)
Theorem worker_drains_in_order (q : ioq) :
  io_reachable q -> io_submitted q = true -> io_stopping q = false -> io_worker q = WIdle ->
  exists q', worker_main (S (Z.to_nat (pending q))) q = Some q' /\
    io_submitted q' = false /\
    (io_reqs q', io_mem q') = process_in_order (io_mem q) (io_vfs q) (io_reqs q).
Proof.
  intros Hr Hs Hst Hw. apply worker_main_drains; try done; [by apply io_reachable_inv|by rewrite Hs|].
  unfold pending, count_status. lia.
Qed.

End ops.

(** ** Concrete runs *)

Definition demo_req (tag : Z) : Req := MkReq Vfs.demo_path 1 2 0x100010 tag Pending.
Definition demo_queue : ioq := new_queue MemMap.demo_map Vfs.demo_vfs.
Definition demo_open : ioq :=
  snd (submit (snd (enqueue (snd (enqueue demo_queue (demo_req 1))) (demo_req 2)))).

Lemma demo_open_reachable : io_reachable demo_open.
Proof.
  assert (He : forall q r, io_step q (snd (enqueue q r))).
  { intros q r. destruct (enqueue q r) eqn:E. by eapply st_enqueue. }
  assert (Hs : forall q, io_step q (snd (submit q))).
  { intros q. destruct (submit q) eqn:E. by eapply st_submit. }
  eapply io_more; [eapply io_more; [eapply io_more; [apply io_new|apply He]|apply He]|apply Hs].
Qed.

Lemma io_queue_invariant_witness :
  in_order (io_reqs demo_open) /\ pending demo_open = 2 /\
  evolves (io_reqs demo_open) (io_reqs (snd (cancel demo_open 2))).
Proof.
  destruct (io_queue_invariant demo_open (snd (cancel demo_open 2)) demo_open_reachable)
    as (H1 & _ & _ & _ & H2).
  - eapply st_cancel. apply surjective_pairing.
  - split_and!; [exact H1|vm_compute; reflexivity|exact H2].
Defined.

Lemma worker_drains_in_order_witness :
  exists q', worker_main 3 demo_open = Some q' /\ io_submitted q' = false /\
    map q_status (io_reqs q') = [Done; Done].
Proof.
  destruct (worker_drains_in_order demo_open demo_open_reachable) as (q' & Hq & Hs & He);
    [vm_compute; reflexivity..|].
  exists q'. split_and!; [exact Hq|exact Hs|].
  apply (f_equal fst) in He. cbn [fst] in He. rewrite He. vm_compute. reflexivity.
Defined.

(** A request accepted while the gate is open is served without another
    submit: only the gate of the moment is looked at. *)
Example late_request_needs_no_submit :
  let q1 := default demo_open (worker_take demo_open) in
  let q2 := snd (enqueue q1 (demo_req 3)) in
  let q3 := default q2 (worker_move q2) in
  let q4 := default q3 (worker_finish q3) in
  map q_status (io_reqs (default q4 (worker_main 4 q4))) = [Done; Done; Done].
Proof. vm_compute. reflexivity. Qed.

(** Tags are compared before the wait for a slot and not after it: two blocked
    [enqueue_wait] calls with one tag are both accepted. *)
Example blocked_enqueues_share_a_tag :
  let full := foldl (fun q t => snd (enqueue q (demo_req t))) (with_auto demo_queue false)
                [1; 2; 3; 4; 5; 6; 7; 8] in
  let blocked := snd (enqueue_wait (snd (enqueue_wait full (demo_req 9))) (demo_req 9)) in
  let freed := snd (cancel (snd (cancel blocked 1)) 2) in
  let once := default freed (wake_enqueue freed 0) in
  let twice := default once (wake_enqueue once 0) in
  map q_tag (io_reqs twice) = [1; 2; 3; 4; 5; 6; 7; 8; 9; 9].
Proof. vm_compute. reflexivity. Qed.

End IoQueue.
