(* ===== verification/GpuStub.v ===== *)
(** The Xbox command processor ([class GpuStub], src/gpu_stub.cpp): packets
    are validated and executed at once against guest memory (MemMap.v), with a
    monotonic fence and statistics counters. The time a packet latches
    ([cpu_qpc_now]) is an argument of the call. *)
From stdpp Require Import base numbers list gmap strings.
From Stdlib Require Import ZArith Lia.
From S2P Require Import Prelude XbeRam MemMap KrnlPrintf.
Open Scope Z_scope.

Module GpuStub.
Import MemMap.

(** ** Packets *)

Inductive XboxHeapClass := GpuOptimal | Standard.

Record XboxGpuAddr := MkAddr { ga_gpa : Z; ga_heap : XboxHeapClass; ga_size : Z }.

Inductive XboxPktType :=
  Nop | FillMemory | CopyMemory | ClearRenderTarget | FenceSignal | Flip | Timestamp.

#[export] Instance XboxPktType_eq_dec : EqDecision XboxPktType.
Proof. solve_decision. Defined.

Definition pkt_code (t : XboxPktType) : Z :=
  match t with
  | Nop => 0 | FillMemory => 1 | CopyMemory => 2 | ClearRenderTarget => 3
  | FenceSignal => 4 | Flip => 5 | Timestamp => 6
  end.

Record GpuPacket := MkGpuPacket { gp_type : Z; gp_addr : Z; gp_size : Z }.

Record XboxPacket := MkPacket {
  pk_type : XboxPktType;
  pk_dst : XboxGpuAddr;
  pk_src : XboxGpuAddr;
  pk_pattern : Z;
  pk_color : Z * Z * Z * Z;
  pk_width : Z;
  pk_height : Z;
  pk_fence : Z;
}.

(** ** State *)

Record stats := MkStats {
  st_frame_id : Z; st_filled : Z; st_copied : Z; st_clears : Z; st_errors : Z;
  st_flip_qpc : Z; st_timestamps : list Z;
}.

Record gpu := MkGpu {
  gpu_mem : option memmap;     (* mem_, absent when null *)
  gpu_submitted : Z;
  gpu_log : list Z;
  gpu_signalled : Z;
  gpu_completed : Z;
  gpu_stats : stats;
}.

Definition new_gpu (m : option memmap) : gpu := MkGpu m 0 [] 0 0 (MkStats 0 0 0 0 0 0 []).

Definition attach (s : gpu) (m : option memmap) : gpu :=
  MkGpu m (gpu_submitted s) (gpu_log s) (gpu_signalled s) (gpu_completed s) (gpu_stats s).
Definition with_log (s : gpu) l : gpu :=
  MkGpu (gpu_mem s) (gpu_submitted s) l (gpu_signalled s) (gpu_completed s) (gpu_stats s).
Definition bump (s : gpu) : gpu :=
  MkGpu (gpu_mem s) (u64 (gpu_submitted s + 1)) (gpu_log s) (gpu_signalled s) (gpu_completed s)
        (gpu_stats s).
Definition with_fences (s : gpu) a b : gpu :=
  MkGpu (gpu_mem s) (gpu_submitted s) (gpu_log s) a b (gpu_stats s).
Definition with_stats (s : gpu) st : gpu :=
  MkGpu (gpu_mem s) (gpu_submitted s) (gpu_log s) (gpu_signalled s) (gpu_completed s) st.

Definition add_error (s : gpu) : gpu :=
  let t := gpu_stats s in
  with_stats s (MkStats (st_frame_id t) (st_filled t) (st_copied t) (st_clears t)
                  (u64 (st_errors t + 1)) (st_flip_qpc t) (st_timestamps t)).
Definition add_flip (s : gpu) (now : Z) : gpu :=
  let t := gpu_stats s in
  with_stats s (MkStats (u64 (st_frame_id t + 1)) (st_filled t) (st_copied t) (st_clears t)
                  (st_errors t) now (st_timestamps t)).
Definition add_timestamp (s : gpu) (now : Z) : gpu :=
  let t := gpu_stats s in
  with_stats s (MkStats (st_frame_id t) (st_filled t) (st_copied t) (st_clears t)
                  (st_errors t) (st_flip_qpc t) (st_timestamps t ++ [now])).
Definition add_filled (s : gpu) (clears n : Z) : gpu :=
  let t := gpu_stats s in
  with_stats s (MkStats (st_frame_id t) (u64 (st_filled t + n)) (st_copied t)
                  (u64 (st_clears t + clears)) (st_errors t) (st_flip_qpc t) (st_timestamps t)).
Definition add_copied (s : gpu) (n : Z) : gpu :=
  let t := gpu_stats s in
  with_stats s (MkStats (st_frame_id t) (st_filled t) (u64 (st_copied t + n)) (st_clears t)
                  (st_errors t) (st_flip_qpc t) (st_timestamps t)).

(** ** Logging *)

(** [std::ostream << x] in the given base. *)
Definition put (base x : Z) : list Z := if x =? 0 then [48] else KrnlPrintf.digits base false x.
Definition txt := KrnlPrintf.bytes_of.

(** The log-only packet. *)
Definition submit (s : gpu) (p : GpuPacket) : gpu :=
  let s := bump s in
  with_log s (txt "gpu pkt#" ++ put 10 (gpu_submitted s) ++ txt " type=" ++ put 10 (gp_type p) ++
              txt " addr=0x" ++ put 16 (gp_addr p) ++ txt " size=" ++ put 10 (gp_size p)).

Definition packet_log (s : gpu) (p : XboxPacket) (ok : bool) : list Z :=
  txt "xgpu pkt#" ++ put 10 (gpu_submitted s) ++ txt " op=" ++ put 10 (pkt_code (pk_type p)) ++
  txt (if ok then " ok" else " ERR") ++
  (if bool_decide (pk_type p = FenceSignal) then txt " fence=" ++ put 10 (pk_fence p) else []) ++
  (if bool_decide (pk_type p = Flip) then txt " frame=" ++ put 10 (st_frame_id (gpu_stats s)) else []).

Section ops.
Context `{os : HostOS}.

(** ** Validation *)

Definition heap_ok (m : memmap) (a : XboxGpuAddr) : bool :=
  if (ga_size a =? 0) || negb (in_range (ga_gpa a) (ga_size a)) then false
  else let fast := is_fast (ga_gpa a) && is_fast (u64 (ga_gpa a + ga_size a - 1)) in
       match ga_heap a with GpuOptimal => fast | Standard => negb fast end.

Definition commit_ok (m : memmap) (a : XboxGpuAddr) : bool := is_writable m (ga_gpa a) (ga_size a).

(** ** Execution *)

(** The word loop of Fill and Clear: stops at the first refused write. *)
Fixpoint fill_words (m : memmap) (l : list Z) (v : Z) : bool * memmap :=
  match l with
  | [] => (true, m)
  | a :: l' => let (ok, m) := write32 m a v in if ok then fill_words m l' v else (false, m)
  end.
Definition fill (m : memmap) (gpa size v : Z) : bool * memmap :=
  fill_words m (loop_addrs gpa (gpa + size) 4) v.

Definition exec_fill (s : gpu) (m : memmap) (p : XboxPacket) : bool * gpu :=
  let d := pk_dst p in
  if negb (heap_ok m d) || negb (commit_ok m d) || negb (ga_size d `mod` 4 =? 0)
  then (false, add_error s)
  else let (good, m') := fill m (ga_gpa d) (ga_size d) (pk_pattern p) in
       let s := attach s (Some m') in
       if good then (true, add_filled s 0 (ga_size d)) else (false, add_error s).

Definition exec_copy (s : gpu) (m : memmap) (p : XboxPacket) : bool * gpu :=
  let d := pk_dst p in
  let r := pk_src p in
  if (ga_size d =? 0) || negb (ga_size d =? ga_size r) || negb (heap_ok m d) || negb (heap_ok m r) ||
     negb (commit_ok m d) || negb (is_readable m (ga_gpa r) (ga_size r))
  then (false, add_error s)
  else
    let d_end := u64 (ga_gpa d + ga_size d) in
    let s_end := u64 (ga_gpa r + ga_size r) in
    if (ga_gpa d <? s_end) && (ga_gpa r <? d_end) then (false, add_error s)
    else match read_bytes m (ga_gpa r) (ga_size r) with
         | None => (false, add_error s)
         | Some tmp =>
             let (good, m') := write_bytes m (ga_gpa d) tmp in
             let s := attach s (Some m') in
             if good then (true, add_copied s (ga_size d)) else (false, add_error s)
         end.

Definition pixel_word (c : Z * Z * Z * Z) : Z :=
  let '(c0, c1, c2, c3) := c in
  Z.lor (Z.lor (Z.lor c0 (Z.shiftl c1 8)) (Z.shiftl c2 16)) (Z.shiftl c3 24).

Definition exec_clear (s : gpu) (m : memmap) (p : XboxPacket) : bool * gpu :=
  let d := pk_dst p in
  let need := u64 (pk_width p * pk_height p * 4) in
  if (pk_width p =? 0) || (pk_height p =? 0) || negb (need =? ga_size d) ||
     negb (heap_ok m d) || negb (commit_ok m d)
  then (false, add_error s)
  else let (good, m') := fill m (ga_gpa d) need (pixel_word (pk_color p)) in
       let s := attach s (Some m') in
       if good then (true, add_filled s 1 need) else (false, add_error s).

(** With no memory attached [heap_ok] fails and the packet is an error. *)
Definition with_mem (s : gpu) (f : memmap -> bool * gpu) : bool * gpu :=
  match gpu_mem s with Some m => f m | None => (false, add_error s) end.

Definition exec_packet (s : gpu) (now : Z) (p : XboxPacket) : bool * gpu :=
  match pk_type p with
  | Nop => (true, s)
  | Flip => (true, add_flip s now)
  | Timestamp => (true, add_timestamp s now)
  | FenceSignal =>
      if gpu_signalled s <? pk_fence p then (true, with_fences s (pk_fence p) (pk_fence p))
      else (false, add_error s)
  | FillMemory => with_mem s (fun m => exec_fill s m p)
  | CopyMemory => with_mem s (fun m => exec_copy s m p)
  | ClearRenderTarget => with_mem s (fun m => exec_clear s m p)
  end.

Definition submit_xbox (s : gpu) (now : Z) (p : XboxPacket) : bool * gpu :=
  let (ok, s') := exec_packet (bump s) now p in
  (ok, with_log s' (packet_log s' p ok)).

Definition gpu_complete (s : gpu) (value : Z) : gpu :=
  if (gpu_completed s <? value) && (value <=? gpu_signalled s)
  then with_fences s (gpu_signalled s) value else s.

End ops.

Section laws.
Context `{os : HostOS} `{!HostLaws os}.

(** ** Accounting and fences *)

(** A step of the processor or of its environment: titles and the other
    components change the memory it is attached to at any time. *)
Inductive gpu_step (s : gpu) : gpu -> Prop :=
  | gs_submit p : gpu_step s (submit s p)
  | gs_xbox now p ok s' : submit_xbox s now p = (ok, s') -> gpu_step s s'
  | gs_complete v : gpu_step s (gpu_complete s v)
  | gs_attach m : gpu_step s (attach s m).

Inductive gpu_reachable : gpu -> Prop :=
  | gr_new m : gpu_reachable (new_gpu m)
  | gr_step s s' : gpu_reachable s -> gpu_step s s' -> gpu_reachable s'.

(** What one packet may do to the fences and to the error counter. *)
Definition accounted (p : XboxPacket) (s : gpu) (r : bool * gpu) : Prop :=
  let (ok, s') := r in
  gpu_submitted s' = gpu_submitted s /\
  st_errors (gpu_stats s') = (if ok then st_errors (gpu_stats s) else u64 (st_errors (gpu_stats s) + 1)) /\
  (if ok && bool_decide (pk_type p = FenceSignal)
   then gpu_signalled s < pk_fence p /\ gpu_signalled s' = pk_fence p /\ gpu_completed s' = pk_fence p
   else gpu_signalled s' = gpu_signalled s /\ gpu_completed s' = gpu_completed s) /\
  (ok = false -> st_frame_id (gpu_stats s') = st_frame_id (gpu_stats s) /\
                 st_filled (gpu_stats s') = st_filled (gpu_stats s) /\
                 st_copied (gpu_stats s') = st_copied (gpu_stats s) /\
                 st_clears (gpu_stats s') = st_clears (gpu_stats s)).

Lemma exec_accounted s now p : accounted p s (exec_packet s now p).
Proof.
  unfold exec_packet, with_mem, exec_fill, exec_copy, exec_clear.
  destruct (pk_type p) eqn:Et; repeat case_match; simplify_eq; cbn; rewrite ?Et; cbn; split_and!;
    try done; try (by bool_facts).
Qed.

Definition fences_ok (s : gpu) : Prop := gpu_completed s <= gpu_signalled s.

Lemma submit_accounted s now p ok s' :
  submit_xbox s now p = (ok, s') -> accounted p (bump s) (ok, s').
Proof.
  unfold submit_xbox. pose proof (exec_accounted (bump s) now p) as H.
  destruct (exec_packet (bump s) now p) as [ok0 s0]. by intros [= -> <-].
Qed.

Lemma fences_step s s' :
  fences_ok s -> gpu_step s s' ->
  fences_ok s' /\ gpu_signalled s <= gpu_signalled s' /\ gpu_completed s <= gpu_completed s'.
Proof.
  unfold fences_ok. intros Hs [p|now p ok s1 E|v|m]; cbn; try lia.
  - apply submit_accounted in E as (_ & _ & Hf & _).
    destruct (ok && _); cbn in Hf; lia.
  - unfold gpu_complete. destruct (_ && _) eqn:E; cbn; bool_facts; lia.
Qed.

Lemma reachable_fences s : gpu_reachable s -> fences_ok s.
Proof. induction 1 as [m|s s' _ IH Hs]; [done|]. by apply (fences_step s s'). Qed.

(** ** Fills reach exactly their range *)

(** No alias window is met in part: a window contains the range or misses it. *)
Definition whole_windows (m : memmap) (g n : Z) : Prop :=
  forall a, a ∈ m_aliases m ->
    (a_dst a <= g /\ g + n <= a_dst a + a_size a) \/ a_dst a + a_size a <= g \/ g + n <= a_dst a.

Lemma resolve_part m g n o k :
  map_ok m -> whole_windows m g n -> 0 <= g -> 0 < k -> 0 <= o -> o + k <= n ->
  resolve_alias m (g + o) k = resolve_alias m g n + o.
Proof.
  intros Hm Hw Hg Hk Ho Hn. unfold resolve_alias. pose proof (mo_alias _ Hm) as Hok.
  destruct (resolve_cases (m_aliases m) (g + o) k Hok) as [E|(a & Ha & H1 & H2 & E)]; [lia..| |].
  - destruct (resolve_cases (m_aliases m) g n Hok) as [->|(a & Ha & H1 & H2 & _)]; [lia..|done|].
    rewrite (resolve_in _ a g n); try done; try apply Hm; try lia.
    rewrite (resolve_in _ a (g + o) k); try done; try apply Hm; lia.
  - rewrite E. pose proof Hok as Hok'. rewrite Forall_forall in Hok'.
    destruct (Hok' a Ha) as [A1 _ _ _].
    destruct (Hw a Ha) as [[? ?]|[?|?]]; [|lia..].
    rewrite (resolve_in _ a g n); try done; try apply Hm; lia.
Qed.

Lemma writable_part m g n o k :
  map_ok m -> whole_windows m g n -> 0 <= g -> 0 < k -> 0 <= o -> o + k <= n ->
  is_writable m g n = true -> is_writable m (g + o) k = true.
Proof.
  intros Hm Hw Hg Hk Ho Hn H. pose proof H as H0. unfold is_writable, accessible in H0.
  destruct (_ || _) eqn:E in H0; [done|]. clear H0. bool_facts.
  assert (Hin : in_range (g + o) k = true) by (apply in_range_spec in H1; apply in_range_spec; lia).
  assert (Hp : forall a, page_writable m a = true <-> os_of m (a `div` page_size) = PROT_RW)
    by (intros; by apply page_writable_iff).
  destruct (accessible_iff page_writable (fun p => p = PROT_RW) m g n) as [Hall _]; try done; [lia|].
  destruct (accessible_iff page_writable (fun p => p = PROT_RW) m (g + o) k) as [_ Hpart];
    try done; [lia|].
  apply Hpart. rewrite (resolve_part m g n) by done. intros b Hb. apply (Hall H). lia.
Qed.

(** [n] copies of a word, as bytes. *)
Definition words (n : nat) (v : Z) : list Z := concat (replicate n (le_bytes 4 v)).

Lemma length_words n v : zlen (words n v) = 4 * Z.of_nat n.
Proof.
  unfold words. induction n; [done|]. cbn [replicate concat].
  rewrite length_app, length_le_bytes. lia.
Qed.

Lemma fill_words_ok m g n v (i : nat) (k : nat) b :
  map_ok m -> whole_windows m g n -> 0 <= g -> 4 * Z.of_nat (i + k) <= n -> is_writable m g n = true ->
  fill_words (set_mbytes m b) ((fun j => g + 4 * j) <$> seqZ (Z.of_nat i) (Z.of_nat k)) v =
  (true, set_mbytes m (mem_write b (resolve_alias m g n + 4 * Z.of_nat i) (words k v))).
Proof.
  intros Hm Hw Hg Hn Hwr. revert i b Hn; induction k as [|k IH]; intros i b Hn; [done|].
  rewrite seqZ_cons by lia. rewrite fmap_cons. cbn [fill_words].
  unfold write32, write_bytes. rewrite length_le_bytes.
  change (is_writable (set_mbytes m b)) with (is_writable m).
  change (resolve_alias (set_mbytes m b)) with (resolve_alias m).
  rewrite (writable_part m g n (4 * Z.of_nat i)) by (done || lia). cbn [Z.eqb orb negb].
  rewrite (resolve_part m g n) by (done || lia).
  replace (Z.succ (Z.of_nat i)) with (Z.of_nat (S i)) by lia.
  replace (Z.pred (Z.of_nat (S k))) with (Z.of_nat k) by lia.
  cbn [m_bytes set_mbytes]. change (set_mbytes (set_mbytes m b) ?x) with (set_mbytes m x).
  change (Z.of_nat 4 =? 0) with false. cbn [orb]. rewrite IH by lia. unfold words. cbn [replicate concat]. rewrite mem_write_app, length_le_bytes.
  do 3 f_equal. lia.
Qed.

Lemma fill_ok m g n v :
  map_ok m -> whole_windows m g n -> 0 <= g -> 0 <= n -> n `mod` 4 = 0 -> is_writable m g n = true ->
  fill m g n v = (true, set_mbytes m (mem_write (m_bytes m) (resolve_alias m g n)
                                        (words (Z.to_nat (n `div` 4)) v))).
Proof.
  intros Hm Hw Hg Hn H4 Hwr. unfold fill, loop_addrs.
  pose proof (Z.div_mod n 4) as Hdm. pose proof (Z.div_pos n 4) as Hdp.
  replace ((g + n - g + 4 - 1) `div` 4) with (Z.of_nat (Z.to_nat (n `div` 4)))
    by (rewrite Z2Nat.id by lia; apply (Z.div_unique _ 4 _ 3); lia).
  pose proof (fill_words_ok m g n v 0 (Z.to_nat (n `div` 4)) (m_bytes m)) as H.
  replace (set_mbytes m (m_bytes m)) with m in H by (by destruct m).
  rewrite Z.mul_0_r, Z.add_0_r in H. apply H; try done. lia.
Qed.

Lemma clear_need_words w h : u64 (w * h * 4) `mod` 4 = 0.
Proof.
  unfold u64. replace (2 ^ 64) with (2 ^ 62 * 4) by reflexivity.
  rewrite Z.mul_mod_distr_r by lia. apply Z.mod_mul. lia.
Qed.

Lemma readable_of_writable m g n : map_ok m -> is_writable m g n = true -> is_readable m g n = true.
Proof.
  intros Hm. unfold is_writable, is_readable, accessible. destruct (_ || _); [done|].
  destruct (negb _); [done|]. rewrite !forallb_forall. intros H a Ha. specialize (H a Ha).
  apply page_writable_iff in H; [|done]. apply page_readable_iff; [done|]. by rewrite H.
Qed.

(** ** Properties *)

(** The bytes a packet asks to store, given the memory it reads from. *)
Definition payload (m : memmap) (p : XboxPacket) : list Z :=
  let n := ga_size (pk_dst p) in
  match pk_type p with
  | FillMemory => words (Z.to_nat (n `div` 4)) (pk_pattern p)
  | ClearRenderTarget => words (Z.to_nat (n `div` 4)) (pixel_word (pk_color p))
  | _ => mem_read (m_bytes m) (resolve_alias m (ga_gpa (pk_src p)) n) n
  end.

(** What a memory packet requires of its operands. *)
Definition packet_valid (m : memmap) (p : XboxPacket) : bool :=
  let d := pk_dst p in
  let r := pk_src p in
  heap_ok m d && commit_ok m d &&
  match pk_type p with
  | FillMemory => ga_size d `mod` 4 =? 0
  | ClearRenderTarget =>
      negb (pk_width p =? 0) && negb (pk_height p =? 0) &&
      (u64 (pk_width p * pk_height p * 4) =? ga_size d)
  | CopyMemory =>
      (ga_size d =? ga_size r) && heap_ok m r && is_readable m (ga_gpa r) (ga_size r) &&
      negb ((ga_gpa d <? ga_gpa r + ga_size r) && (ga_gpa r <? ga_gpa d + ga_size d))
  | _ => false
  end.

Lemma heap_ok_range m a : heap_ok m a = true -> 0 < ga_size a \/ ga_size a < 0.
Proof. unfold heap_ok. destruct (_ || _) eqn:E; [done|]. bool_facts. lia. Qed.

Lemma heap_ok_end m a : 0 <= ga_gpa a -> 0 <= ga_size a -> heap_ok m a = true ->
  u64 (ga_gpa a + ga_size a) = ga_gpa a + ga_size a.
Proof.
  intros Hg Hn. unfold heap_ok. destruct (_ || _) eqn:E; [done|]. bool_facts. intros _.
  match goal with H : in_range _ _ = true |- _ => apply in_range_spec in H end.
  rewrite kTotalSize_val in *. apply u64_small. lia.
Qed.

(** The memory after a memory packet. *)
Definition stored (m : memmap) (p : XboxPacket) : memmap :=
  let d := pk_dst p in
  set_mbytes m (mem_write (m_bytes m) (resolve_alias m (ga_gpa d) (ga_size d)) (payload m p)).

Definition outcome_is (m : memmap) (p : XboxPacket) (r : bool * gpu) : Prop :=
  fst r = packet_valid m p /\ gpu_mem (snd r) = Some (if packet_valid m p then stored m p else m).

Lemma exec_fill_spec s m p :
  gpu_mem s = Some m -> map_ok m -> pk_type p = FillMemory ->
  0 <= ga_gpa (pk_dst p) -> 0 <= ga_size (pk_dst p) ->
  whole_windows m (ga_gpa (pk_dst p)) (ga_size (pk_dst p)) ->
  outcome_is m p (exec_fill s m p).
Proof.
  intros Hs Hm Ht Hg Hn Hw. unfold outcome_is, exec_fill, packet_valid, stored, payload. rewrite Ht.
  destruct (heap_ok m (pk_dst p)), (commit_ok m (pk_dst p)) eqn:Hc, (_ `mod` 4 =? 0) eqn:H4;
    cbn [negb orb andb]; try done.
  apply Z.eqb_eq in H4. by rewrite fill_ok.
Qed.

Lemma exec_clear_spec s m p :
  gpu_mem s = Some m -> map_ok m -> pk_type p = ClearRenderTarget ->
  0 <= ga_gpa (pk_dst p) -> 0 <= ga_size (pk_dst p) ->
  whole_windows m (ga_gpa (pk_dst p)) (ga_size (pk_dst p)) ->
  outcome_is m p (exec_clear s m p).
Proof.
  intros Hs Hm Ht Hg Hn Hw. unfold outcome_is, exec_clear, packet_valid, stored, payload. rewrite Ht.
  destruct (pk_width p =? 0), (pk_height p =? 0), (u64 _ =? _) eqn:E,
    (heap_ok m (pk_dst p)), (commit_ok m (pk_dst p)) eqn:Hc; cbn [negb orb andb]; try done.
  apply Z.eqb_eq in E. rewrite E.
  assert (H4 : ga_size (pk_dst p) `mod` 4 = 0) by (rewrite <- E; apply clear_need_words).
  by rewrite fill_ok.
Qed.

Lemma clear_accepted_size s now p s' :
  pk_type p = ClearRenderTarget -> submit_xbox s now p = (true, s') ->
  ga_size (pk_dst p) = u64 (pk_width p * pk_height p * 4).
Proof.
  intros Ht. unfold submit_xbox, exec_packet, with_mem. rewrite Ht. destruct (gpu_mem _); [|done].
  unfold exec_clear. destruct (_ || _) eqn:E; [done|]. bool_facts. intros _. lia.
Qed.

Lemma exec_copy_spec s m p :
  gpu_mem s = Some m -> map_ok m -> pk_type p = CopyMemory ->
  0 <= ga_gpa (pk_dst p) -> 0 <= ga_size (pk_dst p) ->
  0 <= ga_gpa (pk_src p) -> 0 <= ga_size (pk_src p) ->
  outcome_is m p (exec_copy s m p).
Proof.
  intros Hs Hm Ht Hg Hn Hg' Hn'. unfold outcome_is, exec_copy, packet_valid, stored, payload. rewrite Ht.
  destruct (heap_ok m (pk_dst p)) eqn:Hd; [|rewrite !orb_true_r; done].
  pose proof (heap_ok_range _ _ Hd).
  replace (ga_size (pk_dst p) =? 0) with false by lia.
  destruct (Z.eqb_spec (ga_size (pk_dst p)) (ga_size (pk_src p))) as [E|E];
    destruct (heap_ok m (pk_src p)) eqn:Hh, (commit_ok m (pk_dst p)) eqn:Hc,
      (is_readable m (ga_gpa (pk_src p)) (ga_size (pk_src p))) eqn:Hr; cbn [negb orb andb]; try done.
  rewrite !(heap_ok_end m) by done. destruct (_ && _); [done|]. cbn [negb].
  unfold read_bytes. rewrite Hr. replace (ga_size (pk_src p) =? 0) with false by lia.
  cbn [orb negb]. unfold write_bytes. rewrite length_mem_read, Z2Nat.id, <- E by done.
  unfold commit_ok in Hc. rewrite Hc. replace (ga_size (pk_dst p) =? 0) with false by lia. done.
Qed.

Lemma length_payload m p : packet_valid m p = true -> 0 <= ga_size (pk_dst p) ->
  zlen (payload m p) = ga_size (pk_dst p).
Proof.
  unfold packet_valid, payload. intros H Hn. destruct (pk_type p); bool_facts; try done.
  - rewrite length_words. pose proof (Z.div_mod (ga_size (pk_dst p)) 4). lia.
  - rewrite length_mem_read. lia.
  - pose proof (clear_need_words (pk_width p) (pk_height p)) as H4.
    match goal with E : u64 _ = _ |- _ => rewrite E in H4 end.
    rewrite length_words. pose proof (Z.div_mod (ga_size (pk_dst p)) 4). lia.
Qed.

Lemma submit_memory s now p m ok s' :
  gpu_mem s = Some m -> map_ok m ->
  pk_type p = FillMemory \/ pk_type p = CopyMemory \/ pk_type p = ClearRenderTarget ->
  0 <= ga_gpa (pk_dst p) -> 0 <= ga_size (pk_dst p) ->
  0 <= ga_gpa (pk_src p) -> 0 <= ga_size (pk_src p) ->
  whole_windows m (ga_gpa (pk_dst p)) (ga_size (pk_dst p)) ->
  submit_xbox s now p = (ok, s') ->
  ok = packet_valid m p /\
  gpu_mem s' = Some (if ok then stored m p else m) /\
  (ok = true -> read_bytes (stored m p) (ga_gpa (pk_dst p)) (ga_size (pk_dst p)) = Some (payload m p)).
Proof.
  intros Hs Hm Ht Hg Hn Hg' Hn' Hw. unfold submit_xbox.
  assert (H : outcome_is m p (exec_packet (bump s) now p)).
  { unfold exec_packet, with_mem. cbn [bump gpu_mem]. rewrite Hs.
    destruct Ht as [Ht|[Ht|Ht]]; rewrite Ht;
      [by apply exec_fill_spec|by apply exec_copy_spec|by apply exec_clear_spec]. }
  destruct (exec_packet (bump s) now p) as [ok0 s0]. destruct H as [H1 H2]. cbn in H1, H2.
  intros [= <- <-]. rewrite <- H1 in H2. split_and!; [done|done|]. intros ->.
  symmetry in H1. pose proof (length_payload m p H1 Hn) as Hl.
  unfold packet_valid in H1. apply andb_true_iff in H1 as [H1 _]. apply andb_true_iff in H1 as [Hh Hc].
  pose proof (heap_ok_range _ _ Hh). unfold read_bytes.
  change (is_readable (stored m p)) with (is_readable m).
  rewrite (readable_of_writable m _ _ Hm Hc). replace (_ =? 0) with false by lia. cbn [orb negb].
  unfold stored. cbn [m_bytes set_mbytes].
  change (resolve_alias (set_mbytes m ?b)) with (resolve_alias m).
  f_equal. etransitivity; [|apply (mem_read_write (m_bytes m))]. by rewrite Hl.
Qed.

(** C26. A Fill, Copy or Clear whose destination no alias window meets only in
    part is all or nothing: it succeeds exactly when the validation accepts it
    (the word loop never stops half way), memory is then unchanged except that
    the destination reads back as the pattern, the colour or the source's
    bytes, and on refusal memory is untouched. *)
Theorem gpu_memory_exact s now p m ok s' :
  gpu_mem s = Some m -> map_ok m ->
  pk_type p = FillMemory \/ pk_type p = CopyMemory \/ pk_type p = ClearRenderTarget ->
  0 <= ga_gpa (pk_dst p) -> 0 <= ga_size (pk_dst p) ->
  0 <= ga_gpa (pk_src p) -> 0 <= ga_size (pk_src p) ->
  whole_windows m (ga_gpa (pk_dst p)) (ga_size (pk_dst p)) ->
  submit_xbox s now p = (ok, s') ->
  ok = packet_valid m p /\
  gpu_mem s' = Some (if ok then stored m p else m) /\
  (ok = true -> read_bytes (stored m p) (ga_gpa (pk_dst p)) (ga_size (pk_dst p)) = Some (payload m p)).
Proof. apply submit_memory. Qed.

(** Fences and statistics: in every reachable state the completed fence is
    at most the signalled one, neither ever moves back, a signal is accepted
    exactly when its value is above the last one, every packet counts as
    submitted, and every refused packet counts as one error and moves no fence
    and no other counter. *)
Theorem gpu_packets_accounted s now p ok s' :
  gpu_reachable s -> submit_xbox s now p = (ok, s') ->
  gpu_completed s' <= gpu_signalled s' /\ gpu_signalled s <= gpu_signalled s' /\
  gpu_completed s <= gpu_completed s' /\
  (pk_type p = FenceSignal -> ok = (gpu_signalled s <? pk_fence p)) /\
  accounted p (bump s) (ok, s').
Proof.
  intros Hr E. pose proof (submit_accounted _ _ _ _ _ E) as Ha.
  destruct (fences_step s s' (reachable_fences s Hr) (gs_xbox s now p ok s' E)) as (H1 & H2 & H3).
  split_and!; try done. intros Ht. revert E. unfold submit_xbox, exec_packet. rewrite Ht.
  cbn [bump gpu_signalled]. by destruct (_ <? _); intros [= <- <-].
Qed.

End laws.

(** ** Concrete runs *)

Definition demo_addr (g n : Z) : XboxGpuAddr := MkAddr g GpuOptimal n.
Definition demo_packet (t : XboxPktType) (d : XboxGpuAddr) (f : Z) : XboxPacket :=
  MkPacket t d (demo_addr 0x100800 16) 0xAABBCCDD (1, 2, 3, 4) 2 2 f.
Definition demo_gpu : gpu := new_gpu (Some demo_map).

Lemma gpu_memory_exact_witness :
  packet_valid demo_map (demo_packet FillMemory (demo_addr 0x100010 8) 0) = true /\
  read_bytes (stored demo_map (demo_packet FillMemory (demo_addr 0x100010 8) 0)) 0x100010 8 =
    Some [0xDD; 0xCC; 0xBB; 0xAA; 0xDD; 0xCC; 0xBB; 0xAA].
Proof.
  set (p := demo_packet FillMemory (demo_addr 0x100010 8) 0).
  destruct (gpu_memory_exact demo_gpu 0 p demo_map
              (fst (submit_xbox demo_gpu 0 p)) (snd (submit_xbox demo_gpu 0 p))) as (H1 & _ & H3);
    try (cbn; lia).
  - reflexivity.
  - apply demo_map_ok.
  - by left.
  - intros a Ha. change (m_aliases demo_map) with [demo_alias] in Ha.
    apply list_elem_of_singleton in Ha as ->. cbn. lia.
  - apply surjective_pairing.
  - split; [vm_compute; reflexivity|]. apply H3. vm_compute. reflexivity.
Defined.

Lemma gpu_packets_accounted_witness :
  let r := submit_xbox demo_gpu 5 (demo_packet FenceSignal (demo_addr 0 0) 7) in
  gpu_signalled (snd r) = 7 /\ gpu_completed (snd r) <= gpu_signalled (snd r).
Proof.
  split; [vm_compute; reflexivity|].
  apply (gpu_packets_accounted demo_gpu 5 (demo_packet FenceSignal (demo_addr 0 0) 7)
           (fst (submit_xbox demo_gpu 5 (demo_packet FenceSignal (demo_addr 0 0) 7)))).
  - apply gr_new.
  - apply surjective_pairing.
Defined.

(** The heap check of a Standard range looks at its two ends together: a range
    that begins in the fast pool and ends in the slow one passes. *)
Example standard_range_straddles_pools :
  heap_ok demo_map (MkAddr (kFastSize - 4096) Standard 8192) = true /\
  is_fast (kFastSize - 4096) = true.
Proof. split; vm_compute; reflexivity. Qed.

(** The render target size is a 64-bit product: dimensions of more than two
    thousand million pixels each pass for a buffer of 166832 bytes. *)
Example render_target_size_wraps :
  let w := 2 ^ 31 + 46341 in
  let h := 2 ^ 31 - 46340 in
  u64 (w * h * 4) = 166832 /\ w < 2 ^ 32 /\ h < 2 ^ 32.
Proof. vm_compute. split_and!; reflexivity. Qed.

End GpuStub.
