(* ===== verification/CpuRuntime.v ===== *)
(** Guest address spaces (the mapping half of [class GuestCpu],
    src/xbox_cpu.cpp): the ranges each [GuestCpu] has mapped into its engine,
    the scan of guest RAM that maps them at attach, and the segment descriptors. The Unicorn engine is third-party:
    its operations are the class [Unicorn], the behaviour its API documents and
    this code relies on is the class [UnicornLaws]. *)
From stdpp Require Import base numbers list gmap strings.
From Stdlib Require Import ZArith Lia.
From S2P Require Import Prelude XbeRam.
Open Scope Z_scope.

Module CpuRuntime.
Import XbeRam.

(** ** The engine *)

(** Host memory a range is mapped over: guest RAM at an offset, or one of the
    two private pages of a CPU. *)
Inductive host_mem := HRam (off : Z) | HStub | HGdt.

(** The registers the source names, and the rest of the integer registers. *)
Inductive ureg := EIP | ESP | EAX | ECX | EDX | EBX | ESI | EDI | EBP | EFLAGS | CS | DS | ES | SS | FS | GS.

#[export] Instance ureg_eq_dec : EqDecision ureg.
Proof. solve_decision. Defined.

Inductive mem_type :=
  ReadUnmapped | WriteUnmapped | FetchUnmapped | WriteProtected | ReadProtected | OtherAccess.

(** What a run reports through the hooks: the code hook at an address, or the
    invalid-memory hook with the instruction pointer of the moment. *)
Inductive hook_event := OnCode (addr : Z) | OnMem (t : mem_type) (addr eip : Z).

Class Unicorn := {
  uc : Type;
  uc_open : option uc;
  uc_mem_map_ptr : uc -> Z -> Z -> Z -> host_mem -> option uc;
  uc_mem_unmap : uc -> Z -> Z -> option uc;
  uc_reg_read : uc -> ureg -> Z;
  uc_reg_write : uc -> ureg -> Z -> uc;
  uc_set_gdtr : uc -> Z -> Z -> uc;
  uc_hook_add : uc -> bool -> option uc;
  (** Runs from an address until another, for at most so many instructions:
      the engine and guest RAM afterwards, the hook calls, the error code. *)
  uc_emu_start : uc -> ram -> Z -> Z -> Z -> uc * ram * list hook_event * Z;
  uc_strerror : Z -> string;
}.

Definition UC_PROT_READ : Z := 1.
Definition UC_PROT_WRITE : Z := 2.
Definition UC_PROT_EXEC : Z := 4.
Definition UC_ERR_OK : Z := 0.

(** ** Constants and helpers *)

Definition kPage : Z := 0x1000.
Definition kHleMarker : Z := 0xF00F0000.
Definition kGdtVa : Z := kHleMarker + kPage.
Definition kExitVa : Z := Z.lor kHleMarker 0x0FFF.
Definition kSelCs : Z := 0x08.
Definition kSelDs : Z := 0x10.
Definition kSelFs : Z := 0x18.

Definition page_round (v : Z) : Z := Z.land (u32 (v + kPage - 1)) (Z.lnot (kPage - 1)).
Definition page_floor (v : Z) : Z := Z.land v (Z.lnot (kPage - 1)).

(** The eight bytes of a segment descriptor. *)
Definition put_desc (base limit access flags : Z) : list Z :=
  [ Z.land limit 0xFF; Z.land (Z.shiftr limit 8) 0xFF;
    Z.land base 0xFF; Z.land (Z.shiftr base 8) 0xFF; Z.land (Z.shiftr base 16) 0xFF;
    access;
    u8 (Z.lor (Z.shiftl (Z.land flags 0x0F) 4) (Z.land (Z.shiftr limit 16) 0x0F));
    Z.land (Z.shiftr base 24) 0xFF ].

(** ** One CPU *)

Inductive Kind :=
  KNone | UnmappedRead | UnmappedWrite | UnmappedFetch | WriteProt | ReadProt
  | UnimplementedImport | InstructionLimit | EmuError.

#[export] Instance Kind_eq_dec : EqDecision Kind.
Proof. solve_decision. Defined.

Record GuestFault := MkFault {
  f_kind : Kind; f_va : Z; f_eip : Z; f_ordinal : Z; f_detail : string;
}.
Definition no_fault : GuestFault := MkFault KNone 0 0 0 "".

Definition kind_name (k : Kind) : string :=
  match k with
  | KNone => "none"
  | UnmappedRead => "unmapped-read"
  | UnmappedWrite => "unmapped-write"
  | UnmappedFetch => "unmapped-fetch"
  | WriteProt => "write-to-readonly"
  | ReadProt => "read-protected"
  | UnimplementedImport => "unimplemented-import"
  | InstructionLimit => "instruction-limit"
  | EmuError => "emu-error"
  end.

Section engine.
Context `{os : HostOS} `{eng : Unicorn}.

(** [struct Range] *)
Record Range := MkRange { rg_va : Z; rg_size : Z }.

Record cpu := MkCpu {
  c_uc : option uc;
  c_teb : Z;
  c_stub : list Z;
  c_gdt : list Z;
  c_mapped : list Range;
  c_ordinal : Z;       (* pending_ordinal_ *)
  c_addr : Z;          (* pending_addr_ *)
  c_ret : Z;           (* pending_ret_ *)
  c_esp : Z;           (* pending_esp_ *)
  c_fault : GuestFault;
  c_instr : Z;
  c_served : list Z;
}.

Definition new_cpu : cpu := MkCpu None 0 [] [] [] 0 0 0 0 no_fault 0 [].

Definition with_uc (c : cpu) u : cpu :=
  MkCpu u (c_teb c) (c_stub c) (c_gdt c) (c_mapped c) (c_ordinal c) (c_addr c) (c_ret c) (c_esp c)
        (c_fault c) (c_instr c) (c_served c).
Definition set_teb (c : cpu) va : cpu :=
  MkCpu (c_uc c) va (c_stub c) (c_gdt c) (c_mapped c) (c_ordinal c) (c_addr c) (c_ret c) (c_esp c)
        (c_fault c) (c_instr c) (c_served c).
Definition with_bufs (c : cpu) s g : cpu :=
  MkCpu (c_uc c) (c_teb c) s g (c_mapped c) (c_ordinal c) (c_addr c) (c_ret c) (c_esp c)
        (c_fault c) (c_instr c) (c_served c).
Definition with_mapped (c : cpu) l : cpu :=
  MkCpu (c_uc c) (c_teb c) (c_stub c) (c_gdt c) l (c_ordinal c) (c_addr c) (c_ret c) (c_esp c)
        (c_fault c) (c_instr c) (c_served c).
Definition with_pending (c : cpu) o a : cpu :=
  MkCpu (c_uc c) (c_teb c) (c_stub c) (c_gdt c) (c_mapped c) o a (c_ret c) (c_esp c)
        (c_fault c) (c_instr c) (c_served c).
Definition with_return (c : cpu) r s : cpu :=
  MkCpu (c_uc c) (c_teb c) (c_stub c) (c_gdt c) (c_mapped c) (c_ordinal c) (c_addr c) r s
        (c_fault c) (c_instr c) (c_served c).
Definition with_fault (c : cpu) f : cpu :=
  MkCpu (c_uc c) (c_teb c) (c_stub c) (c_gdt c) (c_mapped c) (c_ordinal c) (c_addr c) (c_ret c)
        (c_esp c) f (c_instr c) (c_served c).
Definition with_run (c : cpu) n l : cpu :=
  MkCpu (c_uc c) (c_teb c) (c_stub c) (c_gdt c) (c_mapped c) (c_ordinal c) (c_addr c) (c_ret c)
        (c_esp c) (c_fault c) n l.

Definition reg (c : cpu) (r : ureg) : Z :=
  match c_uc c with Some u => uc_reg_read u r | None => 0 end.

(** ** Mapping guest ranges *)

Definition covers (lo hi : Z) (r : Range) : bool :=
  (rg_va r <=? lo) && (hi <=? u32 (rg_va r + rg_size r)).

(** [inr] is success; [inl] failure with the error text, empty when the source
    leaves it alone. *)
Definition map_range (m : ram) (c : cpu) (va size : Z) (ro : bool) : string + cpu :=
  match c_uc c with
  | None => inl ""%string
  | Some u =>
      let lo := page_floor va in
      let hi := page_round (va + size) in
      let len := u32 (hi - lo) in
      if existsb (covers lo hi) (c_mapped c) then inr c
      else match host_ptr m lo with
           | None => inl "map_range: pages not committed"%string
           | Some host =>
               let perms := if ro then Z.lor UC_PROT_READ UC_PROT_EXEC
                            else Z.lor (Z.lor UC_PROT_READ UC_PROT_WRITE) UC_PROT_EXEC in
               match uc_mem_map_ptr u lo len perms (HRam host) with
               | None => inl "uc_mem_map_ptr failed"%string
               | Some u => inr (with_mapped (with_uc c (Some u)) (c_mapped c ++ [MkRange lo len]))
               end
           end
  end.

(** What is left of a mapped range when [lo, hi) goes. *)
Definition keep (lo hi : Z) (r : Range) : list Range :=
  let r_end := u32 (rg_va r + rg_size r) in
  if (r_end <=? lo) || (hi <=? rg_va r) then [r]
  else (if rg_va r <? lo then [MkRange (rg_va r) (lo - rg_va r)] else []) ++
       (if hi <? r_end then [MkRange hi (r_end - hi)] else []).

Definition unmap_range (c : cpu) (va size : Z) : bool * cpu :=
  match c_uc c with
  | None => (false, c)
  | Some u =>
      let lo := page_floor va in
      let hi := page_round (va + size) in
      match uc_mem_unmap u lo (u32 (hi - lo)) with
      | None => (false, c)
      | Some u => (true, with_mapped (with_uc c (Some u)) (c_mapped c ≫= keep lo hi))
      end
  end.

(** ** Attach *)

(** [while (end < ram_size && is_committed(end) && writable(end) == ro)] *)
Fixpoint run_end (m : ram) (ram_size : Z) (ro : bool) (fuel : nat) (e : Z) : Z :=
  match fuel with
  | O => e
  | S fuel =>
      if (e <? ram_size) && is_committed m e 1 && bool_decide (writable m e 1 = ro)
      then run_end m ram_size ro fuel (u32 (e + kPage)) else e
  end.

(** The scan over guest RAM: the error text if a mapping failed, and the CPU
    with the ranges mapped so far; [None] is exhausted fuel. *)
Fixpoint attach_loop (m : ram) (ram_size : Z) (fuel : nat) (addr : Z) (c : cpu)
    : option (option string * cpu) :=
  if negb (addr <? ram_size) then Some (None, c) else
  match fuel with
  | O => None
  | S fuel' =>
      if negb (is_committed m addr 1) then attach_loop m ram_size fuel' (u32 (addr + kPage)) c
      else
        let ro := negb (writable m addr 1) in
        let e := run_end m ram_size ro fuel (u32 (addr + kPage)) in
        match map_range m c addr (u32 (e - addr)) ro with
        | inl err => Some (Some err, c)
        | inr c => attach_loop m ram_size fuel' e c
        end
  end.

Definition ram_size (m : ram) : Z := u32 (r_size m).
Definition attach_fuel (m : ram) : nat := Z.to_nat (ram_size m `div` kPage + 1).

Definition gdt_image (teb : Z) : list Z :=
  put_desc 0 0 0 0 ++ put_desc 0 0xFFFFF 0x9A 0xC ++ put_desc 0 0xFFFFF 0x92 0xC ++
  put_desc teb 0xFFF 0x92 0x4.

(** The table at the start of the page, and GDTR. *)
Definition build_gdt (c : cpu) (u : uc) : cpu * uc :=
  (with_bufs c (c_stub c) (gdt_image (c_teb c) ++ drop 32 (c_gdt c)),
   uc_set_gdtr u kGdtVa (4 * 8 - 1)).

Definition load_selectors (u : uc) : uc :=
  let u := uc_reg_write u CS kSelCs in
  let u := uc_reg_write u DS kSelDs in
  let u := uc_reg_write u ES kSelDs in
  let u := uc_reg_write u SS kSelDs in
  uc_reg_write u FS kSelFs.

(** The two private pages. *)
Definition map_private (u : uc) : option uc :=
  match uc_mem_map_ptr u kHleMarker kPage (Z.lor UC_PROT_READ UC_PROT_EXEC) HStub with
  | Some u => uc_mem_map_ptr u kGdtVa kPage UC_PROT_READ HGdt
  | None => None
  end.

(** From the scan on; a failure closes the engine and keeps the records. *)
Definition attach_rest (c : cpu) : option string * cpu :=
  let c := with_bufs c (replicate 4096 0xC3) (replicate 4096 0) in
  match c_uc c ≫= map_private with
  | None => (Some "mapping HLE/GDT pages failed"%string, with_uc c None)
  | Some u =>
      let c := with_mapped c (c_mapped c ++ [MkRange kHleMarker kPage; MkRange kGdtVa kPage]) in
      let (c, u) := build_gdt c u in
      match uc_hook_add (load_selectors u) true ≫= (fun u => uc_hook_add u false) with
      | None => (Some "uc_hook_add failed"%string, with_uc c None)
      | Some u => (None, with_uc c (Some u))
      end
  end.

(** [None] in the first component is success; the caller registers the CPU. *)
Definition attach (m : ram) (c : cpu) : option (option string * cpu) :=
  match c_uc c with
  | Some _ => Some (None, c)
  | None =>
      match uc_open with
      | None => Some (Some "uc_open(x86, 32) failed"%string, c)
      | Some u =>
          match attach_loop m (ram_size m) (attach_fuel m) 0 (with_uc c (Some u)) with
          | None => None
          | Some (Some err, c) => Some (Some err, with_uc c None)
          | Some (None, c) => Some (attach_rest c)
          end
      end
  end.

End engine.

(** ** What the engine promises *)

Definition host_at (h : host_mem) (i : Z) : host_mem :=
  match h with HRam off => HRam (off + kPage * i) | _ => h end.

Definition page_in (lo len p : Z) : Prop := lo <= kPage * p < lo + len.

#[export] Instance page_in_dec lo len p : Decision (page_in lo len p).
Proof. unfold page_in. apply _. Defined.

(** A mapping that is accepted covers free pages, an accepted change shows in
    the pages it names and in no other, and registers keep what is written to
    them. Either call may be refused ([UC_ERR_NOMEM], [UC_ERR_MAP], ...). *)
Class UnicornLaws (eng : Unicorn) := {
  uc_page : uc -> Z -> option (Z * host_mem);
  uc_open_empty u p : uc_open = Some u -> uc_page u p = None;
  uc_map_spec u lo len perms h u' p :
    uc_mem_map_ptr u lo len perms h = Some u' ->
    uc_page u' p = if decide (page_in lo len p)
                   then Some (perms, host_at h (p - lo `div` kPage)) else uc_page u p;
  uc_map_ok u lo len perms h :
    is_Some (uc_mem_map_ptr u lo len perms h) ->
    forall p, page_in lo len p -> uc_page u p = None;
  uc_unmap_spec u lo len u' p :
    uc_mem_unmap u lo len = Some u' ->
    uc_page u' p = if decide (page_in lo len p) then None else uc_page u p;
  uc_write_page u r v p : uc_page (uc_reg_write u r v) p = uc_page u p;
  uc_gdtr_page u b l p : uc_page (uc_set_gdtr u b l) p = uc_page u p;
  uc_hook_page u b u' p : uc_hook_add u b = Some u' -> uc_page u' p = uc_page u p;
  uc_map_reg u lo len perms h u' r :
    uc_mem_map_ptr u lo len perms h = Some u' -> uc_reg_read u' r = uc_reg_read u r;
  uc_unmap_reg u lo len u' r : uc_mem_unmap u lo len = Some u' -> uc_reg_read u' r = uc_reg_read u r;
  uc_read_write u r v r' :
    uc_reg_read (uc_reg_write u r v) r' = if decide (r' = r) then v else uc_reg_read u r';
}.

(** An engine with room for another mapping takes every mapping of free pages. *)
Class UnicornRoom (eng : Unicorn) `{laws : !UnicornLaws eng} := uc_map_room u lo len perms h :
  lo `mod` kPage = 0 -> len `mod` kPage = 0 -> 0 < len ->
  (forall p, page_in lo len p -> uc_page u p = None) -> is_Some (uc_mem_map_ptr u lo len perms h).

(** ** Page rounding *)

Lemma page_floor_spec v : page_floor v = kPage * (v `div` kPage).
Proof. apply (align_down_pow2 v 12). lia. Qed.

Lemma page_round_spec v :
  0 <= v -> v + kPage - 1 < 2 ^ 32 -> page_round v = kPage * ((v + kPage - 1) `div` kPage).
Proof.
  intros Hv Hm. unfold page_round. rewrite u32_small by (unfold kPage in *; lia).
  apply (align_down_pow2 (v + kPage - 1) 12). lia.
Qed.

Lemma page_round_aligned q : 0 <= q -> kPage * q + kPage <= 2 ^ 32 -> page_round (kPage * q) = kPage * q.
Proof.
  intros Hq Hm. rewrite page_round_spec by (unfold kPage in *; lia). f_equal.
  symmetry. apply (Z.div_unique _ _ _ (kPage - 1)); unfold kPage; lia.
Qed.

Lemma page_floor_aligned q : page_floor (kPage * q) = kPage * q.
Proof. rewrite page_floor_spec, (Z.mul_comm kPage q), Z.div_mul by (unfold kPage; lia). lia. Qed.

Section mapping.
Context `{os : HostOS} `{eng : Unicorn} `{laws : !UnicornLaws eng}.

(** ** The mapped ranges are the engine's pages *)

Record range_wf (r : Range) : Prop := {
  rw_lo : 0 <= rg_va r /\ rg_va r `mod` kPage = 0;
  rw_len : 0 < rg_size r /\ rg_size r `mod` kPage = 0;
  rw_hi : rg_va r + rg_size r < 2 ^ 32;
}.

Definition listed (l : list Range) (p : Z) : Prop :=
  exists r, r ∈ l /\ page_in (rg_va r) (rg_size r) p.

Record mapped_ok (c : cpu) : Prop := {
  mk_wf : Forall range_wf (c_mapped c);
  mk_pages : forall u p, c_uc c = Some u -> listed (c_mapped c) p <-> uc_page u p <> None;
}.

Lemma range_end r : range_wf r -> u32 (rg_va r + rg_size r) = rg_va r + rg_size r.
Proof. intros [[? _] [? _] ?]. apply u32_small. lia. Qed.

(** The pages of a byte range, widened to whole pages. *)
Definition widened (va size p : Z) : Prop := page_in (page_floor va) (page_round (va + size) - page_floor va) p.

Definition span_ok (va size : Z) : Prop := 0 <= va /\ 0 < size /\ va + size + kPage < 2 ^ 32.

Lemma span_bounds va size :
  span_ok va size ->
  0 <= page_floor va < page_round (va + size) /\ page_round (va + size) < 2 ^ 32 /\
  page_floor va `mod` kPage = 0 /\ (page_round (va + size) - page_floor va) `mod` kPage = 0 /\
  u32 (page_round (va + size) - page_floor va) = page_round (va + size) - page_floor va.
Proof.
  intros (H1 & H2 & H3). rewrite page_floor_spec, page_round_spec by (unfold kPage in *; lia).
  pose proof (Z.div_mod va kPage) as Hd. pose proof (Z.mod_pos_bound va kPage) as Hm.
  pose proof (Z.div_mod (va + size + kPage - 1) kPage) as Hd'.
  pose proof (Z.mod_pos_bound (va + size + kPage - 1) kPage) as Hm'.
  pose proof (Z.div_pos va kPage).
  assert (kPage = 4096) as E by reflexivity. rewrite E in *.
  split_and!; try lia.
  - rewrite Z.mul_comm. apply Z.mod_mul. lia.
  - rewrite <- Z.mul_sub_distr_l, Z.mul_comm. apply Z.mod_mul. lia.
  - apply u32_small. lia.
Qed.

(** Mapping a byte range adds exactly its pages, or finds them all there. *)
Lemma map_range_pages m c va size ro c' u :
  mapped_ok c -> span_ok va size -> c_uc c = Some u -> map_range m c va size ro = inr c' ->
  mapped_ok c' /\ exists u', c_uc c' = Some u' /\
    (forall p, uc_page u' p <> None <-> uc_page u p <> None \/ widened va size p) /\
    (forall p, uc_page u p <> None -> uc_page u' p = uc_page u p).
Proof.
  intros Hc Hs Hu. destruct (span_bounds va size Hs) as (H1 & H2 & H3 & H4 & H5).
  unfold map_range. rewrite Hu, H5. set (lo := page_floor va) in *. set (hi := page_round _) in *.
  destruct (existsb _ _) eqn:E; [|destruct (host_ptr m lo) as [h|]; [|done];
    destruct (uc_mem_map_ptr _ _ _ _ _) as [u'|] eqn:Em; [|done]]; intros [= <-].
  - split; [done|]. exists u. split_and!; try done. intros p. split; [by left|].
    intros [?|Hp]; [done|]. apply (mk_pages c Hc u p Hu).
    apply existsb_exists in E as (r & Hr & E). apply list_elem_of_In in Hr.
    exists r. split; [done|]. pose proof (mk_wf c Hc) as Hwf. rewrite Forall_forall in Hwf.
    unfold covers in E. rewrite (range_end r (Hwf r Hr)) in E. bool_facts.
    unfold widened, page_in in *. fold lo hi in Hp. lia.
  - assert (Hfree : forall p, page_in lo (hi - lo) p -> uc_page u p = None).
    { exact (uc_map_ok u lo (hi - lo) _ _ (mk_is_Some _ _ Em)). }
    assert (Hpg : forall p, uc_page u' p <> None <-> uc_page u p <> None \/ page_in lo (hi - lo) p).
    { intros p. rewrite (uc_map_spec _ _ _ _ _ _ p Em). case_decide; naive_solver. }
    split; [split; cbn|].
    + apply Forall_app_2; [apply Hc|]. constructor; [|done]. split; cbn; [split; [lia|done]|split; [lia|done]|lia].
    + intros u0 p [= <-]. rewrite Hpg, <- (mk_pages c Hc u p Hu). unfold listed.
      setoid_rewrite elem_of_app. setoid_rewrite list_elem_of_singleton. naive_solver.
    + exists u'. split_and!; [done|done|]. intros p Hp. rewrite (uc_map_spec _ _ _ _ _ _ p Em).
      case_decide as Hd; [|done]. by rewrite (Hfree p Hd) in Hp.
Qed.

Lemma keep_pages lo hi r p :
  range_wf r -> 0 <= lo < hi ->
  listed (keep lo hi r) p <-> page_in (rg_va r) (rg_size r) p /\ ~ page_in lo (hi - lo) p.
Proof.
  intros Hw Hl. unfold keep, listed. rewrite (range_end r Hw). destruct Hw as [[? _] [? _] _].
  unfold page_in. destruct (_ || _) eqn:E.
  - setoid_rewrite list_elem_of_singleton. split; [intros (x & -> & Hx)|intros [Hx _]; eauto].
    split; [done|]. bool_facts. destruct E; bool_facts; lia.
  - bool_facts. setoid_rewrite elem_of_app.
    split.
    + intros (x & [Hx|Hx] & Hp); case_match eqn:Ec; try (by apply elem_of_nil in Hx); bool_facts;
        apply list_elem_of_singleton in Hx as ->; cbn in *; lia.
    + intros [Hp Hn]. destruct (decide (kPage * p < lo)).
      * exists (MkRange (rg_va r) (lo - rg_va r)). split; [left|cbn; lia].
        replace (rg_va r <? lo) with true by lia. left.
      * exists (MkRange hi (rg_va r + rg_size r - hi)). split; [right|cbn; lia].
        replace (hi <? rg_va r + rg_size r) with true by lia. left.
Qed.

Lemma keep_wf lo hi r :
  range_wf r -> 0 <= lo < hi -> lo `mod` kPage = 0 -> (hi - lo) `mod` kPage = 0 ->
  Forall range_wf (keep lo hi r).
Proof.
  intros Hw Hl H1 H2. unfold keep. rewrite (range_end r Hw). destruct Hw as [[A1 A2] [B1 B2] C1] eqn:Ew.
  assert (Hh : hi `mod` kPage = 0).
  { replace hi with (lo + (hi - lo)) by lia. rewrite Z.add_mod, H1, H2 by (unfold kPage; lia). reflexivity. }
  assert (He : (rg_va r + rg_size r) `mod` kPage = 0).
  { rewrite Z.add_mod, A2, B2 by (unfold kPage; lia). reflexivity. }
  assert (Hsub : forall a b, a `mod` kPage = 0 -> b `mod` kPage = 0 -> (a - b) `mod` kPage = 0).
  { intros a b Ha Hb. rewrite Zminus_mod, Ha, Hb. reflexivity. }
  destruct (_ || _) eqn:E; [by constructor|]. bool_facts. apply Forall_app_2; case_match eqn:Ec; bool_facts;
    repeat constructor; cbn; try lia; auto.
Qed.

(** Unmapping removes exactly the pages of the byte range. *)
Lemma unmap_range_pages c va size c' u :
  mapped_ok c -> span_ok va size -> c_uc c = Some u -> unmap_range c va size = (true, c') ->
  mapped_ok c' /\ exists u', c_uc c' = Some u' /\
    forall p, uc_page u' p = if decide (widened va size p) then None else uc_page u p.
Proof.
  intros Hc Hs Hu. destruct (span_bounds va size Hs) as (H1 & H2 & H3 & H4 & H5).
  unfold unmap_range. rewrite Hu, H5. set (lo := page_floor va) in *. set (hi := page_round _) in *.
  destruct (uc_mem_unmap _ _ _) as [u'|] eqn:Em; [|done]. intros [= <-].
  assert (Hpg : forall p, uc_page u' p = if decide (page_in lo (hi - lo) p) then None else uc_page u p).
  { intros p. apply (uc_unmap_spec _ _ _ _ p Em). }
  pose proof (mk_wf c Hc) as Hwf. split; [split; cbn|by exists u'].
  - apply Forall_bind. eapply Forall_impl; [exact Hwf|]. intros r Hr. by apply keep_wf.
  - intros u0 p [= <-]. rewrite Hpg. rewrite Forall_forall in Hwf.
    transitivity (listed (c_mapped c) p /\ ~ page_in lo (hi - lo) p).
    + unfold listed at 1. setoid_rewrite list_elem_of_bind. split.
      * intros (x & (r & Hx & Hr) & Hp).
        assert (Hk : listed (keep lo hi r) p) by (by exists x).
        apply keep_pages in Hk as [Hk Hn]; [|by apply Hwf|done]. split; [by exists r|done].
      * intros [(r & Hr & Hp) Hn].
        destruct (proj2 (keep_pages lo hi r p (Hwf r Hr) H1) (conj Hp Hn)) as (x & Hx & Hxp).
        exists x. split; [by exists r|done].
    + rewrite (mk_pages c Hc u p Hu). case_decide; naive_solver.
Qed.

(** ** The scan at attach *)

Definition committed (m : ram) (p : Z) : bool := is_committed m (kPage * p) 1.
Definition page_writable (m : ram) (p : Z) : bool := writable m (kPage * p) 1.

Definition perms_of (ro : bool) : Z := if ro then 5 else 7.

(** The pages of [0, rs). *)
Definition page_count (rs : Z) : Z := (rs + kPage - 1) `div` kPage.

Lemma page_lt rs p : kPage * p < rs <-> p < page_count rs.
Proof.
  unfold page_count. pose proof (Z.div_mod (rs + kPage - 1) kPage) as Hd.
  pose proof (Z.mod_pos_bound (rs + kPage - 1) kPage) as Hm. unfold kPage in *. lia.
Qed.

Lemma next_page rs q : 0 <= q < page_count rs -> rs + kPage <= 2 ^ 32 ->
  u32 (kPage * q + kPage) = kPage * (q + 1).
Proof. intros Hq Hr. assert (kPage * q < rs) by (apply page_lt; lia). rewrite u32_small; unfold kPage in *; lia. Qed.

Lemma run_end_spec m rs ro fuel q :
  0 <= q <= page_count rs -> rs + kPage <= 2 ^ 32 -> page_count rs - q <= Z.of_nat fuel ->
  exists q', run_end m rs ro fuel (kPage * q) = kPage * q' /\ q <= q' <= page_count rs /\
    (forall p, q <= p < q' -> committed m p = true /\ page_writable m p = ro) /\
    (q' < page_count rs -> committed m q' = true -> page_writable m q' <> ro).
Proof.
  revert q; induction fuel as [|fuel IH]; intros q Hq Hr Hf; cbn [run_end].
  - exists q. split_and!; try done; try lia.
  - destruct (kPage * q <? rs) eqn:El; cbn [andb]; swap 1 2.
    { apply Z.ltb_ge in El. assert (~ q < page_count rs) by (rewrite <- page_lt; lia).
      exists q. split_and!; try done; try lia. }
    apply Z.ltb_lt, page_lt in El. fold (committed m q) (page_writable m q).
    destruct (committed m q) eqn:Ec; cbn [andb].
    2: { exists q. split_and!; try done; try lia; congruence. }
    case_bool_decide as Ew.
    + rewrite (next_page rs) by lia.
      destruct (IH (q + 1)) as (q' & E & Hq' & Hin & Hout); [lia|done|lia|].
      exists q'. split_and!; [done|lia|lia| |done]. intros p Hp.
      destruct (decide (p = q)) as [->|]; [done|]. apply Hin. lia.
    + exists q. split_and!; try done; try lia.
Qed.

(** Pages below [q] are mapped exactly when committed, over their own bytes. *)
Record scan_ok (m : ram) (q : Z) (c : cpu) (u : uc) : Prop := {
  sc_uc : c_uc c = Some u;
  sc_ok : mapped_ok c;
  sc_done : forall p, 0 <= p < q ->
    (uc_page u p <> None <-> committed m p = true) /\
    (forall x, uc_page u p = Some x -> snd x = HRam (kPage * p));
  sc_todo : forall p, p < 0 \/ q <= p -> uc_page u p = None;
}.

Lemma scan_skip m q c u : 0 <= q -> scan_ok m q c u -> committed m q = false -> scan_ok m (q + 1) c u.
Proof.
  intros Hq [H1 H2 H3 H4] Hc. split; [done|done| |].
  - intros p Hp. destruct (decide (p = q)) as [->|]; [|apply H3; lia].
    rewrite H4, Hc by lia. split; [done|]. done.
  - intros p Hp. apply H4. lia.
Qed.

Lemma perms_value (ro : bool) :
  (if ro then Z.lor UC_PROT_READ UC_PROT_EXEC else Z.lor (Z.lor UC_PROT_READ UC_PROT_WRITE) UC_PROT_EXEC)
  = perms_of ro.
Proof. by destruct ro. Qed.

Lemma map_range_fresh m c u q q' ro c' :
  scan_ok m q c u -> 0 <= q < q' -> kPage * q' + kPage < 2 ^ 32 ->
  map_range m c (kPage * q) (kPage * q' - kPage * q) ro = inr c' ->
  exists u', uc_mem_map_ptr u (kPage * q) (kPage * q' - kPage * q) (perms_of ro) (HRam (kPage * q)) = Some u'
    /\ c_uc c' = Some u' /\ mapped_ok c'.
Proof.
  intros [H1 H2 _ H4] Hq Hb E.
  assert (Hs : span_ok (kPage * q) (kPage * q' - kPage * q)) by (unfold span_ok, kPage in *; lia).
  destruct (map_range_pages m c _ _ ro c' u H2 Hs H1 E) as [Hc' (u' & Hu' & Hpg & _)].
  exists u'. split_and!; [|done|done]. revert E. unfold map_range. rewrite H1.
  replace (kPage * q + (kPage * q' - kPage * q)) with (kPage * q') by lia.
  rewrite page_floor_aligned, page_round_aligned, perms_value by lia.
  rewrite u32_small by (unfold kPage in *; lia).
  destruct (existsb _ _) eqn:Ex.
  - exfalso. apply existsb_exists in Ex as (r & Hr & Ex). apply list_elem_of_In in Hr.
    assert (Hn : listed (c_mapped c) q).
    { exists r. split; [done|]. pose proof (mk_wf c H2) as Hwf. rewrite Forall_forall in Hwf.
      unfold covers in Ex. rewrite (range_end r (Hwf r Hr)) in Ex. bool_facts.
      unfold page_in, kPage in *. lia. }
    apply (mk_pages c H2 u q H1) in Hn. by rewrite H4 in Hn by lia.
  - unfold host_ptr. destruct (is_committed _ _ _); [|done].
    destruct (uc_mem_map_ptr _ _ _ _ _) as [u2|]; [|done]. intros [= <-]. cbn in Hu'. by injection Hu' as ->.
Qed.

Lemma scan_map m q q' c u ro c' :
  scan_ok m q c u -> 0 <= q < q' -> kPage * q' + kPage < 2 ^ 32 ->
  (forall p, q <= p < q' -> committed m p = true) ->
  map_range m c (kPage * q) (kPage * q' - kPage * q) ro = inr c' ->
  exists u', scan_ok m q' c' u' /\
    (forall p, q <= p < q' -> uc_page u' p = Some (perms_of ro, HRam (kPage * p))) /\
    (forall p, p < q -> uc_page u' p = uc_page u p).
Proof.
  intros Hsc Hq Hb Hall E. destruct (map_range_fresh m c u q q' ro c' Hsc Hq Hb E) as (u' & Em & Hu & Hok).
  destruct Hsc as [H1 H2 H3 H4]. exists u'.
  assert (Hpg : forall p, uc_page u' p =
    if decide (q <= p < q') then Some (perms_of ro, HRam (kPage * p)) else uc_page u p).
  { intros p. rewrite (uc_map_spec _ _ _ _ _ _ p Em). unfold page_in.
    rewrite (Z.mul_comm kPage q), Z.div_mul by (unfold kPage; lia). cbn [host_at].
    case_decide; case_decide; try done; [|unfold kPage in *; lia..]. do 3 f_equal. lia. }
  split; [split; try done|].
  - intros p Hp. rewrite Hpg. case_decide.
    + rewrite Hall by lia. split; [done|]. by intros x [= <-].
    + apply H3. lia.
  - intros p Hp. rewrite Hpg, decide_False by lia. apply H4. lia.
  - split; intros p Hp; rewrite Hpg; [by rewrite decide_True|by rewrite decide_False by lia].
Qed.

Lemma attach_step m rs fuel q c :
  0 <= q < page_count rs -> rs + 2 * kPage < 2 ^ 32 -> page_count rs - q <= Z.of_nat (S fuel) ->
  committed m q = true ->
  exists q', q < q' <= page_count rs /\ kPage * q' + kPage < 2 ^ 32 /\
    (forall p, q <= p < q' -> committed m p = true) /\
    (forall p, q < p < q' -> page_writable m p = negb (page_writable m q)) /\
    (q' < page_count rs -> committed m q' = true -> page_writable m q' = page_writable m q) /\
    attach_loop m rs (S fuel) (kPage * q) c =
      match map_range m c (kPage * q) (kPage * q' - kPage * q) (negb (page_writable m q)) with
      | inl err => Some (Some err, c)
      | inr c => attach_loop m rs fuel (kPage * q') c
      end.
Proof.
  intros Hq Hr Hf Hc. assert (Hk : kPage = 4096) by reflexivity.
  destruct (run_end_spec m rs (negb (page_writable m q)) (S fuel) (q + 1)) as (q' & E & Hq' & Hin & Hout);
    [lia|lia|lia|].
  assert (Hb : kPage * q' + kPage < 2 ^ 32).
  { assert (kPage * (q' - 1) < rs) by (apply page_lt; lia). unfold kPage in *. lia. }
  exists q'. split_and!; [lia|lia|done| | | |].
  - intros p Hp. destruct (decide (p = q)) as [->|]; [done|]. apply Hin. lia.
  - intros p Hp. apply Hin. lia.
  - intros H1 H2. specialize (Hout H1 H2). destruct (page_writable m q'), (page_writable m q); done.
  - cbn [attach_loop]. replace (kPage * q <? rs) with true by (symmetry; apply Z.ltb_lt, page_lt; lia).
    cbn [negb]. unfold committed in Hc. rewrite Hc. cbn [negb].
    rewrite (next_page rs) by lia. fold (page_writable m q).
    rewrite E. by rewrite (u32_small (kPage * q' - kPage * q)) by (unfold kPage in *; lia).
Qed.

Lemma attach_loop_end m rs fuel c : attach_loop m rs fuel (kPage * page_count rs) c = Some (None, c).
Proof.
  assert (E : (kPage * page_count rs <? rs) = false).
  { apply not_true_iff_false. rewrite Z.ltb_lt, page_lt. lia. }
  destruct fuel; cbn [attach_loop]; by rewrite E.
Qed.

Lemma attach_loop_spec m rs fuel q c u :
  scan_ok m q c u -> 0 <= q <= page_count rs -> rs + 2 * kPage < 2 ^ 32 ->
  page_count rs - q <= Z.of_nat fuel ->
  exists r c', attach_loop m rs fuel (kPage * q) c = Some (r, c') /\
    (r = None -> exists u', scan_ok m (page_count rs) c' u' /\ forall p, p < q -> uc_page u' p = uc_page u p).
Proof.
  revert q c u; induction fuel as [|fuel IH]; intros q c u Hsc Hq Hr Hf.
  - assert (q = page_count rs) as -> by lia. exists None, c. rewrite attach_loop_end. eauto.
  - destruct (decide (q = page_count rs)) as [->|Hne].
    { exists None, c. rewrite attach_loop_end. eauto. }
    destruct (committed m q) eqn:Hc.
    + destruct (attach_step m rs fuel q c) as (q' & H1 & H2 & H3 & _ & _ & ->); [lia|lia|lia|done|].
      destruct (map_range _ _ _ _ _) as [err|c1] eqn:Em; [by exists (Some err), c|].
      destruct (scan_map m q q' c u _ c1 Hsc ltac:(lia) H2 H3 Em) as (u1 & Hsc1 & _ & Hlow).
      destruct (IH q' c1 u1 Hsc1) as (r & c' & E & Hres); [lia|lia|lia|]. exists r, c'. split; [done|].
      intros ->. destruct (Hres eq_refl) as (u' & Hfin & Hsame). exists u'. split; [done|].
      intros p Hp. rewrite Hsame by lia. apply Hlow. lia.
    + cbn [attach_loop].
      replace (kPage * q <? rs) with true by (symmetry; apply Z.ltb_lt, page_lt; lia). cbn [negb].
      fold (committed m q). rewrite Hc. cbn [negb]. rewrite (next_page rs) by (unfold kPage in *; lia).
      destruct (IH (q + 1) c u) as (r & c' & E & Hres); [apply scan_skip; [lia|done|done]|lia|lia|lia|].
      exists r, c'. split; [done|]. intros ->. destruct (Hres eq_refl) as (u' & Hfin & Hsame).
      exists u'. split; [done|]. intros p Hp. apply Hsame. lia.
Qed.

(** The engine's view after a successful attach: guest pages as [scan] left
    them, then the two private pages. *)
Lemma attach_rest_pages c c' u :
  c_uc c = Some u -> attach_rest c = (None, c') ->
  exists u', c_uc c' = Some u' /\
    c_mapped c' = c_mapped c ++ [MkRange kHleMarker kPage; MkRange kGdtVa kPage] /\
    forall p, uc_page u' p =
      if decide (p = 0xF00F1) then Some (1, HGdt) else
      if decide (p = 0xF00F0) then Some (5, HStub) else uc_page u p.
Proof.
  intros Hu. unfold attach_rest. generalize (replicate 4096 0xC3), (replicate 4096 0). intros st gd.
  cbn [with_bufs c_uc]. rewrite Hu. cbn.
  unfold map_private. destruct (uc_mem_map_ptr u _ _ _ _) as [u1|] eqn:E1; [|done].
  destruct (uc_mem_map_ptr u1 _ _ _ _) as [u2|] eqn:E2; [|done].
  destruct (uc_hook_add _ true) as [u3|] eqn:E3; cbn; [|done].
  destruct (uc_hook_add u3 false) as [u4|] eqn:E4; cbn; [|done]. intros [= <-].
  exists u4. split_and!; [done|done|]. intros p.
  rewrite (uc_hook_page _ _ _ p E4), (uc_hook_page _ _ _ p E3). unfold load_selectors.
  rewrite !uc_write_page, uc_gdtr_page, (uc_map_spec _ _ _ _ _ _ p E2), (uc_map_spec _ _ _ _ _ _ p E1).
  unfold page_in, kGdtVa, kHleMarker, kPage.
  repeat case_decide; subst; try lia; try done.
Qed.

Lemma attach_loop_total m rs fuel q c :
  0 <= q <= page_count rs -> rs + 2 * kPage < 2 ^ 32 -> page_count rs - q <= Z.of_nat fuel ->
  is_Some (attach_loop m rs fuel (kPage * q) c).
Proof.
  revert q c; induction fuel as [|fuel IH]; intros q c Hq Hr Hf.
  { assert (q = page_count rs) as -> by lia. by rewrite attach_loop_end. }
  destruct (decide (q = page_count rs)) as [->|Hne]; [by rewrite attach_loop_end|].
  destruct (committed m q) eqn:Hc.
  - destruct (attach_step m rs fuel q c) as (q' & H1 & H2 & _ & _ & _ & ->); [lia|lia|lia|done|].
    destruct (map_range _ _ _ _ _) as [err|c1]; [done|]. apply IH; lia.
  - cbn [attach_loop].
    replace (kPage * q <? rs) with true by (symmetry; apply Z.ltb_lt, page_lt; lia). cbn [negb].
    fold (committed m q). rewrite Hc. cbn [negb]. rewrite (next_page rs) by (unfold kPage in *; lia).
    apply IH; lia.
Qed.

Lemma attach_fuel_enough m : 0 <= ram_size m -> page_count (ram_size m) <= Z.of_nat (attach_fuel m).
Proof.
  intros H. unfold attach_fuel. rewrite Z2Nat.id by (unfold kPage; lia || (pose proof (Z.div_pos (ram_size m) 4096); unfold kPage; lia)).
  unfold page_count. pose proof (Z.div_mod (ram_size m) kPage) as Hd. pose proof (Z.mod_pos_bound (ram_size m) kPage).
  assert (H2 : (ram_size m + kPage - 1) `div` kPage < ram_size m `div` kPage + 1 + 1); [|lia].
  apply Z.div_lt_upper_bound; unfold kPage in *; lia.
Qed.

Lemma scan_start c u m : uc_open = Some u -> c_mapped c = [] -> scan_ok m 0 (with_uc c (Some u)) u.
Proof.
  intros Hu Hm. split; [done| |lia|].
  - split; cbn; rewrite Hm; [done|]. intros u0 p [= <-]. rewrite (uc_open_empty u p Hu).
    split; [|done]. intros (r & Hr & _). by apply elem_of_nil in Hr.
  - intros p _. by apply uc_open_empty.
Qed.

(** The whole of attach. *)
Lemma attach_pages (m : ram) (c c' : cpu) :
  ram_size m <= kHleMarker -> c_uc c = None -> c_mapped c = [] -> attach m c = Some (None, c') ->
  mapped_ok c' /\ exists u, c_uc c' = Some u /\
    forall p, 0 <= p < page_count (ram_size m) ->
      (uc_page u p <> None <-> committed m p = true) /\
      (forall x, uc_page u p = Some x -> snd x = HRam (kPage * p)).
Proof.
  intros Hr Hu Hl. assert (Hs : 0 <= ram_size m) by (unfold ram_size; apply u32_range).
  unfold attach. rewrite Hu. destruct uc_open as [u0|] eqn:Eo; [|done].
  assert (Hpc : 0 <= page_count (ram_size m)) by (apply Z.div_pos; unfold kPage; lia).
  pose proof (attach_fuel_enough m Hs) as Hf.
  destruct (attach_loop_spec m (ram_size m) (attach_fuel m) 0 (with_uc c (Some u0)) u0) as (r & c1 & E & Hres);
    [by apply scan_start|lia|unfold kHleMarker, kPage in *; lia|lia|].
  change (kPage * 0) with 0 in E. rewrite E. destruct r as [err|]; [done|]. intros [= Hrest].
  destruct (Hres eq_refl) as (u1 & [H1 H2 H3 H4] & _).
  destruct (attach_rest_pages c1 c' u1 H1 Hrest) as (u2 & Hu2 & Hm2 & Hpg).
  assert (Hcount : page_count (ram_size m) <= 0xF00F0).
  { unfold page_count. apply Z.lt_succ_r, Z.div_lt_upper_bound; unfold kHleMarker, kPage in *; lia. }
  split; [split|].
  - rewrite Hm2. apply Forall_app_2; [apply H2|]. repeat constructor; cbn; done.
  - intros u p. rewrite Hu2. intros [= <-]. rewrite Hm2, Hpg.
    assert (Hspl : listed (c_mapped c1 ++ [MkRange kHleMarker kPage; MkRange kGdtVa kPage]) p <->
                   listed (c_mapped c1) p \/ p = 0xF00F0 \/ p = 0xF00F1).
    { unfold listed. setoid_rewrite elem_of_app. split.
      - intros (x & [Hx|Hx] & Hp); [left; by exists x|right].
        apply elem_of_cons in Hx as [->|[->|Hx]%elem_of_cons]; [| |by apply elem_of_nil in Hx];
          unfold page_in, kGdtVa, kHleMarker, kPage in Hp; cbn in Hp; lia.
      - intros [(x & Hx & Hp)|[->| ->]]; [exists x; auto|..].
        + exists (MkRange kHleMarker kPage). split; [right; left|done].
        + exists (MkRange kGdtVa kPage). split; [right; right; left|done]. }
    rewrite Hspl, (mk_pages c1 H2 u1 p H1). repeat case_decide; naive_solver.
  - exists u2. split; [done|]. intros p Hp. rewrite Hpg, !decide_False by lia. apply H3. lia.
Qed.

(** ** Properties *)

(** Attaching always ends: for every guest RAM below the private pages,
    whatever the CPU recorded before and whatever the engine answers, the scan
    over guest RAM reaches its end or a failed mapping. *)
Theorem attach_terminates (m : ram) (c : cpu) :
  ram_size m <= kHleMarker -> is_Some (attach m c).
Proof.
  intros Hr. assert (Hs : 0 <= ram_size m) by (unfold ram_size; apply u32_range).
  unfold attach. destruct (c_uc c); [done|]. destruct uc_open as [u|]; [|done].
  pose proof (attach_fuel_enough m Hs).
  assert (0 <= page_count (ram_size m)) by (apply Z.div_pos; unfold kPage; lia).
  destruct (attach_loop_total m (ram_size m) (attach_fuel m) 0 (with_uc c (Some u))) as [[[err|] c'] E];
    [lia|unfold kHleMarker, kPage in *; lia|lia|..]; change (kPage * 0) with 0 in E; by rewrite E.
Qed.

(** C17. A CPU that attaches for the first time sees exactly the committed guest
    RAM: every committed page is mapped over its own host bytes (no copy, same
    address), no uncommitted guest page is mapped, and the recorded ranges are
    exactly what the engine has mapped. *)
Theorem attach_maps_committed_pages (m : ram) (c c' : cpu) :
  ram_size m <= kHleMarker -> c_uc c = None -> c_mapped c = [] -> attach m c = Some (None, c') ->
  mapped_ok c' /\ exists u, c_uc c' = Some u /\
    forall p, 0 <= p < page_count (ram_size m) ->
      (uc_page u p <> None <-> committed m p = true) /\
      (forall x, uc_page u p = Some x -> snd x = HRam (kPage * p)).
Proof. apply attach_pages. Qed.

(** The mapped ranges a CPU records are the pages its engine has mapped,
    and stay so: mapping a range adds exactly the pages it touches and leaves
    the mapping of the others alone, and unmapping it removes exactly those,
    splitting the recorded ranges that are only partly covered. *)
Theorem mapping_mirrors_engine (m : ram) (c : cpu) (u : uc) (va size : Z) (ro : bool) :
  mapped_ok c -> c_uc c = Some u -> span_ok va size ->
  (forall c', map_range m c va size ro = inr c' ->
     mapped_ok c' /\ exists u', c_uc c' = Some u' /\
       (forall p, uc_page u' p <> None <-> uc_page u p <> None \/ widened va size p) /\
       (forall p, uc_page u p <> None -> uc_page u' p = uc_page u p)) /\
  (forall c', unmap_range c va size = (true, c') ->
     mapped_ok c' /\ exists u', c_uc c' = Some u' /\
       forall p, uc_page u' p = if decide (widened va size p) then None else uc_page u p).
Proof.
  intros Hc Hu Hs. split; intros c' E; [by eapply map_range_pages|by eapply unmap_range_pages].
Qed.

(** The scan joins pages of opposite protection: it extends a run while the
    next page is writable exactly when the run is read-only. So when the first
    two guest pages are committed with different protection, the second is
    mapped with the protection of the first: a read-only page becomes writable
    for the guest, a writable one read-only. *)
Theorem attach_merges_opposite_protection (m : ram) (c c' : cpu) :
  ram_size m <= kHleMarker -> c_uc c = None -> c_mapped c = [] -> 1 < page_count (ram_size m) ->
  committed m 0 = true -> committed m 1 = true -> page_writable m 1 = negb (page_writable m 0) ->
  attach m c = Some (None, c') ->
  exists u, c_uc c' = Some u /\ uc_page u 1 = Some (perms_of (page_writable m 1), HRam kPage).
Proof.
  intros Hr Hu Hl Hn H0 H1 Hw. assert (Hs : 0 <= ram_size m) by (unfold ram_size; apply u32_range).
  unfold attach. rewrite Hu. destruct uc_open as [u0|] eqn:Eo; [|done].
  pose proof (attach_fuel_enough m Hs) as Hf. destruct (attach_fuel m) as [|fuel]; [lia|].
  assert (Hb : ram_size m + 2 * kPage < 2 ^ 32) by (unfold kHleMarker, kPage in *; lia).
  destruct (attach_step m (ram_size m) fuel 0 (with_uc c (Some u0)))
    as (q' & Hq1 & Hq2 & Hall & _ & Hstop & E); [lia|done|lia|done|].
  change (kPage * 0) with 0 in E. rewrite E. clear E.
  assert (1 < q').
  { destruct (decide (q' = 1)) as [->|]; [|lia]. rewrite (Hstop ltac:(lia) H1) in Hw.
    by destruct (page_writable m 0). }
  destruct (map_range _ _ _ _ _) as [err|c1] eqn:Em; [done|].
  destruct (scan_map m 0 q' (with_uc c (Some u0)) u0 (negb (page_writable m 0)) c1)
    as (u1 & Hsc1 & Hnew & _); [by apply scan_start|lia|lia|done|done|].
  destruct (attach_loop_spec m (ram_size m) fuel q' c1 u1) as (r & c2 & E & Hres); [done|lia|done|lia|].
  rewrite E. destruct r as [err|]; [done|]. intros [= Hrest].
  destruct (Hres eq_refl) as (u2 & [G1 _ _ _] & Hsame).
  destruct (attach_rest_pages c2 c' u2 G1 Hrest) as (u3 & Hu3 & _ & Hpg).
  exists u3. split; [done|]. rewrite Hpg, !decide_False by lia. rewrite Hsame by lia.
  rewrite Hnew by lia. by rewrite Hw.
Qed.

End mapping.

(** ** An engine that keeps its promises *)

Record model_uc := MkUc { d_page : Z -> option (Z * host_mem); d_reg : ureg -> Z }.

Definition pages_of (lo len : Z) : list Z := seqZ (lo `div` kPage) (len `div` kPage).
Definition whole_pages (lo len : Z) : bool :=
  (lo `mod` kPage =? 0) && (len `mod` kPage =? 0) && (0 <? len).

Definition model_map (u : model_uc) (lo len perms : Z) (h : host_mem) : option model_uc :=
  if whole_pages lo len && forallb (fun p => bool_decide (d_page u p = None)) (pages_of lo len)
  then Some (MkUc (fun p => if decide (page_in lo len p)
                            then Some (perms, host_at h (p - lo `div` kPage)) else d_page u p) (d_reg u))
  else None.
Definition model_unmap (u : model_uc) (lo len : Z) : option model_uc :=
  if whole_pages lo len && forallb (fun p => negb (bool_decide (d_page u p = None))) (pages_of lo len)
  then Some (MkUc (fun p => if decide (page_in lo len p) then None else d_page u p) (d_reg u))
  else None.

#[export] Instance host_mem_eq_dec : EqDecision host_mem.
Proof. solve_decision. Defined.

(** Everything but the instruction set, which is [emu]. *)
Definition model_engine
    (emu : model_uc -> ram -> Z -> Z -> Z -> model_uc * ram * list hook_event * Z) : Unicorn := {|
  uc := model_uc;
  uc_open := Some (MkUc (fun _ => None) (fun _ => 0));
  uc_mem_map_ptr := model_map;
  uc_mem_unmap := model_unmap;
  uc_reg_read := d_reg;
  uc_reg_write u r v := MkUc (d_page u) (fun r' => if decide (r' = r) then v else d_reg u r');
  uc_set_gdtr u _ _ := u;
  uc_hook_add u _ := Some u;
  uc_emu_start := emu;
  uc_strerror _ := "error"%string;
|}.

Lemma whole_pages_in lo len p : whole_pages lo len = true -> p ∈ pages_of lo len <-> page_in lo len p.
Proof.
  unfold whole_pages, pages_of, page_in. intros H. bool_facts. rewrite elem_of_seqZ.
  pose proof (Z.div_mod lo kPage). pose proof (Z.div_mod len kPage). unfold kPage in *. lia.
Qed.

Lemma forallb_pages (f : Z -> bool) lo len :
  whole_pages lo len && forallb f (pages_of lo len) = true <->
  lo `mod` kPage = 0 /\ len `mod` kPage = 0 /\ 0 < len /\ forall p, page_in lo len p -> f p = true.
Proof.
  rewrite andb_true_iff. split.
  - intros [E Hf]. pose proof E as E'. unfold whole_pages in E'. bool_facts. split_and!; try done.
    intros p Hp. apply (forallb_elem _ _ p Hf). by apply whole_pages_in.
  - intros (H1 & H2 & H3 & H4). assert (E : whole_pages lo len = true) by (unfold whole_pages; lia).
    split; [done|]. apply forallb_intro. intros p Hp. apply H4. by apply whole_pages_in in Hp.
Qed.

Lemma is_Some_if {A} (b : bool) (x : A) : is_Some (if b then Some x else None) <-> b = true.
Proof. by destruct b; split; try done; intros []. Qed.

#[export] Instance model_laws emu : UnicornLaws (model_engine emu).
Proof.
  refine {| uc_page := (d_page : @uc (model_engine emu) -> _) |}; cbn; unfold model_map, model_unmap.
  - by intros u p [= <-].
  - intros u lo len perms h u' p. destruct (_ && _); [by intros [= <-]|done].
  - intros u lo len perms h. rewrite is_Some_if, forallb_pages. intros (_ & _ & _ & Hall) p Hp.
    by apply (bool_decide_eq_true (d_page u p = None)), Hall.
  - intros u lo len u' p. destruct (_ && _); [by intros [= <-]|done].
  - done.
  - done.
  - by intros u b u' p [= <-].
  - intros u lo len perms h u' r. destruct (_ && _); [by intros [= <-]|done].
  - intros u lo len u' r. destruct (_ && _); [by intros [= <-]|done].
  - done.
Defined.

#[export] Instance model_room emu : UnicornRoom (model_engine emu).
Proof.
  intros u lo len perms h H1 H2 H3 H4. cbn. unfold model_map. apply is_Some_if, forallb_pages.
  split_and!; try done. intros p Hp. by apply bool_decide_eq_true, H4.
Qed.

(** ** Witnesses *)

Definition idle_emu (u : model_uc) (m : ram) (start until count : Z)
    : model_uc * ram * list hook_event * Z := (u, m, [], 0).
#[local] Instance idle_engine : Unicorn := model_engine idle_emu.
#[local] Instance idle_laws : UnicornLaws idle_engine := model_laws idle_emu.

(** Sixteen pages of RAM, the first two committed, the first read-only. *)
Definition split_ram : ram := snd (protect_ro (snd (commit (create 65536) 0 8192)) 0 4096).

Definition attached (m : ram) : cpu := default new_cpu (snd <$> attach m new_cpu).

Lemma attach_terminates_witness : is_Some (attach split_ram new_cpu) /\ ram_size split_ram = 65536.
Proof. split; [apply (attach_terminates split_ram new_cpu); vm_compute; done|reflexivity]. Defined.

Lemma attach_ok : attach split_ram new_cpu = Some (None, attached split_ram).
Proof. reflexivity. Qed.

Lemma attach_maps_committed_pages_witness :
  mapped_ok (attached split_ram) /\ page_count (ram_size split_ram) = 16.
Proof.
  split; [|reflexivity].
  apply (attach_maps_committed_pages split_ram new_cpu (attached split_ram));
    [vm_compute; done|reflexivity|reflexivity|exact attach_ok].
Defined.

Lemma attach_merges_opposite_protection_witness :
  page_writable split_ram 1 = true /\
  exists u, c_uc (attached split_ram) = Some u /\
    uc_page u 1 = Some (perms_of (page_writable split_ram 1), HRam kPage).
Proof.
  split; [reflexivity|].
  apply (attach_merges_opposite_protection split_ram new_cpu (attached split_ram));
    [vm_compute; done|reflexivity..|exact attach_ok].
Defined.

Lemma mapping_mirrors_engine_witness :
  exists c', unmap_range (attached split_ram) 4096 1 = (true, c') /\ mapped_ok c'.
Proof.
  destruct (mapping_mirrors_engine split_ram (attached split_ram)
              (default (MkUc (fun _ => None) (fun _ => 0)) (c_uc (attached split_ram))) 4096 1 false)
    as [_ H].
  - apply (attach_pages split_ram new_cpu (attached split_ram));
      [vm_compute; done|reflexivity|reflexivity|exact attach_ok].
  - reflexivity.
  - unfold span_ok, kPage. lia.
  - assert (E : fst (unmap_range (attached split_ram) 4096 1) = true) by (vm_compute; reflexivity).
    destruct (unmap_range (attached split_ram) 4096 1) as [b c'] eqn:Eu. cbn in E. subst b.
    exists c'. split; [reflexivity|]. exact (proj1 (H c' eq_refl)).
Defined.

End CpuRuntime.
