(* ===== verification/UnicornRt.v ===== *)
(** The cross-CPU runtime ([class UnicornRuntime], src/xbox_cpu.cpp): page
    allocation from the top of guest RAM, thread blocks with the TLS template,
    the mirror of every mapping change into all attached CPUs, and the first
    stack of a guest thread. *)
From stdpp Require Import base numbers list gmap strings.
From Stdlib Require Import ZArith Lia.
From S2P Require Import Prelude XbeRam XbeImage LoadedXbe CpuSched KrnlMm KrnlState KrnlObjects CpuRuntime.
Open Scope Z_scope.

Module UnicornRt.
Import XbeRam CpuRuntime.

Section runtime.
Context `{os : HostOS} `{eng : Unicorn}.

(** Guest RAM is the kernel's; [rt_cpus] is [cpus_], each CPU with its address. *)
Record rt := MkRt {
  rt_k : KrnlState.kernel;
  rt_raw : list Z;          (* tls_raw_ *)
  rt_zerofill : Z;
  rt_index : Z;             (* tls_index_written_ *)
  rt_top : Z;
  rt_cpus : list (Z * cpu);
}.

Definition rt_ram (t : rt) : ram := KrnlState.k_ram (rt_k t).
Definition with_kernel (t : rt) k : rt :=
  MkRt k (rt_raw t) (rt_zerofill t) (rt_index t) (rt_top t) (rt_cpus t).
Definition with_ram (t : rt) r : rt := with_kernel t (KrnlState.with_ram (rt_k t) r).
Definition with_top (t : rt) n : rt :=
  MkRt (rt_k t) (rt_raw t) (rt_zerofill t) (rt_index t) n (rt_cpus t).
Definition with_cpus (t : rt) l : rt :=
  MkRt (rt_k t) (rt_raw t) (rt_zerofill t) (rt_index t) (rt_top t) l.

(** The constructor; the observer and the runner it installs are [observe] and
    [thread_boot] below. *)
Definition new_runtime (k : KrnlState.kernel) : rt :=
  let kd := KrnlState.k_data_va k in
  MkRt k [] 0 0 (if kd =? 0 then u32 (u32 (r_size (KrnlState.k_ram k)) - kPage) else kd) [].

(** The image and the runtime share guest RAM. *)
Definition set_image (t : rt) (i : XbeImage.image) : outcome (option string * rt) :=
  let l := LoadedXbe.Loaded i (rt_ram t) in
  if negb (LoadedXbe.has_tls l) then Ok (Some "image has no TLS directory"%string, t)
  else let! raw := LoadedXbe.tls_template l in
       let zf := match XbeImage.tls i with Some d => XbeImage.zero_fill d | None => 0 end in
       let t := MkRt (rt_k t) raw zf 0 (rt_top t) (rt_cpus t) in
       Ok (None, with_ram t (LoadedXbe.l_ram (snd (LoadedXbe.write_tls_index l 0)))).

Definition has_tls_template (t : rt) : bool :=
  negb (bool_decide (rt_raw t = [])) || negb (rt_zerofill t =? 0).

(** ** The mapping mirror *)

Definition register_cpu (t : rt) (id : Z) (c : cpu) : rt := with_cpus t (rt_cpus t ++ [(id, c)]).

Fixpoint erase_cpu (l : list (Z * cpu)) (id : Z) : list (Z * cpu) :=
  match l with
  | [] => []
  | x :: l' => if fst x =? id then l' else x :: erase_cpu l' id
  end.
Definition unregister_cpu (t : rt) (id : Z) : rt := with_cpus t (erase_cpu (rt_cpus t) id).

(** [GuestCpu::~GuestCpu]: an attached CPU leaves the registry. *)
Definition destroy_cpu (t : rt) (id : Z) (c : cpu) : rt :=
  match c_uc c with Some _ => unregister_cpu t id | None => t end.

(** [UnicornRuntime::~UnicornRuntime]: the engines of the CPUs still
    registered are closed and the registry is emptied; the observer and the
    thread runner are taken out of the kernel. *)
Definition destroy_runtime (t : rt) : rt * list (Z * cpu) :=
  (with_cpus t [], (fun p => (fst p, with_uc (snd p) None)) <$> rt_cpus t).

Definition map_on (m : ram) (va size : Z) (ro : bool) (c : cpu) : cpu :=
  match map_range m c va size ro with inr c' => c' | inl _ => c end.
Definition map_on_all (t : rt) (va size : Z) (ro : bool) : rt :=
  with_cpus t (prod_map id (map_on (rt_ram t) va size ro) <$> rt_cpus t).
Definition unmap_on_all (t : rt) (va size : Z) : rt :=
  with_cpus t (prod_map id (fun c => snd (unmap_range c va size)) <$> rt_cpus t).

(** The memory observer of the kernel. *)
Definition observe (t : rt) (e : KrnlMm.mem_event) : rt :=
  let '(freed, va, size, ro) := e in
  if freed then unmap_on_all t va size else map_on_all t va size ro.

(** ** The top-down allocator *)

Definition alloc_pages (t : rt) (bytes : Z) : outcome (Z * rt) :=
  if bytes =? 0 then Ok (0, t) else
  let size := page_round bytes in
  let floor := u32 (rt_top t - 0x800000) in
  if (rt_top t <? size) || (u32 (rt_top t - size) <? floor) then Ok (0, t) else
  let base := rt_top t - size in
  let (ok, r) := commit (rt_ram t) base size in
  let t := with_ram t r in
  if negb ok then Ok (0, t) else
  let! r := match host_ptr r base with
            | Some p => host_memset r p 0 size
            | None => Ok r
            end in
  Ok (base, map_on_all (with_top (with_ram t r) base) base size false).

(** The top of a fresh stack, 0 on failure. *)
Definition alloc_stack (t : rt) (bytes : Z) : outcome (Z * rt) :=
  let! p := alloc_pages t bytes in
  if fst p =? 0 then Ok (0, snd p) else Ok (u32 (fst p + page_round bytes), snd p).

(** ** Thread blocks *)

(** [memcpy] through a host pointer into guest RAM. *)
Definition host_store (r : ram) (addr : Z) (bs : list Z) : outcome ram :=
  if (zlen bs =? 0) || host_writable r addr (zlen bs)
  then Ok (set_bytes r (mem_write (r_bytes r) addr bs))
  else Ub "store to a page the host protects".

Definition build_teb (t : rt) : outcome (Z * rt) :=
  let data_size := u32 (zlen (rt_raw t)) in
  let total := u32 (0x200 + data_size) in
  let! p := alloc_pages t total in
  let (base, t) := p in
  if base =? 0 then Ok (0, t) else
  match host_ptr (rt_ram t) base with
  | None => Ok (0, t)
  | Some a =>
      let! r := host_store (rt_ram t) (a + 0x18) (le_bytes 4 base) in
      let! r := host_store r (a + 0x04) (le_bytes 4 (u32 (base + 0x100))) in
      let! r := host_store r (a + 0x100) (le_bytes 4 (u32 (base + 0x200))) in
      let! r := if 0 <? data_size
                then host_store r (a + 0x200) (take (Z.to_nat data_size) (rt_raw t)) else Ok r in
      Ok (base, with_ram t r)
  end.

(** ** The first stack of a guest thread *)

(** [esp -= 4; ram.write32(esp, v);] *)
Definition push (s : Z * ram) (v : Z) : Z * ram :=
  let esp := u32 (fst s - 4) in (esp, write32_ (snd s) esp v).

Definition thread_stack (s : Z * ram) (start_routine start_context system_routine : Z) : Z * ram :=
  let s := push s kExitVa in
  if negb (system_routine =? 0) then push (push s start_context) start_routine
  else push s start_context.

(** [run_system_thread] up to [cpu.run]: the entry point, the stack pointer and
    the registered CPU (at address [id]), or nothing to run. *)
Definition thread_boot (t : rt) (handle id : Z) : outcome (option (Z * Z) * rt) :=
  match KrnlObjects.thread_start_info (rt_k t) handle with
  | None => Ok (None, t)
  | Some (start, ctx, sys, stack, _) =>
      if start =? 0 then Ok (None, t) else
      let! p := build_teb t in
      let (teb, t) := p in
      match attach (rt_ram t) (set_teb new_cpu teb) with
      | None => Ub "the scan at attach does not end"
      | Some (Some _, _) => Ok (None, t)
      | Some (None, c) =>
          let t := register_cpu t id c in
          let bytes := if 0x2000 <=? stack then stack else 0x10000 in
          let! p := alloc_stack t bytes in
          let (esp, t) := p in
          if esp =? 0 then Ok (None, unregister_cpu t id)
          else let (esp, r) := thread_stack (esp, rt_ram t) start ctx sys in
               let entry := if negb (sys =? 0) then sys else start in
               Ok (Some (entry, esp), with_ram t r)
      end
  end.

End runtime.

(** ** What allocation changes *)

Section allocation.
Context `{os : HostOS} `{eng : Unicorn}.

(** Guest memory and, for the new pages, the mappings of the registered CPUs:
    the rest of the kernel, the template and the registry stay. *)
Definition remapped (t t' : rt) : Prop :=
  (exists r, rt_k t' = KrnlState.with_ram (rt_k t) r) /\
  rt_raw t' = rt_raw t /\ rt_zerofill t' = rt_zerofill t /\
  (rt_cpus t' = rt_cpus t \/ exists m va size ro, rt_cpus t' = prod_map id (map_on m va size ro) <$> rt_cpus t).

Lemma same_kernel (k : KrnlState.kernel) : exists r, k = KrnlState.with_ram k r.
Proof. exists (KrnlState.k_ram k). by destruct k. Qed.

Lemma remapped_refl t : remapped t t.
Proof. split_and!; [apply same_kernel|by auto..]. Qed.

Lemma remapped_ram t t' r : remapped t t' -> remapped t (with_ram t' r).
Proof. intros ([r0 E] & H). split; [|exact H]. exists r. cbn. by rewrite E. Qed.

Lemma alloc_pages_remaps t n p t' : alloc_pages t n = Ok (p, t') -> remapped t t'.
Proof.
  unfold alloc_pages. destruct (n =? 0); [intros [= <- <-]; apply remapped_refl|].
  destruct (_ || _); [intros [= <- <-]; apply remapped_refl|].
  destruct (commit _ _ _) as [ok r]. destruct ok; cbn [negb]; [|intros [= <- <-]; apply remapped_ram, remapped_refl].
  destruct (match host_ptr _ _ with Some _ => _ | None => _ end) as [r'| |]; cbn [obind]; [|done..].
  intros [= <- <-]. split_and!; [by exists r'|done..|]. right. by eexists _, _, _, _.
Qed.

Lemma alloc_stack_remaps t n p t' : alloc_stack t n = Ok (p, t') -> remapped t t'.
Proof.
  unfold alloc_stack. destruct (alloc_pages t n) as [[b t1]| |] eqn:E; cbn [obind fst snd]; [|done..].
  apply alloc_pages_remaps in E. case_match; by intros [= <- <-].
Qed.

Lemma build_teb_remaps t b t' : build_teb t = Ok (b, t') -> remapped t t'.
Proof.
  unfold build_teb. destruct (alloc_pages t _) as [[base t1]| |] eqn:E; cbn [obind]; [|done..].
  apply alloc_pages_remaps in E. destruct (base =? 0); [by intros [= <- <-]|].
  destruct (host_ptr _ _); [|by intros [= <- <-]].
  do 3 (destruct (host_store _ _ _); cbn [obind]; [|done..]).
  destruct (if 0 <? _ then _ else _) as [r'| |]; cbn [obind]; [|done..]. intros [= <- <-]. by apply remapped_ram.
Qed.

(** An attached CPU has an engine, and attaching executes nothing. *)
Lemma map_range_instr m c va size ro c' : map_range m c va size ro = inr c' -> c_instr c' = c_instr c.
Proof. unfold map_range. destruct (c_uc c); [|done]. repeat case_match; by intros [= <-]. Qed.

Lemma attach_loop_instr m size n addr c e c' :
  attach_loop m size n addr c = Some (e, c') -> c_instr c' = c_instr c.
Proof.
  revert addr c; induction n as [|n IH]; intros addr c; cbn [attach_loop]; (destruct (negb _); [by intros [= <- <-]|]); [done|].
  destruct (negb _); [apply IH|]. destruct (map_range _ _ _ _ _) as [err|c1] eqn:E; [by intros [= <- <-]|].
  intros ->%IH. by eapply map_range_instr.
Qed.

Lemma attach_new m c c' : attach m c = Some (None, c') -> is_Some (c_uc c') /\ c_instr c' = c_instr c.
Proof.
  unfold attach. destruct (c_uc c) eqn:Eu; [intros [= <-]; by rewrite Eu|].
  destruct uc_open; [|done]. destruct (attach_loop _ _ _ _ _) as [[[err|] c1]|] eqn:E; [done| |done].
  apply attach_loop_instr in E. cbn in E. unfold attach_rest. destruct (_ ≫= map_private) as [u1|]; [|done].
  unfold build_gdt. destruct (_ ≫= _) as [u3|]; [|done]. intros [= <-]. split; [by eexists|]. cbn. congruence.
Qed.

End allocation.

(** ** What a CPU sees of guest RAM *)

Section view.
Context `{os : HostOS} `{hl : !HostLaws os} `{eng : Unicorn} `{laws : !UnicornLaws eng}.
(** The pages of the x86 hosts Unicorn maps from. *)
Hypothesis H12 : page_bits = 12.

Lemma host_page : page_size = kPage.
Proof. unfold page_size. by rewrite H12. Qed.

(** The CPU maps exactly the committed guest pages. *)
Definition cpu_view (r : ram) (c : cpu) : Prop :=
  mapped_ok c /\ exists u, c_uc c = Some u /\
    forall p, 0 <= p < page_count (ram_size r) -> uc_page u p <> None <-> committed r p = true.

(** RAM that ends below the private pages. *)
Definition small_ram (r : ram) : Prop := ram_ok r /\ r_size r <= kHleMarker.

Lemma small_size r : small_ram r -> ram_size r = r_size r.
Proof. intros [[_ _ Hs _ _] Hk]. apply u32_small. unfold kHleMarker in *. lia. Qed.

Lemma committed_flag r p :
  small_ram r -> 0 <= p < page_count (ram_size r) -> committed r p = r_base r && cflag r p.
Proof.
  intros Hr [H0 Hp]. pose proof Hr as [[_ _ Hs _ _] Hk]. apply page_lt in Hp. rewrite small_size in Hp by done.
  unfold committed, is_committed. assert (Hro : range_ok r (kPage * p) 1 = true).
  { unfold range_ok. unfold kPage in *. lia. }
  rewrite Hro, andb_true_r. f_equal. unfold pages_committed, page_range. rewrite host_page.
  assert (E : (kPage * p) `div` kPage = p) by (rewrite Z.mul_comm; apply Z.div_mul; done).
  rewrite u32_small by (unfold kPage, kHleMarker in *; lia).
  replace (kPage * p + 1 - 1) with (kPage * p) by lia. rewrite E.
  replace (p - p + 1) with 1 by lia. rewrite seqZ_cons by lia. cbn. by rewrite andb_true_r.
Qed.

Lemma widened_pages va size p : span_ok va size -> widened va size p <-> p ∈ page_range va size.
Proof.
  intros (H1 & H2 & H3). rewrite page_range_elem by (unfold kPage in *; lia). rewrite host_page.
  unfold widened, page_in. rewrite page_floor_spec, page_round_spec by (unfold kPage in *; lia).
  pose proof (Z.div_mod va kPage). pose proof (Z.mod_pos_bound va kPage).
  pose proof (Z.div_mod (va + size - 1) kPage). pose proof (Z.mod_pos_bound (va + size - 1) kPage).
  replace ((va + size + kPage - 1) `div` kPage) with ((va + size - 1) `div` kPage + 1).
  - unfold kPage in *. lia.
  - replace (va + size + kPage - 1) with (va + size - 1 + 1 * kPage) by lia. by rewrite Z.div_add.
Qed.

(** Two memories with the same flags look the same. *)
Definition same_flags (r r' : ram) : Prop :=
  r_base r' = r_base r /\ r_size r' = r_size r /\ forall p, cflag r' p = cflag r p.

Lemma is_committed_same r r' a n : same_flags r r' -> is_committed r' a n = is_committed r a n.
Proof.
  intros (H1 & H2 & H3). unfold is_committed, pages_committed, range_ok.
  rewrite H1, H2. f_equal. induction (page_range a n); cbn; [done|]. f_equal; [apply H3|done].
Qed.

Lemma committed_same r r' p : same_flags r r' -> committed r' p = committed r p.
Proof. apply is_committed_same. Qed.

Lemma map_on_same r r' va size ro c : same_flags r r' -> map_on r' va size ro c = map_on r va size ro c.
Proof. intros H. unfold map_on, map_range, host_ptr. by rewrite (is_committed_same r r'). Qed.

Lemma same_flags_bytes r m : same_flags r (set_bytes r m).
Proof. done. Qed.

Lemma same_flags_trans r1 r2 r3 : same_flags r1 r2 -> same_flags r2 r3 -> same_flags r1 r3.
Proof.
  intros (A1 & A2 & A3) (B1 & B2 & B3). split_and!; [congruence..|]. intros p. by rewrite B3.
Qed.

Lemma host_memset_flags r a v n r' : host_memset r a v n = Ok r' -> same_flags r r'.
Proof. unfold host_memset. destruct (_ || _); [|done]. by intros [= <-]. Qed.

Lemma view_same r r' c : same_flags r r' -> cpu_view r c -> cpu_view r' c.
Proof.
  intros Hs [Hm (u & Hu & Hv)]. split; [done|]. exists u. split; [done|]. intros p Hp.
  rewrite (committed_same r r' p Hs). apply Hv. destruct Hs as (_ & Hz & _). unfold ram_size in *.
  by rewrite Hz in Hp.
Qed.

Lemma page_range_small r va size p :
  small_ram r -> range_ok r va size = true -> args_ok va size -> p ∈ page_range va size ->
  0 <= p < page_count (ram_size r).
Proof.
  intros Hr Hro [[Ha _] [Hz _]] Hp. pose proof Hr as [[_ _ Hs _ _] Hk]. apply range_ok_spec in Hro.
  rewrite page_range_elem in Hp by (unfold kHleMarker in *; lia). rewrite host_page in Hp.
  rewrite small_size by done. rewrite <- page_lt.
  pose proof (Z.div_pos va kPage). pose proof (Z.mul_div_le (va + size - 1) kPage).
  unfold kPage in *. nia.
Qed.

(** Committing pages keeps the view of a CPU whose engine takes the mapping. *)
Lemma view_commit_taken r r1 c c' va size ro :
  small_ram r -> cpu_view r c -> args_ok va size -> commit r va size = (true, r1) ->
  map_range r1 c va size ro = inr c' -> cpu_view r1 c'.
Proof.
  intros Hr [Hm (u & Hu & Hv)] Ha Ec Em. pose proof Hr as [Hok Hk].
  destruct (commit_spec r va size true r1 Hok Ha Ec) as (Hok1 & (Hb & Hz & _) & Hfl).
  destruct (Hfl eq_refl) as (Hro & Hbase & Hq). clear Hfl.
  assert (Hr1 : small_ram r1) by (split; [done|by rewrite Hz]).
  assert (Hb3 : 0 <= va /\ 0 < size /\ va + size <= r_size r).
  { apply range_ok_spec in Hro. destruct Ha as [[? _] [? _]]. lia. }
  assert (Hsp : span_ok va size) by (unfold span_ok, kHleMarker, kPage in *; lia).
  assert (Hrs : ram_size r1 = ram_size r) by (unfold ram_size; by rewrite Hz).
  destruct (map_range_pages r1 c va size ro c' u Hm Hsp Hu Em) as [Hm' (u' & Hu' & Hpg & _)].
  split; [done|]. exists u'. split; [done|]. rewrite Hrs. intros p Hp.
  rewrite Hpg, (Hv p Hp), widened_pages by done.
  rewrite !committed_flag by (try done; by rewrite Hrs). rewrite Hb, Hbase, (proj1 (Hq p)). cbn.
  case_decide; [tauto|]. split; [by intros [?|?]|by left].
Qed.

(** Uncommitting pages keeps the view of a CPU whose engine unmaps them. *)
Lemma view_uncommit r r1 c c' va size :
  small_ram r -> cpu_view r c -> args_ok va size -> uncommit r va size = (true, r1) ->
  unmap_range c va size = (true, c') -> cpu_view r1 c'.
Proof.
  intros Hr [Hm (u & Hu & Hv)] Ha Ec Eu. pose proof Hr as [Hok Hk].
  destruct (uncommit_spec r va size true r1 Hok Ha Ec) as (Hok1 & (Hb & Hz & _) & Hfl).
  destruct (Hfl eq_refl) as (Hc & Hq). clear Hfl.
  apply is_committed_spec in Hc as (Hbase & Hro & Hall).
  assert (Hr1 : small_ram r1) by (split; [done|by rewrite Hz]).
  assert (Hsp : span_ok va size).
  { apply range_ok_spec in Hro. destruct Ha as [[? _] [? _]]. unfold span_ok, kHleMarker, kPage in *. lia. }
  assert (Hrs : ram_size r1 = ram_size r) by (unfold ram_size; by rewrite Hz).
  destruct (unmap_range_pages c va size c' u Hm Hsp Hu Eu) as [Hm' (u' & Hu' & Hpg)].
  split; [done|]. exists u'. split; [done|]. rewrite Hrs. intros p Hp. rewrite Hpg.
  rewrite committed_flag by (try done; by rewrite Hrs). rewrite Hb, Hbase, (proj1 (Hq p)). cbn.
  pose proof (widened_pages va size p Hsp) as Hw. specialize (Hv p Hp).
  rewrite committed_flag, Hbase in Hv by done. cbn in Hv.
  case_decide; case_decide; try tauto; done.
Qed.

(** An engine with room takes a mapping of pages that were not committed. *)
Lemma view_commit `{room : !UnicornRoom eng} r r1 c va size ro :
  small_ram r -> cpu_view r c -> args_ok va size -> commit r va size = (true, r1) ->
  (forall p, p ∈ page_range va size -> cflag r p = false) ->
  cpu_view r1 (map_on r1 va size ro c).
Proof.
  intros Hr Hview Ha Ec Hfresh. pose proof Hview as [_ (u & Hu & Hv)]. pose proof Hr as [Hok Hk].
  destruct (commit_spec r va size true r1 Hok Ha Ec) as (Hok1 & (Hb & Hz & _) & Hfl).
  destruct (Hfl eq_refl) as (Hro & Hbase & Hq). clear Hfl.
  assert (Hr1 : small_ram r1) by (split; [done|by rewrite Hz]).
  assert (Hb3 : 0 <= va /\ 0 < size /\ va + size <= r_size r).
  { apply range_ok_spec in Hro. destruct Ha as [[? _] [? _]]. lia. }
  assert (Hsp : span_ok va size) by (unfold span_ok, kHleMarker, kPage in *; lia).
  assert (Hrs : ram_size r1 = ram_size r) by (unfold ram_size; by rewrite Hz).
  assert (Hfree : forall p, widened va size p -> uc_page u p = None).
  { intros p Hp%widened_pages; [|done]. pose proof (page_range_small r va size p Hr Hro Ha Hp) as Hpc.
    destruct (uc_page u p) eqn:E; [|done]. exfalso.
    assert (Hc : committed r p = true) by (apply Hv; [done|congruence]).
    rewrite committed_flag, Hfresh, andb_false_r in Hc by done. done. }
  assert (Hhost : is_committed r1 (page_floor va) 1 = true).
  { rewrite page_floor_spec. fold (committed r1 (va `div` kPage)).
    assert (Hin : va `div` kPage ∈ page_range va size).
    { apply page_range_elem; [unfold kHleMarker in *; lia..|].
      rewrite host_page. split; [lia|]. apply Z.div_le_mono; [done|lia]. }
    rewrite committed_flag; [|done|rewrite Hrs; by apply (page_range_small r va size)].
    rewrite Hb, Hbase. cbn. rewrite (proj1 (Hq _)). by rewrite decide_True. }
  unfold map_on. destruct (map_range r1 c va size ro) as [err|c'] eqn:Em; [|by eapply (view_commit_taken r r1 c)].
  exfalso. revert Em. destruct (span_bounds va size Hsp) as (G1 & G2 & G3 & G4 & G5).
  unfold map_range. rewrite Hu, G5. destruct (existsb _ _); [done|].
  unfold host_ptr. rewrite Hhost. set (perms := if ro then _ else _).
  assert (His : is_Some (uc_mem_map_ptr u (page_floor va) (page_round (va + size) - page_floor va)
    perms (HRam (page_floor va)))) by (apply uc_map_room; (done || lia)).
  by destruct His as [u' ->].
Qed.

Lemma obs_grows (l : list KrnlMm.mem_event) e : l = l ++ [e] -> False.
Proof. intros H%(f_equal length). rewrite length_app in H. cbn in H. lia. Qed.

Lemma page_loop_flags skip prot o ps r b r' :
  page_loop skip prot (fun r p => set_ro r p o) ps r = (b, r') -> same_flags r r'.
Proof.
  revert r; induction ps as [|p ps IH]; intros r; cbn [page_loop]; [by intros [= <- <-]|].
  destruct (skip r p); [by apply IH|]. unfold mprotect. destruct (mprotect_ok _ _); [|by intros [= <- <-]].
  intros H%IH. eapply same_flags_trans; [|exact H]. done.
Qed.

Lemma protect_flags (ro : bool) r a n : same_flags r (if ro then snd (protect_ro r a n) else r).
Proof.
  destruct ro; [|done]. unfold protect_ro. destruct (negb _); [done|].
  destruct (page_loop _ _ _ _ _) as [b r'] eqn:E. by eapply page_loop_flags.
Qed.

(** ** Properties *)

Definition all_views (t : rt) : Prop := Forall (fun x => cpu_view (rt_ram t) (snd x)) (rt_cpus t).

Lemma views_map (t : rt) (r : ram) va size ro :
  Forall (fun x => cpu_view r (map_on r va size ro (snd x))) (rt_cpus t) ->
  all_views (map_on_all (with_ram t r) va size ro).
Proof. intros H. unfold all_views, map_on_all. cbn. by apply Forall_fmap. Qed.

(** Whether the engine of a CPU takes the change an event asks for. *)
Definition engine_takes (r : ram) (e : KrnlMm.mem_event) (c : cpu) : bool :=
  let '(freed, va, size, ro) := e in
  if freed then fst (unmap_range c va size)
  else match map_range r c va size ro with inr _ => true | inl _ => false end.

Lemma observe_lookup t e i id c :
  rt_cpus t !! i = Some (id, c) ->
  rt_cpus (observe t e) !! i =
    Some (id, let '(freed, va, size, ro) := e in
              if freed then snd (unmap_range c va size) else map_on (rt_ram t) va size ro c).
Proof.
  intros H. destruct e as [[[[] va] size] ro]; cbn; rewrite list_lookup_fmap, H; reflexivity.
Qed.

(** A refused change leaves the CPU as it was. *)
Lemma refused_keeps r e c :
  engine_takes r e c = false ->
  (let '(freed, va, size, ro) := e in
   if freed then snd (unmap_range c va size) else map_on r va size ro c) = c.
Proof.
  destruct e as [[[[] va] size] ro]; cbn.
  - unfold unmap_range. by destruct (c_uc c); [destruct (uc_mem_unmap _ _ _)|].
  - unfold map_on. by destruct (map_range _ _ _ _ _).
Qed.

(** What the two memory calls leave committed when they report an event. *)
Lemma alloc_event r m size lo hi al prot va r' m' e :
  KrnlMm.mm_alloc r m size lo hi al prot = Ok (va, r', m') -> KrnlMm.mm_obs m' = KrnlMm.mm_obs m ++ [e] ->
  exists r1 ro, e = (false, va, size, ro) /\ commit r va size = (true, r1) /\ same_flags r1 r'.
Proof.
  unfold KrnlMm.mm_alloc. intros E He.
  destruct (KrnlMm.choose _ _ _ _ _) as [[cand|]|]; [|injection E as <- <- <-; by apply obs_grows in He|done].
  destruct (commit _ _ _) as [ok r1] eqn:Ec.
  destruct ok; cbn [negb] in E; [|injection E as <- <- <-; by apply obs_grows in He].
  destruct (match host_ptr r1 cand with Some p => _ | None => _ end) as [r2| |] eqn:Eh; cbn [obind] in E; [|done..].
  injection E as <- <- <-. cbn in He. apply app_inv_head in He. injection He as <-.
  eexists r1, _. split; [reflexivity|]. split; [done|]. apply (same_flags_trans r1 r2); [|apply protect_flags].
  destruct (host_ptr r1 cand); [by eapply host_memset_flags|by injection Eh as <-].
Qed.

Lemma free_event r m va r' m' e :
  KrnlMm.mm_free r m va = (true, r', m') -> KrnlMm.mm_obs m' = KrnlMm.mm_obs m ++ [e] ->
  exists va' size ro, e = (true, va', size, ro) /\ uncommit r va' size = (true, r').
Proof.
  unfold KrnlMm.mm_free. intros E He. destruct (KrnlMm.take_alloc _ _) as [[a rest]|]; [|done].
  destruct (uncommit _ _ _) as [done r1] eqn:Eu. injection E as <- <-.
  destruct done; cbn in He; [|by apply obs_grows in He]. apply app_inv_head in He. injection He as <-.
  by eexists _, _, _.
Qed.


Context `{room : !UnicornRoom eng}.

(** ** Parts of a writable range *)

Lemma writable_sub_pages r base n a k :
  writable r base n = true -> 0 <= base -> base + n <= 2 ^ 32 ->
  base <= a -> 0 < k -> a + k <= base + n -> writable r a k = true.
Proof.
  intros Hw H0 H1 H2 H3 H4. apply writable_spec in Hw as [(C1 & C2 & C3)%is_committed_spec C4].
  assert (Hsub : forall p, p ∈ page_range a k -> p ∈ page_range base n).
  { intros p. rewrite !page_range_elem by lia. pose proof page_size_pos.
    pose proof (Z.div_le_mono base a page_size). pose proof (Z.div_le_mono (a + k - 1) (base + n - 1) page_size).
    lia. }
  apply writable_spec. split; [|auto]. apply is_committed_spec. split_and!; [done| |auto].
  apply range_ok_spec. apply range_ok_spec in C2. lia.
Qed.

Lemma host_store_ok r base n a bs :
  ram_ok r -> writable r base n = true -> 0 <= base -> base + n <= 2 ^ 32 ->
  base <= a -> a + zlen bs <= base + n -> 0 < zlen bs < 2 ^ 32 -> a < 2 ^ 32 ->
  host_store r a bs = Ok (set_bytes r (mem_write (r_bytes r) a bs)).
Proof.
  intros Hok Hw H0 H1 H2 H3 H4 H5. unfold host_store.
  pose proof (writable_sub_pages r base n a (zlen bs) Hw H0 H1 H2 ltac:(lia) H3) as Hs.
  rewrite host_writable_iff, Hs, orb_true_r; [done|done|split; split; lia|].
  by apply writable_spec in Hs as [? _].
Qed.

Lemma read32_in r base n a :
  writable r base n = true -> 0 <= base -> base + n <= 2 ^ 32 -> base <= a -> a + 4 <= base + n ->
  read32 r a = Some (le_val (mem_read (r_bytes r) a 4)).
Proof.
  intros Hw H0 H1 H2 H3. pose proof (writable_sub_pages r base n a 4 Hw H0 H1 H2 ltac:(lia) H3) as Hs.
  apply writable_spec in Hs as [Hc _]. unfold read32, read_bytes, readable. by rewrite Hc.
Qed.

Lemma word_at m a v : is_u32 v -> le_val (mem_read (mem_write m a (le_bytes 4 v)) a 4) = v.
Proof.
  intros Hv. pose proof (mem_read_write m a (le_bytes 4 v)) as H. rewrite length_le_bytes in H.
  change (Z.of_nat 4) with 4 in H. rewrite H. by apply le32_roundtrip.
Qed.

Lemma word_skip m a bs b : b + 4 <= a \/ a + zlen bs <= b ->
  mem_read (mem_write m a bs) b 4 = mem_read m b 4.
Proof. apply mem_read_write_disjoint. Qed.

(** ** The allocator *)

(** The range an allocation takes is fresh. *)
Definition fresh_below (t : rt) (size : Z) : Prop :=
  forall p, p ∈ page_range (rt_top t - size) size -> cflag (rt_ram t) p = false.

Record top_ok (t : rt) : Prop := {
  to_ram : small_ram (rt_ram t);
  to_align : rt_top t `mod` kPage = 0;
  to_range : 0 <= rt_top t <= r_size (rt_ram t);
}.

Lemma page_round_bounds n : 0 < n -> n + kPage < 2 ^ 32 ->
  n <= page_round n < n + kPage /\ page_round n `mod` kPage = 0.
Proof.
  intros H1 H2. rewrite page_round_spec by lia.
  pose proof (Z.div_mod (n + kPage - 1) kPage) as Hd. pose proof (Z.mod_pos_bound (n + kPage - 1) kPage).
  split; [unfold kPage in *; lia|]. rewrite Z.mul_comm. by apply Z.mod_mul.
Qed.

(** Zeroing what [commit] just made writable does not fault. *)
Lemma fresh_memset r r1 va size :
  ram_ok r -> args_ok va size -> commit r va size = (true, r1) ->
  (forall p, p ∈ page_range va size -> cflag r p = false) ->
  is_committed r1 va size = true /\ writable r1 va size = true /\
  host_memset r1 va 0 size = Ok (set_bytes r1 (mem_fill (r_bytes r1) va size 0)).
Proof.
  intros Hok Ha Ec Hf. destruct (commit_spec r va size true r1 Hok Ha Ec) as (Hok1 & (Hb & Hz & _) & Hfl).
  destruct (Hfl eq_refl) as (Hro & Hbase & Hq).
  assert (Hc : is_committed r1 va size = true).
  { apply is_committed_spec. split_and!; [by rewrite Hb|unfold range_ok in *; by rewrite Hz|].
    intros p Hp. rewrite (proj1 (Hq p)). by rewrite decide_True. }
  assert (Hw : writable r1 va size = true).
  { apply writable_spec. split; [done|]. intros p Hp. rewrite (proj2 (Hq p)).
    apply roflag_le_cflag; [done|by apply Hf]. }
  split_and!; [done|done|]. unfold host_memset. rewrite host_writable_iff, Hw, orb_true_r by done. done.
Qed.

(** A successful allocation: the pages just below the old top, committed,
    writable, zeroed, and mapped by every CPU. *)
Record allocated (t : rt) (bytes base : Z) (t' : rt) : Prop := {
  al_place : base + page_round bytes = rt_top t /\ base `mod` kPage = 0 /\ rt_top t' = base;
  al_top : top_ok t';
  al_write : writable (rt_ram t') base (page_round bytes) = true;
  al_bytes : forall a, mem_byte (r_bytes (rt_ram t')) a =
    if decide (base <= a < rt_top t) then 0 else mem_byte (r_bytes (rt_ram t)) a;
  al_flags : forall p, cflag (rt_ram t') p =
    if decide (p ∈ page_range base (page_round bytes)) then true else cflag (rt_ram t) p;
  al_views : all_views t';
  al_rest : rt_raw t' = rt_raw t;
}.

Lemma alloc_pages_ok (t : rt) (bytes : Z) :
  top_ok t -> all_views t -> 0 < bytes -> bytes + kPage < 2 ^ 32 -> fresh_below t (page_round bytes) ->
  exists base t', alloc_pages t bytes = Ok (base, t') /\
    (base <> 0 -> allocated t bytes base t').
Proof.
  intros [Hr Hal Hrg] Hv Hb1 Hb2 Hf. destruct (page_round_bounds bytes Hb1 Hb2) as [Hpr Hpa].
  unfold alloc_pages. replace (bytes =? 0) with false by lia.
  destruct (_ || _) eqn:Eg; [by exists 0, t|]. apply orb_false_iff in Eg as [Eg _]. apply Z.ltb_ge in Eg.
  set (size := page_round bytes) in *. set (base := rt_top t - size) in *.
  pose proof Hr as [Hok Hk].
  assert (Ha : args_ok base size) by (unfold args_ok, is_u32, base, kHleMarker, kPage in *; lia).
  destruct (commit (rt_ram t) base size) as [ok r1] eqn:Ec. destruct ok; cbn [negb]; [|by exists 0, (with_ram t r1)].
  destruct (commit_spec _ _ _ _ _ Hok Ha Ec) as (Hok1 & (G1 & G2 & G3) & Hfl).
  destruct (Hfl eq_refl) as (_ & _ & Hq).
  destruct (fresh_memset _ _ _ _ Hok Ha Ec Hf) as (Hc & Hw & Hms).
  assert (Hhp : host_ptr r1 base = Some base).
  { unfold host_ptr. replace (is_committed r1 base 1) with true; [done|]. symmetry.
    apply is_committed_spec. apply is_committed_spec in Hc as (C1 & C2 & C3). split_and!; [done| |].
    - apply range_ok_spec. apply range_ok_spec in C2. unfold base in *. lia.
    - intros p Hp. apply C3. destruct Ha as [[? _] [? _]].
      rewrite page_range_elem in Hp by (unfold kHleMarker in *; lia).
      rewrite page_range_elem by (unfold base, kHleMarker in *; lia).
      pose proof (Z.div_le_mono (base + 1 - 1) (base + size - 1) page_size).
      pose proof (page_size_pos). lia. }
  rewrite Hhp, Hms. cbn [obind]. eexists base, _. split; [reflexivity|]. intros _. split.
  - cbn. split_and!; [unfold base; lia| |done]. unfold base. rewrite Zminus_mod, Hal, Hpa. done.
  - split; cbn.
    + split; [by apply set_bytes_ok|]. cbn. by rewrite G2.
    + unfold base. rewrite Zminus_mod, Hal, Hpa. done.
    + rewrite G2. unfold base. lia.
  - exact Hw.
  - intros a. cbn. rewrite mem_byte_fill, G3. replace (base + size) with (rt_top t) by (unfold base; lia). done.
  - intros p. cbn. apply Hq.
  - apply (views_map (with_top (with_ram t r1) base)). cbn. apply Forall_forall. intros x Hx.
    unfold all_views in Hv. rewrite Forall_forall in Hv. rewrite (map_on_same r1) by done.
    apply (view_same r1); [done|]. by apply (view_commit (rt_ram t)); [|apply Hv|..].
  - done.
Qed.

(** ** Thread blocks *)

Lemma allocated_range t bytes base t' :
  allocated t bytes base t' -> 0 <= base /\ base + page_round bytes <= kHleMarker.
Proof.
  intros [(P1 & P2 & P3) [[_ Hk] _ Hrg] Hw _ _ _ _].
  apply writable_spec in Hw as [(_ & Hro & _)%is_committed_spec _]. apply range_ok_spec in Hro. lia.
Qed.

(** The memory [build_teb] leaves in the block it allocated at [base]. *)
Definition teb_bytes (m : bytes_map) (base : Z) (raw : list Z) : bytes_map :=
  let m := mem_write m (base + 0x18) (le_bytes 4 base) in
  let m := mem_write m (base + 0x04) (le_bytes 4 (u32 (base + 0x100))) in
  let m := mem_write m (base + 0x100) (le_bytes 4 (u32 (base + 0x200))) in
  mem_write m (base + 0x200) raw.

Lemma build_teb_ok (t : rt) (base : Z) (t1 : rt) :
  zlen (rt_raw t) + 0x200 + kPage < 2 ^ 32 -> base <> 0 ->
  alloc_pages t (0x200 + zlen (rt_raw t)) = Ok (base, t1) ->
  allocated t (0x200 + zlen (rt_raw t)) base t1 ->
  build_teb t = Ok (base, with_ram t1 (set_bytes (rt_ram t1)
                      (teb_bytes (r_bytes (rt_ram t1)) base (rt_raw t)))).
Proof.
  intros Hs Hb Ea Hal. pose proof (allocated_range _ _ _ _ Hal) as Hcap0. pose proof Hal as [[P1 [P2 P3]] [[Hok Hk] _ Hrg] Hw _ _ _ Hraw].
  destruct (page_round_bounds (0x200 + zlen (rt_raw t))) as [Hpr _]; [lia|lia|].
  unfold kHleMarker, kPage in *.
  assert (E : u32 (zlen (rt_raw t)) = zlen (rt_raw t)) by (apply u32_small; lia).
  unfold build_teb. rewrite !E, (u32_small (0x200 + _)), Ea by lia. cbn [obind].
  replace (base =? 0) with false by lia.
  set (n := page_round (0x200 + zlen (rt_raw t))) in *.
  assert (Hcap : base + n <= 2 ^ 32) by lia.
  assert (Hp : host_ptr (rt_ram t1) base = Some base).
  { pose proof (writable_sub_pages _ _ _ base 1 Hw ltac:(lia) Hcap ltac:(lia) ltac:(lia) ltac:(lia)) as H1.
    apply writable_spec in H1 as [H1 _]. unfold host_ptr. by rewrite H1. }
  rewrite Hp. pose proof (length_le_bytes 4) as Hl4.
  assert (Hst : forall m a bs, base <= a -> a + zlen bs <= base + n -> 0 < zlen bs ->
    host_store (set_bytes (rt_ram t1) m) a bs = Ok (set_bytes (rt_ram t1) (mem_write m a bs))).
  { intros m a bs H1 H2 H3. rewrite (host_store_ok _ base n); try done; try lia. by apply set_bytes_ok. }
  replace (rt_ram t1) with (set_bytes (rt_ram t1) (r_bytes (rt_ram t1))) at 1 by (by destruct (rt_ram t1)).
  rewrite Hst by (rewrite ?Hl4; lia). cbn [obind]. rewrite Hst by (rewrite ?Hl4; lia). cbn [obind].
  rewrite Hst by (rewrite ?Hl4; lia). cbn [obind]. rewrite Hraw. unfold teb_bytes.
  destruct (rt_raw t) as [|x raw] eqn:Er; [done|]. rewrite <- Er in *.
  assert (0 < zlen (rt_raw t)) by (rewrite Er; cbn [length]; lia).
  replace (0 <? zlen (rt_raw t)) with true by lia.
  rewrite take_ge by lia. rewrite Hst by lia. done.
Qed.

(** The top-down allocator: on an aligned top with fresh pages below it, an
    allocation never faults; when it succeeds it takes exactly the rounded size
    just below the old top, the pages are committed, writable and zero, all
    other bytes and pages are as before, every attached CPU maps the new pages
    and no other, and the allocator's invariant holds again, so that successive
    allocations are disjoint. *)
Theorem runtime_alloc_disjoint (t : rt) (bytes : Z) :
  top_ok t -> all_views t -> 0 < bytes -> bytes + kPage < 2 ^ 32 -> fresh_below t (page_round bytes) ->
  exists base t', alloc_pages t bytes = Ok (base, t') /\ (base <> 0 -> allocated t bytes base t').
Proof. apply alloc_pages_ok. Qed.

(** The guest's TLS access sequence works on a fresh thread block: the self
    pointer, the array pointer at fs:[4], slot 0 of the array and the data area
    lead to a copy of the TLS template, and the other 63 slots are null. *)
Theorem teb_access_sequence (t t' : rt) (base : Z) :
  top_ok t -> all_views t -> zlen (rt_raw t) + 0x200 + kPage < 2 ^ 32 ->
  fresh_below t (page_round (0x200 + zlen (rt_raw t))) ->
  build_teb t = Ok (base, t') -> base <> 0 ->
  let r := rt_ram t' in
  read32 r (base + 0x18) = Some base /\
  read32 r (base + 0x04) = Some (base + 0x100) /\
  read32 r (base + 0x100) = Some (base + 0x200) /\
  (forall i, 1 <= i < 64 -> read32 r (base + 0x100 + 4 * i) = Some 0) /\
  (rt_raw t <> [] -> read_bytes r (base + 0x200) (zlen (rt_raw t)) = Some (rt_raw t)) /\
  all_views t'.
Proof.
  intros Ht Hv Hs Hf Eb Hb.
  destruct (alloc_pages_ok t (0x200 + zlen (rt_raw t)) Ht Hv) as (b & t1 & Ea & Hal);
    [lia|unfold kPage in *; lia|done|].
  assert (Hbz : b <> 0).
  { intros ->. unfold build_teb in Eb. unfold kPage in Hs.
    rewrite !(u32_small (zlen _)), (u32_small (_ + _)), Ea in Eb by lia. cbn in Eb. by injection Eb as <- _. }
  specialize (Hal Hbz). pose proof (build_teb_ok t b t1 ltac:(lia) Hbz Ea Hal) as Eb'.
  rewrite Eb in Eb'. injection Eb' as -> ->. cbn zeta. pose proof (allocated_range _ _ _ _ Hal) as Hcap0.
  destruct Hal as [[P1 [P2 P3]] [[Hok Hk] Hta Hrg] Hw Hby _ Hvs _].
  destruct (page_round_bounds (0x200 + zlen (rt_raw t))) as [Hpr _]; [lia|unfold kPage in *; lia|].
  set (n := page_round (0x200 + zlen (rt_raw t))) in *.
  assert (Hcap : b + n <= 2 ^ 32) by (unfold kHleMarker in *; lia).
  assert (Hend : b + 0x200 < 2 ^ 32) by (unfold kHleMarker in *; lia).
  set (m := r_bytes (rt_ram t1)) in *.
  assert (H4 : forall x, zlen (le_bytes 4 x) = 4) by (intros; by rewrite length_le_bytes).
  assert (Hrd : forall a, b <= a -> a + 4 <= b + 0x200 ->
    read32 (set_bytes (rt_ram t1) (teb_bytes m b (rt_raw t))) a =
    Some (le_val (mem_read (teb_bytes m b (rt_raw t)) a 4))).
  { intros a H1 H2.
    apply (read32_in (set_bytes (rt_ram t1) (teb_bytes m b (rt_raw t))) b n a); [exact Hw|lia..]. }
  change (rt_ram (with_ram t1 ?x)) with x. split_and!; [rewrite Hrd by lia; f_equal..| | |].
  - unfold teb_bytes. repeat rewrite word_skip by (rewrite ?H4; lia). apply word_at. unfold is_u32. lia.
  - unfold teb_bytes. repeat rewrite word_skip by (rewrite ?H4; lia).
    rewrite word_at by apply u32_range. apply u32_small. lia.
  - unfold teb_bytes. rewrite word_skip by (rewrite ?H4; lia).
    rewrite word_at by apply u32_range. apply u32_small. lia.
  - intros i Hi. rewrite Hrd by lia. f_equal. unfold teb_bytes. repeat rewrite word_skip by (rewrite ?H4; lia).
    unfold m. rewrite (mem_read_ext _ ∅); [reflexivity|]. intros a Ha. rewrite Hby, decide_True by lia. done.
  - intros Hne. unfold read_bytes, readable.
    assert (0 < zlen (rt_raw t)) by (destruct (rt_raw t); [done|cbn [length]; lia]).
    pose proof (writable_sub_pages _ _ _ (b + 0x200) (zlen (rt_raw t)) Hw ltac:(lia) Hcap ltac:(lia) ltac:(lia) ltac:(lia)) as Hc.
    apply writable_spec in Hc as [Hc _].
    change (is_committed (set_bytes (rt_ram t1) ?x)) with (is_committed (rt_ram t1)). rewrite Hc.
    unfold teb_bytes. cbn [r_bytes set_bytes]. by rewrite mem_read_write.
  - exact Hvs.
Qed.

(** A guest thread does not start with the exit sentinel as its return
    address: the sentinel is pushed first and the arguments after it, so the
    word at the stack pointer, where the routine's return takes its target, is
    the first argument; the sentinel lies where an argument is expected. *)
Theorem thread_returns_into_its_argument (r : ram) (esp start ctx sys : Z) :
  12 <= esp < 2 ^ 32 -> is_u32 start -> is_u32 ctx -> writable r (esp - 12) 12 = true ->
  let (esp', r') := thread_stack (esp, r) start ctx sys in
  read32 r' esp' = Some (if sys =? 0 then ctx else start) /\
  read32 r' (esp - 4) = Some kExitVa /\ esp' < esp - 4.
Proof.
  intros He Hs Hc Hw. unfold thread_stack, push. cbn [fst snd].
  assert (Hwr : forall m a v, esp - 12 <= a -> a + 4 <= esp ->
    write32_ (set_bytes r m) a v = set_bytes r (mem_write m a (le_bytes 4 v))).
  { intros m a v H1 H2. unfold write32_, write32, write_bytes. rewrite length_le_bytes.
    change (writable (set_bytes r m)) with (writable r). change (Z.of_nat 4) with 4.
    by rewrite (writable_sub_pages r (esp - 12) 12 a 4) by (done || lia). }
  assert (Hrd : forall m a, esp - 12 <= a -> a + 4 <= esp ->
    read32 (set_bytes r m) a = Some (le_val (mem_read m a 4))).
  { intros m a H1 H2. apply (read32_in (set_bytes r m) (esp - 12) 12 a); [exact Hw|lia..]. }
  replace r with (set_bytes r (r_bytes r)) by (by destruct r).
  assert (H4 : forall x, zlen (le_bytes 4 x) = 4) by (intros; by rewrite length_le_bytes).
  destruct (Z.eqb_spec sys 0); cbn [negb fst snd];
    rewrite !(u32_small) by lia; rewrite !Hwr by lia; rewrite !Hrd by lia;
    rewrite word_at by done; repeat rewrite word_skip by (rewrite ?H4; lia); rewrite word_at by done;
    split_and!; try done; lia.
Qed.

End view.

(** ** A concrete runtime *)

#[local] Instance demo_engine : Unicorn := model_engine idle_emu.
#[local] Instance demo_engine_laws : UnicornLaws demo_engine := model_laws idle_emu.

(** 16 MiB of RAM with nothing committed, one CPU with nothing mapped, a small
    pool and a three-byte TLS template. *)
Definition demo_ram16 : ram := create 0x1000000.
Definition demo_mm : KrnlMm.mm := KrnlMm.MkMm 0x10000 0x20000 [] [].
Definition demo_krnl : KrnlState.kernel :=
  KrnlState.MkKernel demo_ram16 CpuSched.new_sched ∅ [] [] [] [] 1 0 demo_mm false [] [] true.
Definition demo_cpu : cpu := with_uc new_cpu (Some (MkUc (fun _ => None) (fun _ => 0))).
Definition demo_rt : rt := MkRt demo_krnl [7; 8; 9] 0 0 0xFFF000 [(1, demo_cpu)].

Lemma host4k_page_bits : page_bits = 12.
Proof. reflexivity. Qed.

Lemma demo_flag p : cflag demo_ram16 p = false.
Proof. apply sv_nz_assign. Qed.

Lemma demo_top : top_ok demo_rt.
Proof. split; [split; [apply create_ok; lia|done]|done|done]. Qed.

Lemma demo_views : all_views demo_rt.
Proof.
  constructor; [|done]. split; [split; [done|]|].
  - intros u p [= <-]. split; [|done]. intros (r & Hr & _). by apply elem_of_nil in Hr.
  - eexists. split; [reflexivity|]. intros p Hp. split; [done|]. change (rt_ram demo_rt) with demo_ram16 in *.
    rewrite committed_flag; [|done|apply demo_top|done]. by rewrite demo_flag, andb_false_r.
Qed.

Lemma runtime_alloc_disjoint_witness :
  exists base t', alloc_pages demo_rt 5000 = Ok (base, t') /\ (base <> 0 -> allocated demo_rt 5000 base t').
Proof.
  apply (runtime_alloc_disjoint host4k_page_bits demo_rt 5000 demo_top demo_views); [lia|unfold kPage; lia|].
  intros p _. apply demo_flag.
Defined.

Definition demo_teb : outcome (Z * rt) := build_teb demo_rt.
Definition rt_of (o : outcome (Z * rt)) : rt := match o with Ok (_, t) => t | _ => demo_rt end.
Definition base_of (o : outcome (Z * rt)) : Z := match o with Ok (b, _) => b | _ => 0 end.

Lemma demo_teb_ok : demo_teb = Ok (base_of demo_teb, rt_of demo_teb).
Proof.
  assert (E : is_ok demo_teb = true) by (vm_compute; reflexivity).
  destruct demo_teb as [[b t]| |]; [done|by cbn in E..].
Qed.

Lemma teb_access_sequence_witness :
  base_of demo_teb = 0xFFE000 /\
  read_bytes (rt_ram (rt_of demo_teb)) (base_of demo_teb + 0x200) 3 = Some [7; 8; 9].
Proof.
  split; [vm_compute; reflexivity|].
  destruct (teb_access_sequence host4k_page_bits demo_rt (rt_of demo_teb) (base_of demo_teb) demo_top demo_views)
    as (_ & _ & _ & _ & H & _).
  - vm_compute. reflexivity.
  - intros p _. apply demo_flag.
  - exact demo_teb_ok.
  - vm_compute. congruence.
  - apply H. discriminate.
Defined.

Lemma thread_returns_into_its_argument_witness :
  let (esp', r') := thread_stack (8192, demo_ram) 0x11000 0x1234 0 in
  read32 r' esp' = Some (if 0 =? 0 then 0x1234 else 0x11000) /\
  read32 r' (8192 - 4) = Some kExitVa /\ esp' < 8192 - 4.
Proof.
  refine (thread_returns_into_its_argument demo_ram 8192 0x11000 0x1234 0 _ _ _ _);
    [lia|unfold is_u32; lia..|vm_compute; reflexivity].
Defined.

Definition demo_alloc : outcome (Z * ram * KrnlMm.mm) :=
  KrnlMm.mm_alloc demo_ram16 demo_mm 4096 0 0 0 KrnlMm.kPageReadWrite.
Definition ram_of (o : outcome (Z * ram * KrnlMm.mm)) : ram :=
  match o with Ok (_, r, _) => r | _ => demo_ram16 end.
Definition mm_of (o : outcome (Z * ram * KrnlMm.mm)) : KrnlMm.mm :=
  match o with Ok (_, _, m) => m | _ => demo_mm end.

Lemma demo_alloc_ok : demo_alloc = Ok (0x10000, ram_of demo_alloc, mm_of demo_alloc).
Proof.
  assert (E : match demo_alloc with Ok (v, _, _) => v = 0x10000 | _ => False end) by (vm_compute; reflexivity).
  destruct demo_alloc as [[[v r] m]| |]; [by subst v|done..].
Qed.


(** The 8 MiB margin is measured from the current top, not from the first one:
    it only limits the size of a single allocation. *)
Lemma margin_is_relative top size :
  0x800000 <= top < 2 ^ 32 -> 0 <= size <= top ->
  ((top <? size) || (u32 (top - size) <? u32 (top - 0x800000))) = (0x800000 <? size).
Proof. intros Ht Hs. rewrite !u32_small by lia. lia. Qed.

End UnicornRt.
