(* ===== verification/GuestCpu.v ===== *)
(** Running guest code ([class GuestCpu], src/xbox_cpu.cpp): the hooks that turn
    engine events into kernel calls and fault records, the kernel call with its
    virtual return, and the stop-and-restart loop. A kernel call that switches
    fibers stops the loop at the switch; it goes on when the fiber runs again. *)
From stdpp Require Import base numbers list gmap strings.
From Stdlib Require Import ZArith Lia.
From S2P Require Import Prelude XbeRam CpuSched KrnlExports KrnlMm KrnlState KrnlObjects KrnlCall.
From S2P Require Import CpuRuntime UnicornRt.
Open Scope Z_scope.

Module GuestCpu.
Import XbeRam KrnlExports CpuRuntime UnicornRt.

Section cpu.
Context `{os : HostOS} `{eng : Unicorn}.

(** The CPU that runs and the runtime; [rt_cpus] are the other attached CPUs. *)
Record machine := MkM { m_cpu : cpu; m_rt : rt }.
Definition set_cpu (m : machine) (c : cpu) : machine := MkM c (m_rt m).

(** ** Faults *)

(** The first fault is kept; [eip] is EIP at the time of the call. *)
Definition record_fault (c : cpu) (kind : Kind) (va eip : Z) (why : string) : cpu :=
  if bool_decide (f_kind (c_fault c) = KNone)
  then with_fault c (MkFault kind va eip (f_ordinal (c_fault c)) why) else c.

Definition unimplemented (c : cpu) (va eip ordinal : Z) (why : string) : cpu :=
  with_fault c (MkFault UnimplementedImport va eip ordinal (why ++ name_of ordinal)).

(** ** Hooks *)

Definition in_marker (a : Z) : bool := Z.land a (Z.lnot (kPage * 16 - 1)) =? kHleMarker.

(** The marker only records the call; the engine has been told to stop. *)
Definition code_hook (c : cpu) (addr : Z) : cpu :=
  let a := u32 addr in
  if in_marker a then with_pending c (Z.land a 0xFFFF) a
  else with_run c (u64 (c_instr c + 1)) (c_served c).

Definition mem_hook (c : cpu) (t : mem_type) (addr eip : Z) : cpu :=
  let va := u32 addr in
  match t with
  | ReadUnmapped => record_fault c UnmappedRead va eip "guest read of unmapped memory"
  | WriteUnmapped => record_fault c UnmappedWrite va eip "guest write to unmapped memory"
  | FetchUnmapped =>
      if 0x80000000 <=? addr
      then unimplemented c va (f_eip (c_fault c)) (Z.land va 0x7FFFFFFF)
             "call through unimplemented kernel import: "
      else record_fault c UnmappedFetch va eip "guest fetch from unmapped memory"
  | WriteProtected => record_fault c WriteProt va eip "guest write to read-only memory"
  | ReadProtected => record_fault c ReadProt va eip "guest read of protected memory"
  | OtherAccess => record_fault c EmuError va eip "guest memory fault"
  end.

Definition hook (c : cpu) (e : hook_event) : cpu :=
  match e with OnCode a => code_hook c a | OnMem t a eip => mem_hook c t a eip end.

(** ** Kernel calls *)

Definition stack_arg (r : ram) (esp : Z) (i : Z) : Z :=
  default 0 (read32 r (u32 (esp + 4 + 4 * i))).
Definition stack_args (r : ram) (esp n : Z) : list Z := stack_arg r esp <$> seqZ 0 n.

(** The arguments handed to the kernel and the bytes the callee pops. *)
Definition marshal (r : ram) (c : cpu) (x : Export) : list Z * Z :=
  let esp := reg c ESP in
  match x_conv x with
  | Stdcall => (stack_args r esp (Z.min (x_arg_bytes x `div` 4) 14), x_arg_bytes x)
  | Fastcall =>
      let total := x_arg_bytes x in
      let regs := reg c ECX :: (if 4 <? total then [reg c EDX] else []) in
      let bytes := if 8 <? total then total - 8 else 0 in
      (regs ++ stack_args r esp (Z.min ((bytes + 3) `div` 4) (14 - zlen regs)), bytes)
  | Cdecl => (stack_args r esp 13, 0)
  | Data => ([], 0)
  end.

(** What is kept across a switch inside the call. *)
Record frame := MkFrame { fr_ordinal : Z; fr_esp : Z; fr_bytes : Z }.

Inductive hle_out :=
  | HDone (m : machine)
  | HSwitched (f : frame) (p : KrnlCall.pending) (m : machine)
  | HEnded (m : machine).

Definition not_implemented : string := "kernel import not implemented: ".

(** After the kernel returned: results, then the virtual return. *)
Definition hle_return (m : machine) (f : frame) (eax : Z) (ok : bool) (edx : option Z) : machine :=
  let c := m_cpu m in
  if negb ok then set_cpu m (unimplemented c (c_addr c) (reg c EIP) (fr_ordinal f) not_implemented)
  else match c_uc c with
       | None => m
       | Some u =>
           let u := uc_reg_write u EAX eax in
           let u := if returns_64 (fr_ordinal f) then uc_reg_write u EDX (default 0 edx) else u in
           let ret := default 0 (read32 (rt_ram (m_rt m)) (fr_esp f)) in
           let esp := u32 (fr_esp f + 4 + fr_bytes f) in
           let u := uc_reg_write u ESP esp in
           let u := uc_reg_write u EIP ret in
           set_cpu m (with_return (with_uc c (Some u)) ret esp)
       end.

(** The kernel call with the mapping changes it reports. *)
Definition observe_machine (m : machine) (e : KrnlMm.mem_event) : machine :=
  let '(freed, va, size, ro) := e in
  let c := m_cpu m in
  MkM (if freed then snd (unmap_range c va size) else map_on (rt_ram (m_rt m)) va size ro c)
      (observe (m_rt m) e).

Definition new_events (k k' : KrnlState.kernel) : list KrnlMm.mem_event :=
  drop (length (KrnlMm.mm_obs (KrnlState.k_mm k))) (KrnlMm.mm_obs (KrnlState.k_mm k')).

Definition kernel_op (m : machine) (op : KrnlState.K KrnlCall.call_out)
    : outcome (KrnlCall.call_out * machine) :=
  let k := rt_k (m_rt m) in
  match op k with
  | Ok (out, k') =>
      Ok (out, foldl observe_machine (MkM (m_cpu m) (with_kernel (m_rt m) k')) (new_events k k'))
  | Fail e => Fail e
  | Ub e => Ub e
  end.

Definition hle_result (f : frame) (r : KrnlCall.call_out * machine) : hle_out :=
  match r with
  | (KrnlCall.Ret eax ok edx, m) => HDone (hle_return m f eax ok edx)
  | (KrnlCall.Blocked p, m) => HSwitched f p m
  | (KrnlCall.Exited, m) => HEnded m
  end.

Definition handle_hle_call (e : KrnlState.env) (m : machine) (ordinal : Z) : outcome hle_out :=
  let c := m_cpu m in
  let missing := set_cpu m (unimplemented c (c_addr c) (reg c EIP) ordinal not_implemented) in
  match find_export ordinal with
  | None => Ok (HDone missing)
  | Some x =>
      if bool_decide (x_conv x = Data) then Ok (HDone missing)
      else let (args, bytes) := marshal (rt_ram (m_rt m)) c x in
           let! r := kernel_op m (KrnlCall.call e ordinal args) in
           Ok (hle_result (MkFrame ordinal (reg c ESP) bytes) r)
  end.

(** The same call when its fiber runs again. *)
Definition hle_resume (e : KrnlState.env) (f : frame) (p : KrnlCall.pending) (m : machine)
    : outcome hle_out :=
  let! r := kernel_op m (KrnlCall.resume e p) in Ok (hle_result f r).

(** ** The run loop *)

Inductive round_out :=
  | RDone (ok : bool) (m : machine)             (* run() returns *)
  | RAgain (eip : Z) (m : machine)              (* the loop continues *)
  | RSwitched (f : frame) (p : KrnlCall.pending) (m : machine)
  | REnded (m : machine).

(** After the kernel call of a round. *)
Definition served_call (ordinal : Z) (h : hle_out) : round_out :=
  match h with
  | HDone m =>
      let c := with_run (m_cpu m) (c_instr (m_cpu m)) (c_served (m_cpu m) ++ [ordinal]) in
      let m := set_cpu m c in
      if bool_decide (f_kind (c_fault c) = KNone) then RAgain (c_ret c) m else RDone false m
  | HSwitched f p m => RSwitched f p m
  | HEnded m => REnded m
  end.

(** What the loop does with the outcome of one engine run. *)
Definition after_emu (e : KrnlState.env) (m : machine) (err : Z) : outcome round_out :=
  let c := m_cpu m in
  if negb (bool_decide (f_kind (c_fault c) = KNone)) then Ok (RDone false m)
  else if negb (err =? UC_ERR_OK) then
    let eip := reg c EIP in
    Ok (RDone false (set_cpu m (with_fault c
          (MkFault EmuError eip eip (f_ordinal (c_fault c)) (uc_strerror err)))))
  else
    let now := reg c EIP in
    if now =? kExitVa then Ok (RDone true m)
    else if negb (c_ordinal c =? 0) then
      let ordinal := c_ordinal c in
      let! h := handle_hle_call e (set_cpu m (with_pending c 0 (c_addr c))) ordinal in
      Ok (served_call ordinal h)
    else Ok (RDone false (set_cpu m (record_fault c InstructionLimit now now
               "did not exit within the instruction budget"))).

Definition emulate (m : machine) (u : uc) (eip budget : Z) : machine * Z :=
  let '(u, r, events, err) := uc_emu_start u (rt_ram (m_rt m)) eip kExitVa budget in
  (MkM (foldl hook (with_uc (m_cpu m) (Some u)) events) (with_ram (m_rt m) r), err).

Definition round (e : KrnlState.env) (max : Z) (m : machine) (eip : Z) : outcome round_out :=
  let c := m_cpu m in
  match c_uc c with
  | None => Ok (RDone false m)
  | Some u =>
      if max <=? c_instr c then
        Ok (RDone false (set_cpu m (record_fault c InstructionLimit (u32 eip) (reg c EIP)
              "did not exit within the instruction budget")))
      else let (m, err) := emulate m u eip (max - c_instr c) in after_emu e m err
  end.

(** Rounds until the loop leaves; the environment may answer differently in
    every round. [None] is exhausted fuel. *)
Fixpoint run_loop (es : nat -> KrnlState.env) (fuel : nat) (max : Z) (m : machine) (eip : Z)
    : option (outcome round_out) :=
  match fuel with
  | O => None
  | S fuel' =>
      match round (es fuel') max m eip with
      | Ok (RAgain eip' m') => run_loop es fuel' max m' eip'
      | r => Some r
      end
  end.

Definition run_start (m : machine) (u : uc) (esp : Z) : machine :=
  let c := with_fault (m_cpu m) no_fault in
  let c := with_run c 0 [] in
  let c := with_pending c 0 (c_addr c) in
  set_cpu m (with_uc c (Some (uc_reg_write u ESP esp))).

Definition run (es : nat -> KrnlState.env) (fuel : nat) (m : machine) (entry esp max : Z)
    : option (outcome round_out) :=
  match c_uc (m_cpu m) with
  | None => Some (Ok (RDone false m))
  | Some u => run_loop es fuel max (run_start m u esp) entry
  end.

End cpu.

(** ** What the engine promises about a run *)

(** Events after which the engine has been told to stop. *)
Definition stops (e : hook_event) : bool :=
  match e with OnCode a => in_marker (u32 a) | OnMem _ _ _ => true end.
Definition executed (l : list hook_event) : list hook_event := List.filter (fun e => negb (stops e)) l.

(** The code hook runs before every instruction, the first one at the start
    address; a run executes at most its budget of instructions; it ends at a
    hook that stops it; a run that executes nothing reports an error. *)
Class RunLaws (eng : Unicorn) := {
  emu_budget u r start until n u' r' evs err :
    uc_emu_start u r start until n = (u', r', evs, err) -> 0 < n -> zlen (executed evs) <= n;
  emu_first u r start until n u' r' evs err :
    uc_emu_start u r start until n = (u', r', evs, err) -> 0 < n -> start <> until ->
    (evs = [] /\ err <> UC_ERR_OK) \/
    (exists t a eip, evs = [OnMem t a eip]) \/ (exists rest, evs = OnCode start :: rest);
}.

Section proofs.
Context `{os : HostOS} `{eng : Unicorn}.

(** ** The mirror leaves the rest of a CPU alone *)

(** Everything but the engine and the mapped ranges. *)
Definition same_cpu (c c' : cpu) : Prop :=
  (is_Some (c_uc c) -> is_Some (c_uc c')) /\
  c_ordinal c' = c_ordinal c /\ c_addr c' = c_addr c /\ c_fault c' = c_fault c /\
  c_instr c' = c_instr c /\ c_served c' = c_served c.

Lemma same_cpu_refl c : same_cpu c c.
Proof. by split_and!. Qed.

Lemma same_cpu_trans c1 c2 c3 : same_cpu c1 c2 -> same_cpu c2 c3 -> same_cpu c1 c3.
Proof.
  intros (A1 & A2 & A3 & A4 & A5 & A6) (B1 & B2 & B3 & B4 & B5 & B6). split_and!; [auto|congruence..].
Qed.

Lemma map_on_same_cpu r va size ro c : same_cpu c (map_on r va size ro c).
Proof.
  unfold map_on, map_range. destruct (c_uc c) eqn:Eu; [|apply same_cpu_refl].
  repeat case_match; simplify_eq; by split_and!.
Qed.

Lemma unmap_same_cpu va size c : same_cpu c (snd (unmap_range c va size)).
Proof.
  unfold unmap_range. destruct (c_uc c) eqn:Eu; [|apply same_cpu_refl].
  repeat case_match; simplify_eq; by split_and!.
Qed.

Lemma observe_same m e : same_cpu (m_cpu m) (m_cpu (observe_machine m e)).
Proof.
  destruct e as [[[freed va] size] ro]. cbn. destruct freed; [apply unmap_same_cpu|apply map_on_same_cpu].
Qed.

Lemma observe_all_same evs m : same_cpu (m_cpu m) (m_cpu (foldl observe_machine m evs)).
Proof.
  revert m; induction evs as [|e evs IH]; intros m; cbn [foldl]; [apply same_cpu_refl|].
  eapply same_cpu_trans; [apply observe_same|apply IH].
Qed.

Lemma kernel_op_same m op out m' :
  kernel_op m op = Ok (out, m') -> same_cpu (m_cpu m) (m_cpu m').
Proof.
  unfold kernel_op. destruct (op _) as [[o k']| |]; [|done..]. intros [= <- <-]. exact (observe_all_same _ (MkM (m_cpu m) (with_kernel (m_rt m) k'))).
Qed.

(** ** Faults are never lost *)

Definition faulted (c : cpu) : Prop := f_kind (c_fault c) <> KNone.

Lemma record_faulted c kind va eip why : kind <> KNone -> faulted (record_fault c kind va eip why).
Proof. unfold faulted, record_fault. case_bool_decide; done. Qed.

Lemma hle_return_keeps m f eax ok edx :
  is_Some (c_uc (m_cpu m)) ->
  let m' := hle_return m f eax ok edx in
  is_Some (c_uc (m_cpu m')) /\ c_instr (m_cpu m') = c_instr (m_cpu m) /\
  (ok = true -> c_fault (m_cpu m') = c_fault (m_cpu m)) /\ (ok = false -> faulted (m_cpu m')).
Proof.
  intros Hu. unfold hle_return. destruct ok; cbn [negb].
  - destruct (c_uc (m_cpu m)) eqn:E; [|by destruct Hu]. cbn. split_and!; done.
  - cbn. split_and!; done.
Qed.

Definition hle_machine (h : hle_out) : machine :=
  match h with HDone m | HSwitched _ _ m | HEnded m => m end.

(** A kernel call keeps the CPU attached and executes no guest instruction. *)
Lemma handle_hle_keeps e m ordinal h :
  is_Some (c_uc (m_cpu m)) -> handle_hle_call e m ordinal = Ok h ->
  is_Some (c_uc (m_cpu (hle_machine h))) /\ c_instr (m_cpu (hle_machine h)) = c_instr (m_cpu m).
Proof.
  intros Hu. unfold handle_hle_call. destruct (find_export ordinal) as [x|]; [|by intros [= <-]].
  destruct (bool_decide _); [by intros [= <-]|]. destruct (marshal _ _ _) as [args bytes].
  destruct (kernel_op _ _) as [[out m1]| |] eqn:E; cbn [obind]; [|done..]. intros [= <-].
  pose proof (kernel_op_same _ _ _ _ E) as (S1 & _ & _ & _ & S5 & _).
  destruct out as [eax ok edx|p|]; cbn [hle_result hle_machine]; [|by auto..].
  destruct (hle_return_keeps m1 (MkFrame ordinal (reg (m_cpu m) ESP) bytes) eax ok edx (S1 Hu)) as (H1 & H2 & _).
  split; [done|congruence].
Qed.

Definition verdict (r : round_out) : Prop :=
  match r with
  | RDone true m => f_kind (c_fault (m_cpu m)) = KNone /\ reg (m_cpu m) EIP = kExitVa
  | RDone false m => faulted (m_cpu m)
  | RAgain _ m => f_kind (c_fault (m_cpu m)) = KNone /\ is_Some (c_uc (m_cpu m))
  | _ => True
  end.

Lemma after_emu_verdict e m err r :
  is_Some (c_uc (m_cpu m)) -> after_emu e m err = Ok r -> verdict r.
Proof.
  intros Hu. unfold after_emu. case_bool_decide as Hf; cbn [negb]; [|by intros [= <-]].
  destruct (negb (err =? UC_ERR_OK)); [by intros [= <-]|].
  destruct (Z.eqb_spec (reg (m_cpu m) EIP) kExitVa) as [He|]; [by intros [= <-]|].
  destruct (negb _); [|intros [= <-]; by apply record_faulted].
  set (m0 := set_cpu m _). destruct (handle_hle_call e m0 _) as [h| |] eqn:E; cbn [obind]; [|done..].
  intros [= <-]. destruct h as [m'|f p m'|m']; [|done..]. cbn [served_call].
  destruct (handle_hle_keeps e m0 _ _ Hu E) as [H1 _]. case_bool_decide; cbn; done.
Qed.

Lemma hooks_attached evs c : is_Some (c_uc c) -> is_Some (c_uc (foldl hook c evs)).
Proof.
  revert c; induction evs as [|ev evs IH]; intros c Hc; cbn; [done|]. apply IH.
  destruct ev as [a|t a ip]; cbn.
  - unfold code_hook. by case_match.
  - unfold mem_hook, record_fault, unimplemented. destruct t; repeat case_match; done.
Qed.

Lemma emulate_attached m u eip n m' err : emulate m u eip n = (m', err) -> is_Some (c_uc (m_cpu m')).
Proof.
  unfold emulate. destruct (uc_emu_start _ _ _ _ _) as [[[u' r'] evs] er]. intros [= <- _].
  by apply hooks_attached.
Qed.

Lemma round_verdict e max m eip r :
  is_Some (c_uc (m_cpu m)) -> round e max m eip = Ok r -> verdict r.
Proof.
  intros Hu. unfold round. destruct (c_uc (m_cpu m)) as [u|]; [|by destruct Hu].
  destruct (max <=? _); [intros [= <-]; by apply record_faulted|].
  destruct (emulate m u eip _) as [m1 err] eqn:Ee. apply after_emu_verdict. by eapply emulate_attached.
Qed.

Lemma run_loop_verdict es fuel max m eip r :
  is_Some (c_uc (m_cpu m)) -> run_loop es fuel max m eip = Some (Ok r) -> verdict r.
Proof.
  revert m eip; induction fuel as [|fuel IH]; intros m eip Hu; cbn [run_loop]; [done|].
  destruct (round (es fuel) max m eip) as [r0| |] eqn:E; [|done..].
  pose proof (round_verdict _ _ _ _ _ Hu E) as Hv.
  destruct r0 as [b m'|eip' m'|f p m'|m']; try (by intros [= <-]). apply IH. apply Hv.
Qed.

(** ** The instruction budget *)

Definition machine_of (r : round_out) : machine :=
  match r with RDone _ m | RAgain _ m | RSwitched _ _ m | REnded m => m end.

Lemma served_machine o h : c_instr (m_cpu (machine_of (served_call o h))) = c_instr (m_cpu (hle_machine h)).
Proof. destruct h; cbn; [|done..]. by case_bool_decide. Qed.

Lemma after_emu_instr e m err r :
  is_Some (c_uc (m_cpu m)) -> after_emu e m err = Ok r ->
  c_instr (m_cpu (machine_of r)) = c_instr (m_cpu m) /\
  (forall eip' m', r = RAgain eip' m' -> f_kind (c_fault (m_cpu m)) = KNone /\ err = UC_ERR_OK).
Proof.
  intros Hu. unfold after_emu. case_bool_decide as Hf; cbn [negb]; [|by intros [= <-]].
  destruct (Z.eqb_spec err UC_ERR_OK); cbn [negb]; [|by intros [= <-]].
  destruct (_ =? kExitVa); [by intros [= <-]|].
  destruct (negb _); [|intros [= <-]; unfold record_fault; by case_bool_decide].
  set (m0 := set_cpu m _). destruct (handle_hle_call e m0 _) as [h| |] eqn:E; cbn [obind]; [|done..].
  intros [= <-]. rewrite served_machine. destruct (handle_hle_keeps e m0 _ _ Hu E) as [_ ->]. done.
Qed.

Lemma mem_hook_faults c t a eip : faulted (mem_hook c t a eip).
Proof.
  unfold mem_hook. destruct t; try (by apply record_faulted).
  case_match; [done|by apply record_faulted].
Qed.

Lemma hooks_instr evs c :
  0 <= c_instr c -> c_instr c + zlen (executed evs) < 2 ^ 64 ->
  c_instr (foldl hook c evs) = c_instr c + zlen (executed evs).
Proof.
  revert c; induction evs as [|ev evs IH]; intros c H0 Hb; cbn [foldl]; [cbn; lia|].
  unfold executed in *. cbn [List.filter] in *. fold (executed evs) in *. destruct ev as [a|t a ip]; cbn [stops hook] in *.
  - unfold code_hook. destruct (in_marker (u32 a)); cbn [negb length] in *.
    + rewrite IH; cbn; lia.
    + rewrite IH; cbn [with_run c_instr]; rewrite ?u64_small by lia; lia.
  - cbn [negb] in *. assert (E : c_instr (mem_hook c t a ip) = c_instr c).
    { unfold mem_hook, record_fault, unimplemented. destruct t; repeat case_match; done. }
    rewrite IH; rewrite E; lia.
Qed.

Context `{laws : !RunLaws eng}.

Lemma emulate_instr m u eip max m' err :
  0 <= c_instr (m_cpu m) < max -> max < 2 ^ 64 -> emulate m u eip (max - c_instr (m_cpu m)) = (m', err) ->
  c_instr (m_cpu m) <= c_instr (m_cpu m') <= max /\
  (in_marker (u32 eip) = false -> f_kind (c_fault (m_cpu m')) = KNone -> err = UC_ERR_OK ->
   c_instr (m_cpu m) < c_instr (m_cpu m')).
Proof.
  intros H0 Hm. unfold emulate. destruct (uc_emu_start _ _ _ _ _) as [[[u' r'] evs] er] eqn:E.
  intros [= <- <-]. pose proof (emu_budget _ _ _ _ _ _ _ _ _ E ltac:(lia)) as Hb. cbn [m_cpu].
  rewrite hooks_instr; [|cbn; lia..]. cbn [with_uc c_instr]. split; [lia|]. intros Hk Hf He.
  assert (Hne : eip <> kExitVa) by (intros ->; by vm_compute in Hk).
  destruct (emu_first _ _ _ _ _ _ _ _ _ E ltac:(lia) Hne) as [[_ ?]|[(t & a & ip & ->)|[rest ->]]]; [done| |].
  - exfalso. revert Hf. apply mem_hook_faults.
  - unfold executed. cbn [List.filter stops]. rewrite Hk. cbn [negb length]. lia.
Qed.

Lemma round_instr e max m eip r :
  is_Some (c_uc (m_cpu m)) -> 0 <= c_instr (m_cpu m) <= max -> max < 2 ^ 64 ->
  round e max m eip = Ok r ->
  c_instr (m_cpu m) <= c_instr (m_cpu (machine_of r)) <= max /\
  (forall eip' m', r = RAgain eip' m' -> in_marker (u32 eip) = false ->
     c_instr (m_cpu m) < c_instr (m_cpu m')).
Proof.
  intros Hu H0 Hm. unfold round. destruct (c_uc (m_cpu m)) as [u|] eqn:Eu; [|by destruct Hu].
  destruct (Z.leb_spec max (c_instr (m_cpu m))).
  { intros [= <-]. cbn. unfold record_fault. case_bool_decide; cbn; split; (lia || done). }
  destruct (emulate m u eip _) as [m1 err] eqn:Ee. intros Ea.
  destruct (emulate_instr m u eip max m1 err) as [Hb Hs]; [lia|done|done|].
  assert (Hu1 : is_Some (c_uc (m_cpu m1))) by (by eapply emulate_attached).
  destruct (after_emu_instr e m1 err r Hu1 Ea) as [Hi Hc]. rewrite Hi. split; [done|].
  intros eip' m' -> Hk. destruct (Hc _ _ eq_refl) as [Hf He]. cbn in Hi. rewrite Hi. by apply Hs.
Qed.

Lemma run_loop_budget es fuel max m eip r :
  is_Some (c_uc (m_cpu m)) -> 0 <= c_instr (m_cpu m) <= max -> max < 2 ^ 64 ->
  run_loop es fuel max m eip = Some (Ok r) -> c_instr (m_cpu (machine_of r)) <= max.
Proof.
  intros Hu H0 Hm. revert m eip Hu H0; induction fuel as [|fuel IH]; intros m eip Hu H0; cbn [run_loop]; [done|].
  destruct (round (es fuel) max m eip) as [r0| |] eqn:E; [|done..].
  destruct (round_instr _ _ _ _ _ Hu H0 Hm E) as [Hb _]. pose proof (round_verdict _ _ _ _ _ Hu E) as Hv.
  destruct r0 as [b m'|eip' m'|f p m'|m']; try (intros [= <-]; lia).
  apply IH; [apply Hv|cbn in Hb; lia].
Qed.

(** *** The record of the imports *)

(** The import the guest called in one run of the engine, from what the engine
    reported: no memory fault, no error, not at the exit address, and the last
    marker the guest jumped to, as its offset in the region. *)
Definition marker_of (o : Z) (e : hook_event) : Z :=
  match e with
  | OnCode a => if bool_decide (kHleMarker <= a `mod` 2 ^ 32 < kHleMarker + 0x10000) then a `mod` 2 ^ 32 - kHleMarker else o
  | OnMem _ _ _ => o
  end.
Definition is_mem (e : hook_event) : bool := match e with OnMem _ _ _ => true | OnCode _ => false end.
Definition import_called (u' : uc) (evs : list hook_event) (err : Z) : list Z :=
  if existsb is_mem evs || negb (err =? UC_ERR_OK) || (uc_reg_read u' EIP =? kExitVa) then []
  else let o := foldl marker_of 0 evs in if o =? 0 then [] else [o].

(** The imports called in a run of the loop, in order. *)
Fixpoint imports_called (es : nat -> KrnlState.env) (fuel : nat) (max : Z) (m : machine) (eip : Z) : list Z :=
  match fuel, c_uc (m_cpu m) with
  | S fuel', Some u =>
      if max <=? c_instr (m_cpu m) then []
      else let '(u', _, evs, err) := uc_emu_start u (rt_ram (m_rt m)) eip kExitVa (max - c_instr (m_cpu m)) in
           import_called u' evs err ++
           match round (es fuel') max m eip with
           | Ok (RAgain eip' m') => imports_called es fuel' max m' eip'
           | _ => []
           end
  | _, _ => []
  end.

(** The region the code hook masks out is the 64 KiB from the marker on. *)
Lemma marker_region a :
  is_u32 a ->
  in_marker a = bool_decide (kHleMarker <= a < kHleMarker + 0x10000) /\
  (in_marker a = true -> Z.land a 0xFFFF = a - kHleMarker).
Proof.
  intros Ha. unfold in_marker, kPage, kHleMarker. change (0x1000 * 16 - 1) with (Z.ones 16).
  change 0xFFFF with (Z.ones 16). rewrite Z.land_ones by lia.
  rewrite <- Z.ldiff_land, Z.ldiff_ones_r, Z.shiftr_div_pow2, Z.shiftl_mul_pow2 by lia.
  pose proof (Z.div_mod a (2 ^ 16)). pose proof (Z.mod_pos_bound a (2 ^ 16)). unfold is_u32 in Ha.
  split; [|intros Heq%Z.eqb_eq; lia]. apply eq_true_iff_eq. rewrite Z.eqb_eq, bool_decide_eq_true. lia.
Qed.

Lemma code_hook_marker c a : c_ordinal (code_hook c a) = marker_of (c_ordinal c) (OnCode a).
Proof.
  unfold code_hook, marker_of. fold (u32 a). destruct (marker_region (u32 a)) as [H1 H2]; [apply u32_range|].
  rewrite <- H1. destruct (in_marker (u32 a)); [|done]. cbn. by apply H2.
Qed.

Lemma code_hook_keeps c a : c_fault (code_hook c a) = c_fault c /\ c_served (code_hook c a) = c_served c.
Proof. unfold code_hook. by destruct (in_marker (u32 a)). Qed.

Lemma hooks_pending evs c :
  c_served (foldl hook c evs) = c_served c /\ c_ordinal (foldl hook c evs) = foldl marker_of (c_ordinal c) evs /\
  (f_kind (c_fault c) = KNone -> f_kind (c_fault (foldl hook c evs)) = KNone <-> existsb is_mem evs = false).
Proof.
  assert (Hkeep : forall c' evs', faulted c' -> faulted (foldl hook c' evs')).
  { intros c' evs'. revert c'. induction evs' as [|e l IH]; intros c' Hf; cbn; [done|]. apply IH.
    destruct e as [a|t a ip]; cbn; [|apply mem_hook_faults].
    unfold faulted. by rewrite (proj1 (code_hook_keeps c' a)). }
  revert c; induction evs as [|e evs IH]; intros c; cbn [foldl existsb]; [done|].
  destruct (IH (hook c e)) as (-> & -> & H3). destruct e as [a|t a ip]; cbn [hook is_mem orb].
  - rewrite code_hook_marker. destruct (code_hook_keeps c a) as [Hf ->]. split_and!; [done|done|].
    intros Hc. apply H3. cbn [hook]. by rewrite Hf.
  - split_and!; [unfold mem_hook, record_fault, unimplemented; repeat case_match; done|
      f_equal; unfold mem_hook, record_fault, unimplemented; repeat case_match; done|].
    intros _. split; [|done]. intros Hn. exfalso. exact (Hkeep _ evs (mem_hook_faults c t a ip) Hn).
Qed.

(** Between rounds nothing is pending and nothing has failed. *)
Definition quiet (c : cpu) : Prop := c_ordinal c = 0 /\ f_kind (c_fault c) = KNone.

Lemma handle_hle_same e m o h :
  handle_hle_call e m o = Ok h ->
  c_served (m_cpu (hle_machine h)) = c_served (m_cpu m) /\ c_ordinal (m_cpu (hle_machine h)) = c_ordinal (m_cpu m).
Proof.
  unfold handle_hle_call. destruct (find_export o) as [x|]; [|by intros [= <-]].
  destruct (bool_decide _); [by intros [= <-]|]. destruct (marshal _ _ _) as [args bytes].
  destruct (kernel_op _ _) as [[out m1]| |] eqn:E; cbn [obind]; [|done..]. intros [= <-].
  pose proof (kernel_op_same _ _ _ _ E) as (_ & S2 & _ & _ & _ & S6).
  destruct out as [eax ok edx|p|]; cbn [hle_result hle_machine]; [|done..].
  unfold hle_return. by repeat case_match.
Qed.

(** One round records the import it called, unless the call switched away or
    ended the thread. *)
Lemma round_served e max m u eip r :
  c_uc (m_cpu m) = Some u -> quiet (m_cpu m) -> c_instr (m_cpu m) < max -> round e max m eip = Ok r ->
  let '(u', _, evs, err) := uc_emu_start u (rt_ram (m_rt m)) eip kExitVa (max - c_instr (m_cpu m)) in
  match r with
  | RDone _ m' => c_served (m_cpu m') = c_served (m_cpu m) ++ import_called u' evs err
  | RAgain _ m' => c_served (m_cpu m') = c_served (m_cpu m) ++ import_called u' evs err /\ quiet (m_cpu m')
  | _ => True
  end.
Proof.
  intros Hu [Ho Hf] Hi. unfold round. rewrite Hu, (proj2 (Z.leb_gt _ _)) by lia. unfold emulate.
  destruct (uc_emu_start _ _ _ _ _) as [[[u' r'] evs] err].
  set (c := with_uc (m_cpu m) (Some u')). destruct (hooks_pending evs c) as (H1 & H2 & H3).
  specialize (H3 Hf). assert (Hr : reg (foldl hook c evs) EIP = uc_reg_read u' EIP).
  { unfold reg. assert (c_uc (foldl hook c evs) = Some u') as ->; [|done].
    assert (Hk : forall c', c_uc c' = Some u' -> c_uc (foldl hook c' evs) = Some u'); [|by apply Hk].
    clear. induction evs as [|ev evs IH]; intros c' Hc; cbn; [done|]. apply IH.
    destruct ev; cbn; unfold code_hook, mem_hook, record_fault, unimplemented; repeat case_match; done. }
  change (c_ordinal c) with (c_ordinal (m_cpu m)) in H2. rewrite Ho in H2.
  change (c_served c) with (c_served (m_cpu m)) in H1.
  unfold after_emu, import_called. cbn [m_cpu]. rewrite Hr, H2.
  set (o := foldl marker_of 0 evs). case_bool_decide as Hn; cbn [negb].
  2: { destruct (existsb is_mem evs) eqn:Em; [|by destruct Hn; apply H3]. intros [= <-]. cbn. by rewrite app_nil_r. }
  rewrite (proj1 H3 Hn). cbn [orb]. destruct (negb (err =? UC_ERR_OK)); cbn [orb].
  { intros [= <-]. cbn. by rewrite app_nil_r. }
  destruct (_ =? kExitVa). { intros [= <-]. cbn. by rewrite app_nil_r. }
  destruct (o =? 0); cbn [negb].
  { intros [= <-]. cbn. rewrite app_nil_r. unfold record_fault. by case_bool_decide. }
  set (m0 := set_cpu _ _). destruct (handle_hle_call e m0 o) as [h| |] eqn:E; cbn [obind]; [|done..].
  intros [= <-]. destruct (handle_hle_same _ _ _ _ E) as [Hs Hq]. destruct h as [m'| |]; cbn in Hs, Hq |- *; [|done..].
  case_bool_decide; cbn; rewrite Hs, H1; [|done]. split; [done|]. split; [done|]. done.
Qed.

Lemma run_loop_served es fuel max m u eip b m' :
  c_uc (m_cpu m) = Some u -> quiet (m_cpu m) ->
  run_loop es fuel max m eip = Some (Ok (RDone b m')) ->
  c_served (m_cpu m') = c_served (m_cpu m) ++ imports_called es fuel max m eip.
Proof.
  revert m u eip. induction fuel as [|fuel IH]; intros m u eip Hu Hq; cbn [run_loop imports_called]; [done|].
  rewrite Hu. destruct (Z.leb_spec max (c_instr (m_cpu m))) as [Hl|Hl].
  { unfold round. rewrite Hu, (proj2 (Z.leb_le _ _)) by lia. intros [= <- <-]. cbn. rewrite app_nil_r.
    unfold record_fault. by case_bool_decide. }
  destruct (round (es fuel) max m eip) as [r| |] eqn:E; [|done..].
  pose proof (round_served _ _ _ _ _ _ Hu Hq Hl E) as Hr. pose proof (round_verdict _ _ _ _ _ (mk_is_Some _ _ Hu) E) as Hv.
  destruct (uc_emu_start _ _ _ _ _) as [[[u' r'] evs] err]. destruct r as [b0 m1|eip1 m1|f p m1|m1].
  - intros [= <- <-]. by rewrite app_nil_r.
  - destruct Hr as [Hs Hq1], Hv as [_ [u1 Hu1]]. intros Hrun. by rewrite (IH m1 u1 eip1 Hu1 Hq1 Hrun), Hs, app_assoc.
  - done.
  - done.
Qed.

(** Rounds that led to a further round, whatever the environment answered. *)
Inductive rounds (max : Z) (m : machine) (eip : Z) : machine -> Z -> Prop :=
  | rounds_refl : rounds max m eip m eip
  | rounds_step e m1 eip1 m2 eip2 :
      rounds max m eip m1 eip1 -> round e max m1 eip1 = Ok (RAgain eip2 m2) -> rounds max m eip m2 eip2.

Lemma run_loop_total es fuel max m0 eip0 m eip :
  rounds max m0 eip0 m eip -> (forall m' eip', rounds max m0 eip0 m' eip' -> in_marker (u32 eip') = false) ->
  is_Some (c_uc (m_cpu m)) -> 0 <= c_instr (m_cpu m) <= max -> max < 2 ^ 64 ->
  max - c_instr (m_cpu m) < Z.of_nat fuel -> is_Some (run_loop es fuel max m eip).
Proof.
  intros Hr Hall Hu H0 Hm. revert m eip Hr Hu H0; induction fuel as [|fuel IH];
    intros m eip Hr Hu H0 Hf; cbn [run_loop]; [lia|].
  destruct (round (es fuel) max m eip) as [r0| |] eqn:E; [|by eexists..].
  destruct (round_instr _ _ _ _ _ Hu H0 Hm E) as [Hb Hs]. pose proof (round_verdict _ _ _ _ _ Hu E) as Hv.
  destruct r0 as [b m'|eip' m'|f p m'|m']; try by eexists.
  specialize (Hs eip' m' eq_refl (Hall _ _ Hr)). cbn in Hb.
  apply IH; [by eapply rounds_step|apply Hv|lia|lia].
Qed.

(** ** Properties *)

(** C4. A run never fails silently and never overruns: if it returns true the
    guest jumped to the exit address and no fault is recorded, if it returns
    false a fault is recorded; in either case at most the budgeted number of
    guest instructions was executed, and the record of served imports is the
    sequence of imports the guest called, as the engine reported them. *)
Theorem run_reports_every_failure (es : nat -> KrnlState.env) (fuel : nat) (m m' : machine)
    (entry esp max : Z) (b : bool) :
  is_Some (c_uc (m_cpu m)) -> 0 <= max < 2 ^ 64 ->
  run es fuel m entry esp max = Some (Ok (RDone b m')) ->
  c_instr (m_cpu m') <= max /\
  (if b then f_kind (c_fault (m_cpu m')) = KNone /\ reg (m_cpu m') EIP = kExitVa
   else f_kind (c_fault (m_cpu m')) <> KNone) /\
  (forall u, c_uc (m_cpu m) = Some u -> c_served (m_cpu m') = imports_called es fuel max (run_start m u esp) entry).
Proof.
  intros [u Hu] Hm. unfold run. rewrite Hu. intros E. split_and!; cycle 2.
  { intros u0 [= <-]. by apply (run_loop_served es fuel max (run_start m u esp) _ entry b m' eq_refl (conj eq_refl eq_refl)). }
  - apply run_loop_budget in E; [done|by eexists|cbn; lia|lia].
  - apply run_loop_verdict in E; [|by eexists]. cbn in E. by destruct b.
Qed.

(** C18. A run ends: unless a kernel call returns into the region of the kernel
    markers (where no instruction is executed between calls), the loop leaves
    after at most one round per budgeted instruction plus one, by returning, by
    switching fibers, or by the end of the fiber. *)
Theorem run_terminates (es : nat -> KrnlState.env) (m : machine) (u : uc) (entry esp max : Z) :
  c_uc (m_cpu m) = Some u -> 0 <= max < 2 ^ 64 ->
  (forall m' eip', rounds max (run_start m u esp) entry m' eip' -> in_marker (u32 eip') = false) ->
  is_Some (run es (S (Z.to_nat max)) m entry esp max).
Proof.
  intros Hu Hm Hall. unfold run. rewrite Hu.
  apply (run_loop_total es _ max (run_start m u esp) entry); try done; try (cbn; lia).
  - apply rounds_refl.
Qed.

End proofs.

(** ** Calling convention *)

Section convention.
Context `{os : HostOS} `{eng : Unicorn} `{laws : !UnicornLaws eng}.

(** The mirror keeps the registers. *)
Definition same_regs (c c' : cpu) : Prop := forall r, reg c' r = reg c r.

Lemma observe_regs m e : same_regs (m_cpu m) (m_cpu (observe_machine m e)).
Proof.
  destruct e as [[[freed va] size] ro]. intros r. unfold observe_machine. cbn [m_cpu]. destruct freed.
  - unfold unmap_range, reg. destruct (c_uc (m_cpu m)) as [u|] eqn:Eu; [|cbn; by rewrite Eu].
    destruct (uc_mem_unmap _ _ _) eqn:E; cbn; [|by rewrite Eu]. by eapply uc_unmap_reg.
  - unfold map_on, map_range, reg. destruct (c_uc (m_cpu m)) as [u|] eqn:Eu; [|by rewrite Eu].
    destruct (existsb _ _); [by rewrite Eu|]. destruct (host_ptr _ _); [|by rewrite Eu].
    destruct (uc_mem_map_ptr _ _ _ _ _) eqn:E; [|by rewrite Eu]. cbn. by eapply uc_map_reg.
Qed.

Lemma observe_all_regs evs m : same_regs (m_cpu m) (m_cpu (foldl observe_machine m evs)).
Proof.
  revert m; induction evs as [|e evs IH]; intros m r; cbn [foldl]; [done|].
  rewrite (IH (observe_machine m e) r). apply observe_regs.
Qed.

Lemma observe_all_ram evs m : rt_ram (m_rt (foldl observe_machine m evs)) = rt_ram (m_rt m).
Proof.
  revert m; induction evs as [|[[[freed va] size] ro] evs IH]; intros m; cbn [foldl]; [done|].
  rewrite IH. cbn. by destruct freed.
Qed.

(** What a stdcall caller leaves on the stack: the return address, then the
    arguments in order. *)
Definition call_stack (r : ram) (esp ret : Z) (args : list Z) : Prop :=
  read32 r esp = Some ret /\
  forall i a, args !! i = Some a -> read32 r (u32 (esp + 4 + 4 * Z.of_nat i)) = Some a.

Lemma stack_args_words r esp args :
  (forall i a, args !! i = Some a -> read32 r (u32 (esp + 4 + 4 * Z.of_nat i)) = Some a) ->
  stack_args r esp (zlen args) = args.
Proof.
  intros H. unfold stack_args. apply list_eq. intros i. rewrite list_lookup_fmap.
  destruct (args !! i) as [a|] eqn:Ea.
  - rewrite (lookup_seqZ_lt 0 (zlen args) i) by (apply lookup_lt_Some in Ea; lia). cbn.
    unfold stack_arg. rewrite ?Z.add_0_l. by rewrite (H i a Ea).
  - rewrite lookup_seqZ_ge; [done|]. apply lookup_ge_None in Ea. lia.
Qed.

(** C10. A kernel import called with the stdcall convention, that the kernel
    serves without a switch and without overwriting the return address on the
    stack, gets the caller's arguments in order and returns to the caller: the
    instruction pointer is the return address, the stack pointer is where it was
    before the caller pushed the arguments, EAX holds the result, EDX the high
    half for the imports that return 64 bits, and no other register changes. *)
Theorem stdcall_returns_to_caller (e : KrnlState.env) (m : machine) (x : Export)
    (ordinal ret eax : Z) (edx : option Z) (args : list Z) (k' : KrnlState.kernel) :
  is_Some (c_uc (m_cpu m)) -> find_export ordinal = Some x -> x_conv x = Stdcall ->
  4 * zlen args = x_arg_bytes x -> zlen args <= 14 ->
  call_stack (rt_ram (m_rt m)) (reg (m_cpu m) ESP) ret args ->
  KrnlCall.call e ordinal args (rt_k (m_rt m)) = Ok (KrnlCall.Ret eax true edx, k') ->
  read32 (KrnlState.k_ram k') (reg (m_cpu m) ESP) = Some ret ->
  exists m', handle_hle_call e m ordinal = Ok (HDone m') /\
    reg (m_cpu m') EIP = ret /\ c_ret (m_cpu m') = ret /\
    reg (m_cpu m') ESP = u32 (reg (m_cpu m) ESP + 4 + 4 * zlen args) /\
    reg (m_cpu m') EAX = eax /\
    (returns_64 ordinal = true -> reg (m_cpu m') EDX = default 0 edx) /\
    (forall r, r <> EIP -> r <> ESP -> r <> EAX -> (r = EDX -> returns_64 ordinal = false) ->
       reg (m_cpu m') r = reg (m_cpu m) r) /\
    c_fault (m_cpu m') = c_fault (m_cpu m).
Proof.
  intros Hu Hx Hc Hn H14 Hs Hk Hret. unfold handle_hle_call. rewrite Hx, bool_decide_false by (by rewrite Hc).
  unfold marshal. rewrite Hc.
  replace (Z.min (x_arg_bytes x `div` 4) 14) with (zlen args)
    by (rewrite <- Hn, Z.mul_comm, Z.div_mul by lia; lia).
  rewrite stack_args_words by apply Hs. unfold kernel_op. rewrite Hk. cbn [obind hle_result].
  set (m0 := MkM (m_cpu m) (with_kernel (m_rt m) k')). set (evs := new_events _ _).
  pose proof (observe_all_same evs m0) as (S1 & _ & _ & S4 & _). specialize (S1 Hu).
  pose proof (observe_all_regs evs m0) as Hr. pose proof (observe_all_ram evs m0) as Hram.
  set (m1 := foldl observe_machine m0 evs) in *. eexists. split; [reflexivity|].
  unfold hle_return. cbn [negb fr_ordinal fr_esp fr_bytes]. destruct S1 as [u1 Hu1]. rewrite Hu1, Hram.
  change (rt_ram (m_rt m0)) with (KrnlState.k_ram k'). rewrite Hret.
  assert (Hreg : forall r, uc_reg_read u1 r = reg (m_cpu m) r).
  { intros r. specialize (Hr r). unfold reg in Hr at 1. by rewrite Hu1 in Hr. }
  split_and!; try (unfold reg at 1; cbn; rewrite ?uc_read_write; cbn; rewrite <- ?Hn; done).
  - unfold reg at 1; cbn. destruct (returns_64 ordinal); by rewrite !uc_read_write.
  - intros E64. unfold reg at 1; cbn. by rewrite E64, !uc_read_write.
  - intros r H1 H2 H3 H4. unfold reg at 1; cbn. destruct (returns_64 ordinal); rewrite !uc_read_write;
      rewrite ?(decide_False (P := r = EIP)), ?(decide_False (P := r = ESP)), ?(decide_False (P := r = EAX)) by done;
      [|apply Hreg]. rewrite decide_False; [apply Hreg|]. by intros ?%H4.
Qed.

(** ** Arguments of the implemented imports *)

Definition arg_count (x : Export) : Z :=
  match x_conv x with
  | Stdcall => Z.min (x_arg_bytes x `div` 4) 14
  | Fastcall =>
      let regs := if 4 <? x_arg_bytes x then 2 else 1 in
      let bytes := if 8 <? x_arg_bytes x then x_arg_bytes x - 8 else 0 in
      regs + Z.min ((bytes + 3) `div` 4) (14 - regs)
  | Cdecl => 13
  | Data => 0
  end.

Lemma length_marshal r c x : 0 <= x_arg_bytes x -> zlen (fst (marshal r c x)) = arg_count x.
Proof.
  intros H0. unfold marshal, arg_count, stack_args. destruct (x_conv x); cbn [fst].
  - rewrite length_fmap, length_seqZ. pose proof (Z.div_pos (x_arg_bytes x) 4). lia.
  - rewrite length_app, length_fmap, length_seqZ. destruct (Z.ltb_spec 8 (x_arg_bytes x)).
    + pose proof (Z.div_pos (x_arg_bytes x - 8 + 3) 4). destruct (4 <? _); cbn [length]; lia.
    + change ((0 + 3) `div` 4) with 0. destruct (4 <? _); cbn [length]; lia.
  - by rewrite length_fmap, length_seqZ.
  - done.
Qed.

(** The number of arguments a handler insists on does not depend on them. *)
Lemma handler_need e o args n body :
  KrnlCall.handler e o args = Some (n, body) -> exists body', KrnlCall.handler e o [] = Some (n, body').
Proof. unfold KrnlCall.handler. repeat case_match; intros [= <- <-]; by eexists. Qed.

Definition enough (e : KrnlState.env) (o : Z) : bool :=
  match find_export o, KrnlCall.handler e o [] with
  | Some x, Some (n, _) =>
      (0 <=? x_arg_bytes x) && (Z.of_nat n <=? arg_count x) && (x_arg_bytes x <=? 56) &&
      negb (bool_decide (x_conv x = Data))
  | _, _ => false
  end.

Lemma all_enough e : forallb (enough e) function_ordinals = true.
Proof. vm_compute. reflexivity. Qed.

(** Every implemented import can be served from guest code: it is in the
    export table as a function, its handler exists, the arguments marshalled
    for its convention are at least those the handler insists on, and they fit
    the fourteen-entry argument array, whatever the CPU and memory hold. *)
Theorem imports_get_their_arguments (e : KrnlState.env) (o : Z) (r : ram) (c : cpu) :
  implemented_function o = true ->
  exists x n body, find_export o = Some x /\ x_conv x <> Data /\
    KrnlCall.handler e o (fst (marshal r c x)) = Some (n, body) /\
    (n <= length (fst (marshal r c x)) <= 14)%nat.
Proof.
  unfold implemented_function. intros Ho%bool_decide_eq_true.
  pose proof (forallb_elem _ _ _ (all_enough e) Ho) as H. unfold enough in H.
  destruct (find_export o) as [x|]; [|done].
  destruct (KrnlCall.handler e o []) as [[n b]|] eqn:Eh; [|done]. bool_facts.
  match goal with H : bool_decide _ = false |- _ => apply bool_decide_eq_false in H end.
  destruct (KrnlCall.handler e o (fst (marshal r c x))) as [[n' b']|] eqn:Eh'.
  - destruct (handler_need _ _ _ _ _ Eh') as [b'' E]. rewrite Eh in E. injection E as <- _.
    exists x, n, b'. pose proof (length_marshal r c x) as Hl. split_and!; try done; [lia|].
    assert (arg_count x <= 14); [|lia]. unfold arg_count. destruct (x_conv x); repeat case_match; lia.
  - exfalso. revert Eh Eh'. unfold KrnlCall.handler. repeat case_match; done.
Qed.

End convention.

(** ** Concrete runs *)

(** An instruction set for one guest: at 0x11000 it calls import 5, anywhere
    else it jumps to the exit address. *)
Definition one_call_emu (u : model_uc) (m : ram) (start until n : Z)
    : model_uc * ram * list hook_event * Z :=
  let at_eip v := MkUc (d_page u) (fun r' => if decide (r' = EIP) then v else d_reg u r') in
  if start =? 0x11000
  then (at_eip (kHleMarker + 5), m, [OnCode 0x11000; OnCode (kHleMarker + 5)], 0)
  else (at_eip until, m, [OnCode start], 0).

#[local] Instance call_engine : Unicorn := model_engine one_call_emu.
#[local] Instance call_engine_laws : UnicornLaws call_engine := model_laws one_call_emu.
#[local] Instance call_run_laws : RunLaws call_engine.
Proof.
  split; cbn; unfold one_call_emu; intros u m start until n u' r' evs err.
  - destruct (Z.eqb_spec start 0x11000); intros [= <- <- <- <-] Hn.
    + change (zlen (executed _)) with 1. lia.
    + unfold executed. cbn. case_match; cbn; lia.
  - destruct (Z.eqb_spec start 0x11000) as [->|]; intros [= <- <- <- <-] _ _; right; right; by eexists.
Qed.

(** Guest RAM with the return address 0x12000 on the stack at 8000. *)
Definition stack_ram : ram := write32_ demo_ram 8000 0x12000.
Definition call_kernel : KrnlState.kernel :=
  KrnlState.MkKernel stack_ram CpuSched.new_sched ∅ [] [] [] [] 1 0 (KrnlMm.MkMm 0 0 [] []) false [] [] true.
Definition call_machine : machine :=
  MkM (with_uc new_cpu (Some (MkUc (fun _ => None) (fun _ => 0))))
      (MkRt call_kernel [] 0 0 0xF000 []).
Definition call_uc : model_uc := MkUc (fun _ => None) (fun _ => 0).
Definition any_env : KrnlState.env := KrnlState.MkEnv 0 0 0 0 true.

Definition round_eip (o : outcome round_out) : Z :=
  match o with Ok (RAgain eip _) => eip | _ => 0x12000 end.

Lemma call_rounds m' eip' :
  rounds 100 (run_start call_machine call_uc 8000) 0x11000 m' eip' ->
  (m' = run_start call_machine call_uc 8000 /\ eip' = 0x11000) \/ eip' = 0x12000.
Proof.
  induction 1 as [|e m1 eip1 m2 eip2 _ [[-> ->]|Hm] Hr]; [by left| |]; right.
  - change eip2 with (round_eip (Ok (RAgain eip2 m2))). rewrite <- Hr. vm_compute. reflexivity.
  - exfalso. subst eip1. revert Hr. unfold round. destruct (c_uc (m_cpu m1)) as [u|]; [|done].
    destruct (_ <=? _); [done|]. cbn. unfold after_emu. destruct (negb _); [done|]. cbn.
    unfold reg. cbn. done.
Qed.

Lemma run_terminates_witness :
  is_Some (run (fun _ => any_env) 101 call_machine 0x11000 8000 100).
Proof.
  apply (run_terminates (fun _ => any_env) call_machine call_uc 0x11000 8000 100); [reflexivity|lia|].
  intros m' eip' [[_ ->]| ->]%call_rounds; vm_compute; reflexivity.
Defined.

(** The run of that guest: exit after two instructions and one served import. *)
Definition call_result : machine :=
  match run (fun _ => any_env) 3 call_machine 0x11000 8000 100 with
  | Some (Ok (RDone true m)) => m | _ => call_machine end.

Lemma call_result_ok : run (fun _ => any_env) 3 call_machine 0x11000 8000 100 = Some (Ok (RDone true call_result)).
Proof.
  assert (E : match run (fun _ => any_env) 3 call_machine 0x11000 8000 100 with
              | Some (Ok (RDone true _)) => true | _ => false end = true) by (vm_compute; reflexivity).
  unfold call_result. destruct (run _ _ _ _ _ _) as [[[[] m|? ?|? ? ?|?]| |]|]; done.
Qed.

Lemma run_reports_every_failure_witness :
  c_served (m_cpu call_result) = [5] /\ c_instr (m_cpu call_result) <= 100 /\
  f_kind (c_fault (m_cpu call_result)) = KNone.
Proof.
  destruct (run_reports_every_failure (fun _ => any_env) 3 call_machine call_result 0x11000 8000 100 true)
    as (H1 & [H2 _] & H3); [by eexists|lia|exact call_result_ok|]. split; [|split; [exact H1|exact H2]].
  rewrite (H3 call_uc eq_refl). vm_compute. reflexivity.
Defined.

Lemma imports_get_their_arguments_witness :
  exists x n body, find_export 235 = Some x /\ x_conv x <> Data /\
    KrnlCall.handler any_env 235 (fst (marshal stack_ram new_cpu x)) = Some (n, body) /\
    (n <= length (fst (marshal stack_ram new_cpu x)) <= 14)%nat.
Proof. apply (imports_get_their_arguments any_env 235 stack_ram new_cpu). vm_compute. reflexivity. Defined.

(** The return of import 5 from the stack at 8000. *)
Definition stopped_machine : machine := run_start call_machine call_uc 8000.

Lemma stdcall_returns_to_caller_witness :
  exists m', handle_hle_call any_env stopped_machine 5 = Ok (HDone m') /\
    reg (m_cpu m') EIP = 0x12000 /\ reg (m_cpu m') ESP = 8004 /\ reg (m_cpu m') EBX = reg (m_cpu stopped_machine) EBX.
Proof.
  set (k' := match KrnlCall.call any_env 5 [] call_kernel with Ok (_, k) => k | _ => call_kernel end).
  destruct (stdcall_returns_to_caller any_env stopped_machine (MkExport 5 "DbgBreakPoint" Stdcall 0)
              5 0x12000 0 None [] k') as (m' & H1 & H2 & _ & H3 & _ & _ & H4 & _).
  - by eexists.
  - vm_compute. reflexivity.
  - reflexivity.
  - reflexivity.
  - vm_compute. discriminate.
  - split; [vm_compute; reflexivity|]. intros i a Hi. by rewrite lookup_nil in Hi.
  - vm_compute. reflexivity.
  - vm_compute. reflexivity.
  - exists m'. split; [exact H1|]. split; [exact H2|]. split; [exact H3|]. apply H4; discriminate.
Defined.

(** A call of the bare marker is ordinal 0: it is taken for an exhausted budget. *)
Example marker_zero_is_not_an_import :
  c_ordinal (code_hook new_cpu kHleMarker) = 0 /\ in_marker kHleMarker = true.
Proof. split; vm_compute; reflexivity. Qed.

End GuestCpu.
