(* ===== verification/XboxAudio.v ===== *)
(** The audio queue ([class XboxAudio], src/xbox_audio.cpp): PCM buffers
    submitted by the title and consumed frame by frame by the mixer, with
    capacity limits and underrun accounting. *)
From stdpp Require Import base numbers list strings.
From Stdlib Require Import ZArith Lia SpecFloat.
From S2P Require Import Prelude Float32.
Open Scope Z_scope.

Module XboxAudio.
Import Float32.

Definition kSampleRate : Z := 48000.
Definition kChannels : Z := 2.
Definition kMaxQueuedBuffers : Z := 16.
Definition kMaxQueuedFrames : Z := 96000.

Record audio := MkAudio {
  au_buffers : list (list Z);
  au_offset : Z;               (* front_offset_frames_ *)
  au_volume : f32;
  au_played : Z;
  au_underrun : Z;
  au_submitted : Z;
}.

Definition new_audio : audio := MkAudio [] 0 fone 0 0 0.
Definition reset (a : audio) : audio := new_audio.

Definition frames_of (b : list Z) : Z := zlen b `div` kChannels.

(** Frames of a queue whose front buffer has [off] frames consumed already. *)
Fixpoint sum_frames (l : list (list Z)) (off : Z) : Z :=
  match l with
  | [] => 0
  | b :: l' => u64 (u64 (frames_of b - off) + sum_frames l' 0)
  end.
Definition queued_frames (a : audio) : Z := sum_frames (au_buffers a) (au_offset a).
Definition queued_buffers (a : audio) : Z := zlen (au_buffers a).

(** [pcm] is [None] when null, else the samples that follow the pointer; the
    range constructor of the new buffer reads [frames * kChannels] of them. *)
Definition submit_pcm (a : audio) (pcm : option (list Z)) (frames : Z) : outcome (bool * audio) :=
  match pcm with
  | None => Ok (false, a)
  | Some samples =>
      if frames =? 0 then Ok (false, a)
      else if kMaxQueuedBuffers <=? queued_buffers a then Ok (false, a)
      else if kMaxQueuedFrames <? u64 (queued_frames a + frames) then Ok (false, a)
      else let n := u64 (frames * kChannels) in
           if zlen samples <? n then Ub "pointer past the submitted samples"
           else Ok (true, MkAudio (au_buffers a ++ [take (Z.to_nat n) samples]) (au_offset a)
                            (au_volume a) (au_played a) (au_underrun a) (u64 (au_submitted a + 1)))
  end.

Definition submit_vector (a : audio) (v : list Z) : outcome (bool * audio) :=
  if (zlen v =? 0) || negb (zlen v `mod` kChannels =? 0) then Ok (false, a)
  else submit_pcm a (Some v) (zlen v `div` kChannels).

(** The loop of [consume_frames]: buffers, offset, frames still wanted, frames
    got and frames played. A pass that does not use up the front buffer has
    served the request ([take = want]), so the loop ends after it. *)
Fixpoint consume_loop (l : list (list Z)) (off want got played : Z)
    : list (list Z) * Z * Z * Z * Z :=
  match l with
  | [] => (l, off, want, got, played)
  | b :: l' =>
      if want =? 0 then (l, off, want, got, played)
      else
        let front := u64 (frames_of b - off) in
        let take := if want <? front then want else front in
        let off := u64 (off + take) in
        let want := want - take in
        let got := u64 (got + take) in
        let played := u64 (played + take) in
        if off =? frames_of b then consume_loop l' 0 want got played
        else (l, off, want, got, played)
  end.

Definition consume_frames (a : audio) (frames : Z) : Z * audio :=
  let '(l, off, want, got, played) :=
    consume_loop (au_buffers a) (au_offset a) frames 0 (au_played a) in
  (got, MkAudio l off (au_volume a) played (u64 (au_underrun a + want)) (au_submitted a)).

Definition set_volume (a : audio) (v : f32) : audio :=
  let v := if flt v fzero then fzero else v in
  let v := if flt fone v then fone else v in
  MkAudio (au_buffers a) (au_offset a) v (au_played a) (au_underrun a) (au_submitted a).

(** ** The sine generator *)

Definition kTwoPi : f32 := lit 13176795 (-21).
Definition kFullScale : f32 := lit 32767 0.

(** [static_cast<int16_t>(x)]. *)
Definition to_int16 (x : f32) : outcome Z :=
  let! v := to_int x in
  if (- 2 ^ 15 <=? v) && (v <? 2 ^ 15) then Ok v else Ub "float to int conversion".

Section sine.
Context (sinf : f32 -> f32).

Fixpoint sine_loop (n : nat) (step amp phase : f32) (out : list Z) : outcome (list Z * f32) :=
  match n with
  | O => Ok (out, phase)
  | S n' =>
      let! v := to_int16 (fmul (fmul (sinf phase) amp) kFullScale) in
      let phase := fadd phase step in
      let phase := if fge phase kTwoPi then fsub phase kTwoPi else phase in
      sine_loop n' step amp phase (out ++ [v; v])
  end.

Definition render_sine (freq : f32) (frames : nat) (phase amp : f32) : outcome (list Z * f32) :=
  let amp := if flt amp fzero then fzero else amp in
  let amp := if flt fone amp then fone else amp in
  let step := fdiv (fmul kTwoPi freq) (lit 48000 0) in
  sine_loop frames step amp phase [].

End sine.

(** ** The stream the queue stands for *)

(** Samples submitted and not yet played, in order. *)
Definition stream (a : audio) : list Z :=
  drop (Z.to_nat (kChannels * au_offset a)) (concat (au_buffers a)).

(** A buffer of the queue: whole frames, at least one and at most the cap. *)
Definition whole (b : list Z) : Prop :=
  0 < frames_of b <= kMaxQueuedFrames /\ zlen b = kChannels * frames_of b.

Definition offset_in (l : list (list Z)) (off : Z) : Prop :=
  match l with [] => off = 0 | b :: _ => 0 <= off < frames_of b end.

Record audio_ok (a : audio) : Prop := {
  ok_whole : Forall whole (au_buffers a);
  ok_offset : offset_in (au_buffers a) (au_offset a);
  ok_frames : zlen (stream a) <= kChannels * kMaxQueuedFrames;
  ok_count : zlen (au_buffers a) <= kMaxQueuedBuffers;
  ok_played : 0 <= au_played a < 2 ^ 64;
  ok_volume : flt (au_volume a) fzero = false /\ flt fone (au_volume a) = false;
}.

Inductive audio_op :=
  | Submit (v : list Z)
  | Consume (frames : Z)
  | Volume (v : f32)
  | Reset.

Definition run_op (a : audio) (o : audio_op) : outcome audio :=
  match o with
  | Submit v => let! r := submit_vector a v in Ok (snd r)
  | Consume n => Ok (snd (consume_frames a n))
  | Volume v => Ok (set_volume a v)
  | Reset => Ok (reset a)
  end.

(** States the title and the mixer can bring the queue to. Sizes are those a
    64-bit host has: a vector holds less than 2^63 samples. *)
Inductive audio_reachable : audio -> Prop :=
  | audio_start : audio_reachable new_audio
  | audio_step a o a' :
      audio_reachable a ->
      match o with Submit v => zlen v < 2 ^ 63 | Consume n => 0 <= n < 2 ^ 64 | _ => True end ->
      run_op a o = Ok a' -> audio_reachable a'.

(** ** Lemmas *)

Lemma offset_zero l : Forall whole l -> offset_in l 0.
Proof. destruct 1 as [|? ? [? ?]]; cbn; [done|lia]. Qed.

Lemma concat_bounds l off :
  Forall whole l -> offset_in l off ->
  0 <= off <= kMaxQueuedFrames /\ 2 * off <= zlen (concat l) <= 192000 * zlen l.
Proof.
  intros H. revert off; induction H as [|b l [H1 H2] Hl IH]; intros off Ho; cbn [offset_in concat] in *.
  { subst. unfold kMaxQueuedFrames. cbn. lia. }
  unfold kChannels, kMaxQueuedFrames in *. rewrite length_app. cbn [length].
  destruct (IH 0 (offset_zero _ Hl)). lia.
Qed.

(** The remaining frames of a queue: what [queued_frames] computes at 64 bits. *)
Lemma sum_frames_exact l off :
  Forall whole l -> offset_in l off -> zlen (concat l) < 2 ^ 64 ->
  2 * sum_frames l off = zlen (concat l) - 2 * off /\ 0 <= sum_frames l off < 2 ^ 64.
Proof.
  intros H. revert off; induction H as [|b l [H1 H2] Hl IH]; intros off Ho Hn;
    cbn [sum_frames offset_in concat] in *.
  { cbn in *. lia. }
  unfold kChannels in H2. rewrite length_app in *.
  destruct (IH 0 (offset_zero _ Hl)) as [E B]; [lia|].
  rewrite (u64_small (frames_of b - off)) by lia.
  rewrite u64_small by lia. lia.
Qed.

Lemma queued_exact a :
  audio_ok a -> kChannels * queued_frames a = zlen (stream a) /\ 0 <= queued_frames a <= kMaxQueuedFrames.
Proof.
  intros [H1 H2 H3 H4 _ _]. unfold stream in *. rewrite length_drop in *.
  destruct (concat_bounds _ _ H1 H2). unfold kChannels, kMaxQueuedFrames, kMaxQueuedBuffers in *.
  destruct (sum_frames_exact (au_buffers a) (au_offset a)); [done|done|lia|]; unfold queued_frames; lia.
Qed.

(** A submitted vector goes to the end of the stream, or nothing changes. *)
Definition accepts (a : audio) (v : list Z) : bool :=
  (0 <? zlen v) && (zlen v `mod` 2 =? 0) && (queued_buffers a <? kMaxQueuedBuffers) &&
  (zlen (stream a) + zlen v <=? kChannels * kMaxQueuedFrames).

Definition enqueue (a : audio) (v : list Z) : audio :=
  MkAudio (au_buffers a ++ [v]) (au_offset a) (au_volume a) (au_played a) (au_underrun a)
          (u64 (au_submitted a + 1)).

Lemma submit_exact a v :
  audio_ok a -> zlen v < 2 ^ 63 ->
  submit_vector a v = Ok (if accepts a v then (true, enqueue a v) else (false, a)).
Proof.
  intros Hok Hv. destruct (queued_exact a Hok) as [Eq Bq]. unfold submit_vector, submit_pcm, accepts.
  unfold kChannels, kMaxQueuedFrames in *. rewrite <- Eq.
  pose proof (Z.div_mod (zlen v) 2 ltac:(lia)) as Hd. pose proof (Z.mod_pos_bound (zlen v) 2 ltac:(lia)).
  destruct (Z.eqb_spec (zlen v) 0) as [E0|N0]; cbn [orb].
  { by rewrite E0. }
  destruct (Z.eqb_spec (zlen v `mod` 2) 0) as [E2|N2]; cbn [negb]; [|by rewrite andb_false_r].
  replace (0 <? zlen v) with true by (symmetry; lia). cbn [andb].
  replace (zlen v `div` 2 =? 0) with false by (symmetry; lia).
  rewrite Z.leb_antisym. destruct (queued_buffers a <? kMaxQueuedBuffers); cbn [negb andb]; [|done].
  rewrite (u64_small (queued_frames a + _)) by lia. rewrite Z.ltb_antisym.
  replace (queued_frames a + zlen v `div` 2 <=? 96000) with (2 * queued_frames a + zlen v <=? 2 * 96000) by lia.
  destruct (_ <=? _) eqn:E; cbn [negb]; [|done]. bool_facts.
  rewrite u64_small by lia. replace (zlen v <? zlen v `div` 2 * 2) with false by (symmetry; lia).
  unfold enqueue. by rewrite take_ge by lia.
Qed.

Lemma stream_enqueue a v : audio_ok a -> stream (enqueue a v) = stream a ++ v.
Proof.
  intros [H1 H2 _ _ _ _]. destruct (concat_bounds _ _ H1 H2) as [? ?]. unfold stream, enqueue, kChannels. cbn [au_buffers au_offset].
  rewrite concat_app. cbn [concat]. rewrite app_nil_r, drop_app_le by lia. done.
Qed.

Lemma enqueue_ok a v : audio_ok a -> accepts a v = true -> audio_ok (enqueue a v).
Proof.
  intros Hok Ha. pose proof (stream_enqueue a v Hok) as Es. unfold accepts in Ha. bool_facts.
  pose proof (Z.div_mod (zlen v) 2 ltac:(lia)) as Hd.
  assert (Hw : whole v).
  { unfold whole, frames_of, kChannels, kMaxQueuedFrames in *. lia. }
  destruct Hok as [O1 O2 O3 O4 O5 O6]. split; [..|done|done].
  - cbn [enqueue au_buffers]. apply Forall_app. split; [done|by constructor].
  - cbn [enqueue au_buffers au_offset]. destruct (au_buffers a); cbn [app offset_in] in *; [|done].
    destruct Hw. rewrite O2. lia.
  - rewrite Es, length_app. lia.
  - cbn [enqueue au_buffers]. rewrite length_app. cbn [length]. unfold queued_buffers in *. lia.
Qed.

(** The mixer's loop takes the front of the stream. *)
Lemma consume_loop_exact l off want got played :
  Forall whole l -> offset_in l off -> zlen (concat l) < 2 ^ 63 ->
  0 <= want < 2 ^ 64 -> 0 <= got < 2 ^ 64 -> 0 <= played < 2 ^ 64 ->
  exists l' off' n,
    consume_loop l off want got played = (l', off', want - n, u64 (got + n), u64 (played + n)) /\
    n = Z.min want (zlen (drop (Z.to_nat (2 * off)) (concat l)) `div` 2) /\
    Forall whole l' /\ offset_in l' off' /\ (length l' <= length l)%nat /\
    drop (Z.to_nat (2 * off')) (concat l') = drop (Z.to_nat (2 * n)) (drop (Z.to_nat (2 * off)) (concat l)).
Proof.
  intros Hl. revert off want got played.
  induction Hl as [|b l [Hb1 Hb2] Hl IH]; intros off want got played Ho Hc Hw Hg Hp; cbn [consume_loop].
  { exists [], off, 0. cbn in Ho. subst off. rewrite !Z.add_0_r, !u64_small, Z.sub_0_r by lia.
    split_and!; try done. change (0 = Z.min want 0). lia. }
  cbn [offset_in concat] in *. unfold kChannels, kMaxQueuedFrames in *. rewrite length_app in Hc.
  destruct (Z.eqb_spec want 0) as [->|Nw].
  { exists (b :: l), off, 0. rewrite !Z.add_0_r, !u64_small by lia. split_and!; try done; [|by constructor].
    rewrite Z.min_l; [done|]. apply Z.div_pos; lia. }
  rewrite (u64_small (frames_of b - off)) by lia.
  destruct (concat_bounds l 0 Hl (offset_zero l Hl)) as [_ Hcl].
  destruct (Z.ltb_spec want (frames_of b - off)) as [Hlt|Hge].
  - rewrite (u64_small (off + want)) by lia.
    replace (off + want =? frames_of b) with false by (symmetry; lia).
    exists (b :: l), (off + want), want. split; [done|]. split.
    { rewrite length_drop, length_app. symmetry. apply Z.min_l. apply Z.div_le_lower_bound; lia. }
    split_and!; [by constructor|cbn; lia|done|]. rewrite drop_drop. f_equal. lia.
  - rewrite (u64_small (off + _)) by lia. replace (off + _ =? frames_of b) with true by (symmetry; lia).
    destruct (IH 0 (want - (frames_of b - off)) (u64 (got + (frames_of b - off)))
                (u64 (played + (frames_of b - off))))
      as (l' & off' & n & E & -> & W & O & L & D); try lia.
    { by apply offset_zero. }
    { unfold u64. pose proof (Z.mod_pos_bound (got + (frames_of b - off)) (2 ^ 64)). lia. }
    { unfold u64. pose proof (Z.mod_pos_bound (played + (frames_of b - off)) (2 ^ 64)). lia. }
    set (n := Z.min _ _) in *. exists l', off', (frames_of b - off + n). rewrite E. cbn in *.
    split; [|split; [|split_and!; [done|done|lia|]]].
    + f_equal; [f_equal; [f_equal; lia|]|]; unfold u64; rewrite Zplus_mod_idemp_l; f_equal; lia.
    + unfold n. rewrite !length_drop, length_app. cbn.
      replace (Z.of_nat (length b + length (concat l) - Z.to_nat (2 * off)))
        with (zlen (concat l) + (frames_of b - off) * 2) by lia.
      rewrite Z.div_add by lia. rewrite Nat.sub_0_r. lia.
    + assert (0 <= n) by (unfold n; apply Z.min_glb; [lia|apply Z.div_pos; lia]). rewrite D, !drop_drop, drop_app_ge by lia. f_equal. lia.
Qed.

Lemma consume_exact a frames :
  audio_ok a -> 0 <= frames < 2 ^ 64 ->
  exists a', consume_frames a frames = (Z.min frames (queued_frames a), a') /\ audio_ok a' /\
    stream a' = drop (Z.to_nat (kChannels * Z.min frames (queued_frames a))) (stream a) /\
    au_played a' = u64 (au_played a + Z.min frames (queued_frames a)) /\
    au_underrun a' = u64 (au_underrun a + (frames - Z.min frames (queued_frames a))).
Proof.
  intros Hok Hf. destruct (queued_exact a Hok) as [Eq Bq]. destruct Hok as [H1 H2 H3 H4 H5 H6].
  destruct (concat_bounds _ _ H1 H2) as [_ Hc]. unfold kMaxQueuedBuffers in H4.
  destruct (consume_loop_exact (au_buffers a) (au_offset a) frames 0 (au_played a))
    as (l & off & n & E & En & W & O & L & D); try done; try lia.
  assert (Hn : n = Z.min frames (queued_frames a)).
  { subst n. f_equal. unfold kChannels in Eq. fold (stream a). unfold stream, kChannels in Eq |- *.
    rewrite <- Eq, Z.mul_comm. apply Z.div_mul. lia. }
  unfold consume_frames. rewrite E, <- Hn. rewrite Z.add_0_l, u64_small by (unfold kMaxQueuedFrames in *; lia).
  eexists. split; [done|]. assert (Es : drop (Z.to_nat (2 * off)) (concat l)
                                        = drop (Z.to_nat (kChannels * n)) (stream a)) by exact D.
  split; [split; cbn|split; [exact Es|done]]; try done.
  - unfold stream. cbn. unfold kChannels at 1. rewrite Es, length_drop. unfold kChannels in *. lia.
  - unfold kMaxQueuedBuffers. lia.
  - apply Z.mod_pos_bound. lia.
Qed.

Lemma set_volume_clamps a v :
  flt (au_volume (set_volume a v)) fzero = false /\ flt fone (au_volume (set_volume a v)) = false.
Proof.
  unfold set_volume. cbn [au_volume]. destruct (flt v fzero) eqn:E1; [by vm_compute|].
  destruct (flt fone v) eqn:E2; [by vm_compute|done].
Qed.

Lemma new_audio_ok : audio_ok new_audio.
Proof. split; cbn; try done. Qed.

Lemma audio_reachable_ok a : audio_reachable a -> audio_ok a.
Proof.
  induction 1 as [|a [v|n|v|] a' _ IH Ho Hr]; cbn [run_op] in *.
  - exact new_audio_ok.
  - rewrite submit_exact in Hr by done. destruct (accepts a v) eqn:E; injection Hr as <-; [|done].
    by apply enqueue_ok.
  - destruct (consume_exact a n IH Ho) as (a1 & E & Hok & _). rewrite E in Hr. by injection Hr as <-.
  - injection Hr as <-. destruct IH as [H1 H2 H3 H4 H5 _]. split; try done. apply set_volume_clamps.
  - injection Hr as <-. exact new_audio_ok.
Qed.

(** C30. The audio queue is a bounded first-in first-out stream of samples. In
    every reachable state it holds at most sixteen buffers and 96000 frames and
    the volume lies in [0, 1]; a submission is accepted exactly when it is
    non-empty, made of whole frames and within both caps, and then goes to the
    end of the stream unchanged; a consume request takes the oldest frames, as
    many as are queued and no more, and counts the shortfall as underrun. *)
Theorem audio_queue_is_fifo (a : audio) :
  audio_reachable a ->
  (queued_buffers a <= kMaxQueuedBuffers /\ queued_frames a <= kMaxQueuedFrames /\
   kChannels * queued_frames a = zlen (stream a) /\
   flt (au_volume a) fzero = false /\ flt fone (au_volume a) = false) /\
  (forall v, zlen v < 2 ^ 63 ->
     exists a', submit_vector a v = Ok (accepts a v, a') /\
       stream a' = stream a ++ (if accepts a v then v else [])) /\
  (forall frames, 0 <= frames < 2 ^ 64 ->
     let n := Z.min frames (queued_frames a) in
     exists a', consume_frames a frames = (n, a') /\
       stream a' = drop (Z.to_nat (kChannels * n)) (stream a) /\
       au_played a' = u64 (au_played a + n) /\ au_underrun a' = u64 (au_underrun a + (frames - n))).
Proof.
  intros Hok%audio_reachable_ok. destruct (queued_exact a Hok) as [Eq Bq]. split; [|split].
  - destruct Hok as [_ _ _ H4 _ [H6 H7]]. destruct Bq. by split_and!.
  - intros v Hv. rewrite submit_exact by done. destruct (accepts a v); eexists; split; try done.
    + by apply stream_enqueue.
    + by rewrite app_nil_r.
  - intros frames Hf. destruct (consume_exact a frames Hok Hf) as (a' & E & _ & H). by exists a'.
Qed.

(** Two buffers of two frames, three frames played. *)
Definition demo_audio : audio :=
  MkAudio [[5; 6; 7; 8]] 1 fone 3 0 2.

Lemma demo_audio_reachable : audio_reachable demo_audio.
Proof.
  apply (audio_step (MkAudio [[1; 2; 3; 4]; [5; 6; 7; 8]] 0 fone 0 0 2) (Consume 3)); [|lia|by vm_compute].
  apply (audio_step (MkAudio [[1; 2; 3; 4]] 0 fone 0 0 1) (Submit [5; 6; 7; 8])); [|by cbn|by vm_compute].
  apply (audio_step new_audio (Submit [1; 2; 3; 4])); [constructor|by cbn|by vm_compute].
Defined.

Lemma audio_queue_is_fifo_witness :
  exists a', consume_frames demo_audio 4 = (1, a') /\ stream a' = [] /\
    au_played a' = 4 /\ au_underrun a' = 3.
Proof.
  destruct (audio_queue_is_fifo demo_audio demo_audio_reachable) as (_ & _ & H).
  destruct (H 4) as (a' & H1 & H2 & H3 & H4); [lia|]. by exists a'.
Defined.

(** The pointer overload adds the frame count at 64 bits before it compares it
    with the cap: with one frame queued, a request for 2^64 - 1 frames passes
    the check and [pcm + frames * kChannels] points far outside the samples. *)
Example raw_submit_size_wraps :
  submit_pcm demo_audio (Some [1; 2]) (2 ^ 64 - 1) = Ub "pointer past the submitted samples".
Proof. vm_compute. reflexivity. Qed.

End XboxAudio.
