(* ===== verification/XboxInput.v ===== *)
(** The game pads ([class XboxInput], src/xbox_input.cpp): four users, the raw
    state the host injects, the state with dead zones applied that the title
    reads, and rumble. *)
From stdpp Require Import base numbers list strings.
From Stdlib Require Import ZArith Lia.
From S2P Require Import Prelude.
Open Scope Z_scope.

Module XboxInput.

Definition kXboxDeadzoneLeft : Z := 7849.
Definition kXboxDeadzoneRight : Z := 8689.
Definition kXboxTriggerThreshold : Z := 30.
Definition kMaxUsers : Z := 4.

Record XboxGamepad := MkPad {
  buttons : Z; left_trigger : Z; right_trigger : Z;
  thumb_lx : Z; thumb_ly : Z; thumb_rx : Z; thumb_ry : Z;
  packet : Z;
}.
Definition no_pad : XboxGamepad := MkPad 0 0 0 0 0 0 0 0.

Record XboxRumble := MkRumble { left_motor : Z; right_motor : Z }.
Definition no_rumble : XboxRumble := MkRumble 0 0.

Record input := MkInput {
  in_connected : list bool;
  in_state : list XboxGamepad;
  in_rumble : list XboxRumble;
}.
Definition new_input : input :=
  MkInput [true; false; false; false] (replicate 4 no_pad) (replicate 4 no_rumble).

(** [int] arithmetic: a result outside the type is undefined. *)
Definition int_of (x : Z) : outcome Z :=
  if (- 2 ^ 31 <=? x) && (x <? 2 ^ 31) then Ok x else Ub "int overflow".
Definition int_div (x y : Z) : outcome Z :=
  if y =? 0 then Ub "division by zero" else int_of (Z.quot x y).

Definition apply_deadzone (v deadzone : Z) : outcome Z :=
  let! mag := (if v <? 0 then int_of (- v) else Ok v) in
  if mag <? deadzone then Ok 0
  else
    let! d := int_of (mag - deadzone) in
    let! num := int_of (d * 32767) in
    let! den := int_of (32767 - deadzone) in
    let! scaled := int_div num den in
    let! out := (if v <? 0 then int_of (- scaled) else Ok scaled) in
    if 32767 <? out then Ok 32767
    else if out <? - 32768 then Ok (- 32768)
    else Ok out.

Definition trigger_pressed (v : Z) : bool := kXboxTriggerThreshold <? v.

Definition pressed_edge (prev cur : Z) : Z := u16 (Z.land cur (Z.lnot prev)).

Definition user_of (user : Z) : nat := Z.to_nat user.
Definition conn (i : input) (user : Z) : bool := default false (in_connected i !! user_of user).
Definition pad (i : input) (user : Z) : XboxGamepad := default no_pad (in_state i !! user_of user).
Definition motors (i : input) (user : Z) : XboxRumble := default no_rumble (in_rumble i !! user_of user).

Definition connected (i : input) (user : Z) : bool :=
  if kMaxUsers <=? user then false else conn i user.

Definition set_connected (i : input) (user : Z) (on : bool) : bool * input :=
  if kMaxUsers <=? user then (false, i)
  else
    let c := <[user_of user := on]> (in_connected i) in
    if on then (true, MkInput c (in_state i) (in_rumble i))
    else (true, MkInput c (<[user_of user := no_pad]> (in_state i))
                        (<[user_of user := no_rumble]> (in_rumble i))).

Definition changed (cur raw : XboxGamepad) : bool :=
  negb (buttons cur =? buttons raw) || negb (left_trigger cur =? left_trigger raw) ||
  negb (right_trigger cur =? right_trigger raw) || negb (thumb_lx cur =? thumb_lx raw) ||
  negb (thumb_ly cur =? thumb_ly raw) || negb (thumb_rx cur =? thumb_rx raw) ||
  negb (thumb_ry cur =? thumb_ry raw).

Definition with_packet (p : XboxGamepad) (n : Z) : XboxGamepad :=
  MkPad (buttons p) (left_trigger p) (right_trigger p)
        (thumb_lx p) (thumb_ly p) (thumb_rx p) (thumb_ry p) n.

Definition set_state (i : input) (user : Z) (raw : XboxGamepad) : bool * input :=
  if (kMaxUsers <=? user) || negb (conn i user) then (false, i)
  else
    let cur := pad i user in
    let keep := packet cur in
    let cur' := with_packet raw (if changed cur raw then u32 (keep + 1) else keep) in
    (true, MkInput (in_connected i) (<[user_of user := cur']> (in_state i)) (in_rumble i)).

(** The processed state, or [None] when the call returns false. *)
Definition get_state (i : input) (user : Z) : outcome (option XboxGamepad) :=
  if (kMaxUsers <=? user) || negb (conn i user) then Ok None
  else
    let p := pad i user in
    let! lx := apply_deadzone (thumb_lx p) kXboxDeadzoneLeft in
    let! ly := apply_deadzone (thumb_ly p) kXboxDeadzoneLeft in
    let! rx := apply_deadzone (thumb_rx p) kXboxDeadzoneRight in
    let! ry := apply_deadzone (thumb_ry p) kXboxDeadzoneRight in
    Ok (Some (MkPad (buttons p) (left_trigger p) (right_trigger p) lx ly rx ry (packet p))).

Definition set_rumble (i : input) (user : Z) (r : XboxRumble) : bool * input :=
  if (kMaxUsers <=? user) || negb (conn i user) then (false, i)
  else (true, MkInput (in_connected i) (in_state i) (<[user_of user := r]> (in_rumble i))).

Definition get_rumble (i : input) (user : Z) : option XboxRumble :=
  if (kMaxUsers <=? user) || negb (conn i user) then None else Some (motors i user).

Definition connected_count (i : input) : Z :=
  foldl (fun n (b : bool) => if b then u32 (n + 1) else n) 0 (conn i <$> seqZ 0 kMaxUsers).

(** ** The dead zone *)

Definition is_i16 (v : Z) : Prop := - 32768 <= v <= 32767.

(** The value on the exact rescaling of the remaining range. *)
Definition rescaled (mag deadzone : Z) : Z := ((mag - deadzone) * 32767) `div` (32767 - deadzone).

Definition deadzone_spec (v deadzone : Z) : Z :=
  if Z.abs v <? deadzone then 0
  else if v <? 0 then - Z.min 32768 (rescaled (- v) deadzone)
  else rescaled v deadzone.

Lemma rescaled_bound mag deadzone :
  0 <= deadzone < 32767 -> deadzone <= mag <= 32768 ->
  0 <= rescaled mag deadzone <= 32767 * 32768 /\ (mag <= 32767 -> rescaled mag deadzone <= 32767).
Proof.
  intros Hd Hm. unfold rescaled. split_and!.
  - apply Z.div_pos; nia.
  - apply Z.div_le_upper_bound; nia.
  - intros. apply Z.div_le_upper_bound; nia.
Qed.

Lemma int_of_ok x : - 2 ^ 31 <= x < 2 ^ 31 -> int_of x = Ok x.
Proof. intros. unfold int_of. destruct (Z.leb_spec (- 2 ^ 31) x), (Z.ltb_spec x (2 ^ 31)); done || lia. Qed.

Lemma deadzone_exact v deadzone :
  is_i16 v -> 0 <= deadzone < 32767 -> apply_deadzone v deadzone = Ok (deadzone_spec v deadzone).
Proof.
  intros Hv Hd. unfold is_i16 in Hv. unfold apply_deadzone, deadzone_spec.
  set (mag := Z.abs v).
  replace (if v <? 0 then int_of (- v) else Ok v) with (Ok mag)
    by (unfold mag; destruct (Z.ltb_spec v 0); [rewrite int_of_ok by lia|]; f_equal; lia).
  cbn [obind]. destruct (Z.ltb_spec mag deadzone) as [|Hge]; [done|].
  rewrite int_of_ok by lia. cbn [obind]. rewrite int_of_ok by nia. cbn [obind].
  rewrite int_of_ok by lia. cbn [obind].
  destruct (rescaled_bound mag deadzone Hd ltac:(lia)) as [Hb Hb'].
  unfold int_div. replace (32767 - deadzone =? 0) with false by (symmetry; lia).
  rewrite Z.quot_div_nonneg by nia. fold (rescaled mag deadzone).
  rewrite int_of_ok by lia. cbn [obind].
  destruct (Z.ltb_spec v 0).
  - rewrite int_of_ok by lia. cbn [obind]. replace (- v) with mag by lia.
    destruct (Z.ltb_spec 32767 (- rescaled mag deadzone)); [lia|].
    destruct (Z.ltb_spec (- rescaled mag deadzone) (- 32768)); f_equal; lia.
  - cbn [obind]. replace v with mag by lia. specialize (Hb' ltac:(lia)).
    destruct (Z.ltb_spec 32767 (rescaled mag deadzone)); [lia|].
    destruct (Z.ltb_spec (rescaled mag deadzone) (- 32768)); [lia|done].
Qed.

Lemma rescaled_mono m n deadzone :
  0 <= deadzone < 32767 -> deadzone <= m <= n -> rescaled m deadzone <= rescaled n deadzone.
Proof. intros. unfold rescaled. apply Z.div_le_mono; nia. Qed.

Lemma deadzone_mono v w deadzone :
  0 <= deadzone < 32767 -> is_i16 v -> is_i16 w -> v <= w -> deadzone_spec v deadzone <= deadzone_spec w deadzone.
Proof.
  unfold is_i16, deadzone_spec. intros Hd Hv Hw Hle.
  assert (Hp : forall m, deadzone <= m <= 32768 -> 0 <= rescaled m deadzone)
    by (intros; by apply rescaled_bound).
  destruct (Z.ltb_spec (Z.abs v) deadzone), (Z.ltb_spec (Z.abs w) deadzone),
    (Z.ltb_spec v 0), (Z.ltb_spec w 0); try lia;
    repeat match goal with
    | |- context [rescaled ?m deadzone] =>
        lazymatch goal with H : 0 <= rescaled m deadzone |- _ => fail | _ => pose proof (Hp m ltac:(lia)) end
    end; try lia.
  - pose proof (rescaled_mono (- w) (- v) deadzone Hd ltac:(lia)). lia.
  - apply rescaled_mono; lia.
Qed.

(** The dead zone is a total monotone rescaling of the stick range: for
    every 16-bit value and every dead zone below full scale the [int]
    arithmetic does not overflow, the result is a 16-bit value, values inside
    the zone and on its edge give 0, full scale stays full scale, a larger
    deflection never reads smaller, and opposite deflections read opposite. *)
Theorem deadzone_rescales (v w deadzone : Z) :
  is_i16 v -> is_i16 w -> 0 <= deadzone < 32767 ->
  exists x y, apply_deadzone v deadzone = Ok x /\ apply_deadzone w deadzone = Ok y /\
    is_i16 x /\ (v <= w -> x <= y) /\ (Z.abs v <= deadzone -> x = 0) /\
    (v = 32767 -> x = 32767) /\ (v = - 32768 -> x = - 32768) /\ (w = - v -> y = - x).
Proof.
  intros Hv Hw Hd. exists (deadzone_spec v deadzone), (deadzone_spec w deadzone).
  rewrite !deadzone_exact by done. pose proof (deadzone_mono v w deadzone Hd Hv Hw) as Hm.
  assert (He : rescaled deadzone deadzone = 0) by (unfold rescaled; rewrite Z.sub_diag; by apply Z.div_0_l; lia).
  assert (Hf : rescaled 32767 deadzone = 32767) by (unfold rescaled; rewrite Z.mul_comm; apply Z.div_mul; lia).
  assert (Hg : 32768 <= rescaled 32768 deadzone) by (unfold rescaled; apply Z.div_le_lower_bound; lia).
  unfold is_i16, deadzone_spec in *.
  pose proof (rescaled_bound (Z.abs v) deadzone Hd) as Hb.
  split_and!; try done.
  - destruct (Z.ltb_spec (Z.abs v) deadzone); [lia|]. specialize (Hb ltac:(lia)).
    destruct (Z.ltb_spec v 0); [replace (- v) with (Z.abs v) by lia; lia|]. replace v with (Z.abs v) by lia. lia.
  - destruct (Z.ltb_spec (Z.abs v) deadzone); [lia|]. specialize (Hb ltac:(lia)).
    destruct (Z.ltb_spec v 0); [replace (- v) with (Z.abs v) by lia; lia|]. replace v with (Z.abs v) by lia. lia.
  - intros Ha. destruct (Z.ltb_spec (Z.abs v) deadzone); [done|]. assert (Z.abs v = deadzone) as Ea by lia.
    destruct (Z.ltb_spec v 0); [replace (- v) with deadzone by lia|replace v with deadzone by lia]; lia.
  - intros ->. destruct (Z.ltb_spec (Z.abs 32767) deadzone); [lia|]. cbn. lia.
  - intros ->. destruct (Z.ltb_spec (Z.abs (- 32768)) deadzone); [lia|]. change (- -32768) with 32768.
    change (-32768 <? 0) with true. lia.
  - intros ->. rewrite Z.abs_opp. destruct (Z.ltb_spec (Z.abs v) deadzone); [done|].
    specialize (Hb ltac:(lia)).
    destruct (Z.ltb_spec v 0), (Z.ltb_spec (- v) 0); rewrite ?Z.opp_involutive; try lia.
    { replace (Z.abs v) with (- v) in Hb by lia. lia. }
    { replace (Z.abs v) with v in Hb by lia. lia. }
    replace v with 0 by lia. assert (deadzone = 0) as -> by lia. change (- 0) with 0. lia.
Qed.

(** ** The pads *)

Record pad_ok (p : XboxGamepad) : Prop := {
  pad_lx : is_i16 (thumb_lx p); pad_ly : is_i16 (thumb_ly p);
  pad_rx : is_i16 (thumb_rx p); pad_ry : is_i16 (thumb_ry p);
}.

Record input_ok (i : input) : Prop := {
  four_conn : length (in_connected i) = 4%nat;
  four_state : length (in_state i) = 4%nat;
  four_rumble : length (in_rumble i) = 4%nat;
  pads_ok : Forall pad_ok (in_state i);
}.

Inductive input_op :=
  | OpConnect (user : Z) (on : bool)
  | OpState (user : Z) (raw : XboxGamepad)
  | OpRumble (user : Z) (r : XboxRumble).

Definition run_input (i : input) (o : input_op) : input :=
  match o with
  | OpConnect u on => snd (set_connected i u on)
  | OpState u raw => snd (set_state i u raw)
  | OpRumble u r => snd (set_rumble i u r)
  end.

(** What the host can pass: sticks are 16-bit values. *)
Definition op_ok (o : input_op) : Prop :=
  match o with OpState _ raw => pad_ok raw | _ => True end.

Lemma no_pad_ok : pad_ok no_pad.
Proof. by split. Qed.

Lemma input_ok_step i o : input_ok i -> op_ok o -> input_ok (run_input i o).
Proof.
  intros Hi Ho. pose proof Hi as [H1 H2 H3 H4].
  destruct o as [u [|]|u raw|u r]; cbn [run_input op_ok] in *; unfold set_connected, set_state, set_rumble;
    case_match; cbn [snd]; try done; split; cbn [in_connected in_state in_rumble];
    rewrite ?length_insert; try done; apply Forall_insert; try done.
  by destruct Ho.
Qed.

Lemma input_ok_run i ops : input_ok i -> Forall op_ok ops -> input_ok (foldl run_input i ops).
Proof. intros Hi Ho. revert i Hi. induction Ho; intros i Hi; [done|]. by apply IHHo, input_ok_step. Qed.

Lemma new_input_ok : input_ok new_input.
Proof. split; try done. repeat constructor; done. Qed.

Definition processed (p : XboxGamepad) : XboxGamepad :=
  MkPad (buttons p) (left_trigger p) (right_trigger p)
    (deadzone_spec (thumb_lx p) kXboxDeadzoneLeft) (deadzone_spec (thumb_ly p) kXboxDeadzoneLeft)
    (deadzone_spec (thumb_rx p) kXboxDeadzoneRight) (deadzone_spec (thumb_ry p) kXboxDeadzoneRight)
    (packet p).

Lemma get_state_exact i user :
  input_ok i -> 0 <= user ->
  get_state i user = Ok (if connected i user then Some (processed (pad i user)) else None).
Proof.
  intros [H1 H2 H3 H4] Hu. unfold get_state, connected. destruct (Z.leb_spec kMaxUsers user); cbn [orb]; [done|].
  destruct (conn i user); cbn [negb]; [|done].
  assert (Hp : pad_ok (pad i user)).
  { unfold pad. destruct (in_state i !! user_of user) eqn:E; [|apply no_pad_ok].
    by apply (Forall_lookup_1 _ _ _ _ H4 E). }
  destruct Hp. unfold kXboxDeadzoneLeft, kXboxDeadzoneRight.
  by rewrite !deadzone_exact by (done || lia).
Qed.

Lemma lookup_user {A} (l : list A) (u w : Z) (x : A) :
  0 <= u < 4 -> 0 <= w -> length l = 4%nat ->
  <[user_of u := x]> l !! user_of w = if u =? w then Some x else l !! user_of w.
Proof.
  intros Hu Hw Hl. unfold user_of. destruct (Z.eqb_spec u w) as [->|].
  - apply list_lookup_insert_eq. lia.
  - apply list_lookup_insert_ne. lia.
Qed.

(** After any sequence of host updates, injecting raw state for a user
    succeeds exactly when that user is connected; the title then reads back the
    injected buttons and triggers and the sticks with the dead zones applied,
    with a packet number that moved by one exactly when something other than
    the packet number changed. The pads of the other users do not change, and
    nothing in the reads overflows. *)
Theorem pad_reads_back (ops : list input_op) (user : Z) (raw : XboxGamepad) :
  Forall op_ok ops -> 0 <= user -> pad_ok raw ->
  let i := foldl run_input new_input ops in
  let (ok, i') := set_state i user raw in
  ok = connected i user /\
  get_state i' user = Ok (if ok then Some (processed (with_packet raw
     (let n := packet (pad i user) in if changed (pad i user) raw then u32 (n + 1) else n))) else None) /\
  forall other, 0 <= other -> other <> user ->
    get_state i' other = get_state i other /\ get_rumble i' other = get_rumble i other.
Proof.
  intros Ho Hu Hr i. pose proof (input_ok_run _ _ new_input_ok Ho) as Hi. fold i in Hi.
  pose proof (input_ok_step i (OpState user raw) Hi Hr) as Hi'. cbn [run_input] in Hi'.
  pose proof Hi as [H1 H2 H3 H4].
  destruct (set_state i user raw) as [ok i'] eqn:E. cbn [snd] in Hi'.
  rewrite get_state_exact by done. revert E. unfold set_state, connected.
  destruct (Z.leb_spec kMaxUsers user) as [Hk|Hk]; unfold kMaxUsers in Hk; cbn [orb].
  { intros [= <- <-]. by rewrite ?(proj2 (Z.leb_le 4 user)). }
  destruct (conn i user) eqn:Ec; cbn [negb]; [|intros [= <- <-]].
  2:{ unfold kMaxUsers. rewrite Ec. by destruct (4 <=? user). }
  intros [= <- <-]. split; [done|].
  change (conn (MkInput (in_connected i) _ _) user) with (conn i user). rewrite Ec. split.
  { unfold pad at 1. cbn [in_state]. rewrite lookup_user by (done || lia). by rewrite Z.eqb_refl. }
  intros w Hw Hne. rewrite !get_state_exact by done.
  unfold connected, conn, get_rumble, pad, motors. cbn [in_connected in_state in_rumble].
  rewrite lookup_user by (done || lia). by replace (user =? w) with false by (symmetry; lia).
Qed.

Definition demo_raw : XboxGamepad := MkPad 0x1000 255 0 32767 (-32768) 100 0 77.

Lemma deadzone_rescales_witness :
  exists x y, apply_deadzone 10000 7849 = Ok x /\ apply_deadzone (-10000) 7849 = Ok y /\ y = - x.
Proof.
  destruct (deadzone_rescales 10000 (-10000) 7849) as (x & y & H1 & H2 & _ & _ & _ & _ & _ & H);
    [split; done|split; done|lia|].
  exists x, y. by split_and!; try apply H.
Defined.

Lemma pad_reads_back_witness :
  let i := foldl run_input new_input [OpConnect 2 true; OpState 2 no_pad] in
  let (ok, i') := set_state i 2 demo_raw in
  ok = true /\
  get_state i' 2 = Ok (Some (MkPad 0x1000 255 0 32767 (-32768) 0 0 1)).
Proof.
  pose proof (pad_reads_back [OpConnect 2 true; OpState 2 no_pad] 2 demo_raw) as H.
  cbv zeta in H |- *. destruct (set_state _ 2 demo_raw) as [ok i'].
  destruct H as (E1 & E2 & _); [repeat constructor; done|lia|split; split; done|].
  subst ok. split; [vm_compute; reflexivity|]. rewrite E2. vm_compute. reflexivity.
Defined.

End XboxInput.
