(* ===== verification/XboxDisplay.v ===== *)
(** The display ([class XboxDisplay], src/xbox_display.cpp): the registered
    frame buffer, the snapshot of guest memory each flip takes, and what is
    read from the snapshot (pixels, checksum, PPM image). The memory map is
    shared with the command processor, so it is an argument of the calls that
    read it; the clock and the host file are arguments too. *)
From stdpp Require Import base numbers list gmap strings.
From Stdlib Require Import ZArith Lia.
From S2P Require Import Prelude XbeRam MemMap KrnlPrintf GpuStub.
Open Scope Z_scope.

Module XboxDisplay.
Import MemMap.

Definition kMaxWidth : Z := 1920.
Definition kMaxHeight : Z := 1080.
Definition kBytesPerPixel : Z := 4.

Record display := MkDisplay {
  has_fb : bool;
  fb_gpa : Z;
  fb_w : Z;
  fb_h : Z;
  frame : list Z;
  frames_presented : Z;
  last_present_qpc : Z;
  errors : Z;
}.

Definition new_display : display := MkDisplay false 0 0 0 [] 0 0 0.

Definition fb_bytes (d : display) : Z := u64 (u64 (fb_w d * fb_h d) * kBytesPerPixel).

Section ops.
Context `{os : HostOS}.

Definition set_framebuffer (d : display) (mem : option memmap) (gpa w h : Z) : bool * display :=
  if (w =? 0) || (h =? 0) || (kMaxWidth <? w) || (kMaxHeight <? h) then (false, d)
  else
    let need := u64 (u64 (w * h) * kBytesPerPixel) in
    if negb (need `div` kBytesPerPixel =? u64 (w * h)) then (false, d)
    else if UINT64_MAX <? need then (false, d)
    else match mem with
         | None => (false, d)
         | Some m =>
             if negb (in_range gpa need) then (false, d)
             else if negb (is_readable m gpa need) then (false, d)
             else (true, MkDisplay true gpa w h [] (frames_presented d) (last_present_qpc d) (errors d))
         end.

Definition clear_framebuffer (d : display) : display :=
  MkDisplay false 0 0 0 [] (frames_presented d) (last_present_qpc d) (errors d).

Definition count_error (d : display) : bool * display :=
  (false, MkDisplay (has_fb d) (fb_gpa d) (fb_w d) (fb_h d) (frame d) (frames_presented d)
                    (last_present_qpc d) (u64 (errors d + 1))).

Definition present (d : display) (mem : option memmap) (now : Z) : bool * display :=
  match mem with
  | None => count_error d
  | Some m =>
      if negb (has_fb d) then count_error d
      else
        let need := fb_bytes d in
        if (need =? 0) || negb (is_readable m (fb_gpa d) need) then count_error d
        else match read_bytes m (fb_gpa d) need with
             | None => count_error d
             | Some snap =>
                 (true, MkDisplay (has_fb d) (fb_gpa d) (fb_w d) (fb_h d) snap
                                  (u64 (frames_presented d + 1)) now (errors d))
             end
  end.

Definition on_flip := present.

End ops.

(** [frame_[i]]: outside the vector it is undefined. *)
Definition at_ (l : list Z) (i : Z) : outcome Z :=
  match l !! Z.to_nat i with Some b => Ok b | None => Ub "frame index" end.

Definition pixel_offset (d : display) (x y : Z) : Z := u64 (u64 (u64 (y * fb_w d) + x) * kBytesPerPixel).

Definition pixel (d : display) (x y : Z) : outcome (option Z) :=
  if negb (has_fb d) || (zlen (frame d) =? 0) || (fb_w d <=? x) || (fb_h d <=? y) then Ok None
  else
    let off := pixel_offset d x y in
    if zlen (frame d) <? u64 (off + 4) then Ok None
    else
      let! b0 := at_ (frame d) off in
      let! b1 := at_ (frame d) (off + 1) in
      let! b2 := at_ (frame d) (off + 2) in
      let! b3 := at_ (frame d) (off + 3) in
      Ok (Some (Z.lor (Z.lor (Z.lor b0 (Z.shiftl b1 8)) (Z.shiftl b2 16)) (Z.shiftl b3 24))).

Definition fnv_step (h b : Z) : Z := u64 (Z.lxor h b * 1099511628211).

Definition checksum (d : display) : Z :=
  if zlen (frame d) =? 0 then 0 else foldl fnv_step 1469598103934665603 (frame d).

(** The file after the loop over the pixels: [room] more pixels fit on the
    host's disk, and the first write that does not fit ends it. *)
Fixpoint ppm_loop (d : display) (l : list (Z * Z)) (room : nat) (out : list Z) : outcome (bool * list Z) :=
  match l with
  | [] => Ok (true, out)
  | (x, y) :: l' =>
      let off := pixel_offset d x y in
      let! r := at_ (frame d) off in
      let! g := at_ (frame d) (off + 1) in
      let! b := at_ (frame d) (off + 2) in
      match room with
      | O => Ok (false, out)
      | S room' => ppm_loop d l' room' (out ++ [r; g; b])
      end
  end.

Definition pixels (w h : Z) : list (Z * Z) := y ← seqZ 0 h; x ← seqZ 0 w; [(x, y)].

Definition ppm_header (d : display) : list Z :=
  GpuStub.txt "P6" ++ [10] ++ GpuStub.put 10 (fb_w d) ++ [32] ++ GpuStub.put 10 (fb_h d) ++ [10] ++
  GpuStub.txt "255" ++ [10].

(** The result and the contents of the file, absent when none is opened. *)
Definition save_ppm (d : display) (opens : bool) (room : nat) : outcome (bool * option (list Z)) :=
  if (zlen (frame d) =? 0) || negb (has_fb d) then Ok (false, None)
  else
    let need := u64 (u64 (fb_w d * fb_h d) * kBytesPerPixel) in
    if zlen (frame d) <? need then Ok (false, None)
    else if negb opens then Ok (false, None)
    else
      let! r := ppm_loop d (pixels (fb_w d) (fb_h d)) room (ppm_header d) in
      Ok (fst r, Some (snd r)).

(** ** Reachable displays *)

(** Bytes of the map are bytes. *)
Definition byte_map (m : memmap) : Prop := forall a, is_u8 (mem_byte (m_bytes m) a).

Section laws.
Context `{os : HostOS} `{!HostLaws os}.

Inductive display_reachable : display -> Prop :=
  | dr_new : display_reachable new_display
  | dr_set d mem gpa w h :
      display_reachable d -> 0 <= gpa -> 0 <= w -> 0 <= h ->
      display_reachable (snd (set_framebuffer d mem gpa w h))
  | dr_clear d : display_reachable d -> display_reachable (clear_framebuffer d)
  | dr_present d mem now :
      display_reachable d -> (forall m, mem = Some m -> byte_map m) ->
      display_reachable (snd (present d mem now)).

Record display_ok (d : display) : Prop := {
  ok_w : 0 <= fb_w d <= kMaxWidth;
  ok_h : 0 <= fb_h d <= kMaxHeight;
  ok_gpa : 0 <= fb_gpa d;
  ok_dims : has_fb d = true -> 0 < fb_w d /\ 0 < fb_h d;
  ok_frame : frame d = [] \/ (has_fb d = true /\ zlen (frame d) = 4 * (fb_w d * fb_h d));
  ok_bytes : Forall is_u8 (frame d);
}.

Lemma small_area w h : 0 <= w <= kMaxWidth -> 0 <= h <= kMaxHeight -> 0 <= w * h <= 2073600.
Proof. unfold kMaxWidth, kMaxHeight. nia. Qed.

Lemma area_bytes w h :
  0 <= w <= kMaxWidth -> 0 <= h <= kMaxHeight -> u64 (u64 (w * h) * kBytesPerPixel) = 4 * (w * h).
Proof.
  intros Hw Hh. pose proof (small_area w h Hw Hh). unfold kBytesPerPixel.
  rewrite (u64_small (w * h)) by lia. rewrite u64_small; lia.
Qed.

Lemma mem_read_u8 m a n : byte_map m -> Forall is_u8 (mem_read (m_bytes m) a n).
Proof. intros H. unfold mem_read. apply Forall_forall. intros b (x & -> & _)%list_elem_of_fmap. apply H. Qed.

Lemma set_framebuffer_ok d mem gpa w h :
  display_ok d -> 0 <= gpa -> 0 <= w -> 0 <= h -> display_ok (snd (set_framebuffer d mem gpa w h)).
Proof.
  intros Hd Hg Hw Hh. unfold set_framebuffer. destruct (_ || _) eqn:E; [done|]. bool_facts.
  destruct (negb _); [done|]. destruct (_ <? _); [done|]. destruct mem as [m|]; [|done].
  destruct (negb _); [done|]. destruct (negb _); [done|]. split; cbn [snd has_fb fb_w fb_h fb_gpa frame]; try lia.
  - by left.
  - constructor.
Qed.

(** A successful present, and everything a refused one leaves alone. *)
Lemma present_exact d mem now :
  display_ok d ->
  present d mem now =
  match mem with
  | Some m =>
      let need := 4 * (fb_w d * fb_h d) in
      if has_fb d && is_readable m (fb_gpa d) need
      then (true, MkDisplay true (fb_gpa d) (fb_w d) (fb_h d)
                    (mem_read (m_bytes m) (resolve_alias m (fb_gpa d) need) need)
                    (u64 (frames_presented d + 1)) now (errors d))
      else count_error d
  | None => count_error d
  end.
Proof.
  intros [Hw Hh Hg Hp _ _]. unfold present, fb_bytes. destruct mem as [m|]; [|done].
  rewrite area_bytes by done. cbv zeta. destruct (has_fb d); [|done]. cbn [negb andb].
  specialize (Hp eq_refl). replace (4 * (fb_w d * fb_h d) =? 0) with false by (symmetry; apply Z.eqb_neq; nia).
  cbn [orb]. unfold read_bytes. destruct (is_readable _ _ _); cbn [negb]; [|done].
  replace (4 * (fb_w d * fb_h d) =? 0) with false by (symmetry; apply Z.eqb_neq; nia). done.
Qed.

Lemma count_error_ok d : display_ok d -> display_ok (snd (count_error d)).
Proof. by intros [H1 H2 H3 H4 H5 H6]. Qed.

Lemma present_ok d mem now :
  display_ok d -> (forall m, mem = Some m -> byte_map m) -> display_ok (snd (present d mem now)).
Proof.
  intros Hd Hm. rewrite present_exact by done. destruct mem as [m|]; [|by apply count_error_ok].
  cbv zeta. destruct (has_fb d && _) eqn:E; [|by apply count_error_ok]. bool_facts.
  destruct Hd as [H1 H2 H3 H4 H5 H6]. split; cbn [snd has_fb fb_w fb_h fb_gpa frame]; try done; [by auto| |].
  - right. split; [done|]. rewrite length_mem_read. pose proof (small_area _ _ H1 H2). lia.
  - by apply mem_read_u8, Hm.
Qed.

Lemma display_reachable_ok d : display_reachable d -> display_ok d.
Proof.
  induction 1.
  - split; cbn; unfold kMaxWidth, kMaxHeight; try lia; try done; by left.
  - by apply set_framebuffer_ok.
  - split; cbn; unfold kMaxWidth, kMaxHeight; try lia; try done; by left.
  - by apply present_ok.
Qed.

(** ** Reading the snapshot *)

Lemma at_in l i : 0 <= i < zlen l -> exists b, at_ l i = Ok b /\ l !! Z.to_nat i = Some b.
Proof.
  intros Hi. unfold at_. destruct (lookup_lt_is_Some_2 l (Z.to_nat i)) as [b Hb]; [lia|].
  exists b. by rewrite Hb.
Qed.

Lemma pixel_offset_exact d x y :
  display_ok d -> 0 <= x < fb_w d -> 0 <= y < fb_h d ->
  pixel_offset d x y = 4 * (y * fb_w d + x) /\ 0 <= pixel_offset d x y <= 4 * (fb_w d * fb_h d) - 4.
Proof.
  intros [Hw Hh _ _ _ _] Hx Hy. pose proof (small_area _ _ Hw Hh). unfold pixel_offset, kBytesPerPixel.
  assert (0 <= y * fb_w d + x <= fb_w d * fb_h d - 1) by nia. assert (0 <= y * fb_w d) by nia.
  rewrite (u64_small (y * fb_w d)) by lia. rewrite (u64_small (_ + x)) by lia. rewrite u64_small by lia. lia.
Qed.

(** The shifts of [pixel] are the little-endian value of the four bytes. *)
Lemma lor_le_val b0 b1 b2 b3 :
  is_u8 b0 -> is_u8 b1 -> is_u8 b2 -> is_u8 b3 ->
  Z.lor (Z.lor (Z.lor b0 (Z.shiftl b1 8)) (Z.shiftl b2 16)) (Z.shiftl b3 24) = le_val [b0; b1; b2; b3].
Proof.
  unfold is_u8. intros. rewrite !Z.shiftl_mul_pow2 by lia.
  rewrite (Z.lor_comm b0), (lor_split b1 8 b0) by lia.
  rewrite (Z.lor_comm _ (b2 * _)), (lor_split b2 16) by lia.
  rewrite (Z.lor_comm _ (b3 * _)), (lor_split b3 24) by lia. cbn [le_val]. lia.
Qed.

(** The bytes of one pixel of the snapshot. *)
Definition pixel_bytes (d : display) (x y : Z) : list Z :=
  take 4 (drop (Z.to_nat (4 * (y * fb_w d + x))) (frame d)).

Lemma pixel_exact d x y :
  display_ok d -> 0 <= x -> 0 <= y ->
  pixel d x y = Ok (if negb (zlen (frame d) =? 0) && (x <? fb_w d) && (y <? fb_h d)
                    then Some (le_val (pixel_bytes d x y)) else None).
Proof.
  intros Hd Hx Hy. pose proof Hd as [Hw Hh _ _ Hf Hb]. unfold pixel.
  destruct (Z.eqb_spec (zlen (frame d)) 0) as [|Hn]; [by rewrite orb_true_r|].
  destruct Hf as [Hf|[-> Hl]]; [by rewrite Hf in Hn|]. cbn [negb orb andb].
  rewrite !Z.leb_antisym. destruct (Z.ltb_spec x (fb_w d)), (Z.ltb_spec y (fb_h d)); cbn [negb orb andb]; try done.
  destruct (pixel_offset_exact d x y) as [Eo Bo]; try done; try lia. pose proof (small_area _ _ Hw Hh).
  rewrite Eo in *. set (o := 4 * (y * fb_w d + x)) in *. rewrite (u64_small (o + 4)) by lia.
  replace (zlen (frame d) <? o + 4) with false by (symmetry; lia).
  destruct (at_in (frame d) o) as (b0 & -> & L0); [lia|].
  destruct (at_in (frame d) (o + 1)) as (b1 & -> & L1); [lia|].
  destruct (at_in (frame d) (o + 2)) as (b2 & -> & L2); [lia|].
  destruct (at_in (frame d) (o + 3)) as (b3 & -> & L3); [lia|]. cbn [obind]. do 2 f_equal.
  rewrite Forall_lookup in Hb. rewrite lor_le_val by eauto. f_equal. unfold pixel_bytes. fold o.
  rewrite (drop_S _ b0) by done.
  rewrite (drop_S _ b1), (drop_S _ b2), (drop_S _ b3); [done|..].
  - rewrite <- L3. f_equal. lia.
  - rewrite <- L2. f_equal. lia.
  - rewrite <- L1. f_equal. lia.
Qed.

(** ** The PPM image *)

Definition rgb (d : display) (q : Z * Z) : list Z := take 3 (pixel_bytes d (fst q) (snd q)).

Lemma ppm_loop_exact d l room out :
  display_ok d -> frame d <> [] ->
  Forall (fun q => 0 <= fst q < fb_w d /\ 0 <= snd q < fb_h d) l ->
  ppm_loop d l room out =
  Ok (bool_decide (length l <= room)%nat, out ++ concat (take room (rgb d <$> l))).
Proof.
  intros Hd Hne Hl. revert room out. induction Hl as [|[x y] l [Hx Hy] Hl IH]; intros room out; cbn [ppm_loop].
  { rewrite bool_decide_true by (cbn; lia). rewrite fmap_nil, take_nil. cbn. by rewrite app_nil_r. }
  cbn [fst snd] in *. destruct (pixel_offset_exact d x y Hd Hx Hy) as [Eo Bo].
  pose proof Hd as [_ _ _ _ [Hf|[_ Hn]] _]; [done|].
  rewrite Eo in *. set (o := 4 * (y * fb_w d + x)) in *.
  destruct (at_in (frame d) o) as (b0 & -> & L0); [lia|].
  destruct (at_in (frame d) (o + 1)) as (b1 & -> & L1); [lia|].
  destruct (at_in (frame d) (o + 2)) as (b2 & -> & L2); [lia|]. cbn [obind].
  destruct room as [|room].
  { rewrite bool_decide_false by (cbn; lia). cbn. by rewrite app_nil_r. }
  rewrite IH. f_equal. f_equal; [by apply bool_decide_ext; cbn; lia|].
  rewrite fmap_cons. cbn [take concat]. rewrite <- app_assoc. do 2 f_equal.
  unfold rgb, pixel_bytes. cbn [fst snd]. fold o. rewrite take_take. cbn [Nat.min].
  rewrite (drop_S _ b0), (drop_S _ b1), (drop_S _ b2); [done|..|done].
  - rewrite <- L2. f_equal. lia.
  - rewrite <- L1. f_equal. lia.
Qed.

Lemma pixels_in w h : Forall (fun q => 0 <= fst q < w /\ 0 <= snd q < h) (pixels w h).
Proof.
  unfold pixels. apply Forall_bind, Forall_forall. intros y Hy%elem_of_seqZ.
  apply Forall_bind, Forall_forall. intros x Hx%elem_of_seqZ. constructor; [cbn; lia|constructor].
Qed.

(** In every state the display can reach, reading the snapshot never goes
    out of its bounds and gives what was captured: [pixel] answers exactly for
    the coordinates inside the frame buffer once a frame is there, with the
    four bytes of that pixel in little-endian order, and the PPM file holds the
    header and the first three bytes of the pixels row by row, complete exactly
    when the host had room for all of them. *)
Theorem snapshot_reads_exact (d : display) :
  display_reachable d ->
  (forall x y, 0 <= x -> 0 <= y ->
     pixel d x y = Ok (if negb (zlen (frame d) =? 0) && (x <? fb_w d) && (y <? fb_h d)
                       then Some (le_val (pixel_bytes d x y)) else None)) /\
  forall opens room,
    save_ppm d opens room =
    Ok (if negb (zlen (frame d) =? 0) && opens
        then (bool_decide (length (pixels (fb_w d) (fb_h d)) <= room)%nat,
              Some (ppm_header d ++ concat (take room (rgb d <$> pixels (fb_w d) (fb_h d)))))
        else (false, None)).
Proof.
  intros Hd%display_reachable_ok. split; [by intros; apply pixel_exact|]. intros opens room.
  pose proof Hd as [Hw Hh _ _ Hf _]. unfold save_ppm.
  destruct (Z.eqb_spec (zlen (frame d)) 0) as [|Hn]; [done|].
  destruct Hf as [Hf|[-> Hl]]; [by rewrite Hf in Hn|]. cbn [negb orb andb].
  rewrite area_bytes by done. replace (_ <? _) with false by (symmetry; lia).
  destruct opens; cbn [negb]; [|done].
  rewrite ppm_loop_exact; [done|done| |apply pixels_in]. intros E. by rewrite E in Hn.
Qed.

(** ** From a clear to the screen *)

Lemma words_pixel n v i :
  (i < n)%nat -> take 4 (drop (4 * i) (GpuStub.words n v)) = le_bytes 4 v.
Proof.
  revert i; induction n as [|n IH]; intros i Hi; [lia|].
  unfold GpuStub.words. cbn [replicate concat]. fold (GpuStub.words n v). destruct i as [|i].
  - rewrite drop_0, take_app_le by (rewrite length_le_bytes; lia). apply take_ge. by rewrite length_le_bytes.
  - rewrite drop_app_ge by (rewrite length_le_bytes; lia). rewrite length_le_bytes.
    replace (4 * S i - 4)%nat with (4 * i)%nat by lia. apply IH. lia.
Qed.

Lemma words_u8 n v : Forall is_u8 (GpuStub.words n v).
Proof.
  unfold GpuStub.words. induction n; cbn [replicate concat]; [constructor|].
  apply Forall_app. split; [apply le_bytes_is_u8|done].
Qed.

(** A snapshot of [n] equal words shows that word everywhere. *)
Lemma uniform_frame d v x y :
  display_ok d -> has_fb d = true -> is_u32 v ->
  frame d = GpuStub.words (Z.to_nat (fb_w d * fb_h d)) v -> 0 <= x < fb_w d -> 0 <= y < fb_h d ->
  pixel d x y = Ok (Some v).
Proof.
  intros Hd Hfb Hv Hf Hx Hy. rewrite pixel_exact by (done || lia).
  assert (0 <= y * fb_w d + x < fb_w d * fb_h d) by nia.
  rewrite Hf, GpuStub.length_words. rewrite (proj2 (Z.eqb_neq _ 0)) by lia.
  replace (x <? fb_w d) with true by (symmetry; lia). replace (y <? fb_h d) with true by (symmetry; lia).
  cbn [negb andb]. unfold pixel_bytes. rewrite Hf.
  replace (Z.to_nat (4 * (y * fb_w d + x))) with (4 * Z.to_nat (y * fb_w d + x))%nat by lia.
  rewrite words_pixel by lia. by rewrite le32_roundtrip.
Qed.

(** The snapshot of a frame buffer that was just cleared. *)
Lemma clear_then_present (s s' : GpuStub.gpu) (m : memmap) (d : display) (p : GpuStub.XboxPacket) (t now : Z) :
  GpuStub.gpu_mem s = Some m -> map_ok m -> display_ok d -> has_fb d = true ->
  GpuStub.pk_type p = GpuStub.ClearRenderTarget ->
  GpuStub.ga_gpa (GpuStub.pk_dst p) = fb_gpa d ->
  GpuStub.pk_width p = fb_w d -> GpuStub.pk_height p = fb_h d ->
  0 <= GpuStub.ga_size (GpuStub.pk_dst p) ->
  0 <= GpuStub.ga_gpa (GpuStub.pk_src p) -> 0 <= GpuStub.ga_size (GpuStub.pk_src p) ->
  GpuStub.whole_windows m (fb_gpa d) (4 * (fb_w d * fb_h d)) ->
  GpuStub.submit_xbox s t p = (true, s') ->
  GpuStub.gpu_mem s' = Some (GpuStub.stored m p) /\
  present d (GpuStub.gpu_mem s') now =
    (true, MkDisplay true (fb_gpa d) (fb_w d) (fb_h d)
             (GpuStub.words (Z.to_nat (fb_w d * fb_h d)) (GpuStub.pixel_word (GpuStub.pk_color p)))
             (u64 (frames_presented d + 1)) now (errors d)).
Proof.
  intros Hs Hm Hr Hfb Ht Hg Hpw Hph Hn Hsg Hsn Hw Hx.
  pose proof Hr as [Dw Dh Dg Dp _ _]. pose proof (small_area _ _ Dw Dh) as Ha.
  specialize (Dp Hfb). pose proof (GpuStub.clear_accepted_size _ _ _ _ Ht Hx) as Hsz.
  rewrite Hpw, Hph, u64_small in Hsz by lia. replace (fb_w d * fb_h d * 4) with (4 * (fb_w d * fb_h d)) in Hsz by lia.
  destruct (GpuStub.submit_memory s t p m true s') as (_ & Hmem & Hread);
    try done; [by auto|lia|by rewrite Hg, Hsz|]. split; [exact Hmem|].
  specialize (Hread eq_refl). rewrite Hg, Hsz in Hread. set (m' := GpuStub.stored m p) in *.
  unfold GpuStub.payload in Hread. rewrite Ht, Hsz in Hread.
  replace ((4 * (fb_w d * fb_h d)) `div` 4) with (fb_w d * fb_h d) in Hread
    by (rewrite (Z.mul_comm 4), Z.div_mul; lia).
  unfold read_bytes in Hread. rewrite (proj2 (Z.eqb_neq (4 * (fb_w d * fb_h d)) 0)) in Hread by nia.
  destruct (is_readable m' _ _) eqn:Er; [|done]. cbn [orb negb] in Hread. apply (inj Some) in Hread.
  rewrite present_exact, Hmem by done. cbv zeta. rewrite Hfb, Er, Hread. done.
Qed.

Lemma cleared_ok d v n now :
  display_ok d -> has_fb d = true ->
  display_ok (MkDisplay true (fb_gpa d) (fb_w d) (fb_h d) (GpuStub.words (Z.to_nat (fb_w d * fb_h d)) v) n now (errors d)).
Proof.
  intros [Dw Dh Dg Dp _ _] Hfb. pose proof (small_area _ _ Dw Dh). split; cbn; try done; [by auto| |apply words_u8].
  right. split; [done|]. rewrite GpuStub.length_words. lia.
Qed.

(** What the command processor clears is what the display shows: when a
    clear of the registered frame buffer is accepted, the following flip
    succeeds, counts one frame and latches the time, and every pixel of the
    snapshot is the clear colour. *)
Theorem cleared_frame_is_shown (s s' : GpuStub.gpu) (m : memmap) (d : display) (p : GpuStub.XboxPacket) (t now : Z) :
  GpuStub.gpu_mem s = Some m -> map_ok m -> display_reachable d -> has_fb d = true ->
  GpuStub.pk_type p = GpuStub.ClearRenderTarget ->
  GpuStub.ga_gpa (GpuStub.pk_dst p) = fb_gpa d ->
  GpuStub.pk_width p = fb_w d -> GpuStub.pk_height p = fb_h d ->
  0 <= GpuStub.ga_size (GpuStub.pk_dst p) ->
  0 <= GpuStub.ga_gpa (GpuStub.pk_src p) -> 0 <= GpuStub.ga_size (GpuStub.pk_src p) ->
  GpuStub.whole_windows m (fb_gpa d) (4 * (fb_w d * fb_h d)) ->
  is_u32 (GpuStub.pixel_word (GpuStub.pk_color p)) ->
  GpuStub.submit_xbox s t p = (true, s') ->
  exists d', present d (GpuStub.gpu_mem s') now = (true, d') /\
    frames_presented d' = u64 (frames_presented d + 1) /\ last_present_qpc d' = now /\
    forall x y, 0 <= x < fb_w d -> 0 <= y < fb_h d ->
      pixel d' x y = Ok (Some (GpuStub.pixel_word (GpuStub.pk_color p))).
Proof.
  intros Hs Hm Hr%display_reachable_ok Hfb Ht Hg Hpw Hph Hn Hsg Hsn Hw Hu Hx.
  destruct (clear_then_present s s' m d p t now) as [_ E]; try done. rewrite E.
  eexists. split; [reflexivity|]. cbn [frames_presented last_present_qpc]. split; [done|]. split; [done|].
  intros x y Hxx Hyy. apply uniform_frame; try done. by apply cleared_ok.
Qed.

End laws.

(** ** Concrete runs *)

(** A two by two frame buffer on the committed page of the demonstration map. *)
Definition demo_display : display :=
  snd (set_framebuffer new_display (Some demo_map) 0x100800 2 2).
Definition demo_clear : GpuStub.XboxPacket :=
  GpuStub.demo_packet GpuStub.ClearRenderTarget (GpuStub.demo_addr 0x100800 16) 0.

Lemma demo_display_reachable : display_reachable demo_display.
Proof. apply dr_set; [constructor|lia|lia|lia]. Defined.

Lemma snapshot_reads_exact_witness : pixel demo_display 1 1 = Ok None.
Proof.
  destruct (snapshot_reads_exact demo_display demo_display_reachable) as [H _].
  rewrite H by lia. vm_compute. reflexivity.
Defined.

Lemma cleared_frame_is_shown_witness :
  let s' := snd (GpuStub.submit_xbox GpuStub.demo_gpu 0 demo_clear) in
  exists d', present demo_display (GpuStub.gpu_mem s') 9 = (true, d') /\
    pixel d' 1 0 = Ok (Some 0x04030201).
Proof.
  destruct (cleared_frame_is_shown GpuStub.demo_gpu (snd (GpuStub.submit_xbox GpuStub.demo_gpu 0 demo_clear))
              demo_map demo_display demo_clear 0 9) as (d' & H & _ & _ & Hp);
    [reflexivity|apply demo_map_ok|apply demo_display_reachable|vm_compute; reflexivity|reflexivity
    |vm_compute; reflexivity|vm_compute; reflexivity|vm_compute; reflexivity|cbn; lia|cbn; lia|cbn; lia|..].
  - assert (fb_gpa demo_display = 0x100800 /\ 4 * (fb_w demo_display * fb_h demo_display) = 16) as [-> ->]
      by (vm_compute; split; reflexivity).
    intros a Ha. change (m_aliases demo_map) with [demo_alias] in Ha.
    apply list_elem_of_singleton in Ha as ->. cbn. lia.
  - vm_compute. split; [discriminate|reflexivity].
  - rewrite (surjective_pairing (GpuStub.submit_xbox _ _ _)) at 1. f_equal.
  - exists d'. split; [exact H|]. apply Hp; vm_compute; split; (reflexivity || discriminate).
Defined.

(** The constant the checksum starts from has one digit less than the FNV-1a
    offset basis, so the checksums are not those of FNV-1a. *)
Example checksum_is_not_fnv1a :
  let d := MkDisplay true 0 1 1 [0; 0; 0; 0] 1 0 0 in
  checksum d <> foldl fnv_step 14695981039346656037 (frame d).
Proof. vm_compute. discriminate. Qed.

End XboxDisplay.
