(* ===== verification/XboxSys.v ===== *)
(** The processor topology, the scaled clocks and the native demonstration
    guest (src/cpu_native.cpp) and the system services built on them
    (src/xbox_sys.cpp). The host clocks are arguments, in nanoseconds. *)
From stdpp Require Import base numbers list strings.
From Stdlib Require Import ZArith Lia.
From S2P Require Import Prelude.
Open Scope Z_scope.

Module XboxSys.

(** ** src/cpu_native.cpp *)

Inductive SysId := Log | GpuFlush | GetTopology | GetQpcFreq | GetQpc | GetRdtsc | Yield.

Definition sys_code (s : SysId) : Z :=
  match s with
  | Log => 1 | GpuFlush => 2 | GetTopology => 10 | GetQpcFreq => 11
  | GetQpc => 12 | GetRdtsc => 13 | Yield => 14
  end.

Record CpuTopology := MkTopo {
  phys : Z; logical : Z; game_cores : Z;
  l1i : Z; l1d : Z; l2_per_core : Z; l3_per_ccx : Z;
  freq_smt_off : Z; freq_smt_on : Z; smt_enabled : bool;
}.

Definition default_topology : CpuTopology :=
  MkTopo 8 8 7 (Z.shiftl 32 10) (Z.shiftl 32 10) (Z.shiftl 512 10) (Z.shiftl 4 20)
         3800000000 3600000000 false.

Definition set_smt (t : CpuTopology) (on : bool) (n : Z) : CpuTopology :=
  MkTopo (phys t) n (game_cores t) (l1i t) (l1d t) (l2_per_core t) (l3_per_ccx t)
         (freq_smt_off t) (freq_smt_on t) on.

(** The two tables [ensure_init] fills the first time. *)
Definition kSmtOff : CpuTopology := set_smt default_topology false 8.
Definition kSmtOn : CpuTopology := set_smt default_topology true 16.
Definition cpu_topology (smt_on : bool) : CpuTopology := if smt_on then kSmtOn else kSmtOff.

Definition cpu_game_threads (t : CpuTopology) : Z :=
  if smt_enabled t then u32 (game_cores t * 2) else game_cores t.

Definition kQpcFreq : Z := 10000000.
Definition cpu_qpc_freq : Z := kQpcFreq.
Definition cpu_qpc_now (steady_ns : Z) : Z := u64 (steady_ns * kQpcFreq) `div` 1000000000.
Definition cpu_rdtsc_scaled (steady_ns : Z) (t : CpuTopology) : Z :=
  let freq := if smt_enabled t then freq_smt_on t else freq_smt_off t in
  u64 (steady_ns * freq) `div` 1000000000.

(** The traps the demonstration guest raises, in order: the sum it computes,
    a flush, and the four queries; [ns1] and [ns2] are the clock readings. *)
Fixpoint accumulate (n : nat) (i acc : Z) : Z :=
  match n with O => acc | S n' => accumulate n' (i + 1) (u64 (acc + i)) end.
Definition guest_demo_entry (trap : bool) (ns1 ns2 : Z) : list (Z * Z) :=
  let acc := accumulate 1000 0 0 in
  if trap then
    let topo := cpu_topology false in
    [(sys_code Log, acc); (sys_code GpuFlush, 0); (sys_code GetTopology, game_cores topo);
     (sys_code GetQpcFreq, cpu_qpc_freq); (sys_code GetQpc, cpu_qpc_now ns1);
     (sys_code GetRdtsc, cpu_rdtsc_scaled ns2 topo)]
  else [].
Definition cpu_run_native := guest_demo_entry.

(** ** src/xbox_sys.cpp *)

Record XboxMemStatus := MkMemStatus {
  total_bytes : Z; gpu_optimal_bytes : Z; standard_bytes : Z;
  committed_pages : Z; committed_bytes : Z;
}.
Record XboxAffinity := MkAffinity { game_mask : Z; system_mask : Z; game_threads : Z }.

(** [for (c = from; c < to; ++c) mask |= 1ULL << c]. *)
Definition mask_of (from to : Z) : Z :=
  foldl (fun m c => Z.lor m (Z.shiftl 1 c)) 0 (seqZ from (to - from)).

Definition xbox_game_affinity (smt_on : bool) : XboxAffinity :=
  let t := cpu_topology smt_on in
  MkAffinity (mask_of 0 (Z.min (game_cores t) (phys t))) (mask_of (game_cores t) (phys t))
             (cpu_game_threads t).

Definition xbox_affinity_is_game_core (core : Z) (smt_on : bool) : bool :=
  let t := cpu_topology smt_on in
  let core := if smt_on then core `div` 2 else core in
  core <? game_cores t.

Definition xbox_mem_status (pages page_size : Z) : XboxMemStatus :=
  MkMemStatus (Z.shiftl 16 30) (Z.shiftl 10 30) (Z.shiftl 6 30) pages (u64 (pages * page_size)).

Definition xbox_title_name : string := "HOME-BREW".

Definition kFiletimeEpochDelta100ns : Z := 11644473600 * 10000000.
Definition xbox_system_time_filetime (unix_ns : Z) : Z :=
  u64 (unix_ns `div` 100 + kFiletimeEpochDelta100ns).
Definition xbox_filetime_to_unix100ns (filetime : Z) : Z :=
  if kFiletimeEpochDelta100ns <=? filetime then filetime - kFiletimeEpochDelta100ns else 0.

(** ** Properties *)

Lemma testbit_mask l i m :
  Forall (fun c => 0 <= c) l -> 0 <= i ->
  Z.testbit (foldl (fun m c => Z.lor m (Z.shiftl 1 c)) m l) i = Z.testbit m i || bool_decide (i ∈ l).
Proof.
  intros Hl Hi. revert m. induction Hl as [|c l Hc _ IH]; intros m; cbn [foldl].
  - rewrite bool_decide_false by (by intros ?%elem_of_nil). by rewrite orb_false_r.
  - rewrite IH, Z.lor_spec, Z.shiftl_1_l, Z.pow2_bits_eqb, <- orb_assoc by done. f_equal.
    destruct (Z.eqb_spec c i) as [->|Hn]; cbn [orb].
    + symmetry. apply bool_decide_true. by left.
    + apply bool_decide_ext. rewrite elem_of_cons. naive_solver.
Qed.

Lemma mask_bits from to i :
  0 <= from -> 0 <= i -> Z.testbit (mask_of from to) i = (from <=? i) && (i <? to).
Proof.
  intros Hf Hi. unfold mask_of. rewrite testbit_mask; [|apply Forall_forall; intros c Hc%elem_of_seqZ; lia|done].
  rewrite Z.bits_0. cbn [orb]. apply eq_true_iff_eq. rewrite bool_decide_eq_true, elem_of_seqZ. lia.
Qed.

(** The affinity masks split the eight cores between the title and the
    system: no core is in both, every core is in one, and the core a logical
    processor runs on is a game core exactly when its bit is in the game mask,
    with one logical processor per core or two; the game threads are exactly
    the logical processors of the game cores. *)
Theorem affinity_splits_the_cores (smt_on : bool) (cpu : Z) :
  0 <= cpu ->
  let a := xbox_game_affinity smt_on in
  let per_core := if smt_on then 2 else 1 in
  Z.land (game_mask a) (system_mask a) = 0 /\ Z.lor (game_mask a) (system_mask a) = 2 ^ 8 - 1 /\
  Z.testbit (game_mask a) (cpu `div` per_core) = xbox_affinity_is_game_core cpu smt_on /\
  (xbox_affinity_is_game_core cpu smt_on = true <-> cpu < game_threads a).
Proof.
  intros Hc. cbv zeta. split; [by destruct smt_on|]. split; [by destruct smt_on|].
  unfold xbox_game_affinity, xbox_affinity_is_game_core. cbn [game_mask game_threads].
  destruct smt_on; (rewrite mask_bits by (done || (apply Z.div_pos; lia)); cbn [game_cores phys cpu_topology kSmtOn kSmtOff]).
  - split.
    { by rewrite (proj2 (Z.leb_le 0 _)) by (apply Z.div_pos; lia). }
    change (cpu_game_threads _) with 14. change (game_cores _) with 7. rewrite Z.ltb_lt.
    pose proof (Z.div_mod cpu 2 ltac:(lia)). pose proof (Z.mod_pos_bound cpu 2 ltac:(lia)). lia.
  - rewrite Z.div_1_r. change (cpu_game_threads (cpu_topology false)) with 7.
    rewrite (proj2 (Z.leb_le 0 _)) by done. split; [done|]. by rewrite Z.ltb_lt.
Qed.

(** Where the 64-bit product of the nanosecond clock and a frequency wraps. *)
Lemma scaled_exact ns freq :
  0 <= ns -> 0 < freq -> ns * freq < 2 ^ 64 -> u64 (ns * freq) `div` 1000000000 = (ns * freq) `div` 1000000000.
Proof. intros. rewrite u64_small; [done|nia]. Qed.

(** The performance counter reads one tick per hundred nanoseconds and
    never runs back for the first 1844674407370 nanoseconds of the host's
    clock; one nanosecond later the 64-bit product wraps and the counter is
    back at zero. *)
Theorem qpc_exact_then_wraps (ns ns' : Z) :
  0 <= ns <= ns' -> ns' <= 1844674407370 ->
  cpu_qpc_now ns = ns `div` 100 /\ cpu_qpc_now ns <= cpu_qpc_now ns' /\
  cpu_qpc_now (1844674407370 + 1) = 0 /\ cpu_qpc_now 1844674407370 = 18446744073.
Proof.
  intros Hn Hn'. unfold cpu_qpc_now, kQpcFreq. rewrite !scaled_exact by lia.
  assert (E : forall n, (n * 10000000) `div` 1000000000 = n `div` 100).
  { intros n. change 1000000000 with (100 * 10000000). apply Z.div_mul_cancel_r; lia. }
  rewrite !E. split_and!; [done|apply Z.div_le_mono; lia|by vm_compute..].
Qed.

(** System time and its inverse agree: converting the FILETIME of a host
    time back gives the host's hundred-nanosecond count, for every time the
    64-bit nanosecond clock can hold. *)
Theorem filetime_roundtrip (unix_ns : Z) :
  is_u64 unix_ns ->
  xbox_filetime_to_unix100ns (xbox_system_time_filetime unix_ns) = unix_ns `div` 100.
Proof.
  unfold is_u64, xbox_system_time_filetime, xbox_filetime_to_unix100ns, kFiletimeEpochDelta100ns. intros H.
  assert (0 <= unix_ns `div` 100 <= 2 ^ 64 `div` 100) by (split; [apply Z.div_pos|apply Z.div_le_mono]; lia).
  change (2 ^ 64 `div` 100) with 184467440737095516 in *.
  rewrite u64_small by lia. rewrite (proj2 (Z.leb_le _ _)) by lia. lia.
Qed.

Lemma affinity_splits_the_cores_witness :
  xbox_affinity_is_game_core 13 true = true /\ xbox_affinity_is_game_core 14 true = false.
Proof.
  destruct (affinity_splits_the_cores true 13) as (_ & _ & _ & H1); [lia|].
  destruct (affinity_splits_the_cores true 14) as (_ & _ & H2 & _); [lia|].
  split; [by apply H1|]. rewrite <- H2. vm_compute. reflexivity.
Defined.

Lemma qpc_exact_then_wraps_witness : cpu_qpc_now 12345 = 123.
Proof. destruct (qpc_exact_then_wraps 12345 20000) as [H _]; [lia|lia|]. rewrite H. vm_compute. reflexivity. Defined.

Lemma filetime_roundtrip_witness :
  xbox_filetime_to_unix100ns (xbox_system_time_filetime 1700000000123456789) = 17000000001234567.
Proof. rewrite (filetime_roundtrip 1700000000123456789); [vm_compute; reflexivity|split; done]. Defined.

(** The scaled time stamp counter wraps after less than five seconds. *)
Example rdtsc_wraps_after_five_seconds :
  cpu_rdtsc_scaled 4854406335 kSmtOff = 18446744073 /\ cpu_rdtsc_scaled 4854406336 kSmtOff = 3.
Proof. vm_compute. split; reflexivity. Qed.

(** The demonstration guest logs the sum of the first thousand numbers. *)
Example demo_guest_sum ns1 ns2 :
  guest_demo_entry true ns1 ns2 !! 0%nat = Some (1, 499500).
Proof. reflexivity. Qed.

End XboxSys.
