(* ===== verification/FiberTls.v ===== *)
(** Guest thread-local storage ([class FiberTls], src/fiber_tls.cpp): a block
    carved from the top of each fiber's own stack mapping, holding a 64-entry
    slot array followed by a copy of the XBE's TLS template, and the record of
    attach and detach notifications. The stack mappings are byte-addressed host
    memory; the address each fiber's mapping got is a parameter. *)
From stdpp Require Import base numbers list gmap strings.
From Stdlib Require Import ZArith Lia.
From S2P Require Import Prelude CpuSched.
Open Scope Z_scope.

Module FiberTls.
Import CpuSched.

Definition kReasonProcessAttach : Z := 1.
Definition kReasonThreadAttach : Z := 2.
Definition kReasonThreadDetach : Z := 3.
Definition kSlots : Z := 64.
Definition array_bytes : Z := kSlots * 8.

Record Event := MkEvent { ev_fiber : Z; ev_callback : Z; ev_reason : Z }.

Record Init := MkInit { raw : list Z; zero_fill : Z; index : Z; callbacks : list Z }.

Record Block := MkBlock { b_array : Z; b_data : Z; b_size : Z }.

(** A finish hook of the scheduler: this component's, or another observer's. *)
Inductive hook := TlsHook | OtherHook (id : Z).

Record fibers := MkFibers {
  f_sched : sched;
  f_hooks : list hook;              (* finish_hooks_ of the scheduler *)
  f_mem : bytes_map;                (* the fibers' stack mappings *)
  f_init : option Init;
  f_events : list Event;
  f_blocks : list (Z * Block);
  f_main_seen : bool;
  f_hook_installed : bool;
}.

Definition new_fibers : fibers := MkFibers new_sched [] ∅ None [] [] false false.

Definition with_init (f : fibers) i : fibers :=
  MkFibers (f_sched f) (f_hooks f) (f_mem f) i (f_events f) (f_blocks f) (f_main_seen f) (f_hook_installed f).
Definition with_sched (f : fibers) s : fibers :=
  MkFibers s (f_hooks f) (f_mem f) (f_init f) (f_events f) (f_blocks f) (f_main_seen f) (f_hook_installed f).
Definition with_hooks (f : fibers) h b : fibers :=
  MkFibers (f_sched f) h (f_mem f) (f_init f) (f_events f) (f_blocks f) (f_main_seen f) b.
Definition with_mem (f : fibers) m : fibers :=
  MkFibers (f_sched f) (f_hooks f) m (f_init f) (f_events f) (f_blocks f) (f_main_seen f) (f_hook_installed f).
Definition with_block (f : fibers) h b : fibers :=
  MkFibers (f_sched f) (f_hooks f) (f_mem f) (f_init f) (f_events f) (f_blocks f ++ [(h, b)])
           (f_main_seen f) (f_hook_installed f).
Definition with_main (f : fibers) : fibers :=
  MkFibers (f_sched f) (f_hooks f) (f_mem f) (f_init f) (f_events f) (f_blocks f) true (f_hook_installed f).

Definition record (f : fibers) (fiber callback reason : Z) : fibers :=
  MkFibers (f_sched f) (f_hooks f) (f_mem f) (f_init f) (f_events f ++ [MkEvent fiber callback reason])
           (f_blocks f) (f_main_seen f) (f_hook_installed f).

(** [GuestScheduler::set_on_finish] and [add_finish_hook]. *)
Definition set_on_finish (f : fibers) (h : hook) : fibers := with_hooks f [h] (f_hook_installed f).
Definition add_finish_hook (f : fibers) (h : hook) : fibers :=
  with_hooks f (f_hooks f ++ [h]) (f_hook_installed f).

Definition set_init (f : fibers) (i : Init) : fibers :=
  if kSlots <=? index i then f else with_init f (Some i).

Definition init_size (i : Init) : Z := u64 (zlen (raw i) + zero_fill i).
Definition data_size (f : fibers) : Z := match f_init f with Some i => init_size i | None => 0 end.

(** The bytes carved from the stack top, rounded up to 16. *)
Definition reserve_of (i : Init) : Z :=
  Z.land (u64 (array_bytes + init_size i + 15)) (Z.lnot 15).

(** The finish hooks, run while the finishing fiber is still current. *)
Definition run_hook (f : fibers) (handle : Z) (h : hook) : fibers :=
  match h with TlsHook => record f handle 0 kReasonThreadDetach | OtherHook _ => f end.
Definition finish_hooks (f : fibers) (handle : Z) : fibers :=
  foldl (fun f h => run_hook f handle h) f (f_hooks f).

Section memory.
Context (stack_base : Z -> Z).     (* where the mapping of a fiber's stack starts *)

(** Null slots, the slot of the module, the template and its zero fill. *)
Definition init_block (m : bytes_map) (i : Init) (array data : Z) : bytes_map :=
  let m := mem_write m array (replicate (Z.to_nat array_bytes) 0) in
  let m := mem_write m (array + 8 * index i) (le_bytes 8 data) in
  let m := mem_write m data (raw i) in
  mem_write m (data + zlen (raw i)) (replicate (Z.to_nat (zero_fill i)) 0).

Definition install (f : fibers) (fiber : Z) : bool * fibers :=
  match f_init f, stack_top_reserve (f_sched f) fiber with
  | Some i, Some off =>
      let top := stack_base fiber + off in
      let data := top + array_bytes in
      (true, with_block (with_mem f (init_block (f_mem f) i top data)) fiber (MkBlock top data (data_size f)))
  | _, _ => (false, f)
  end.

Definition spawn_with_tls (map_ok : bool) (f : fibers) (name : string) : Z * fibers :=
  match f_init f with
  | None => (0, f)
  | Some i =>
      let f := if f_hook_installed f then f else with_hooks f [TlsHook] true in
      let (fiber, s) := spawn_reserved map_ok (f_sched f) name (reserve_of i) in
      let f := with_sched f s in
      if fiber =? 0 then (0, f)
      else
        let reason := if f_main_seen f then kReasonThreadAttach else kReasonProcessAttach in
        let f := with_main (snd (install f fiber)) in
        (fiber, match callbacks i with
                | [] => record f fiber 0 reason
                | cbs => foldl (fun f cb => record f fiber cb reason) f cbs
                end)
  end.

(** The first block of the fiber; [offset + size] is a 64-bit sum. *)
Fixpoint scan_data (l : list (Z * Block)) (fiber offset size : Z) : option Z :=
  match l with
  | [] => None
  | (h, b) :: l' =>
      if negb (h =? fiber) then scan_data l' fiber offset size
      else if b_size b <? u64 (offset + size) then None
      else Some (b_data b + offset)
  end.
Definition data_of (f : fibers) (fiber offset size : Z) : option Z :=
  scan_data (f_blocks f) fiber offset size.
Definition current_data (f : fibers) (offset size : Z) : option Z :=
  data_of f (current_handle (f_sched f)) offset size.

Fixpoint find_block (l : list (Z * Block)) (fiber : Z) : option Block :=
  match l with
  | [] => None
  | (h, b) :: l' => if h =? fiber then Some b else find_block l' fiber
  end.
Definition array_of (f : fibers) (fiber : Z) : option Z := b_array <$> find_block (f_blocks f) fiber.
Definition current_array (f : fibers) : option Z := array_of f (current_handle (f_sched f)).
Definition has_tls (f : fibers) (fiber : Z) : bool :=
  match find_block (f_blocks f) fiber with Some _ => true | None => false end.

(** ** Reachable states *)

Definition map_size : Z := kGuardSize + kStackSize.

(** What mmap promises: the mappings of the fibers up to handle [last] do not
    overlap, and lie inside the host's address space. *)
Class Mappings (last : Z) : Prop := {
  map_space h : 0 < h <= last -> 0 <= stack_base h /\ stack_base h + map_size < 2 ^ 64;
  map_apart h h' : 0 < h <= last -> 0 < h' <= last -> h <> h' ->
    stack_base h + map_size <= stack_base h' \/ stack_base h' + map_size <= stack_base h;
}.

(** A payload a caller can build: a host vector and 32-bit fields. *)
Definition init_ok (i : Init) : Prop := zlen (raw i) < 2 ^ 63 /\ is_u32 (zero_fill i) /\ is_u32 (index i).

Inductive fibers_reachable : fibers -> Prop :=
  | fr_new : fibers_reachable new_fibers
  | fr_init f i : fibers_reachable f -> init_ok i -> fibers_reachable (set_init f i)
  | fr_spawn f nm :
      fibers_reachable f -> next_handle (f_sched f) + 1 < 2 ^ 64 ->
      fibers_reachable (snd (spawn_with_tls true f nm))
  | fr_sched f s : fibers_reachable f -> sched_step (f_sched f) s -> fibers_reachable (with_sched f s)
  | fr_finish f h : fibers_reachable f -> fibers_reachable (finish_hooks f h)
  | fr_hook f h : fibers_reachable f -> fibers_reachable (add_finish_hook f h)
  | fr_write f m : fibers_reachable f -> fibers_reachable (with_mem f m).

(** A block lies in the reserved top of its own fiber's mapping. *)
Definition block_in (next : Z) (p : Z * Block) : Prop :=
  let (h, b) := p in
  0 < h < next /\ 0 <= b_size b /\ b_data b = b_array b + array_bytes /\
  stack_base h + kGuardSize + kMinUsable <= b_array b /\
  b_data b + b_size b <= stack_base h + map_size.

Record fibers_ok (f : fibers) : Prop := {
  fo_sched : handles_ok (f_sched f);
  fo_init : forall i, f_init f = Some i -> init_ok i /\ index i < kSlots;
  fo_blocks : Forall (block_in (next_handle (f_sched f))) (f_blocks f);
}.

(** ** Lemmas *)

Lemma reserve_bounds i :
  init_ok i -> init_size i = zlen (raw i) + zero_fill i /\
  array_bytes + init_size i <= reserve_of i.
Proof.
  intros (H1 & H2 & _). unfold is_u32 in H2. unfold init_size, reserve_of. rewrite u64_small by lia.
  split; [done|]. unfold init_size. rewrite (u64_small (_ + zero_fill i)) by lia.
  unfold array_bytes, kSlots. rewrite u64_small by lia.
  pose proof (align_down_bounds (64 * 8 + (zlen (raw i) + zero_fill i) + 15) 4) as H.
  unfold align_down in H. change (2 ^ 4 - 1) with 15 in H. change (2 ^ 4) with 16 in H. lia.
Qed.

(** A spawn that succeeds appends a thread with the next handle. *)
Lemma spawn_reserved_spec s nm r h s' :
  handles_ok s -> next_handle s + 1 < 2 ^ 64 -> spawn_reserved true s nm r = (h, s') ->
  (h = 0 /\ s' = s /\ kStackSize - kMinUsable < r) \/
  (h = next_handle s /\ 0 < h /\ r <= kStackSize - kMinUsable /\ next_handle s' = h + 1 /\ handles_ok s' /\
   (r <> 0 -> stack_top_reserve s' h = Some (map_size - r))).
Proof.
  intros Hok Hn. pose proof Hok as [H1 H2]. unfold spawn_reserved.
  destruct (Z.ltb_spec (kStackSize - kMinUsable) r) as [Hr|Hr]; [intros [= <- <-]; by left|].
  cbn [negb]. intros [= <- <-]. right. cbn [t_handle new_thread].
  assert (Hs : handles_ok (with_threads (with_next s (u64 (next_handle s + 1)))
                             (threads s ++ [new_thread nm (next_handle s) r]))).
  { pose proof (spawn_ok_handles s nm r Hok Hr Hn) as H. unfold spawn_reserved in H.
    by rewrite (proj2 (Z.ltb_ge _ _) Hr) in H. }
  split; [done|]. split; [lia|]. split; [done|]. split; [cbn; by rewrite u64_small by lia|].
  split; [done|]. intros H0. unfold stack_top_reserve, find. cbn [next_handle with_threads with_next threads].
  rewrite u64_small by lia. destruct (_ || _) eqn:E; [bool_facts; destruct E; bool_facts; lia|].
  replace (Z.to_nat (next_handle s - 1)) with (length (threads s)) by lia.
  rewrite list_lookup_middle by done. cbn [t_stack_reserve new_thread]. unfold map_size.
  by rewrite (proj2 (Z.eqb_neq r 0)).
Qed.

Lemma record_same f l fiber reason :
  let f' := foldl (fun f cb => record f fiber cb reason) f l in
  f_sched f' = f_sched f /\ f_mem f' = f_mem f /\ f_blocks f' = f_blocks f /\ f_init f' = f_init f /\
  f_events f' = f_events f ++ ((fun cb => MkEvent fiber cb reason) <$> l).
Proof.
  revert f; induction l as [|cb l IH]; intros f; cbn [foldl].
  - by rewrite fmap_nil, app_nil_r.
  - destruct (IH (record f fiber cb reason)) as (-> & -> & -> & -> & ->). cbn [record f_sched f_mem f_blocks f_init f_events]. by rewrite fmap_cons, <- app_assoc.
Qed.

(** The notifications of an attach: one per callback, or one without any. *)
Definition attach_events (i : Init) (fiber reason : Z) : list Event :=
  match callbacks i with
  | [] => [MkEvent fiber 0 reason]
  | cbs => (fun cb => MkEvent fiber cb reason) <$> cbs
  end.

Definition attach_reason (f : fibers) : Z :=
  if f_main_seen f then kReasonThreadAttach else kReasonProcessAttach.

(** Everything a successful spawn does. *)
Lemma spawn_with_tls_spec f nm i h f' :
  fibers_ok f -> f_init f = Some i -> next_handle (f_sched f) + 1 < 2 ^ 64 ->
  spawn_with_tls true f nm = (h, f') -> h <> 0 ->
  let top := stack_base h + map_size - reserve_of i in
  let b := MkBlock top (top + array_bytes) (init_size i) in
  h = next_handle (f_sched f) /\ 0 < h /\ reserve_of i <= kStackSize - kMinUsable /\
  next_handle (f_sched f') = h + 1 /\ handles_ok (f_sched f') /\
  f_init f' = Some i /\ f_blocks f' = f_blocks f ++ [(h, b)] /\
  f_mem f' = init_block (f_mem f) i top (top + array_bytes) /\
  f_events f' = f_events f ++ attach_events i h (attach_reason f).
Proof.
  intros [Hs Hi _] Ei Hn E Hh. cbv zeta. unfold spawn_with_tls in E. rewrite Ei in E.
  destruct (Hi i Ei) as [Hok _]. destruct (reserve_bounds i Hok) as [_ Hb].
  set (g := if f_hook_installed f then f else with_hooks f [TlsHook] true) in E.
  assert (Hg : f_sched g = f_sched f /\ f_mem g = f_mem f /\ f_blocks g = f_blocks f /\ f_init g = f_init f /\
               f_events g = f_events f /\ f_main_seen g = f_main_seen f)
    by (unfold g; by destruct (f_hook_installed f)).
  destruct Hg as (G1 & G2 & G3 & G4 & G5 & G6). rewrite G1 in E.
  destruct (spawn_reserved true (f_sched f) nm (reserve_of i)) as [h0 s'] eqn:Es. cbv zeta in E.
  destruct (spawn_reserved_spec _ _ _ _ _ Hs Hn Es) as [(-> & _)|(-> & H0 & Hr & Hn' & Hs' & Ht)].
  { by injection E as <- <-. }
  rewrite (proj2 (Z.eqb_neq (next_handle (f_sched f)) 0)) in E by lia. injection E as <- <-.
  assert (Hr0 : reserve_of i <> 0).
  { unfold array_bytes, kSlots in Hb. destruct Hok as (? & [? ?] & ?).
    unfold init_size in Hb. pose proof (u64_range (zlen (raw i) + zero_fill i)). lia. }
  set (f1 := with_main _). assert (Hf1 : f_sched f1 = s' /\ f_init f1 = Some i /\
    f_blocks f1 = f_blocks f ++ [(next_handle (f_sched f),
       MkBlock (stack_base (next_handle (f_sched f)) + map_size - reserve_of i)
         (stack_base (next_handle (f_sched f)) + map_size - reserve_of i + array_bytes) (init_size i))] /\
    f_mem f1 = init_block (f_mem f) i (stack_base (next_handle (f_sched f)) + map_size - reserve_of i)
       (stack_base (next_handle (f_sched f)) + map_size - reserve_of i + array_bytes) /\ f_events f1 = f_events f).
  { unfold f1, install. cbn [f_init with_sched f_sched]. rewrite G4, Ei, Ht by done. cbn.
    rewrite G2, G3, G5. unfold data_size. cbn. rewrite G4, Ei.
    by replace (stack_base (next_handle (f_sched f)) + (map_size - reserve_of i))
      with (stack_base (next_handle (f_sched f)) + map_size - reserve_of i) by lia. }
  clearbody f1. destruct Hf1 as (F1 & F2 & F3 & F4 & F5).
  split; [done|]. split; [done|]. split; [done|].
  unfold attach_events, attach_reason. cbn [with_sched f_main_seen]. rewrite G6.
  set (reason := if f_main_seen f then _ else _).
  destruct (callbacks i) as [|cb cbs].
  - cbn. rewrite F1, F2, F3, F4, F5. by split_and!.
  - pose proof (record_same f1 (cb :: cbs) (next_handle (f_sched f)) reason) as H. cbn [foldl] in H.
    destruct H as (-> & -> & -> & -> & ->).
    rewrite F1, F2, F3, F4, F5. by split_and!.
Qed.

(** A spawn that fails leaves everything but the hook list alone. *)
Lemma spawn_with_tls_fails f nm f' :
  fibers_ok f -> next_handle (f_sched f) + 1 < 2 ^ 64 -> spawn_with_tls true f nm = (0, f') ->
  f_sched f' = f_sched f /\ f_init f' = f_init f /\ f_blocks f' = f_blocks f /\ f_mem f' = f_mem f /\
  f_events f' = f_events f.
Proof.
  intros [Hs _ _] Hn. unfold spawn_with_tls. destruct (f_init f) as [i|] eqn:Ei; [|by intros [= <-]].
  set (g := if f_hook_installed f then f else with_hooks f [TlsHook] true).
  assert (Hg : f_sched g = f_sched f /\ f_mem g = f_mem f /\ f_blocks g = f_blocks f /\ f_init g = f_init f /\
               f_events g = f_events f) by (unfold g; by destruct (f_hook_installed f)).
  clearbody g. destruct Hg as (G1 & G2 & G3 & G4 & G5). rewrite G1. cbv zeta.
  destruct (spawn_reserved true (f_sched f) nm (reserve_of i)) as [h s'] eqn:Es.
  destruct (spawn_reserved_spec _ _ _ _ _ Hs Hn Es) as [(-> & -> & _)|(-> & H0 & _)].
  - intros [= <-]. cbn. by rewrite G2, G3, G4, G5, Ei.
  - rewrite (proj2 (Z.eqb_neq (next_handle (f_sched f)) 0)) by lia. intros [=]. lia.
Qed.

Lemma block_in_mono n n' p : n <= n' -> block_in n p -> block_in n' p.
Proof. destruct p as [h b]. unfold block_in. intros. intuition lia. Qed.

Lemma block_of_spawn i h :
  init_ok i -> 0 < h -> reserve_of i <= kStackSize - kMinUsable ->
  let top := stack_base h + map_size - reserve_of i in
  block_in (h + 1) (h, MkBlock top (top + array_bytes) (init_size i)).
Proof.
  intros Hi Hh Hr. destruct (reserve_bounds i Hi) as [E Hb]. destruct Hi as (H1 & H2 & _). unfold is_u32 in H2.
  cbn. unfold map_size. split_and!; try done; lia.
Qed.

Lemma finish_hooks_same f h :
  f_sched (finish_hooks f h) = f_sched f /\ f_init (finish_hooks f h) = f_init f /\
  f_blocks (finish_hooks f h) = f_blocks f.
Proof.
  unfold finish_hooks. generalize (f_hooks f) as l. intros l. revert f.
  induction l as [|k l IH]; intros f; cbn [foldl]; [done|].
  destruct (IH (run_hook f h k)) as (-> & -> & ->). by destruct k.
Qed.

Lemma fibers_reachable_ok f : fibers_reachable f -> fibers_ok f.
Proof.
  induction 1 as [|f i _ IH Hi|f nm _ IH Hn|f s _ IH Hst|f h _ IH|f h _ [IH1 IH2 IH3]|f m _ [IH1 IH2 IH3]].
  - split; [by split|done|constructor].
  - unfold set_init. destruct (Z.leb_spec kSlots (index i)); [done|]. destruct IH as [IH1 IH2 IH3].
    split; [done| |done]. by intros j [= <-].
  - destruct (spawn_with_tls true f nm) as [h f'] eqn:E. cbn [snd].
    destruct (decide (h = 0)) as [->|Hh].
    { destruct (spawn_with_tls_fails f nm f' IH Hn E) as (E1 & E2 & E3 & _). destruct IH as [IH1 IH2 IH3].
      split; rewrite ?E1, ?E2, ?E3; done. }
    destruct (f_init f) as [i|] eqn:Ei; [|unfold spawn_with_tls in E; rewrite Ei in E; by injection E as <- _].
    destruct (spawn_with_tls_spec f nm i h f' IH Ei Hn E Hh) as (E1 & Hp & Hr & E2 & Hs & E3 & E4 & _).
    destruct IH as [IH1 IH2 IH3]. destruct (IH2 i Ei) as [Hi Hx]. split; [done| |].
    + intros j. rewrite E3. by intros [= <-].
    + rewrite E4, E2. apply Forall_app. split.
      * eapply Forall_impl; [exact IH3|]. intros p. apply block_in_mono. lia.
      * constructor; [|constructor]. by apply block_of_spawn.
  - destruct IH as [IH1 IH2 IH3]. split; [by eapply sched_step_handles|done|].
    eapply Forall_impl; [exact IH3|]. intros p. apply block_in_mono. by apply sched_step_next.
  - destruct (finish_hooks_same f h) as (E1 & E2 & E3). destruct IH as [IH1 IH2 IH3].
    split; rewrite ?E1, ?E2, ?E3; done.
  - by split.
  - by split.
Qed.

(** ** Memory of the blocks *)

Lemma init_block_read m i array :
  init_ok i -> index i < kSlots -> array + array_bytes < 2 ^ 64 -> 0 <= array ->
  let data := array + array_bytes in
  let m' := init_block m i array data in
  mem_read m' data (zlen (raw i) + zero_fill i) = raw i ++ replicate (Z.to_nat (zero_fill i)) 0 /\
  le_val (mem_read m' (array + 8 * index i) 8) = data /\
  (forall j, 0 <= j < kSlots -> j <> index i -> le_val (mem_read m' (array + 8 * j) 8) = 0).
Proof.
  intros (H1 & H2 & H3) Hx Ha H0. cbv zeta. unfold init_block, is_u32, array_bytes, kSlots in *.
  rewrite <- mem_write_app. set (content := raw i ++ _).
  assert (Hl : zlen content = zlen (raw i) + zero_fill i)
    by (unfold content; rewrite length_app, length_replicate; lia).
  split; [rewrite <- Hl; apply mem_read_write|].
  assert (L8 : forall x, zlen (le_bytes 8 x) = 8) by (intros; by rewrite length_le_bytes).
  split.
  - rewrite mem_read_write_disjoint by lia.
    rewrite <- (L8 (array + 64 * 8)) at 2. rewrite mem_read_write, le_val_bytes. apply Z.mod_small. lia.
  - intros j Hj Hne. rewrite mem_read_write_disjoint by lia. rewrite mem_read_write_disjoint by (rewrite L8; lia).
    replace (mem_read _ _ 8) with (replicate 8 0); [done|]. apply list_nth_ext; [by rewrite length_mem_read|].
    intros k Hk. rewrite length_replicate in Hk. rewrite mem_read_nth by lia. rewrite mem_byte_write.
    rewrite decide_True by (rewrite length_replicate; lia). rewrite !nth_lookup, !lookup_replicate_2 by lia. done.
Qed.

Lemma init_block_frame m i array b n :
  init_ok i -> index i < kSlots ->
  b + n <= array \/ array + array_bytes + (zlen (raw i) + zero_fill i) <= b ->
  mem_read (init_block m i array (array + array_bytes)) b n = mem_read m b n.
Proof.
  intros (H1 & H2 & H3) Hx Hd. unfold init_block, is_u32, array_bytes, kSlots in *.
  assert (L8 : forall x, zlen (le_bytes 8 x) = 8) by (intros; by rewrite length_le_bytes).
  assert (Lr : forall k (v : Z), zlen (replicate k v) = Z.of_nat k) by (intros; by rewrite length_replicate).
  rewrite !mem_read_write_disjoint; rewrite ?L8, ?Lr; try lia. done.
Qed.

Lemma scan_data_find l fiber offset size :
  scan_data l fiber offset size =
  b ← find_block l fiber; if b_size b <? u64 (offset + size) then None else Some (b_data b + offset).
Proof. induction l as [|[h b] l IH]; cbn [scan_data find_block]; [done|]. by destruct (h =? fiber). Qed.

Lemma find_block_app l h b h' :
  find_block (l ++ [(h, b)]) h' =
  match find_block l h' with Some b' => Some b' | None => if h =? h' then Some b else None end.
Proof. induction l as [|[k c] l IH]; cbn [app find_block]; [done|]. by destruct (k =? h'). Qed.

Lemma find_block_fresh n l h : Forall (block_in n) l -> n <= h -> find_block l h = None.
Proof.
  induction 1 as [|[k b] l (Hk & _) _ IH]; intros Hn; [done|]. cbn [find_block].
  rewrite (proj2 (Z.eqb_neq k h)) by lia. by apply IH.
Qed.

(** C16. Every fiber has its own TLS, reached the way guest code reaches it. A
    fiber spawned in any reachable state finds in its array, at the module's
    index, a pointer to its data area, which holds the template followed by the
    zero fill; array and data lie in the reserved top of the fiber's own
    mapping, above at least 16 KiB of usable stack; its attach notifications
    are recorded in table order; and the array and data of every fiber spawned
    before keep their place and their contents. *)
Theorem fiber_tls_isolated (f f' : fibers) (nm : string) (i : Init) (h : Z) :
  Mappings (next_handle (f_sched f)) ->
  fibers_reachable f -> f_init f = Some i -> next_handle (f_sched f) + 1 < 2 ^ 64 ->
  spawn_with_tls true f nm = (h, f') -> h <> 0 ->
  (exists array data,
     array_of f' h = Some array /\ data_of f' h 0 (init_size i) = Some data /\
     le_val (mem_read (f_mem f') (array + 8 * index i) 8) = data /\
     mem_read (f_mem f') data (init_size i) = raw i ++ replicate (Z.to_nat (zero_fill i)) 0 /\
     stack_base h + kGuardSize + kMinUsable <= array < data /\
     data + init_size i <= stack_base h + map_size) /\
  f_events f' = f_events f ++ attach_events i h (attach_reason f) /\
  (forall h' b, (h', b) ∈ f_blocks f ->
     h' <> h /\ array_of f' h' = array_of f h' /\
     mem_read (f_mem f') (b_array b) (array_bytes + b_size b) =
     mem_read (f_mem f) (b_array b) (array_bytes + b_size b)).
Proof.
  intros Hmap Hr%fibers_reachable_ok Ei Hn E Hh.
  destruct (spawn_with_tls_spec f nm i h f' Hr Ei Hn E Hh) as (E1 & Hp & Hrs & _ & _ & _ & Eb & Em & Ee).
  destruct Hr as [Hs Hi Hb]. destruct (Hi i Ei) as [Hok Hx].
  destruct (reserve_bounds i Hok) as [Esz Hrb]. pose proof Hok as (K1 & K2 & K3). unfold is_u32 in K2.
  destruct (block_of_spawn i h Hok Hp Hrs) as (_ & _ & _ & Bl & Bh). cbn [b_array b_data b_size] in Bl, Bh.
  destruct (map_space h) as [M0 M1]; [lia|].
  set (top := stack_base h + map_size - reserve_of i) in *.
  assert (F : find_block (f_blocks f') h = Some (MkBlock top (top + array_bytes) (init_size i))).
  { by rewrite Eb, find_block_app, (find_block_fresh _ _ h Hb), Z.eqb_refl by lia. }
  unfold kGuardSize, kMinUsable in *. split; [|split; [done|]].
  - exists top, (top + array_bytes). unfold array_of, data_of. rewrite scan_data_find, F. cbn.
    destruct (init_block_read (f_mem f) i top Hok Hx) as (R1 & R2 & _); [lia|lia|].
    rewrite Em. split_and!; try done; unfold array_bytes, kSlots in *; try lia.
    + rewrite u64_small by lia. rewrite Z.ltb_irrefl. by rewrite Z.add_0_r.
    + by rewrite Esz.
  - intros h' b Hin. rewrite Forall_forall in Hb. destruct (Hb _ Hin) as (H1 & H2 & H3 & H4 & H5).
    split; [lia|]. split.
    + unfold array_of. rewrite Eb, find_block_app. destruct (find_block (f_blocks f) h'); [done|].
      by rewrite (proj2 (Z.eqb_neq h h')) by lia.
    + rewrite Em. apply init_block_frame; [done|done|]. rewrite <- Esz.
      destruct (map_apart h h') as [Ha|Ha]; [lia|lia|lia|right|left]; unfold kGuardSize, kMinUsable in *; lia.
Qed.

End memory.

(** ** Concrete runs *)

(** Fiber [h] gets the [h]-th slice of a megabyte each. *)
Definition demo_base (h : Z) : Z := 2 ^ 20 * h.
Definition demo_init : Init := MkInit [1; 2; 3] 5 0 [0x11000; 0x12000].
Definition demo_fibers : fibers := snd (spawn_with_tls demo_base true (set_init new_fibers demo_init) "main").

Lemma demo_reachable_fibers : fibers_reachable demo_base demo_fibers.
Proof.
  apply fr_spawn; [|vm_compute; reflexivity]. apply fr_init; [constructor|].
  split_and!; [done|split; done|split; done].
Defined.

Lemma demo_mappings n : n < 2 ^ 40 -> Mappings demo_base n.
Proof. intros Hn. split; unfold demo_base, map_size, kGuardSize, kStackSize; lia. Defined.

(** A second fiber beside the main one. *)
Lemma fiber_tls_isolated_witness :
  let f' := snd (spawn_with_tls demo_base true demo_fibers "worker") in
  (exists array data, array_of f' 2 = Some array /\ data_of f' 2 0 8 = Some data /\
     le_val (mem_read (f_mem f') (array + 8 * 0) 8) = data /\
     mem_read (f_mem f') data 8 = [1; 2; 3; 0; 0; 0; 0; 0]) /\
  f_events f' = [MkEvent 1 0x11000 1; MkEvent 1 0x12000 1; MkEvent 2 0x11000 2; MkEvent 2 0x12000 2].
Proof.
  cbv zeta. destruct (fiber_tls_isolated demo_base demo_fibers (snd (spawn_with_tls demo_base true demo_fibers "worker"))
              "worker" demo_init 2) as ((array & data & H1 & H2 & H3 & H4 & _) & He & _).
  - apply demo_mappings. vm_compute. reflexivity.
  - apply demo_reachable_fibers.
  - vm_compute. reflexivity.
  - vm_compute. reflexivity.
  - rewrite (surjective_pairing (spawn_with_tls demo_base true demo_fibers "worker")) at 1.
    f_equal.
  - discriminate.
  - split; [exists array, data; split_and!; [exact H1|exact H2|exact H3|exact H4]|exact He].
Defined.

(** The bounds check of [data_of] adds at 64 bits: an offset just below 2^64
    passes for any block, and the pointer lies outside it. *)
Example data_of_offset_wraps : data_of demo_fibers 1 (2 ^ 64 - 16) 16 = Some (2 ^ 64 + demo_base 1 + map_size - 32).
Proof. vm_compute. reflexivity. Qed.

(** The first TLS spawn replaces the scheduler's finish hooks, so an observer
    added before (the kernel's abandonment of a finished thread's mutants) no
    longer runs; and the detach notification carries no callback even when the
    attach had two. *)
Example first_spawn_drops_other_hooks :
  let f := set_init (add_finish_hook new_fibers (OtherHook 7)) demo_init in
  f_hooks f = [OtherHook 7] /\ f_hooks (snd (spawn_with_tls demo_base true f "main")) = [TlsHook] /\
  drop 2 (f_events (finish_hooks demo_fibers 1)) = [MkEvent 1 0 3].
Proof. vm_compute. split_and!; reflexivity. Qed.

End FiberTls.
