(* ===== verification/VkLog.v ===== *)
(** Vulkan as the code of this repository uses it. Vulkan itself is not part of
    the repository: whether each call that can fail succeeds is a parameter (one
    answer per call), a creation that succeeds returns a handle not given out
    before, and every call is appended to a log, on which the lifetime rules of
    the objects are stated: an object is used and destroyed only while it is
    live. *)
From stdpp Require Import base numbers list gmap strings.
From Stdlib Require Import ZArith Lia.
From S2P Require Import Prelude.
Open Scope Z_scope.

Module VkLog.

(** Creations, destructions, and calls that use live objects, with what else
    they are given. Every object a call names is among its handles. *)
Inductive vkcall :=
  | Create (kind : string) (h : Z)
  | Destroy (kind : string) (h : Z)
  | Use (name : string) (handles data : list Z).

Definition BeginCmd (cmd : Z) : vkcall := Use "vkBeginCommandBuffer" [cmd] [].
Definition EndCmd (cmd : Z) : vkcall := Use "vkEndCommandBuffer" [cmd] [].
Definition CmdCopy (cmd src dst size : Z) : vkcall := Use "vkCmdCopyBuffer" [cmd; src; dst] [size].
Definition QueueSubmit (cmd fence : Z) : vkcall := Use "vkQueueSubmit" [cmd; fence] [].
Definition WaitFence (fence : Z) (signalled : bool) : vkcall :=
  Use "vkWaitForFences" [fence] [if signalled then 1 else 0].

Record vkst := MkVk { vk_count : nat; vk_next : Z; vk_log : list vkcall }.

Definition log_call (v : vkst) (c : vkcall) : vkst := MkVk (vk_count v) (vk_next v) (vk_log v ++ [c]).

Section vulkan.
Context (answers : nat -> bool).

(** A call that creates an object: its handle when it succeeds. *)
Definition vk_create (v : vkst) (kind : string) : option Z * vkst :=
  let v' := MkVk (S (vk_count v)) (vk_next v) (vk_log v) in
  if answers (vk_count v)
  then (Some (vk_next v), log_call (MkVk (vk_count v') (vk_next v + 1) (vk_log v)) (Create kind (vk_next v)))
  else (None, v').

(** Any other call with a result. *)
Definition vk_call (v : vkst) (c : vkcall) : bool * vkst :=
  (answers (vk_count v), log_call (MkVk (S (vk_count v)) (vk_next v) (vk_log v)) c).

Definition vk_destroy (v : vkst) (kind : string) (h : option Z) : vkst :=
  match h with Some h => log_call v (Destroy kind h) | None => v end.

(** The fence round trip of a submission: create, submit, wait, destroy. *)
Definition fence_submit (v : vkst) (c : Z) : bool * vkst :=
  let (f, v) := vk_create v "fence" in
  match f with
  | None => (false, v)
  | Some f' =>
      let (sent, v) := vk_call v (QueueSubmit c f') in
      let (ok, v) := if sent then let ok := answers (vk_count v) in vk_call v (WaitFence f' ok) else (false, v) in
      (ok, vk_destroy v "fence" f)
  end.

(** ** Lifetimes *)

(** One call against the set of live objects: creating gives a new object,
    destroying and using need a live one. *)
Definition vk_step (st : gset Z * bool) (c : vkcall) : gset Z * bool :=
  let (live, ok) := st in
  let isin h := bool_decide (h ∈ live) in
  match c with
  | Create _ h => ({[h]} ∪ live, ok && negb (isin h))
  | Destroy _ h => (live ∖ {[h]}, ok && isin h)
  | Use _ hs _ => (live, ok && forallb isin hs)
  end.
Definition replay (log : list vkcall) : gset Z * bool := foldl vk_step (∅, true) log.

Definition opt_list (o : option Z) : list Z := match o with Some h => [h] | None => [] end.

(** Every call so far was legal and exactly the objects of [L] are live. *)
Record good (v : vkst) (L : list Z) : Prop := {
  g_replay : replay (vk_log v) = (list_to_set L, true);
  g_fresh : Forall (fun h => h < vk_next v) L;
  g_nodup : NoDup L;
}.

#[export] Instance good_proper : Proper (eq ==> (≡ₚ) ==> iff) good.
Proof.
  intros v ? <- L L' HL. split; intros [H1 H2 H3]; split; rewrite ?HL in *; try done; rewrite <- ?HL; try done.
Qed.

Lemma replay_app log c : replay (log ++ [c]) = vk_step (replay log) c.
Proof. unfold replay. by rewrite foldl_app. Qed.

Lemma good_create v L kind :
  good v L ->
  match vk_create v kind with
  | (Some h, v') => good v' (h :: L)
  | (None, v') => good v' L
  end.
Proof.
  intros [H1 H2 H3]. unfold vk_create. destruct (answers _); [|by split].
  assert (Hn : vk_next v ∉ L).
  { intros Hin. rewrite Forall_forall in H2. specialize (H2 _ Hin). lia. }
  split; cbn [log_call vk_log vk_next].
  - rewrite replay_app, H1. cbn. by rewrite bool_decide_false by set_solver.
  - constructor; [lia|]. eapply Forall_impl; [exact H2|]. intros h. cbn. lia.
  - by constructor.
Qed.

Lemma good_destroy v L kind h : good v (h :: L) -> good (vk_destroy v kind (Some h)) L.
Proof.
  intros [H1 H2 H3]. apply NoDup_cons in H3 as [Hn H3]. apply Forall_cons in H2 as [_ H2].
  split; cbn [vk_destroy log_call vk_log vk_next]; [|done|done].
  rewrite replay_app, H1. cbn. rewrite bool_decide_true by set_solver. f_equal. set_solver.
Qed.

Lemma good_destroy_opt v L kind o : good v (opt_list o ++ L) -> good (vk_destroy v kind o) L.
Proof. destruct o; [apply good_destroy|done]. Qed.

(** Calls that only use objects. *)
Definition uses (c : vkcall) : option (list Z) :=
  match c with Use _ hs _ => Some hs | _ => None end.

Lemma good_use v L c hs : good v L -> uses c = Some hs -> hs ⊆ L -> good (log_call v c) L.
Proof.
  intros [H1 H2 H3] Hu Hs. split; cbn [log_call vk_log vk_next]; [|done|done].
  rewrite replay_app, H1. destruct c as [| |name hs' data]; try done. injection Hu as ->. cbn [vk_step].
  replace (forallb _ hs) with true; [done|]. symmetry. apply forallb_forall. intros h Hh%list_elem_of_In.
  apply bool_decide_true. set_solver.
Qed.

Lemma good_call v L c hs : good v L -> uses c = Some hs -> hs ⊆ L -> good (snd (vk_call v c)) L.
Proof. intros [H1 H2 H3] Hu Hs. by apply (good_use (MkVk _ _ _) L c hs). Qed.

Lemma fence_submit_good v L c : good v (c :: L) -> good (snd (fence_submit v c)) (c :: L).
Proof.
  intros Hg. unfold fence_submit. pose proof (good_create v _ "fence" Hg) as H1.
  destruct (vk_create v "fence") as [[f|] v1]; [|done].
  pose proof (good_call v1 _ (QueueSubmit c f) [c; f] H1 eq_refl ltac:(set_solver)) as H2.
  unfold vk_call in H2 |- *. cbn [snd] in H2. destruct (answers _); [|by apply (good_destroy _ _ "fence") in H2].
  set (v2 := log_call _ _) in *.
  pose proof (good_call v2 _ (WaitFence f (answers (vk_count v2))) [f] H2 eq_refl ltac:(set_solver)) as H3.
  unfold vk_call in H3. cbn [snd] in H3 |- *. by apply (good_destroy _ _ "fence") in H3.
Qed.

End vulkan.
End VkLog.
