(* ===== verification/GpuBatch.v ===== *)
(** The root-signature batch ([class GpuBatch], src/gpu_batch.cpp): root
    parameters, buffers registered by address, recording and submission, and
    the Vulkan objects it owns, over the call log of VkLog.v. *)
From stdpp Require Import base numbers list gmap strings.
From Stdlib Require Import ZArith Lia.
From S2P Require Import Prelude XbeRam MemMap GpuStub VkLog.
Open Scope Z_scope.

Module GpuBatch.
Import VkLog.

(** ** Calls of the batch *)

Definition AllocSet (pool layout : Z) : vkcall := Use "vkAllocateDescriptorSets" [pool; layout] [].
Definition UpdateSet (set binding buf range : Z) : vkcall :=
  Use "vkUpdateDescriptorSets" [set; buf] [binding; range].

Section vulkan.
Context (answers : nat -> bool).

Notation vk_create := (vk_create answers).
Notation vk_call := (vk_call answers).
Notation fence_submit := (fence_submit answers).
Notation good_create := (good_create answers).
Notation good_call := (good_call answers).
Notation fence_submit_good := (fence_submit_good answers).

(** ** The batch *)

Inductive RootParamType := Constants32 | Cbv | Table.
#[export] Instance RootParamType_eq_dec : EqDecision RootParamType.
Proof. solve_decision. Defined.

Record RootParam := MkRoot { rp_type : RootParamType; rp_count : Z }.

Record VulkanBuffer := MkBuf { vb_buf : Z; vb_size : Z; vb_fast : bool; vb_valid : bool }.

(** [b_dev]: [dev_] is set (and the device it points to is alive). A binding
    holds the identity of a buffer object; what it holds is looked up when it
    is used. *)
Record batch := MkBatch {
  b_dev : bool;
  b_mem : option MemMap.memmap;
  b_bindings : list (Z * Z);
  b_params : list RootParam;
  b_layout : option Z;
  b_pipeline : option Z;
  b_pool : option Z;
  b_set : option Z;
  b_cmd : option Z;
  b_push : list Z;
  b_push_size : Z;
  b_uniform : Z;
  b_submits : Z;
  b_fence : Z;
  b_valid : bool;
}.

Definition new_batch : batch := MkBatch false None [] [] None None None None None [] 0 0 0 0 false.

(** [vkDestroyDescriptorPool]: the set allocated from the pool goes with it. *)
Definition destroy_pool (v : vkst) (pool set : option Z) : vkst :=
  vk_destroy (vk_destroy v "set" set) "pool" pool.

(** With no device the handles are only forgotten. [submits_] survives. *)
Definition shutdown (b : batch) (v : vkst) : batch * vkst :=
  let v := if b_dev b
           then vk_destroy (vk_destroy (destroy_pool (vk_destroy v "cmd" (b_cmd b)) (b_pool b) (b_set b))
                              "set_layout" (b_layout b)) "pipeline_layout" (b_pipeline b)
           else v in
  (MkBatch false None [] [] None None None None None [] 0 0 (b_submits b) 0 false, v).

(** The validation loop over the root parameters: push constants and bindings. *)
Fixpoint count_params (l : list RootParam) (push bindings : Z) : option (Z * Z) :=
  match l with
  | [] => Some (push, bindings)
  | p :: l' =>
      if bool_decide (rp_type p = Constants32)
      then if (rp_count p =? 0) || (32 <? rp_count p) then None
           else count_params l' (u32 (push + rp_count p)) bindings
      else if (rp_count p =? 0) || (16 <? rp_count p) then None
           else count_params l' push (u32 (bindings + rp_count p))
  end.

Definition with_handles (b : batch) layout pool set pipeline : batch :=
  MkBatch (b_dev b) (b_mem b) (b_bindings b) (b_params b) layout pipeline pool set (b_cmd b)
          (b_push b) (b_push_size b) (b_uniform b) (b_submits b) (b_fence b) (b_valid b).

Definition fail_init (b : batch) (v : vkst) : bool * batch * vkst :=
  let (b, v) := shutdown b v in (false, b, v).

(** The pipeline layout, then the push constants: the end of [init]. *)
Definition init_pipeline (b : batch) (v : vkst) (push bindings : Z) : bool * batch * vkst :=
  let (h, v) := vk_create v "pipeline_layout" in
  let b := with_handles b (b_layout b) (b_pool b) (b_set b) h in
  match h with
  | None => fail_init b v
  | Some _ =>
      (true, MkBatch (b_dev b) (b_mem b) (b_bindings b) (b_params b) (b_layout b) (b_pipeline b) (b_pool b)
               (b_set b) (b_cmd b) (replicate (Z.to_nat push) 0) push bindings (b_submits b) (b_fence b) true, v)
  end.

(** [vkAllocateDescriptorSets] for one set. *)
Definition alloc_set (v : vkst) (pool layout : Z) : option Z * vkst :=
  vk_create (log_call v (AllocSet pool layout)) "set".

(** One UNIFORM_BUFFER binding per descriptor; none when only constants. *)
Definition init_sets (b : batch) (v : vkst) (push bindings : Z) : bool * batch * vkst :=
  if bindings =? 0 then init_pipeline b v push bindings
  else
    let (l, v) := vk_create v "set_layout" in
    let b := with_handles b l None None None in
    match l with
    | None => fail_init b v
    | Some l' =>
        let (p, v) := vk_create v "pool" in
        let b := with_handles b l p None None in
        match p with
        | None => fail_init b v
        | Some p' =>
            let (set, v) := alloc_set v p' l' in
            let b := with_handles b l p set None in
            match set with
            | Some _ => init_pipeline b v push bindings
            | None => fail_init b v
            end
        end
    end.

Definition init (b : batch) (v : vkst) (dev_valid : bool) (params : list RootParam) : bool * batch * vkst :=
  let (b, v) := shutdown b v in
  if negb dev_valid || (zlen params =? 0) || (16 <? zlen params) then (false, b, v)
  else match count_params params 0 0 with
       | None => (false, b, v)
       | Some (push, bindings) =>
           if (32 <? push) || (16 <? bindings) then (false, b, v)
           else init_sets (MkBatch true (b_mem b) (b_bindings b) params None None None None None
                             (b_push b) (b_push_size b) (b_uniform b) (b_submits b) (b_fence b) false)
                          v push bindings
       end.

Definition attach_mem (b : batch) (m : option MemMap.memmap) : batch :=
  MkBatch (b_dev b) m (b_bindings b) (b_params b) (b_layout b) (b_pipeline b) (b_pool b) (b_set b) (b_cmd b)
          (b_push b) (b_push_size b) (b_uniform b) (b_submits b) (b_fence b) (b_valid b).
Definition with_bindings (b : batch) l : batch :=
  MkBatch (b_dev b) (b_mem b) l (b_params b) (b_layout b) (b_pipeline b) (b_pool b) (b_set b) (b_cmd b)
          (b_push b) (b_push_size b) (b_uniform b) (b_submits b) (b_fence b) (b_valid b).
Definition with_cmd (b : batch) c : batch :=
  MkBatch (b_dev b) (b_mem b) (b_bindings b) (b_params b) (b_layout b) (b_pipeline b) (b_pool b) (b_set b) c
          (b_push b) (b_push_size b) (b_uniform b) (b_submits b) (b_fence b) (b_valid b).
Definition with_push (b : batch) l : batch :=
  MkBatch (b_dev b) (b_mem b) (b_bindings b) (b_params b) (b_layout b) (b_pipeline b) (b_pool b) (b_set b) (b_cmd b)
          l (b_push_size b) (b_uniform b) (b_submits b) (b_fence b) (b_valid b).
Definition with_fence (b : batch) n f : batch :=
  MkBatch (b_dev b) (b_mem b) (b_bindings b) (b_params b) (b_layout b) (b_pipeline b) (b_pool b) (b_set b) (b_cmd b)
          (b_push b) (b_push_size b) (b_uniform b) n f (b_valid b).

(** ** Buffers by address *)

Fixpoint find_binding (l : list (Z * Z)) (gpa : Z) : option Z :=
  match l with
  | [] => None
  | (g, i) :: l' => if g =? gpa then Some i else find_binding l' gpa
  end.

Definition register_buffer `{HostOS} (bufs : Z -> VulkanBuffer) (b : batch) (gpa id : Z) : bool * batch :=
  let buf := bufs id in
  if negb (vb_valid buf) || (vb_size buf =? 0) then (false, b)
  else if UINT32_MAX <? vb_size buf then (false, b)
  else
    let allowed :=
      match b_mem b with
      | Some m =>
          MemMap.in_range gpa (vb_size buf) && MemMap.is_committed m gpa (vb_size buf) &&
          negb (vb_fast buf && negb (MemMap.is_fast gpa))
      | None => true
      end in
    if negb allowed then (false, b)
    else match find_binding (b_bindings b) gpa with
         | Some _ => (false, b)
         | None => (true, with_bindings b (b_bindings b ++ [(gpa, id)]))
         end.

Fixpoint erase_binding (l : list (Z * Z)) (gpa : Z) : list (Z * Z) :=
  match l with
  | [] => []
  | (g, i) :: l' => if g =? gpa then l' else (g, i) :: erase_binding l' gpa
  end.
Definition unregister_buffer (b : batch) (gpa : Z) : batch :=
  with_bindings b (erase_binding (b_bindings b) gpa).

(** ** Recording *)

Definition begin (b : batch) (v : vkst) : bool * batch * vkst :=
  match b_cmd b with
  | Some _ => (false, b, v)
  | None =>
      if negb (b_valid b) then (false, b, v)
      else
        let (c, v) := vk_create v "cmd" in
        match c with
        | None => (false, b, v)
        | Some c' =>
            let (ok, v) := vk_call v (BeginCmd c') in
            if ok then (true, with_cmd b c, v)
            else (false, b, vk_destroy v "cmd" c)
        end
  end.

(** Counts of the parameters of one kind before a root index. *)
Definition sum_before (const : bool) (l : list RootParam) (root_index : Z) : Z :=
  foldl (fun n p => if bool_decide (rp_type p = Constants32) then (if const then u32 (n + rp_count p) else n)
                    else (if const then n else u32 (n + rp_count p)))
        0 (take (Z.to_nat root_index) l).

Definition bind (b : batch) (v : vkst) (root_index : Z) (buf : VulkanBuffer) : bool * vkst :=
  if negb (b_valid b) || (zlen (b_params b) <=? root_index) || negb (vb_valid buf) then (false, v)
  else match b_params b !! Z.to_nat root_index with
       | None => (false, v)
       | Some p =>
           if bool_decide (rp_type p = Constants32) then (false, v)
           else match b_set b with
                | None => (false, v)
                | Some set =>
                    let binding := sum_before false (b_params b) root_index in
                    if b_uniform b <=? binding then (false, v)
                    else (true, log_call v (UpdateSet set binding (vb_buf buf) (vb_size buf)))
                end
       end.

(** [vals] is [None] when null, else the values that follow the pointer. *)
Definition push (b : batch) (root_index : Z) (vals : option (list Z)) (count : Z) : outcome (bool * batch) :=
  match vals with
  | None => Ok (false, b)
  | Some vals =>
      if negb (b_valid b) || (zlen (b_params b) <=? root_index) then Ok (false, b)
      else match b_params b !! Z.to_nat root_index with
           | None => Ok (false, b)
           | Some p =>
               if negb (bool_decide (rp_type p = Constants32)) || negb (count =? rp_count p) then Ok (false, b)
               else
                 let offset := sum_before true (b_params b) root_index in
                 if zlen (b_push b) <? u32 (offset + count) then Ok (false, b)
                 else if zlen vals <? count then Ub "read past the pushed values"
                 else Ok (true, with_push b (take (Z.to_nat offset) (b_push b) ++ take (Z.to_nat count) vals ++
                                             drop (Z.to_nat (offset + count)) (b_push b)))
           end
  end.

Definition copy (b : batch) (v : vkst) (dst src : VulkanBuffer) : bool * vkst :=
  match b_cmd b with
  | None => (false, v)
  | Some c =>
      if negb (b_valid b) then (false, v)
      else if negb (vb_valid dst) || negb (vb_valid src) || negb (vb_size dst =? vb_size src) then (false, v)
      else (true, log_call v (CmdCopy c (vb_buf src) (vb_buf dst) (vb_size src)))
  end.

Definition bind_gpa (bufs : Z -> VulkanBuffer) (b : batch) (v : vkst) (root_index gpa : Z) : bool * vkst :=
  match find_binding (b_bindings b) gpa with
  | None => (false, v)
  | Some id => bind b v root_index (bufs id)
  end.

Definition copy_gpa (bufs : Z -> VulkanBuffer) (b : batch) (v : vkst) (dst_gpa src_gpa size : Z) : bool * vkst :=
  if size =? 0 then (false, v)
  else match find_binding (b_bindings b) dst_gpa, find_binding (b_bindings b) src_gpa with
       | Some d, Some s =>
           if negb (vb_size (bufs d) =? vb_size (bufs s)) then (false, v)
           else if negb (size =? vb_size (bufs d)) then (false, v)
           else copy b v (bufs d) (bufs s)
       | _, _ => (false, v)
       end.

Definition submit_fence (b : batch) (v : vkst) (log : option GpuStub.gpu) (fence_value : Z)
    : bool * batch * vkst * option GpuStub.gpu :=
  if fence_value <=? b_fence b then (false, b, v, log)
  else match b_cmd b with
       | None => (false, b, v, log)
       | Some c =>
           if negb (b_valid b) then (false, b, v, log)
           else
             let (ended, v) := vk_call v (EndCmd c) in
             if negb ended then (false, b, v, log)
             else
               let (ok, v) := fence_submit v c in
               let v := vk_destroy v "cmd" (Some c) in
               let b := with_cmd b None in
               if ok then
                 let n := u64 (b_submits b + 1) in
                 (true, with_fence b n fence_value, v,
                  (fun g => GpuStub.submit g (GpuStub.MkGpuPacket 10 (b_push_size b) (u32 n))) <$> log)
               else (false, b, v, log)
       end.

Definition submit (b : batch) (v : vkst) (log : option GpuStub.gpu) : bool * batch * vkst * option GpuStub.gpu :=
  submit_fence b v log (u64 (b_fence b + 1)).

(** ** Ownership *)

(** The objects a batch owns, in the order [shutdown] releases them. *)
Definition held (b : batch) : list Z :=
  opt_list (b_cmd b) ++ opt_list (b_set b) ++ opt_list (b_pool b) ++ opt_list (b_layout b) ++ opt_list (b_pipeline b).

(** A batch that owns what is live, beside the objects [L] of its surroundings,
    and owns nothing without a device. *)
Record owns (L : list Z) (b : batch) (v : vkst) : Prop := {
  o_good : good v (held b ++ L);
  o_dev : b_dev b = false -> held b = [];
  o_valid : b_valid b = true -> b_dev b = true;
}.

Lemma shutdown_releases L b v : owns L b v -> good (snd (shutdown b v)) L.
Proof.
  intros [H1 H2 _]. unfold shutdown. cbn [snd]. destruct (b_dev b).
  - unfold held in H1. rewrite <- !app_assoc in H1. unfold destroy_pool. by do 5 apply good_destroy_opt.
  - by rewrite H2 in H1.
Qed.

Lemma shutdown_owns L b v : owns L b v -> owns L (fst (shutdown b v)) (snd (shutdown b v)).
Proof. intros H. split; [by apply shutdown_releases|done|done]. Qed.

Lemma fail_init_owns L b v : owns L b v -> let '(_, b', v') := fail_init b v in owns L b' v'.
Proof. intros H%shutdown_owns. unfold fail_init. by destruct (shutdown b v). Qed.

Lemma init_pipeline_owns L b v push bindings :
  good v (held b ++ L) -> b_dev b = true -> b_cmd b = None -> b_pipeline b = None ->
  let '(_, b', v') := init_pipeline b v push bindings in owns L b' v'.
Proof.
  intros Hg Hd Hc Hp. unfold init_pipeline. pose proof (good_create v _ "pipeline_layout" Hg) as H.
  unfold held in H. rewrite Hc, Hp in H. cbn [opt_list app] in H. rewrite app_nil_r in H.
  destruct (vk_create v "pipeline_layout") as [[h|] v1].
  - split; [|cbn; by rewrite Hd|done]. unfold held. cbn. rewrite Hc. cbn.
    eapply (good_proper v1 v1 eq_refl); [|exact H]. solve_Permutation.
  - apply fail_init_owns. split; [|cbn; by rewrite Hd|done]. unfold held. cbn. rewrite Hc. cbn. by rewrite app_nil_r.
Qed.

(** A new batch state that has a device and descriptor objects. *)
Lemma descriptors_own L b v l p set :
  b_dev b = true -> b_cmd b = None -> good v ((opt_list set ++ opt_list p ++ opt_list l) ++ L) ->
  owns L (with_handles b l p set None) v.
Proof.
  intros Hd Hc H. split; [|cbn; by rewrite Hd|done]. unfold held. cbn. rewrite Hc. cbn. by rewrite app_nil_r.
Qed.

Lemma init_sets_owns L b v push bindings :
  b_dev b = true -> held b = [] -> good v L ->
  let '(_, b', v') := init_sets b v push bindings in owns L b' v'.
Proof.
  intros Hd Hh Hg. assert (Hn : b_cmd b = None /\ b_pipeline b = None).
  { unfold held in Hh. destruct (b_cmd b), (b_set b), (b_pool b), (b_layout b), (b_pipeline b); done. }
  destruct Hn as [Hc Hp]. unfold init_sets. destruct (bindings =? 0).
  { apply init_pipeline_owns; try done. by rewrite Hh. }
  pose proof (good_create v _ "set_layout" Hg) as H1.
  destruct (vk_create v "set_layout") as [[l|] v1]; [|by apply fail_init_owns, descriptors_own].
  pose proof (good_create v1 _ "pool" H1) as H2.
  destruct (vk_create v1 "pool") as [[q|] v2]; [|by apply fail_init_owns, (descriptors_own L b v2 (Some l) None None)].
  unfold alloc_set. pose proof (good_use v2 _ (AllocSet q l) [q; l] H2 eq_refl ltac:(set_solver)) as H3.
  pose proof (good_create _ _ "set" H3) as H4.
  destruct (vk_create _ "set") as [[s|] v3].
  - apply init_pipeline_owns; try done. by apply (descriptors_own L b v3 (Some l) (Some q) (Some s)).
  - by apply fail_init_owns, (descriptors_own L b v3 (Some l) (Some q) None).
Qed.

Lemma init_owns L b v dev_valid params :
  owns L b v -> let '(_, b', v') := init b v dev_valid params in owns L b' v'.
Proof.
  intros H. pose proof (shutdown_owns L b v H) as Ho. pose proof (shutdown_releases L b v H) as Hr.
  unfold init. destruct (shutdown b v) as [b1 v1]. cbn [fst snd] in *.
  destruct (_ || _); [done|]. destruct (count_params params 0 0) as [[push bindings]|]; [|done].
  destruct (_ || _); [done|]. by apply init_sets_owns.
Qed.

Lemma begin_owns L b v : owns L b v -> let '(_, b', v') := begin b v in owns L b' v'.
Proof.
  intros Ho. pose proof Ho as [Hg Hd Hv]. unfold begin. destruct (b_cmd b) eqn:Ec; [done|].
  destruct (b_valid b) eqn:Ev; cbn [negb]; [|done]. specialize (Hv eq_refl).
  pose proof (good_create v _ "cmd" Hg) as H1.
  destruct (vk_create v "cmd") as [[c|] v1]; [|by split].
  pose proof (good_call v1 _ (BeginCmd c) [c] H1 eq_refl ltac:(set_solver)) as H2.
  unfold vk_call in H2 |- *. cbn [snd] in H2. destruct (answers _).
  - split; cbn; [|by rewrite Hv|done]. unfold held in H2 |- *. by rewrite Ec in H2.
  - apply good_destroy with (kind := "cmd") in H2. by split.
Qed.

Lemma submit_fence_owns L b v log n :
  owns L b v -> let '(_, b', v', _) := submit_fence b v log n in owns L b' v'.
Proof.
  intros Ho. pose proof Ho as [Hg Hd Hv]. unfold submit_fence. destruct (_ <=? _); [done|].
  destruct (b_cmd b) as [c|] eqn:Ec; [|done]. destruct (b_valid b) eqn:Ev; cbn [negb]; [|done].
  specialize (Hv eq_refl).
  assert (Eh : held b = c :: held (with_cmd b None)) by (unfold held; by rewrite Ec). rewrite Eh in Hg.
  pose proof (good_call v _ (EndCmd c) [c] Hg eq_refl ltac:(set_solver)) as H2.
  unfold vk_call in H2 |- *. cbn [snd] in H2. destruct (answers _); cbn [negb].
  2:{ split; [by rewrite Eh|done|done]. }
  apply fence_submit_good in H2. destruct (fence_submit _ c) as [ok v1]. cbn [snd] in H2.
  apply good_destroy with (kind := "cmd") in H2.
  destruct ok; split; try done; cbn; by rewrite Hv.
Qed.

(** A buffer marked valid has a live handle. *)
Definition live_buf (L : list Z) (buf : VulkanBuffer) : Prop := vb_valid buf = true -> vb_buf buf ∈ L.

Lemma bind_good L b v r buf : owns L b v -> live_buf L buf -> good (snd (bind b v r buf)) (held b ++ L).
Proof.
  intros [H _ _] Hb. unfold bind. destruct (_ || _) eqn:E; [done|]. apply orb_false_iff in E as [_ E].
  apply negb_false_iff in E. specialize (Hb E). destruct (b_params b !! _); [|done]. destruct (bool_decide _); [done|].
  destruct (b_set b) as [s|] eqn:Es; [|done]. destruct (_ <=? _); [done|]. cbn [snd].
  apply (good_use _ _ _ [s; vb_buf buf]); [done|done|]. unfold held. rewrite Es. set_solver.
Qed.

Lemma copy_good L b v dst src :
  owns L b v -> live_buf L dst -> live_buf L src -> good (snd (copy b v dst src)) (held b ++ L).
Proof.
  intros [H _ _] Hd Hs. unfold copy. destruct (b_cmd b) as [c|] eqn:Ec; [|done]. destruct (negb _); [done|].
  destruct (_ || _) eqn:E; [done|]. apply orb_false_iff in E as [E _]. apply orb_false_iff in E as [E1 E2].
  apply negb_false_iff in E1, E2. specialize (Hd E1). specialize (Hs E2). cbn [snd].
  apply (good_use _ _ _ [c; vb_buf src; vb_buf dst]); [done|done|]. unfold held. rewrite Ec. set_solver.
Qed.

(** ** The root layout *)

(** Total of the parameters of one kind. *)
Definition total (const : bool) (l : list RootParam) : Z :=
  foldr (fun p n => (if bool_decide (rp_type p = Constants32)
                     then (if const then rp_count p else 0) else (if const then 0 else rp_count p)) + n) 0 l.

Definition param_ok (p : RootParam) : Prop := 0 < rp_count p <= 32.

Lemma total_app const l1 l2 : total const (l1 ++ l2) = total const l1 + total const l2.
Proof. induction l1 as [|p l1 IH]; cbn [app total foldr]; [done|]. fold (total const (l1 ++ l2)). fold (total const l1). lia. Qed.

Lemma total_nonneg const l : Forall param_ok l -> 0 <= total const l <= 32 * zlen l.
Proof.
  induction 1 as [|p l [H1 H2] _ IH]; [cbn; lia|]. cbn [total foldr length]. fold (total const l).
  destruct (bool_decide _), const; lia.
Qed.

Lemma count_params_exact l push bindings n m :
  0 <= push -> 0 <= bindings -> push + 32 * zlen l < 2 ^ 32 -> bindings + 32 * zlen l < 2 ^ 32 ->
  Forall (fun p => is_u32 (rp_count p)) l ->
  count_params l push bindings = Some (n, m) ->
  Forall param_ok l /\ n = push + total true l /\ m = bindings + total false l.
Proof.
  intros H1 H2 H3 H4 Hl. revert push bindings H1 H2 H3 H4. unfold is_u32 in Hl.
  induction Hl as [|p l Hp _ IH]; intros push bindings H1 H2 H3 H4; cbn [count_params length] in *.
  { intros [= <- <-]. cbn. split; [constructor|lia]. }
  cbn [total foldr]. fold (total true l) (total false l).
  destruct (bool_decide _); (destruct (_ || _) eqn:E; [done|]); bool_facts; rewrite u32_small by lia;
    (intros HE; apply IH in HE as (F & -> & ->); [|lia..]);
    (split; [constructor; [split; lia|done]|lia]).
Qed.

Lemma sum_before_exact const l r :
  Forall param_ok l -> 32 * zlen l < 2 ^ 32 -> sum_before const l r = total const (take (Z.to_nat r) l).
Proof.
  intros Hl Hn. unfold sum_before.
  assert (H : forall l acc, Forall param_ok l -> 0 <= acc -> acc + 32 * zlen l < 2 ^ 32 ->
    foldl (fun n p => if bool_decide (rp_type p = Constants32) then (if const then u32 (n + rp_count p) else n)
                      else (if const then n else u32 (n + rp_count p))) acc l = acc + total const l).
  { clear. induction l as [|p l IH]; intros acc Hl Ha Hb; cbn [foldl length total foldr] in *; [lia|].
    apply Forall_cons in Hl as [[Hp1 Hp2] Hl]. fold (total const l).
    destruct (bool_decide _), const; rewrite ?u32_small by lia; rewrite IH by (done || lia); lia. }
  rewrite H; [lia|by apply Forall_take|lia|]. rewrite length_take. lia.
Qed.

(** The layout facts a valid batch carries. *)
Record layout_ok (b : batch) : Prop := {
  lay_params : b_valid b = true -> Forall param_ok (b_params b) /\ zlen (b_params b) <= 16;
  lay_push : b_valid b = true -> zlen (b_push b) = total true (b_params b) /\ b_push_size b = total true (b_params b);
  lay_uniform : b_valid b = true -> b_uniform b = total false (b_params b);
  lay_set : b_valid b = true -> 0 < b_uniform b -> is_Some (b_set b);
}.

Lemma total_slice const l (r : nat) p :
  l !! r = Some p -> Forall param_ok l ->
  0 <= total const (take r l) /\
  total const (take r l) + total const [p] <= total const l.
Proof.
  intros Hr Hl. pose proof (take_drop_middle l r p Hr) as E. rewrite <- E at 3.
  rewrite total_app. change (p :: drop (S r) l) with ([p] ++ drop (S r) l). rewrite total_app.
  pose proof (total_nonneg const (take r l) (Forall_take _ _ _ Hl)).
  pose proof (total_nonneg const (drop (S r) l) (Forall_drop _ _ _ Hl)). lia.
Qed.

(** The slice of the push constants a root index owns. *)
Definition slot (b : batch) (r : Z) : Z := total true (take (Z.to_nat r) (b_params b)).

Definition accepts_push (b : batch) (r n : Z) : bool :=
  b_valid b && match b_params b !! Z.to_nat r with
               | Some p => bool_decide (rp_type p = Constants32) && (n =? rp_count p)
               | None => false
               end.

(** A push that has its values stores them in its own slice, or is refused. *)
Lemma push_exact b r vals n :
  layout_ok b -> 0 <= r -> n <= zlen vals ->
  push b r (Some vals) n =
  Ok (if accepts_push b r n
      then (true, with_push b (take (Z.to_nat (slot b r)) (b_push b) ++ take (Z.to_nat n) vals ++
                               drop (Z.to_nat (slot b r + n)) (b_push b)))
      else (false, b)) /\
  (accepts_push b r n = true -> 0 <= slot b r /\ 0 < n /\ slot b r + n <= zlen (b_push b)).
Proof.
  intros [L1 L2 _ _] Hr Hn. unfold push, accepts_push. destruct (b_valid b); cbn [negb orb andb]; [|done].
  specialize (L1 eq_refl) as [L1 L1']. specialize (L2 eq_refl) as [L2 _].
  destruct (b_params b !! Z.to_nat r) as [p|] eqn:E.
  2:{ apply lookup_ge_None in E. by rewrite (proj2 (Z.leb_le _ _)) by lia. }
  pose proof (lookup_lt_Some _ _ _ E). rewrite (proj2 (Z.leb_gt _ _)) by lia.
  destruct (bool_decide (rp_type p = Constants32)) eqn:Et; cbn [negb orb andb]; [|done].
  destruct (Z.eqb_spec n (rp_count p)) as [En|]; cbn [negb]; [|done].
  destruct (total_slice true _ _ _ E L1) as [Ht1 Ht2]. rewrite sum_before_exact by (done || lia). fold (slot b r) in *.
  cbn [total foldr] in Ht2. rewrite Et in Ht2.
  pose proof (total_nonneg true _ L1) as Hb. pose proof (Forall_lookup_1 _ _ _ _ L1 E) as [Hp1 Hp2].
  rewrite u32_small by lia.
  rewrite (proj2 (Z.ltb_ge _ _)) by lia. rewrite (proj2 (Z.ltb_ge _ _)) by lia.
  split; [done|lia].
Qed.

Lemma push_keeps b r vals n ok b' :
  layout_ok b -> 0 <= r -> push b r vals n = Ok (ok, b') ->
  b' = b \/ exists l, length l = length (b_push b) /\ b' = with_push b l.
Proof.
  intros Hl Hr E. destruct vals as [vals|]; [|injection E as _ <-; by left].
  destruct (decide (n <= zlen vals)) as [Hn|Hn].
  2:{ revert E. unfold push. repeat case_match; intros [= _ <-]; try (by left). bool_facts. lia. }
  destruct (push_exact b r vals n Hl Hr Hn) as [Ep Hs]. rewrite Ep in E. injection E as E.
  destruct (accepts_push b r n); injection E as _ <-; [right|by left].
  eexists. split; [|reflexivity]. destruct (Hs eq_refl) as (H1 & H2 & H3).
  rewrite !length_app, !length_take, length_drop. lia.
Qed.

(** ** Reachable batches *)

Section reach.
Context `{HostOS}.

(** The buffer objects of the program around the batch, by identity. A created
    buffer gets a handle; a destroyed one is reset, and whatever still refers to
    it finds an object that is not valid. *)
Definition no_buffer : VulkanBuffer := MkBuf 0 0 false false.
Definition set_buf (bufs : Z -> VulkanBuffer) (id : Z) (buf : VulkanBuffer) : Z -> VulkanBuffer :=
  fun i => if i =? id then buf else bufs i.

(** The valid buffers are those of [L], one handle each. *)
Record buffers_live (bufs : Z -> VulkanBuffer) (L : list Z) : Prop := {
  bl_live : forall i, live_buf L (bufs i);
  bl_inj : forall i j, vb_valid (bufs i) = true -> vb_valid (bufs j) = true -> vb_buf (bufs i) = vb_buf (bufs j) -> i = j;
}.

(** Batches in a program that creates and destroys its buffers at any moment;
    [L] are the handles of its live buffers. *)
Inductive batch_reachable : (Z -> VulkanBuffer) -> list Z -> batch -> vkst -> Prop :=
  | br_new : batch_reachable (fun _ => no_buffer) [] new_batch (MkVk 0 1 [])
  | br_make bufs L b v id size fast h v' :
      batch_reachable bufs L b v -> vb_valid (bufs id) = false -> vk_create v "buffer" = (Some h, v') ->
      batch_reachable (set_buf bufs id (MkBuf h size fast true)) (h :: L) b v'
  | br_drop bufs L b v id :
      batch_reachable bufs L b v -> vb_valid (bufs id) = true ->
      batch_reachable (set_buf bufs id no_buffer) (filter (fun h => h <> vb_buf (bufs id)) L) b
        (vk_destroy v "buffer" (Some (vb_buf (bufs id))))
  | br_init bufs L b v dev_valid params ok b' v' :
      batch_reachable bufs L b v -> Forall (fun p => is_u32 (rp_count p)) params ->
      init b v dev_valid params = (ok, b', v') -> batch_reachable bufs L b' v'
  | br_shutdown bufs L b v :
      batch_reachable bufs L b v -> batch_reachable bufs L (fst (shutdown b v)) (snd (shutdown b v))
  | br_attach bufs L b v m : batch_reachable bufs L b v -> batch_reachable bufs L (attach_mem b m) v
  | br_register bufs L b v gpa id :
      batch_reachable bufs L b v -> batch_reachable bufs L (snd (register_buffer bufs b gpa id)) v
  | br_unregister bufs L b v gpa : batch_reachable bufs L b v -> batch_reachable bufs L (unregister_buffer b gpa) v
  | br_begin bufs L b v ok b' v' :
      batch_reachable bufs L b v -> begin b v = (ok, b', v') -> batch_reachable bufs L b' v'
  | br_bind bufs L b v r id : batch_reachable bufs L b v -> batch_reachable bufs L b (snd (bind b v r (bufs id)))
  | br_bind_gpa bufs L b v r gpa :
      batch_reachable bufs L b v -> batch_reachable bufs L b (snd (bind_gpa bufs b v r gpa))
  | br_push bufs L b v r vals n ok b' :
      batch_reachable bufs L b v -> 0 <= r -> push b r vals n = Ok (ok, b') -> batch_reachable bufs L b' v
  | br_copy bufs L b v d s : batch_reachable bufs L b v -> batch_reachable bufs L b (snd (copy b v (bufs d) (bufs s)))
  | br_copy_gpa bufs L b v d s n :
      batch_reachable bufs L b v -> batch_reachable bufs L b (snd (copy_gpa bufs b v d s n))
  | br_submit bufs L b v log n ok b' v' log' :
      batch_reachable bufs L b v -> submit_fence b v log n = (ok, b', v', log') -> batch_reachable bufs L b' v'.

Lemma buffers_make bufs L id h size fast :
  buffers_live bufs L -> h ∉ L -> buffers_live (set_buf bufs id (MkBuf h size fast true)) (h :: L).
Proof.
  intros [H1 H2] Hh. unfold set_buf. split.
  - intros i. destruct (i =? id); intros Hv; [left|right; by apply H1].
  - intros i j. destruct (Z.eqb_spec i id) as [->|], (Z.eqb_spec j id) as [->|]; cbn; try done; [| |by apply H2].
    + intros _ Hj ->. destruct Hh. by apply H1.
    + intros Hi _ <-. destruct Hh. by apply H1.
Qed.

Lemma buffers_drop bufs L id :
  buffers_live bufs L -> vb_valid (bufs id) = true ->
  buffers_live (set_buf bufs id no_buffer) (filter (fun h => h <> vb_buf (bufs id)) L).
Proof.
  intros [H1 H2] Hv. unfold set_buf. split.
  - intros i. destruct (Z.eqb_spec i id); [done|]. intros Hi. apply list_elem_of_filter. split; [|by apply H1].
    intros E. by apply H2 in E.
  - intros i j. destruct (Z.eqb_spec i id), (Z.eqb_spec j id); try done. apply H2.
Qed.

Lemma filter_out (h : Z) (L : list Z) : NoDup L -> h ∈ L -> L ≡ₚ h :: filter (fun x => x <> h) L.
Proof.
  intros Hn Hin. apply NoDup_Permutation; [done|constructor; [|by apply NoDup_filter]|].
  - intros [? _]%list_elem_of_filter. done.
  - intros x. rewrite elem_of_cons, list_elem_of_filter. destruct (decide (x = h)) as [->|]; naive_solver.
Qed.

Lemma drop_owns L b v (bufs : Z -> VulkanBuffer) id :
  owns L b v -> live_buf L (bufs id) -> vb_valid (bufs id) = true ->
  owns (filter (fun h => h <> vb_buf (bufs id)) L) b (vk_destroy v "buffer" (Some (vb_buf (bufs id)))).
Proof.
  intros [Hg Hd Hv] Hl Hb. split; [|done|done]. apply good_destroy.
  assert (Hn : NoDup L) by (destruct Hg as [_ _ Hn]; by apply NoDup_app in Hn as (_ & _ & ?)).
  eapply good_proper; [done| |exact Hg]. rewrite (filter_out (vb_buf (bufs id)) L Hn (Hl Hb)) at 2. solve_Permutation.
Qed.

Lemma init_layout b v dev_valid params :
  Forall (fun p => is_u32 (rp_count p)) params ->
  let '(_, b', _) := init b v dev_valid params in layout_ok b'.
Proof.
  intros Hp. unfold init. destruct (shutdown b v) as [b1 v1] eqn:Es. unfold shutdown in Es. injection Es as <- <-.
  destruct (_ || _) eqn:E; [by split|]. bool_facts.
  destruct (count_params params 0 0) as [[n m]|] eqn:Ec; [|by split].
  destruct (count_params_exact params 0 0 n m) as (F & En & Em); try done; [lia|lia|].
  destruct (_ || _) eqn:E2; [by split|]. bool_facts.
  pose proof (total_nonneg true params F). pose proof (total_nonneg false params F).
  assert (Hpipe : forall b v, b_params b = params -> (0 < m -> is_Some (b_set b)) ->
            let '(_, b', _) := init_pipeline b v n m in layout_ok b').
  { intros b0 v0 E0 Hs. unfold init_pipeline. destruct (vk_create v0 "pipeline_layout") as [[h|] v2].
    - split; cbn -[total]; rewrite ?E0; intros _; rewrite ?length_replicate; try done; first [lia|split; [done|lia]|split; lia].
    - unfold fail_init. cbn. by split. }
  unfold init_sets. destruct (Z.eqb_spec m 0); [apply Hpipe; [done|lia]|].
  destruct (vk_create _ "set_layout") as [[l|] v2]; [|by split].
  destruct (vk_create v2 "pool") as [[q|] v3]; [|by split].
  destruct (alloc_set v3 q l) as [[s|] v4]; [|by split]. apply Hpipe; [done|]. by eexists.
Qed.

(** What holds throughout: ownership, the root layout, and the buffers. *)
Record batch_inv (bufs : Z -> VulkanBuffer) (L : list Z) (b : batch) (v : vkst) : Prop := {
  bi_owns : owns L b v; bi_layout : layout_ok b; bi_bufs : buffers_live bufs L;
}.

Lemma make_inv bufs L b v id size fast h v' :
  batch_inv bufs L b v -> vk_create v "buffer" = (Some h, v') ->
  batch_inv (set_buf bufs id (MkBuf h size fast true)) (h :: L) b v'.
Proof.
  intros [[Hg Hd Hv] Hl Hb] E. pose proof (good_create v _ "buffer" Hg) as Hc. rewrite E in Hc.
  split; [split; [|done|done]|done|apply buffers_make; [done|]].
  - eapply good_proper; [done| |exact Hc]. solve_Permutation.
  - destruct Hc as [_ _ Hn]. apply NoDup_cons in Hn as [Hn _]. set_solver.
Qed.

Lemma submit_layout b v log n : layout_ok b -> let '(_, b', _, _) := submit_fence b v log n in layout_ok b'.
Proof. intros [L1 L2 L3 L4]. unfold submit_fence. repeat case_match; simplify_eq; by split. Qed.

Lemma begin_layout b v : layout_ok b -> let '(_, b', _) := begin b v in layout_ok b'.
Proof. intros [L1 L2 L3 L4]. unfold begin. repeat case_match; simplify_eq; by split. Qed.

(** A call on the objects of the batch keeps the rest. *)
Lemma inv_call bufs L b v v' : batch_inv bufs L b v -> good v' (held b ++ L) -> batch_inv bufs L b v'.
Proof. intros [[_ Hd Hv] Hl Hb] Hg. by split; [split|..]. Qed.

Lemma batch_reachable_inv bufs L b v : batch_reachable bufs L b v -> batch_inv bufs L b v.
Proof.
  induction 1 as [|bufs L b v id size fast h v' _ IH Hid E|bufs L b v id _ IH Hid|bufs L b v dv ps ok b' v' _ IH Hp E|bufs L b v _ IH|bufs L b v m _ IH
    |bufs L b v gpa id _ IH|bufs L b v gpa _ IH|bufs L b v ok b' v' _ IH E|bufs L b v r id _ IH
    |bufs L b v r gpa _ IH|bufs L b v r vals n ok b' _ IH Hr E|bufs L b v d s _ IH|bufs L b v d s n _ IH
    |bufs L b v log n ok b' v' log' _ IH E].
  - split; [|by split|by split]. split; [|done|done]. change (held new_batch ++ []) with (@nil Z).
    split; [done|apply Forall_nil; done|apply NoDup_nil; done].
  - by eapply make_inv.
  - destruct IH as [Ho Hl Hb]. split; [|done|by apply buffers_drop]. apply drop_owns; [done|apply Hb|done].
  - destruct IH as [Ho Hl Hb]. pose proof (init_owns L b v dv ps Ho) as Ho'. pose proof (init_layout b v dv ps Hp) as Hl'.
    rewrite E in Ho', Hl'. by split.
  - destruct IH as [Ho Hl Hb]. split; [by apply shutdown_owns|by split|done].
  - destruct IH as [[O1 O2 O3] [L1 L2 L3 L4] Hb]. by split; [split|split|].
  - destruct IH as [[O1 O2 O3] [L1 L2 L3 L4] Hb]. unfold register_buffer. repeat case_match; by split; [split|split|].
  - destruct IH as [[O1 O2 O3] [L1 L2 L3 L4] Hb]. by split; [split|split|].
  - destruct IH as [Ho Hl Hb]. pose proof (begin_owns L b v Ho) as Ho'. pose proof (begin_layout b v Hl) as Hl'.
    rewrite E in Ho', Hl'. by split.
  - apply (inv_call _ _ _ v); [done|]. apply bind_good; apply IH.
  - apply (inv_call _ _ _ v); [done|]. unfold bind_gpa. case_match; [apply bind_good; apply IH|apply IH].
  - destruct IH as [Ho Hl Hb]. destruct (push_keeps b r vals n ok b' Hl Hr E) as [->|[l [Hlen ->]]]; [done|].
    destruct Ho as [O1 O2 O3], Hl as [L1 L2 L3 L4]. split; [by split| |done]. split; cbn; try done. by rewrite Hlen.
  - apply (inv_call _ _ _ v); [done|]. apply copy_good; apply IH.
  - apply (inv_call _ _ _ v); [done|]. unfold copy_gpa. repeat case_match; try apply IH. apply copy_good; apply IH.
  - destruct IH as [Ho Hl Hb]. pose proof (submit_fence_owns L b v log n Ho) as Ho'. pose proof (submit_layout b v log n Hl) as Hl'.
    rewrite E in Ho', Hl'. by split.
Qed.


End reach.

Lemma slot_before b r r' p :
  Forall param_ok (b_params b) -> 0 <= r < r' -> b_params b !! Z.to_nat r = Some p ->
  rp_type p = Constants32 -> slot b r + rp_count p <= slot b r'.
Proof.
  intros Hl Hr Hp Ht. unfold slot.
  assert (Hp' : take (Z.to_nat r') (b_params b) !! Z.to_nat r = Some p) by (rewrite lookup_take_lt by lia; done).
  destruct (total_slice true _ _ _ Hp' (Forall_take _ _ _ Hl)) as [_ H].
  rewrite take_take in H. replace (Z.to_nat r `min` Z.to_nat r')%nat with (Z.to_nat r) in H by lia.
  cbn [total foldr] in H. rewrite bool_decide_true in H by done. lia.
Qed.

(** Reading a slice of a list in which another slice was replaced. *)
Lemma slice_replace (l new : list Z) (o n o' n' : nat) :
  length new = n -> (o + n <= length l)%nat ->
  let l' := take o l ++ new ++ drop (o + n) l in
  take n (drop o l') = new /\
  ((o' + n' <= o)%nat \/ (o + n <= o')%nat -> take n' (drop o' l') = take n' (drop o' l)).
Proof.
  intros Hn Hl. cbv zeta. split.
  - rewrite drop_app_ge by (rewrite length_take; lia). rewrite length_take.
    replace (o - o `min` length l)%nat with 0%nat by lia. rewrite drop_0, take_app_le by lia. apply take_ge. lia.
  - intros [Ho|Ho].
    + rewrite drop_app_le by (rewrite length_take; lia). rewrite take_app_le by (rewrite length_drop, length_take; lia).
      rewrite <- (take_drop o l) at 2. rewrite drop_app_le by (rewrite length_take; lia).
      by rewrite take_app_le by (rewrite length_drop, length_take; lia).
    + f_equal. rewrite drop_app_ge by (rewrite length_take; lia).
      rewrite drop_app_ge by (rewrite length_take; lia). rewrite drop_drop, length_take. f_equal. lia.
Qed.

(** Each root parameter of an initialised batch has its own place. A push
    of the parameter's count of values to a constants index is accepted,
    exactly, lands in that index's slice of the push constants, inside the
    array, and leaves the slice of every other constants index as it was;
    anything else is refused and changes nothing. *)
Theorem root_parameters_do_not_overlap `{HostOS} (bufs : Z -> VulkanBuffer) (L : list Z) (b : batch) (v : vkst)
    (r n : Z) (vals : list Z) :
  batch_reachable bufs L b v -> 0 <= r -> n <= zlen vals ->
  exists b', push b r (Some vals) n = Ok (accepts_push b r n, b') /\
    (accepts_push b r n = false -> b' = b) /\
    (accepts_push b r n = true ->
       zlen (b_push b') = zlen (b_push b) /\
       take (Z.to_nat n) (drop (Z.to_nat (slot b r)) (b_push b')) = take (Z.to_nat n) vals /\
       forall r' p', 0 <= r' -> r' <> r -> b_params b !! Z.to_nat r' = Some p' -> rp_type p' = Constants32 ->
         let at_slot l := take (Z.to_nat (rp_count p')) (drop (Z.to_nat (slot b r')) l) in
         at_slot (b_push b') = at_slot (b_push b)).
Proof.
  intros [_ Hl _]%batch_reachable_inv Hr Hn. destruct (push_exact b r vals n Hl Hr Hn) as [E Hs]. rewrite E.
  destruct (accepts_push b r n) eqn:Ha; [|by exists b]. destruct (Hs eq_refl) as (S1 & S2 & S3).
  eexists. split; [done|]. split; [done|]. intros _. cbn [b_push with_push].
  pose proof (slice_replace (b_push b) (take (Z.to_nat n) vals) (Z.to_nat (slot b r)) (Z.to_nat n)) as Hrep.
  replace (Z.to_nat (slot b r + n)) with (Z.to_nat (slot b r) + Z.to_nat n)%nat by lia.
  rewrite length_take in Hrep.
  split; [rewrite !length_app, !length_take, length_drop; lia|].
  split; [apply (Hrep 0%nat 0%nat); lia|].
  intros r' p' Hr' Hne Hp' Ht'. cbv zeta. apply (Hrep (Z.to_nat (slot b r'))); [lia|lia|].
  unfold accepts_push in Ha. apply andb_true_iff in Ha as [Hv Ha]. destruct Hl as [L1 _ _ _]. destruct (L1 Hv) as [L1' _].
  destruct (b_params b !! Z.to_nat r) as [p|] eqn:Ep; [|done]. bool_facts.
  match goal with H : bool_decide (rp_type p = _) = true |- _ => apply bool_decide_eq_true in H end.
  destruct (total_slice true _ _ _ Hp' L1') as [S1' _]. fold (slot b r') in S1'.
  pose proof (Forall_lookup_1 _ _ _ _ L1' Hp') as [Q1 Q2].
  destruct (decide (r' < r)).
  - left. pose proof (slot_before b r' r p' L1' ltac:(lia) Hp' Ht'). lia.
  - right. pose proof (slot_before b r r' p L1' ltac:(lia) Ep ltac:(done)). lia.
Qed.

End vulkan.
(** ** Concrete runs *)

(** Everything succeeds. *)
Definition all_ok : nat -> bool := fun _ => true.
Definition demo_buf : Z -> VulkanBuffer := fun i => MkBuf (100 + i) 64 false true.
Definition demo_params : list RootParam := [MkRoot Constants32 2; MkRoot Cbv 1; MkRoot Constants32 1].

Definition demo_init : bool * batch * vkst := init all_ok new_batch (MkVk 0 1 []) true demo_params.
Definition demo_batch : batch := snd (fst demo_init).
Definition demo_vk : vkst := snd demo_init.

Lemma demo_batch_reachable : batch_reachable all_ok (fun _ => no_buffer) [] demo_batch demo_vk.
Proof.
  apply (br_init all_ok _ [] new_batch (MkVk 0 1 []) true demo_params true); [constructor| |reflexivity].
  repeat constructor; done.
Defined.

(** A buffer is created, bound and destroyed again. *)
Definition demo_bound : vkst :=
  snd (bind demo_batch (snd (vk_create all_ok demo_vk "buffer")) 1 (MkBuf 5 64 false true)).


Lemma root_parameters_do_not_overlap_witness :
  exists b', push demo_batch 2 (Some [9]) 1 = Ok (true, b') /\
    take 1 (drop 2 (b_push b')) = [9] /\ take 2 (drop 0 (b_push b')) = [0; 0].
Proof.
  destruct (root_parameters_do_not_overlap all_ok _ [] demo_batch demo_vk 2 1 [9] demo_batch_reachable)
    as (b' & H1 & _ & H2); [lia|cbn; lia|].
  destruct (H2 eq_refl) as (_ & H3 & H4). exists b'. split; [exact H1|]. split; [exact H3|].
  by apply (H4 0 (MkRoot Constants32 2)).
Defined.

(** The wait for the fence has a limit of five seconds; when it runs out, the
    fence and the command buffer are destroyed although the queue may still be
    executing the submission. *)
Definition wait_fails : nat -> bool := fun n => negb (n =? 9)%nat.

Example timeout_destroys_busy_objects :
  let '(_, b, v) := begin wait_fails demo_batch demo_vk in
  let '(ok, _, v', _) := submit wait_fails b v None in
  ok = false /\
  drop 8 (vk_log v') = [Create "fence" 6; QueueSubmit 5 6; WaitFence 6 false; Destroy "fence" 6; Destroy "cmd" 5].
Proof. vm_compute. split; reflexivity. Qed.

(** [init] begins with a shutdown, which forgets the attached memory: a buffer
    registered afterwards is not checked against it. *)
Example init_forgets_the_memory :
  let b := attach_mem new_batch (Some MemMap.demo_map) in
  let '(_, b', _) := init all_ok b (MkVk 0 1 []) true demo_params in
  fst (register_buffer demo_buf b (2 ^ 50) 1) = false /\ fst (register_buffer demo_buf b' (2 ^ 50) 1) = true.
Proof. vm_compute. split; reflexivity. Qed.

End GpuBatch.
