(* ===== verification/VulkanDev.v ===== *)
(** Choice and creation of the Vulkan device (src/vulkan_alloc.cpp) and the
    report on its memory heaps (src/vulkan_heaps.cpp). The devices of the host
    and their properties are a parameter; calls go through VkLog.v. An
    enumeration into an array that is too small reports VK_INCOMPLETE, which is
    not VK_SUCCESS. *)
From stdpp Require Import base numbers list gmap strings.
From Stdlib Require Import ZArith Lia.
From S2P Require Import Prelude VkLog.
Open Scope Z_scope.

Module VulkanDev.
Import VkLog.

(** ** The host's devices *)

Record host_gpu := MkHostGpu {
  g_name : string;
  g_discrete : bool;             (* deviceType *)
  g_vendor : Z;
  g_queues : list Z;             (* queueFlags of each family *)
  g_types : list Z;              (* propertyFlags of each memory type *)
  g_heaps : list (Z * Z);        (* size and flags of each heap *)
}.

Definition DEVICE_LOCAL : Z := 1.
Definition HOST_VISIBLE : Z := 2.
Definition HOST_COHERENT : Z := 4.
Definition HEAP_DEVICE_LOCAL : Z := 1.
Definition QUEUE_GRAPHICS : Z := 1.
Definition AMD : Z := 0x1002.

Definition device_local (f : Z) : bool := has_bits f DEVICE_LOCAL.
Definition host_visible (f : Z) : bool := has_bits f HOST_VISIBLE.
Definition coherent (f : Z) : bool := has_bits f HOST_COHERENT.

(** ** Device state *)

(** A memory type that was not found is UINT32_MAX. *)
Record VulkanDev := MkDev {
  d_inst : option Z;
  d_phys : option host_gpu;
  d_dev : option Z;
  d_pool : option Z;
  d_queue_family : Z;
  d_fast : Z;
  d_slow : Z;
  d_mappable : bool;
  d_name : string;
  d_valid : bool;
}.
Definition no_dev : VulkanDev := MkDev None None None None 0 UINT32_MAX UINT32_MAX false "" false.

(** The scan over the devices of [pick_gpu]: the device chosen so far. *)
Definition prefer (chosen : option host_gpu) (g : host_gpu) : option host_gpu :=
  if g_discrete g then
    match chosen with
    | None => Some g
    | Some c => if (g_vendor g =? AMD) && negb (g_vendor c =? AMD) then Some g else chosen
    end
  else chosen.

Definition find_queue_family (g : host_gpu) : Z :=
  if (length (g_queues g) =? 0)%nat then 0
  else match list_find (fun f => has_bits f QUEUE_GRAPHICS = true) (take 16 (g_queues g)) with
       | Some (i, _) => Z.of_nat i
       | None => 0
       end.

(** First memory type with a property, UINT32_MAX when there is none. *)
Fixpoint first_type (test : Z -> bool) (l : list Z) (i : Z) : Z :=
  match l with
  | [] => UINT32_MAX
  | f :: l' => if test f then i else first_type test l' (i + 1)
  end.

Definition fast_type (types : list Z) : Z :=
  let t := first_type (fun f => device_local f && negb (host_visible f)) types 0 in
  if t =? UINT32_MAX then first_type (fun f => device_local f && host_visible f) types 0 else t.

(** The slow scan keeps its first candidate and stops at a type that is not
    device local. *)
Fixpoint slow_loop (l : list Z) (i slow : Z) : Z :=
  match l with
  | [] => slow
  | f :: l' =>
      if host_visible f && coherent f then
        if negb (device_local f) then i
        else slow_loop l' (i + 1) (if slow =? UINT32_MAX then i else slow)
      else slow_loop l' (i + 1) slow
  end.
Definition slow_type (types : list Z) : Z := slow_loop types 0 UINT32_MAX.

Definition flags_at (types : list Z) (i : Z) : Z := default 0 (types !! Z.to_nat i).

Section vulkan.
Context (answers : nat -> bool) (gpus : list host_gpu).

Notation vk_create := (vk_create answers).
Notation vk_call := (vk_call answers).

(** Both enumeration calls; the second has room for eight devices. *)
Definition enumerate (v : vkst) (inst : Z) : option (list host_gpu) * vkst :=
  let (ok, v) := vk_call v (Use "vkEnumeratePhysicalDevices" [inst] [0]) in
  if negb ok || (length gpus =? 0)%nat then (None, v)
  else
    let (ok, v) := vk_call v (Use "vkEnumeratePhysicalDevices" [inst] [Z.min 8 (zlen gpus)]) in
    if ok && (length gpus <=? 8)%nat then (Some gpus, v) else (None, v).

Definition pick_gpu (v : vkst) (inst : Z) : option host_gpu * vkst :=
  let (devs, v) := enumerate v inst in
  match devs with
  | None => (None, v)
  | Some devs =>
      match foldl prefer None devs with
      | Some g => (Some g, v)
      | None => (head devs, v)
      end
  end.

Definition vulkan_dev_init (v : vkst) : bool * VulkanDev * vkst :=
  let (inst, v) := vk_create v "instance" in
  match inst with
  | None => (false, no_dev, v)
  | Some i =>
      let (phys, v) := pick_gpu v i in
      match phys with
      | None => (false, no_dev, vk_destroy v "instance" inst)
      | Some g =>
          let qfam := find_queue_family g in
          let (dev, v) := vk_create v "device" in
          match dev with
          | None => (false, MkDev None phys None None qfam UINT32_MAX UINT32_MAX false (g_name g) false,
                     vk_destroy v "instance" inst)
          | Some d =>
              let (pool, v) := vk_create v "cmd_pool" in
              match pool with
              | None => (false, MkDev None phys None None qfam UINT32_MAX UINT32_MAX false (g_name g) false,
                         vk_destroy (vk_destroy v "device" dev) "instance" inst)
              | Some _ =>
                  let fast := fast_type (g_types g) in
                  let slow := slow_type (g_types g) in
                  if (fast =? UINT32_MAX) || (slow =? UINT32_MAX) then
                    (false, MkDev None phys None pool qfam fast slow
                              (negb (fast =? UINT32_MAX) && host_visible (flags_at (g_types g) fast)) (g_name g) false,
                     vk_destroy (vk_destroy v "device" dev) "instance" inst)
                  else
                    (true, MkDev inst phys dev pool qfam fast slow (host_visible (flags_at (g_types g) fast)) (g_name g) true, v)
              end
          end
      end
  end.

(** The pool is released only while the device handle is there. *)
Definition vulkan_dev_shutdown (d : VulkanDev) (v : vkst) : VulkanDev * vkst :=
  let v := match d_dev d with Some _ => vk_destroy v "cmd_pool" (d_pool d) | None => v end in
  let v := vk_destroy v "device" (d_dev d) in
  let v := vk_destroy v "instance" (d_inst d) in
  (no_dev, v).

Definition vulkan_alloc (d : VulkanDev) (v : vkst) : option Z * vkst :=
  if negb (d_valid d) then (None, v) else vk_create v "memory".

(** [readback] is what the mapping shows after the writes, and after the flush
    and the invalidation of a type that is not coherent. *)
Definition pattern_words (size pattern : Z) : list Z :=
  (fun i => Z.lxor pattern (u32 i)) <$> seqZ 0 (size `div` 4).
Definition vulkan_write_read (readback : list Z -> list Z) (d : VulkanDev) (v : vkst) (mem size type_index pattern : Z)
  : bool * vkst :=
  let types := match d_phys d with Some g => g_types g | None => [] end in
  if zlen types <=? type_index then (false, v)
  else if negb (host_visible (flags_at types type_index)) then (false, v)
  else
    let (ok, v) := vk_call v (Use "vkMapMemory" [mem] [size]) in
    if negb ok then (false, v)
    else
      let u := readback (pattern_words size pattern) in
      let v := if coherent (flags_at types type_index) then v
               else log_call (log_call v (Use "vkFlushMappedMemoryRanges" [mem] [size]))
                             (Use "vkInvalidateMappedMemoryRanges" [mem] [size]) in
      let same := forallb (fun i => match u !! Z.to_nat i with
                                    | Some w => w =? Z.lxor pattern (u32 i)
                                    | None => false
                                    end) (seqZ 0 (size `div` 4)) in
      (same, log_call v (Use "vkUnmapMemory" [mem] [])).

(** ** src/vulkan_heaps.cpp *)

Definition vulkan_device_available (v : vkst) : bool * vkst :=
  let (inst, v) := vk_create v "instance" in
  match inst with
  | None => (false, v)
  | Some i =>
      let (ok, v) := vk_call v (Use "vkEnumeratePhysicalDevices" [i] [0]) in
      (ok && (0 <? zlen gpus), vk_destroy v "instance" inst)
  end.

Record VulkanHeapInfo := MkHeapInfo {
  hi_device : string; hi_vram : Z; hi_gtt : Z; hi_rebar : bool; hi_found : bool;
}.
Definition no_heaps : VulkanHeapInfo := MkHeapInfo "" 0 0 false false.

Definition add_heap (acc : Z * Z) (h : Z * Z) : Z * Z :=
  let (vram, gtt) := acc in
  let (sz, flags) := h in
  if has_bits flags HEAP_DEVICE_LOCAL then (if vram <? sz then sz else vram, gtt)
  else (vram, if gtt <? sz then sz else gtt).

Definition heap_info (g : host_gpu) : VulkanHeapInfo :=
  let (vram, gtt) := foldl add_heap (0, 0) (g_heaps g) in
  MkHeapInfo (g_name g) vram gtt (existsb (fun f => device_local f && host_visible f) (g_types g)) true.

Definition query_vulkan_heaps (v : vkst) : bool * VulkanHeapInfo * vkst :=
  let (inst, v) := vk_create v "instance" in
  match inst with
  | None => (false, no_heaps, v)
  | Some i =>
      let (devs, v) := enumerate v i in
      let chosen := match devs with
                    | None => None
                    | Some devs => match foldl prefer None devs with Some g => Some g | None => head devs end
                    end in
      let v := vk_destroy v "instance" inst in
      match chosen with
      | Some g => (true, heap_info g, v)
      | None => (false, no_heaps, v)
      end
  end.

Definition xbox_split_fits (h : VulkanHeapInfo) : bool :=
  hi_found h && (Z.shiftl 10 30 <=? hi_vram h) && (Z.shiftl 6 30 <=? hi_gtt h).

(** ** Memory types *)

Lemma first_type_found test l i :
  0 <= i -> i + zlen l < UINT32_MAX ->
  (first_type test l i = UINT32_MAX /\ existsb test l = false) \/
  (exists k f, l !! k = Some f /\ test f = true /\ first_type test l i = i + Z.of_nat k /\ existsb test l = true).
Proof.
  revert i; induction l as [|f l IH]; intros i Hi Hl; cbn [first_type existsb length] in *; [by left|].
  destruct (test f) eqn:E.
  - right. exists 0%nat, f. split_and!; try done. lia.
  - destruct (IH (i + 1)) as [[H1 H2]|(k & g & H1 & H2 & H3 & H4)]; [lia|lia|by left|].
    right. exists (S k), g. split_and!; try done. lia.
Qed.

(** What the slow scan computes: the first coherent host-visible type that is
    not device local, or else the first coherent host-visible one. *)
Lemma slow_loop_exact l i slow :
  0 <= i -> i + zlen l < UINT32_MAX ->
  slow_loop l i slow =
  let t := first_type (fun f => host_visible f && coherent f && negb (device_local f)) l i in
  if t =? UINT32_MAX then
    if slow =? UINT32_MAX then first_type (fun f => host_visible f && coherent f) l i else slow
  else t.
Proof.
  revert i slow; induction l as [|f l IH]; intros i slow Hi Hl; cbn [slow_loop first_type length] in *.
  { cbn. destruct (Z.eqb_spec slow UINT32_MAX); [done|done]. }
  destruct (host_visible f && coherent f); cbn [andb]; [|rewrite IH by lia; done].
  destruct (device_local f); cbn [negb].
  - rewrite IH by lia. cbv zeta. destruct (_ =? UINT32_MAX); [|done].
    destruct (slow =? UINT32_MAX) eqn:E; [|by rewrite E].
    by rewrite (proj2 (Z.eqb_neq i UINT32_MAX)) by lia.
  - by rewrite (proj2 (Z.eqb_neq i UINT32_MAX)) by lia.
Qed.

(** A search for a type, as the flags at the index it returns. *)
Inductive searched (test : Z -> bool) (l : list Z) : Z -> Prop :=
  | s_none : existsb test l = false -> searched test l UINT32_MAX
  | s_found t : 0 <= t < zlen l -> t <> UINT32_MAX -> test (flags_at l t) = true ->
      existsb test l = true -> searched test l t.

Lemma first_type_searched test l : zlen l <= 32 -> searched test l (first_type test l 0).
Proof.
  intros Hn. destruct (first_type_found test l 0) as [[-> H]|(k & f & Hk & Ht & -> & H)];
    [lia|unfold UINT32_MAX; lia|by constructor|].
  pose proof (lookup_lt_Some _ _ _ Hk). constructor; [lia|unfold UINT32_MAX; lia| |done].
  unfold flags_at. replace (Z.to_nat (0 + Z.of_nat k)) with k by lia. by rewrite Hk.
Qed.

(** Two properties that cover a third between them. *)
Lemma existsb_cover {A} (p q r : A -> bool) l :
  (forall x, r x = true -> p x || q x = true) ->
  existsb p l = false -> existsb q l = false -> existsb r l = false.
Proof.
  intros Hpq Hp Hq. apply not_true_iff_false. intros (x & Hin & Hx)%existsb_exists.
  apply Hpq, orb_true_iff in Hx as [Hx|Hx]; [apply not_true_iff_false in Hp|apply not_true_iff_false in Hq];
    [apply Hp|apply Hq]; apply existsb_exists; eauto.
Qed.

Lemma fast_chosen types :
  zlen types <= 32 ->
  (fast_type types = UINT32_MAX /\ existsb device_local types = false) \/
  (0 <= fast_type types < zlen types /\ device_local (flags_at types (fast_type types)) = true /\
   (existsb (fun f => device_local f && negb (host_visible f)) types = true ->
    host_visible (flags_at types (fast_type types)) = false)).
Proof.
  intros Hn. unfold fast_type.
  destruct (first_type_searched (fun f => device_local f && negb (host_visible f)) types Hn) as [V|t B N T _].
  - rewrite Z.eqb_refl.
    destruct (first_type_searched (fun f => device_local f && host_visible f) types Hn) as [V'|t B N T _].
    + left. split; [done|]. eapply existsb_cover; [|exact V|exact V'].
      intros f Hf. cbn. rewrite Hf. by destruct (host_visible f).
    + right. bool_facts. split_and!; try done. by rewrite V.
  - rewrite (proj2 (Z.eqb_neq t _) N). right. bool_facts. by split_and!.
Qed.

Lemma slow_chosen types :
  zlen types <= 32 ->
  (slow_type types = UINT32_MAX /\ existsb (fun f => host_visible f && coherent f) types = false) \/
  (0 <= slow_type types < zlen types /\
   host_visible (flags_at types (slow_type types)) && coherent (flags_at types (slow_type types)) = true /\
   (existsb (fun f => host_visible f && coherent f && negb (device_local f)) types = true ->
    device_local (flags_at types (slow_type types)) = false)).
Proof.
  intros Hn. unfold slow_type. rewrite slow_loop_exact by (unfold UINT32_MAX; lia). cbv zeta. rewrite Z.eqb_refl.
  destruct (first_type_searched (fun f => host_visible f && coherent f && negb (device_local f)) types Hn)
    as [V|t B N T _].
  - rewrite Z.eqb_refl.
    destruct (first_type_searched (fun f => host_visible f && coherent f) types Hn) as [V'|t B N T _]; [by left|].
    right. split; [exact B|split; [exact T|]]. intros H. exfalso. congruence.
  - rewrite (proj2 (Z.eqb_neq t _) N). right. apply andb_true_iff in T as [T1 T2]. apply negb_true_iff in T2.
    split; [exact B|split; [exact T1|]]. intros _. exact T2.
Qed.

(** ** Creation *)

Lemma enumerate_good v inst L :
  good v L -> inst ∈ L -> let (devs, v') := enumerate v inst in
  good v' L /\ (forall l, devs = Some l -> l = gpus /\ gpus <> []).
Proof.
  intros Hg Hi. unfold enumerate.
  pose proof (good_call answers v L (Use "vkEnumeratePhysicalDevices" [inst] [0]) [inst] Hg eq_refl ltac:(set_solver)) as H1.
  unfold vk_call in H1 |- *. cbn [snd] in H1. set (v1 := log_call _ _) in *.
  destruct (negb _ || _) eqn:E; [by split|].
  pose proof (good_call answers v1 L (Use "vkEnumeratePhysicalDevices" [inst] [Z.min 8 (zlen gpus)]) [inst] H1 eq_refl ltac:(set_solver)) as H2.
  unfold vk_call in H2. cbn [snd] in H2.
  destruct (answers _ && _); (split; [exact H2|]); [|done]. intros l [= <-]. split; [done|]. intros E0.
  rewrite E0 in E. by rewrite orb_true_r in E.
Qed.

Definition best (l : list host_gpu) : option host_gpu :=
  match foldl prefer None l with Some g => Some g | None => head l end.

Lemma prefer_in l acc g : foldl prefer acc l = Some g -> acc = Some g \/ g ∈ l.
Proof.
  revert acc; induction l as [|x l IH]; intros acc H; cbn [foldl] in H; [by left|].
  apply IH in H as [H|H]; [|right; by right]. unfold prefer in H.
  repeat case_match; simplify_eq; auto; right; left.
Qed.

Lemma best_in l g : best l = Some g -> g ∈ l.
Proof.
  unfold best. destruct (foldl prefer None l) eqn:E.
  - intros [= <-]. by apply prefer_in in E as [?|?].
  - destruct l; intros [= <-]. left.
Qed.

Lemma pick_gpu_good v inst L :
  good v L -> inst ∈ L -> let (g, v') := pick_gpu v inst in good v' L /\ forall x, g = Some x -> best gpus = Some x /\ x ∈ gpus.
Proof.
  intros Hg Hi. unfold pick_gpu. pose proof (enumerate_good v inst L Hg Hi) as H.
  destruct (enumerate v inst) as [[devs|] v1]; destruct H as [H1 H2]; [|by split].
  destruct (H2 devs eq_refl) as [-> _]. destruct (foldl prefer None gpus) as [g|] eqn:E; (split; [done|]).
  - intros x [= <-]. assert (best gpus = Some g) as Hb by (unfold best; by rewrite E). split; [done|by apply best_in].
  - intros x Hx. assert (best gpus = Some x) as Hb by (unfold best; by rewrite E). split; [done|by apply best_in].
Qed.

(** What the device is after a creation that succeeded: its pools are memory
    types of the chosen device, true video memory and true host memory when the
    device has them. *)
Record dev_on (g : host_gpu) (d : VulkanDev) : Prop := {
  on_phys : d_phys d = Some g;
  on_best : best gpus = Some g;
  on_name : d_name d = g_name g;
  on_fast : 0 <= d_fast d < zlen (g_types g) /\ device_local (flags_at (g_types g) (d_fast d)) = true;
  on_vram : existsb (fun f => device_local f && negb (host_visible f)) (g_types g) = true ->
            host_visible (flags_at (g_types g) (d_fast d)) = false;
  on_mappable : d_mappable d = host_visible (flags_at (g_types g) (d_fast d));
  on_slow : 0 <= d_slow d < zlen (g_types g) /\
            host_visible (flags_at (g_types g) (d_slow d)) && coherent (flags_at (g_types g) (d_slow d)) = true;
  on_gtt : existsb (fun f => host_visible f && coherent f && negb (device_local f)) (g_types g) = true ->
           device_local (flags_at (g_types g) (d_slow d)) = false;
}.

(** The memory pools the code needs. *)
Definition usable (g : host_gpu) : bool :=
  existsb device_local (g_types g) && existsb (fun f => host_visible f && coherent f) (g_types g).

Definition types_bounded : Prop := Forall (fun g => zlen (g_types g) <= 32) gpus.

Lemma existsb_at test types i :
  0 <= i < zlen types -> test (flags_at types i) = true -> existsb test types = true.
Proof.
  intros Hi Ht. apply existsb_exists. exists (flags_at types i). split; [|done]. unfold flags_at.
  destruct (lookup_lt_is_Some_2 types (Z.to_nat i)) as [f Hf]; [lia|]. rewrite Hf.
  apply list_elem_of_In. by apply list_elem_of_lookup_2 in Hf.
Qed.

Lemma pools_ok i d p g v1 :
  zlen (g_types g) <= 32 -> best gpus = Some g ->
  let fast := fast_type (g_types g) in let slow := slow_type (g_types g) in
  if (fast =? UINT32_MAX) || (slow =? UINT32_MAX) then usable g = false
  else usable g = true /\ dev_on g (MkDev i (Some g) d p v1 fast slow (host_visible (flags_at (g_types g) fast)) (g_name g) true).
Proof.
  intros Hn Hb. cbv zeta. unfold usable.
  destruct (fast_chosen (g_types g) Hn) as [[-> ->]|(F1 & F2 & F3)]; [done|].
  destruct (slow_chosen (g_types g) Hn) as [[-> ->]|(S1 & S2 & S3)]; [by rewrite orb_true_r, andb_false_r|].
  rewrite (proj2 (Z.eqb_neq _ _)), (proj2 (Z.eqb_neq _ _)) by (unfold UINT32_MAX; lia).
  split; [|by split]. apply andb_true_iff. split; [exact (existsb_at _ _ _ F1 F2)|].
  exact (existsb_at (fun f => host_visible f && coherent f) _ _ S1 S2).
Qed.

Lemma init_good v L :
  types_bounded -> good v L -> let '(ok, d, v1) := vulkan_dev_init v in
  ok = d_valid d /\
  if ok then
    exists i dv p g, d_inst d = Some i /\ d_dev d = Some dv /\ d_pool d = Some p /\ dev_on g d /\
                     good v1 (p :: dv :: i :: L)
  else good v1 (opt_list (d_pool d) ++ L) /\ d_inst d = None /\ d_dev d = None.
Proof.
  intros Ht Hg. unfold vulkan_dev_init. pose proof (good_create answers v L "instance" Hg) as H1.
  destruct (VkLog.vk_create answers v "instance") as [[i|] v1]; [|by split_and!].
  pose proof (pick_gpu_good v1 i (i :: L) H1 ltac:(left)) as H2.
  destruct (pick_gpu v1 i) as [[g|] v2]; destruct H2 as [H2 Hb];
    [|split; [done|]; split; [|done]; by apply good_destroy].
  destruct (Hb g eq_refl) as [Hbest Hin]. clear Hb.
  pose proof (good_create answers v2 _ "device" H2) as H3.
  destruct (VkLog.vk_create answers v2 "device") as [[dv|] v3]; [|split; [done|]; split; [|done]; by apply good_destroy].
  pose proof (good_create answers v3 _ "cmd_pool" H3) as H4.
  destruct (VkLog.vk_create answers v3 "cmd_pool") as [[p|] v4];
    [|split; [done|]; split; [|done]; by do 2 apply good_destroy].
  pose proof (pools_ok (Some i) (Some dv) (Some p) g (find_queue_family g)
                (proj1 (Forall_forall _ _) Ht g Hin) Hbest) as Hp.
  cbv zeta in Hp. destruct ((fast_type _ =? _) || _).
  - split; [done|]. split; [|done]. cbn. do 2 apply good_destroy.
    eapply good_proper; [done| |exact H4]. solve_Permutation.
  - split; [done|]. exists i, dv, p, g. destruct Hp. by split_and!.
Qed.

(** When every call succeeds, only the devices decide. *)
Lemma init_answers v :
  (forall n, answers n = true) -> types_bounded -> (length gpus <= 8)%nat ->
  fst (fst (vulkan_dev_init v)) = match best gpus with Some g => usable g | None => false end.
Proof.
  intros Ha Ht Hl. unfold vulkan_dev_init, VkLog.vk_create at 1. rewrite Ha.
  unfold pick_gpu, enumerate, VkLog.vk_call. rewrite Ha.
  destruct (Nat.eqb_spec (length gpus) 0) as [E|E].
  { by destruct gpus. }
  cbn [negb orb]. rewrite Ha, (proj2 (Nat.leb_le _ 8) Hl). cbn [andb].
  assert (exists g, best gpus = Some g) as [g Hb].
  { unfold best. destruct (foldl _ _ _); [by eexists|]. destruct gpus; [done|by eexists]. }
  pose proof (best_in _ _ Hb) as Hin. rewrite Hb. unfold best in Hb.
  set (w := log_call _ _). clearbody w.
  replace (match foldl prefer None gpus with Some g => (Some g, w) | None => (head gpus, w) end) with (Some g, w)
    by (destruct (foldl prefer None gpus); congruence).
  unfold VkLog.vk_create. rewrite !Ha.
  pose proof (pools_ok None None None g 0 (proj1 (Forall_forall _ _) Ht g Hin) Hb) as Hp.
  cbv zeta in Hp. destruct ((fast_type _ =? _) || _); cbn [fst]; [done|]. by destruct Hp as [-> _].
Qed.

Lemma shutdown_good i dv p d v L :
  d_inst d = Some i -> d_dev d = Some dv -> d_pool d = Some p -> good v (p :: dv :: i :: L) ->
  good (snd (vulkan_dev_shutdown d v)) L.
Proof. intros Hi Hd Hp Hg. unfold vulkan_dev_shutdown. rewrite Hi, Hd, Hp. by do 3 apply good_destroy. Qed.

(** Creating the device, for every outcome of every call: on success the three
    objects it holds are exactly what was created, they stand on the preferred
    device with its fast and slow pools, and shutting down releases them all; on
    failure no instance and no device is left, and the only object that can be
    left is the command pool of a device without the memory types. When every
    call succeeds, it fails only for want of a device or of a pool. *)
Theorem device_init_exact v L :
  types_bounded -> good v L -> let '(ok, d, v1) := vulkan_dev_init v in
  ok = d_valid d /\
  (if ok then
     (exists i dv p g, d_inst d = Some i /\ d_dev d = Some dv /\ d_pool d = Some p /\ dev_on g d /\
                       good v1 (p :: dv :: i :: L)) /\
     good (snd (vulkan_dev_shutdown d v1)) L
   else good v1 (opt_list (d_pool d) ++ L) /\ d_inst d = None /\ d_dev d = None) /\
  ((forall n, answers n = true) -> (length gpus <= 8)%nat ->
   ok = match best gpus with Some g => usable g | None => false end).
Proof.
  intros Ht Hg. pose proof (init_good v L Ht Hg) as H. pose proof (init_answers v) as Ha.
  destruct (vulkan_dev_init v) as [[ok d] v1]. destruct H as [Hok H]. split; [done|]. split; [|by auto].
  destruct ok; [|done]. split; [done|]. destruct H as (i & dv & p & g & Hi & Hd & Hp & _ & Hv).
  by eapply shutdown_good.
Qed.

(** The heaps reported. *)
Definition heap_sizes (local : bool) (g : host_gpu) : list Z :=
  fst <$> filter (fun h => has_bits (snd h) HEAP_DEVICE_LOCAL = local) (g_heaps g).

Lemma add_heap_max l vram gtt :
  0 <= vram -> 0 <= gtt ->
  foldl add_heap (vram, gtt) l =
  (foldr Z.max vram (fst <$> filter (fun h => has_bits (snd h) HEAP_DEVICE_LOCAL = true) l),
   foldr Z.max gtt (fst <$> filter (fun h => has_bits (snd h) HEAP_DEVICE_LOCAL = false) l)).
Proof.
  revert vram gtt; induction l as [|[sz fl] l IH]; intros vram gtt Hv Hg; [done|]. cbn [foldl].
  assert (forall a b m, foldr Z.max (if a <? b then b else a) m = Z.max b (foldr Z.max a m)) as Hm.
  { intros a b m. induction m as [|x m IHm]; cbn; [destruct (Z.ltb_spec a b); lia|]. rewrite IHm. lia. }
  rewrite !filter_cons. unfold add_heap at 2. cbn [snd].
  destruct (has_bits fl HEAP_DEVICE_LOCAL).
  - rewrite decide_True, decide_False by done. cbn [fmap list_fmap foldr fst].
    rewrite IH by (try (destruct (Z.ltb_spec vram sz)); lia). by rewrite Hm.
  - rewrite decide_False, decide_True by done. cbn [fmap list_fmap foldr fst].
    rewrite IH by (try (destruct (Z.ltb_spec gtt sz)); lia). by rewrite Hm.
Qed.

(** The heap report is about the device that [vulkan_dev_init] would choose,
    gives the largest device-local and the largest other heap, and leaves no
    object behind. *)
Theorem heaps_reported v L :
  good v L -> let '(ok, h, v1) := query_vulkan_heaps v in
  good v1 L /\ ok = hi_found h /\
  (ok = true -> exists g, best gpus = Some g /\ hi_device h = g_name g /\
     hi_vram h = foldr Z.max 0 (heap_sizes true g) /\ hi_gtt h = foldr Z.max 0 (heap_sizes false g) /\
     (hi_rebar h = true <-> exists f, f ∈ g_types g /\ device_local f = true /\ host_visible f = true)).
Proof.
  intros Hg. unfold query_vulkan_heaps. pose proof (good_create answers v L "instance" Hg) as H1.
  destruct (VkLog.vk_create answers v "instance") as [[i|] v1]; [|by split_and!].
  pose proof (enumerate_good v1 i (i :: L) H1 ltac:(left)) as H2.
  destruct (enumerate v1 i) as [[devs|] v2]; destruct H2 as [H2 Hd];
    [|split; [by apply good_destroy|done]].
  destruct (Hd devs eq_refl) as [-> _]. fold (best gpus).
  destruct (best gpus) as [g|]; (split; [by apply good_destroy|]); [|done].
  unfold heap_info. rewrite add_heap_max by lia. cbn [hi_found]. split; [done|]. intros _. exists g.
  split_and!; try done. cbn [hi_rebar]. rewrite existsb_exists.
  split; intros (f & Hf & Hx); exists f; rewrite list_elem_of_In in *; [|by destruct Hx as [-> ->]].
  by apply andb_true_iff in Hx.
Qed.

End vulkan.

(** ** A host *)

(** An integrated device, a discrete one, and a discrete AMD device with video
    memory, a mapped window on it and host memory. *)
Definition demo_gpus : list host_gpu :=
  [MkHostGpu "integrated" false 0x8086 [7] [7] [(0x100000000, 1)];
   MkHostGpu "discrete" true 0x10de [4; 7] [1; 6] [(0x280000000, 1)];
   MkHostGpu "radeon" true AMD [4; 7] [1; 7; 6] [(0x280000000, 1); (0x180000000, 0)]].
Definition start : vkst := MkVk 0 1 [].
Definition yes (_ : nat) : bool := true.

Lemma start_good : good start [].
Proof. split; [done|constructor|constructor]. Qed.
Lemma demo_bounded : types_bounded demo_gpus.
Proof. repeat constructor; unfold zlen; cbn; lia. Qed.

Lemma device_init_exact_witness :
  let '(ok, d, v1) := vulkan_dev_init yes demo_gpus start in
  ok = true /\ d_name d = "radeon" /\ d_fast d = 0 /\ d_slow d = 2 /\ d_queue_family d = 1 /\
  good (snd (vulkan_dev_shutdown d v1)) [].
Proof.
  pose proof (device_init_exact yes demo_gpus start [] demo_bounded start_good) as H.
  destruct (vulkan_dev_init yes demo_gpus start) as [[ok d] v1] eqn:E. vm_compute in E. injection E as <- <- <-.
  destruct H as (_ & [_ H] & _). repeat (split; [reflexivity|]). exact H.
Defined.

Lemma heaps_reported_witness :
  let '(ok, h, v1) := query_vulkan_heaps yes demo_gpus start in
  ok = true /\ hi_vram h = 0x280000000 /\ xbox_split_fits h = true /\ good v1 [].
Proof.
  pose proof (heaps_reported yes demo_gpus start [] start_good) as H.
  destruct (query_vulkan_heaps yes demo_gpus start) as [[ok h] v1] eqn:E. vm_compute in E. injection E as <- <- <-.
  destruct H as (H & _ & _). repeat (split; [reflexivity|]). exact H.
Defined.

(** A device without host memory is refused, and its command pool is left. *)
Example pool_left_without_host_memory :
  let '(ok, d, v1) := vulkan_dev_init yes [MkHostGpu "odd" true AMD [7] [1] []] start in
  ok = false /\ d_pool d = Some 3 /\ fst (replay (vk_log v1)) = {[3]}.
Proof. vm_compute. done. Qed.

(** With nine devices nothing is found. *)
Example nine_devices_are_none :
  fst (fst (vulkan_dev_init yes (replicate 9 (MkHostGpu "gpu" true AMD [7] [1; 6] [])) start)) = false.
Proof. reflexivity. Qed.

End VulkanDev.
