(* ===== verification/VulkanRes.v ===== *)
(** Buffers and images on the Vulkan device (src/vulkan_buffer.cpp and
    src/vulkan_image.cpp): their creation and destruction, the choice of their
    memory type, the one-time submissions that fill, copy and clear them, and
    the layout each image is tracked in. Calls go through VkLog.v; the commands
    the queue accepted are kept in order, and what they leave in memory is a
    parameter with the documented effect of the commands as hypotheses. *)
From stdpp Require Import base numbers list gmap strings.
From Stdlib Require Import ZArith Lia.
From S2P Require Import Prelude VkLog VulkanDev.
Open Scope Z_scope.

Module VulkanRes.
Import VkLog VulkanDev.

(** ** Data *)

Record VulkanBuffer := MkBuf {
  vb_buf : option Z; vb_mem : option Z; vb_size : Z; vb_type : Z; vb_fast : bool; vb_valid : bool;
}.
Definition no_buf : VulkanBuffer := MkBuf None None 0 UINT32_MAX false false.

(** VkImageLayout, access and stage flags. *)
Definition UNDEFINED : Z := 0.
Definition SHADER_READ_ONLY : Z := 5.
Definition TRANSFER_SRC : Z := 6.
Definition TRANSFER_DST : Z := 7.
Definition ACCESS_SHADER_READ : Z := 0x20.
Definition ACCESS_TRANSFER_READ : Z := 0x800.
Definition ACCESS_TRANSFER_WRITE : Z := 0x1000.
Definition STAGE_TOP : Z := 1.
Definition STAGE_FRAGMENT : Z := 0x80.
Definition STAGE_TRANSFER : Z := 0x1000.
Definition R8G8B8A8_UNORM : Z := 37.

Record VulkanImage := MkImg {
  im_img : option Z; im_mem : option Z; im_w : Z; im_h : Z; im_format : Z; im_layout : Z;
  im_type : Z; im_fast : bool; im_valid : bool;
}.
Definition no_img : VulkanImage := MkImg None None 0 0 R8G8B8A8_UNORM UNDEFINED UINT32_MAX false false.
Definition with_layout (im : VulkanImage) (l : Z) : VulkanImage :=
  MkImg (im_img im) (im_mem im) (im_w im) (im_h im) (im_format im) l (im_type im) (im_fast im) (im_valid im).

(** Access masks and stages of a barrier. *)
Record barrier := MkBarrier { src_access : Z; dst_access : Z; src_stage : Z; dst_stage : Z }.

(** Commands recorded into a command buffer. *)
Inductive gcmd :=
  | CFill (buf size pattern : Z)
  | CCopy (src dst size : Z)
  | CBarrier (img old new : Z) (b : barrier)
  | CClear (img layout color : Z)
  | CCopyImage (img layout dst w h : Z).

(** The call that records a command, and the objects it is given beside the
    command buffer. *)
Definition cmd_name (c : gcmd) : string :=
  match c with
  | CFill _ _ _ => "vkCmdFillBuffer"
  | CCopy _ _ _ => "vkCmdCopyBuffer"
  | CBarrier _ _ _ _ => "vkCmdPipelineBarrier"
  | CClear _ _ _ => "vkCmdClearColorImage"
  | CCopyImage _ _ _ _ _ => "vkCmdCopyImageToBuffer"
  end.
Definition cmd_objects (c : gcmd) : list Z :=
  match c with
  | CFill b _ _ => [b]
  | CCopy src dst _ => [src; dst]
  | CBarrier i _ _ _ | CClear i _ _ => [i]
  | CCopyImage i _ dst _ _ => [i; dst]
  end.
Definition record_cmds (v : vkst) (cb : Z) (cmds : list gcmd) : vkst :=
  foldl (fun v c => log_call v (Use (cmd_name c) (cb :: cmd_objects c) [])) v cmds.

(** The calls made, the commands the queue accepted, and whether a recording
    that was begun was never accepted. *)
Record gst := MkG { s_vk : vkst; s_sent : list gcmd; s_lost : bool }.
Definition with_vk (st : gst) (v : vkst) : gst := MkG v (s_sent st) (s_lost st).

(** ** Memory types *)

Fixpoint find_type (bits : Z) (test : Z -> bool) (l : list Z) (i : Z) : option Z :=
  match l with
  | [] => None
  | f :: l' => if Z.testbit bits i && test f then Some i else find_type bits test l' (i + 1)
  end.

Definition or_else {A} (o : option A) (o' : option A) : option A :=
  match o with Some x => Some x | None => o' end.

Definition dev_types (d : VulkanDev) : list Z := match d_phys d with Some g => g_types g | None => [] end.

Definition preferred_type (d : VulkanDev) (bits : Z) (fast : bool) : option Z :=
  let t := if fast then d_fast d else d_slow d in
  if negb (t =? UINT32_MAX) && Z.testbit bits t then Some t else None.

Definition any_type (_ : Z) : bool := true.

(** src/vulkan_buffer.cpp *)
Definition pick_mem_type (d : VulkanDev) (bits : Z) (fast : bool) : option Z :=
  let types := dev_types d in
  or_else (preferred_type d bits fast)
 (or_else (find_type bits (fun f => if fast then device_local f else host_visible f && coherent f) types 0)
 (or_else (find_type bits (fun f => negb fast && host_visible f) types 0)
          (find_type bits any_type types 0))).

(** src/vulkan_image.cpp *)
Definition pick_image_type (d : VulkanDev) (bits : Z) (fast : bool) : option Z :=
  let types := dev_types d in
  or_else (preferred_type d bits fast)
 (or_else (find_type bits (fun f => if fast then device_local f else true) types 0)
          (find_type bits any_type types 0)).

(** ** Barriers *)

Definition barrier_stage (old new : Z) : barrier :=
  if (old =? UNDEFINED) && (new =? TRANSFER_DST) then
    MkBarrier 0 ACCESS_TRANSFER_WRITE STAGE_TOP STAGE_TRANSFER
  else if (old =? TRANSFER_DST) && (new =? TRANSFER_SRC) then
    MkBarrier ACCESS_TRANSFER_WRITE ACCESS_TRANSFER_READ STAGE_TRANSFER STAGE_TRANSFER
  else if (old =? TRANSFER_SRC) && (new =? SHADER_READ_ONLY) then
    MkBarrier ACCESS_TRANSFER_READ ACCESS_SHADER_READ STAGE_TRANSFER STAGE_FRAGMENT
  else if (old =? TRANSFER_DST) && (new =? SHADER_READ_ONLY) then
    MkBarrier ACCESS_TRANSFER_WRITE ACCESS_SHADER_READ STAGE_TRANSFER STAGE_FRAGMENT
  else if (old =? SHADER_READ_ONLY) && (new =? TRANSFER_SRC) then
    MkBarrier ACCESS_SHADER_READ ACCESS_TRANSFER_READ STAGE_FRAGMENT STAGE_TRANSFER
  else if (old =? TRANSFER_SRC) && (new =? TRANSFER_DST) then
    MkBarrier ACCESS_TRANSFER_READ ACCESS_TRANSFER_WRITE STAGE_TRANSFER STAGE_TRANSFER
  else if new =? SHADER_READ_ONLY then MkBarrier 0 ACCESS_SHADER_READ STAGE_TRANSFER STAGE_FRAGMENT
  else if new =? TRANSFER_DST then MkBarrier 0 ACCESS_TRANSFER_WRITE STAGE_TOP STAGE_TRANSFER
  else if new =? TRANSFER_SRC then MkBarrier 0 ACCESS_TRANSFER_READ STAGE_TOP STAGE_TRANSFER
  else MkBarrier 0 0 STAGE_TOP STAGE_TRANSFER.

(** The handle an image is used by; VK_NULL_HANDLE is 0. *)
Definition handle (o : option Z) : Z := default 0 o.

(** A transition records its barrier and moves the tracked layout at once. *)
Definition vulkan_cmd_transition_image (im : VulkanImage) (new : Z) : gcmd * VulkanImage :=
  (CBarrier (handle (im_img im)) (im_layout im) new (barrier_stage (im_layout im) new), with_layout im new).

Section vulkan.
(** [req]: memoryTypeBits and size that a created object requires.
    [mapped]: what the words of a buffer are after these commands. *)
Context (answers : nat -> bool) (req : Z -> Z * Z) (mapped : list gcmd -> Z -> list Z).

Notation vk_create := (vk_create answers).
Notation vk_call := (vk_call answers).

(** ** One-time submissions *)

Definition submit_one_time (st : gst) (cb : Z) (cmds : list gcmd) : bool * gst :=
  let (f, v) := vk_create (s_vk st) "fence" in
  match f with
  | None => (false, MkG v (s_sent st) true)
  | Some f' =>
      let (sent, v) := vk_call v (QueueSubmit cb f') in
      let (ok, v) := if sent then let ok := answers (vk_count v) in vk_call v (WaitFence f' ok) else (false, v) in
      (ok, MkG (vk_destroy v "fence" f) (if sent then s_sent st ++ cmds else s_sent st)
               (if sent then s_lost st else true))
  end.

Definition alloc_cmd (st : gst) : option Z * gst :=
  let (cb, v) := vk_create (s_vk st) "cmd" in (cb, with_vk st v).

(** Allocate, begin, record, end, submit and wait, free. The first result says
    whether the recording began. *)
Definition one_time (st : gst) (cmds : list gcmd) : bool * bool * gst :=
  let (cb, st) := alloc_cmd st in
  match cb with
  | None => (false, false, st)
  | Some c =>
      let (began, v) := vk_call (s_vk st) (BeginCmd c) in
      let st := with_vk st v in
      let '(ok, st) :=
        if began then
          let (ended, v) := vk_call (record_cmds (s_vk st) c cmds) (EndCmd c) in
          if ended then submit_one_time (with_vk st v) c cmds else (false, MkG v (s_sent st) true)
        else (false, st) in
      (began, ok, with_vk st (vk_destroy (s_vk st) "cmd" cb))
  end.

(** ** Buffers *)

(** The memory of a new object: its type, allocation and binding; the object is
    destroyed when one of them fails. *)
Definition bind_memory (v : vkst) (kind : string) (h : Z) (type : option Z) : option (Z * Z) * vkst :=
  match type with
  | None => (None, vk_destroy v kind (Some h))
  | Some t =>
      let v := log_call v (Use "vkAllocateMemory" [] [snd (req h); t]) in
      let (mem, v) := vk_create v "memory" in
      match mem with
      | None => (None, vk_destroy v kind (Some h))
      | Some m =>
          let (ok, v) := vk_call v (Use "vkBindMemory" [h; m] [0]) in
          if ok then (Some (t, m), v)
          else (None, vk_destroy (vk_destroy v "memory" mem) kind (Some h))
      end
  end.

Definition vulkan_buffer_create (d : VulkanDev) (st : gst) (size : Z) (fast : bool) (usage : Z)
  : option VulkanBuffer * gst :=
  if negb (d_valid d) || (size =? 0) then (None, st)
  else
    let v := log_call (s_vk st) (Use "vkCreateBuffer" [] [size; Z.lor usage 3]) in
    let (buf, v) := vk_create v "buffer" in
    match buf with
    | None => (None, with_vk st v)
    | Some h =>
        let (r, v) := bind_memory v "buffer" h (pick_mem_type d (fst (req h)) fast) in
        (match r with Some (t, m) => Some (MkBuf buf (Some m) size t fast true) | None => None end, with_vk st v)
    end.

Definition vulkan_buffer_destroy (b : VulkanBuffer) (st : gst) : VulkanBuffer * gst :=
  (no_buf, with_vk st (vk_destroy (vk_destroy (s_vk st) "buffer" (vb_buf b)) "memory" (vb_mem b))).

Definition vulkan_buffer_fill_gpu (d : VulkanDev) (st : gst) (b : VulkanBuffer) (pattern : Z) : bool * gst :=
  if negb (d_valid d) || negb (vb_valid b) || negb (vb_size b mod 4 =? 0) then (false, st)
  else let '(_, ok, st) := one_time st [CFill (handle (vb_buf b)) (vb_size b) pattern] in (ok, st).

Definition vulkan_buffer_verify_mapped (d : VulkanDev) (st : gst) (b : VulkanBuffer) (pattern : Z) : bool * gst :=
  if negb (d_valid d) || negb (vb_valid b) then (false, st)
  else if zlen (dev_types d) <=? vb_type b then (false, st)
  else
    let f := flags_at (dev_types d) (vb_type b) in
    if negb (host_visible f) then (false, st)
    else
      let mem := handle (vb_mem b) in
      let (ok, v) := vk_call (s_vk st) (Use "vkMapMemory" [mem] [vb_size b]) in
      if negb ok then (false, with_vk st v)
      else
        let v := if coherent f then v else log_call v (Use "vkInvalidateMappedMemoryRanges" [mem] [vb_size b]) in
        let u := mapped (s_sent st) (handle (vb_buf b)) in
        let same := forallb (fun w => w =? pattern) (take (Z.to_nat (vb_size b `div` 4)) u) in
        (same, with_vk st (log_call v (Use "vkUnmapMemory" [mem] []))).

Definition vulkan_buffer_copy (d : VulkanDev) (st : gst) (dst src : VulkanBuffer) : bool * gst :=
  if negb (d_valid d) || negb (vb_valid dst) || negb (vb_valid src) then (false, st)
  else if negb (vb_size dst =? vb_size src) then (false, st)
  else let '(_, ok, st) := one_time st [CCopy (handle (vb_buf src)) (handle (vb_buf dst)) (vb_size src)] in (ok, st).

(** ** Images *)

Definition vulkan_image_create_2d (d : VulkanDev) (st : gst) (w h format : Z) (fast : bool)
  : option VulkanImage * gst :=
  if negb (d_valid d) || (w =? 0) || (h =? 0) then (None, st)
  else
    let v := log_call (s_vk st) (Use "vkCreateImage" [] [w; h; format; 7; UNDEFINED]) in
    let (img, v) := vk_create v "image" in
    match img with
    | None => (None, with_vk st v)
    | Some i =>
        let (r, v) := bind_memory v "image" i (pick_image_type d (fst (req i)) fast) in
        (match r with Some (t, m) => Some (MkImg img (Some m) w h format UNDEFINED t fast true) | None => None end,
         with_vk st v)
    end.

Definition vulkan_image_destroy (im : VulkanImage) (st : gst) : VulkanImage * gst :=
  (no_img, with_vk st (vk_destroy (vk_destroy (s_vk st) "image" (im_img im)) "memory" (im_mem im))).

Definition vulkan_image_clear_color (d : VulkanDev) (st : gst) (im : VulkanImage) (color : Z)
  : bool * VulkanImage * gst :=
  if negb (d_valid d) || negb (im_valid im) then (false, im, st)
  else
    let (b1, im1) := vulkan_cmd_transition_image im TRANSFER_DST in
    let (b2, im2) := vulkan_cmd_transition_image im1 SHADER_READ_ONLY in
    let '(began, ok, st) := one_time st [b1; CClear (handle (im_img im)) TRANSFER_DST color; b2] in
    (ok, if began : bool then im2 else im, st).

Definition vulkan_image_copy_to_buffer (d : VulkanDev) (st : gst) (im : VulkanImage) (dst : VulkanBuffer)
  : bool * VulkanImage * gst :=
  if negb (d_valid d) || negb (im_valid im) || negb (vb_valid dst) then (false, im, st)
  else if vb_size dst <? u64 (u64 (im_w im * im_h im) * 4) then (false, im, st)
  else
    let (b1, im1) := vulkan_cmd_transition_image im TRANSFER_SRC in
    let '(began, ok, st) :=
      one_time st [b1; CCopyImage (handle (im_img im)) TRANSFER_SRC (handle (vb_buf dst)) (im_w im) (im_h im)] in
    (ok, if began : bool then im1 else im, st).

(** ** Memory types chosen *)

Lemma find_type_spec bits test l i :
  match find_type bits test l i with
  | Some t => exists k f, t = i + Z.of_nat k /\ l !! k = Some f /\ Z.testbit bits t = true /\ test f = true
  | None => forall k f, l !! k = Some f -> Z.testbit bits (i + Z.of_nat k) && test f = false
  end.
Proof.
  revert i; induction l as [|f l IH]; intros i; cbn [find_type]; [by intros k f|].
  destruct (Z.testbit bits i && test f) eqn:E.
  - apply andb_true_iff in E as [E1 E2]. exists 0%nat, f. split_and!; try done. lia.
  - specialize (IH (i + 1)). destruct (find_type bits test l (i + 1)) as [t|].
    + destruct IH as (k & g & -> & Hk & Hb & Ht). exists (S k), g. split_and!; try done. lia.
    + intros [|k] g Hk; cbn in Hk; [injection Hk as <-; by rewrite Z.add_0_r|].
      replace (i + Z.of_nat (S k)) with (i + 1 + Z.of_nat k) by lia. by apply IH.
Qed.

(** A type of the device that the object can live in. *)
Definition compatible (d : VulkanDev) (bits t : Z) : Prop :=
  0 <= t < zlen (dev_types d) /\ Z.testbit bits t = true.

(** The pools of the device are types of it, or not there. *)
Definition pools_in (d : VulkanDev) : Prop :=
  forall t, t = d_fast d \/ t = d_slow d -> t = UINT32_MAX \/ 0 <= t < zlen (dev_types d).

Lemma find_type_compatible d bits test t :
  find_type bits test (dev_types d) 0 = Some t ->
  compatible d bits t /\ test (flags_at (dev_types d) t) = true.
Proof.
  intros H. pose proof (find_type_spec bits test (dev_types d) 0) as S. rewrite H in S.
  destruct S as (k & f & -> & Hk & Hb & Ht). pose proof (lookup_lt_Some _ _ _ Hk).
  split; [split; [lia|done]|]. unfold flags_at. replace (Z.to_nat (0 + Z.of_nat k)) with k by lia. by rewrite Hk.
Qed.

Lemma find_type_none d bits test t :
  find_type bits test (dev_types d) 0 = None -> compatible d bits t -> test (flags_at (dev_types d) t) = false.
Proof.
  intros H [Ht Hb]. pose proof (find_type_spec bits test (dev_types d) 0) as S. rewrite H in S.
  destruct (lookup_lt_is_Some_2 (dev_types d) (Z.to_nat t)) as [f Hf]; [lia|].
  specialize (S _ _ Hf). replace (0 + Z.of_nat (Z.to_nat t)) with t in S by lia. rewrite Hb in S.
  unfold flags_at. by rewrite Hf.
Qed.

Lemma preferred_compatible d bits fast t :
  pools_in d -> preferred_type d bits fast = Some t ->
  compatible d bits t /\ t = (if fast then d_fast d else d_slow d).
Proof.
  intros Hd. unfold preferred_type. set (p := if fast then _ else _).
  destruct (Z.eqb_spec p UINT32_MAX) as [E|E]; [done|]. destruct (Z.testbit bits p) eqn:Hb; [|done].
  intros [= <-]. split; [|done]. split; [|done].
  destruct (Hd p) as [?|?]; [|done|done]. destruct fast; [by left|by right].
Qed.

(** The choice for a buffer: a compatible type whenever there is one; the
    pool's own type when it fits; and for a slow buffer one the host can map
    whenever some compatible type can be. *)
Theorem buffer_type_exact d bits fast :
  pools_in d -> match pick_mem_type d bits fast with
  | None => forall t, ~ compatible d bits t
  | Some t => compatible d bits t /\
      (forall p, preferred_type d bits fast = Some p -> t = p) /\
      (forall t', preferred_type d bits fast = None -> compatible d bits t' ->
        if fast then device_local (flags_at (dev_types d) t') = true -> device_local (flags_at (dev_types d) t) = true
        else host_visible (flags_at (dev_types d) t') = true -> host_visible (flags_at (dev_types d) t) = true)
  end.
Proof.
  intros Hd. unfold pick_mem_type. cbv zeta. destruct (preferred_type d bits fast) as [p|] eqn:Ep; cbn [or_else].
  { destruct (preferred_compatible _ _ _ _ Hd Ep). split_and!; [done|by intros ? [= ->]|done]. }
  destruct (find_type _ _ _ _) as [t|] eqn:E1; cbn [or_else].
  { apply find_type_compatible in E1 as [Hc Ht]. split_and!; [done|done|]. intros t' _ _.
    destruct fast; [done|]. by apply andb_true_iff in Ht as [-> _]. }
  destruct (find_type bits (fun f => negb fast && host_visible f) _ _) as [t|] eqn:E2; cbn [or_else].
  { apply find_type_compatible in E2 as [Hc Ht]. split_and!; [done|done|]. intros t' _ _.
    destruct fast; [done|]. cbn in Ht. by rewrite Ht. }
  destruct (find_type bits any_type _ _) as [t|] eqn:E3.
  - apply find_type_compatible in E3 as [Hc Ht]. split_and!; [done|done|]. intros t' _ Hc'.
    apply (find_type_none _ _ _ t') in E1, E2; [|done|done]. destruct fast; cbn in E1, E2; [by rewrite E1|by rewrite E2].
  - intros t Hc. by apply (find_type_none _ _ _ t) in E3.
Qed.

(** ** Objects *)

Definition buf_objs (b : VulkanBuffer) : list Z := opt_list (vb_buf b) ++ opt_list (vb_mem b).
Definition img_objs (im : VulkanImage) : list Z := opt_list (im_img im) ++ opt_list (im_mem im).

Lemma submit_is_fence_submit st cb cmds :
  fst (submit_one_time st cb cmds) = fst (fence_submit answers (s_vk st) cb) /\
  s_vk (snd (submit_one_time st cb cmds)) = snd (fence_submit answers (s_vk st) cb).
Proof.
  unfold submit_one_time, fence_submit. destruct (VkLog.vk_create _ _ _) as [[f|] v]; [|done].
  unfold VkLog.vk_call. by destruct (answers (vk_count v)).
Qed.

Lemma record_good v cb cmds L :
  good v L -> cb ∈ L -> Forall (fun c => cmd_objects c ⊆ L) cmds -> good (record_cmds v cb cmds) L.
Proof.
  intros Hg Hcb Hc. revert v Hg. induction Hc as [|c cmds Hc _ IH]; intros v Hg; [done|]. apply IH.
  eapply good_use; [exact Hg|done|]. set_solver.
Qed.

Lemma record_count v cb cmds : vk_count (record_cmds v cb cmds) = vk_count v.
Proof. unfold record_cmds. revert v. induction cmds as [|c cmds IH]; intros v; cbn; [done|]. by rewrite IH. Qed.
Lemma record_next v cb cmds : vk_next (record_cmds v cb cmds) = vk_next v.
Proof. unfold record_cmds. revert v. induction cmds as [|c cmds IH]; intros v; cbn; [done|]. by rewrite IH. Qed.

Lemma one_time_good st cmds L :
  good (s_vk st) L -> Forall (fun c => cmd_objects c ⊆ L) cmds -> good (s_vk (snd (one_time st cmds))) L.
Proof.
  intros Hg Hc. unfold one_time, alloc_cmd. pose proof (good_create answers _ L "cmd" Hg) as H1.
  destruct (VkLog.vk_create answers (s_vk st) "cmd") as [[c|] v1]; [|done].
  pose proof (good_call answers v1 _ (BeginCmd c) [c] H1 eq_refl ltac:(set_solver)) as H2. cbn [with_vk s_vk].
  destruct (VkLog.vk_call answers v1 (BeginCmd c)) as [[] v2]; cbn [snd with_vk s_vk] in *; [|by apply good_destroy].
  apply (record_good v2 c cmds) in H2; [|left|eapply Forall_impl; [exact Hc|]; intros g Hx; cbn in Hx; set_solver].
  set (v2' := record_cmds v2 c cmds) in *. clearbody v2'.
  pose proof (good_call answers v2' _ (EndCmd c) [c] H2 eq_refl ltac:(set_solver)) as H3.
  destruct (VkLog.vk_call answers v2' (EndCmd c)) as [[] v3]; cbn [snd with_vk s_vk] in *; [|by apply good_destroy].
  pose proof (fence_submit_good answers v3 L c H3) as H4.
  destruct (submit_is_fence_submit (MkG v3 (s_sent st) (s_lost st)) c cmds) as [_ E]. cbn [s_vk] in E.
  unfold with_vk. cbn [s_sent s_lost].
  destruct (submit_one_time _ c cmds) as [ok st']. cbn [snd s_vk] in *. rewrite E. by apply good_destroy.
Qed.

Lemma bind_memory_good v kind h t L :
  good v (h :: L) -> let (r, v') := bind_memory v kind h t in
  match r with Some (t', m) => t = Some t' /\ good v' (h :: m :: L) | None => good v' L end.
Proof.
  intros Hg. unfold bind_memory. destruct t as [t|]; [|by apply good_destroy].
  pose proof (good_use v _ (Use "vkAllocateMemory" [] [snd (req h); t]) [] Hg eq_refl ltac:(set_solver)) as H1.
  pose proof (good_create answers _ _ "memory" H1) as H2.
  destruct (VkLog.vk_create answers _ "memory") as [[m|] v2]; [|by apply good_destroy].
  pose proof (good_call answers v2 _ (Use "vkBindMemory" [h; m] [0]) [h; m] H2 eq_refl ltac:(set_solver)) as H3.
  unfold VkLog.vk_call in H3 |- *. cbn [snd] in H3. destruct (answers _); [split; [done|]|by do 2 apply good_destroy].
  eapply good_proper; [done| |exact H3]. solve_Permutation.
Qed.

Lemma buffer_create_good d st size fast usage L :
  good (s_vk st) L -> let (b, st') := vulkan_buffer_create d st size fast usage in
  good (s_vk st') (match b with Some b => buf_objs b | None => [] end ++ L) /\
  s_sent st' = s_sent st /\ s_lost st' = s_lost st /\
  (forall b', b = Some b' -> vb_valid b' = true /\ vb_size b' = size /\
     exists h, vb_buf b' = Some h /\ pick_mem_type d (fst (req h)) fast = Some (vb_type b')).
Proof.
  intros Hg. unfold vulkan_buffer_create. destruct (negb _ || _); [done|].
  pose proof (good_use _ _ (Use "vkCreateBuffer" [] [size; Z.lor usage 3]) [] Hg eq_refl ltac:(set_solver)) as H1.
  pose proof (good_create answers _ _ "buffer" H1) as H2.
  destruct (VkLog.vk_create answers _ "buffer") as [[h|] v2]; [|done].
  pose proof (bind_memory_good v2 "buffer" h (pick_mem_type d (fst (req h)) fast) L H2) as H3.
  destruct (bind_memory v2 "buffer" h _) as [[[t m]|] v3]; [|done]. destruct H3 as [Ht H3].
  split_and!; try done. intros b' [= <-]. split_and!; try done. by exists h.
Qed.

Lemma image_create_good d st w h format fast L :
  good (s_vk st) L -> let (im, st') := vulkan_image_create_2d d st w h format fast in
  good (s_vk st') (match im with Some im => img_objs im | None => [] end ++ L) /\
  s_sent st' = s_sent st /\ s_lost st' = s_lost st /\
  (forall im', im = Some im' -> im_layout im' = UNDEFINED /\
     exists i, im_img im' = Some i /\ vk_next (s_vk st) <= i < vk_next (s_vk st')).
Proof.
  intros Hg. unfold vulkan_image_create_2d. destruct (negb _ || _ || _); [done|].
  pose proof (good_use _ _ (Use "vkCreateImage" [] [w; h; format; 7; UNDEFINED]) [] Hg eq_refl ltac:(set_solver)) as H1.
  pose proof (good_create answers _ _ "image" H1) as H2.
  destruct (VkLog.vk_create answers _ "image") as [[i|] v2] eqn:E; [|done].
  pose proof (bind_memory_good v2 "image" i (pick_image_type d (fst (req i)) fast) L H2) as H3.
  destruct (bind_memory v2 "image" i _) as [[[t m]|] v3]; [|done]. destruct H3 as [Ht H3].
  split_and!; try done. intros im' [= <-]. split; [done|]. exists i. split; [done|].
  destruct H3 as [_ H3 _]. apply Forall_cons in H3 as [H3 _]. split; [|exact H3].
  unfold VkLog.vk_create in E. destruct (answers _); [|done]. cbn in E. injection E as <- _. lia.
Qed.

(** ** Layouts *)

(** The layout an image really has after the accepted commands. *)
Definition layout_after (img cur : Z) (c : gcmd) : Z :=
  match c with CBarrier i _ new _ => if i =? img then new else cur | _ => cur end.
Definition layout_of (l : list gcmd) (img : Z) : Z := foldl (layout_after img) UNDEFINED l.

(** A barrier leaves the layout the image is in; a clear or a copy names it. *)
Definition cmd_legal (l : list gcmd) (c : gcmd) : Prop :=
  match c with
  | CBarrier i old _ _ => old = layout_of l i
  | CClear i lay _ => lay = layout_of l i
  | CCopyImage i lay _ _ _ => lay = layout_of l i
  | CFill _ _ _ | CCopy _ _ _ => True
  end.

Inductive legal : list gcmd -> Prop :=
  | legal_nil : legal []
  | legal_snoc l c : legal l -> cmd_legal l c -> legal (l ++ [c]).

Definition cmd_image (c : gcmd) : option Z :=
  match c with
  | CBarrier i _ _ _ | CClear i _ _ | CCopyImage i _ _ _ _ => Some i
  | CFill _ _ _ | CCopy _ _ _ => None
  end.

Definition images_below (n : Z) (l : list gcmd) : Prop := Forall (fun c => forall i, cmd_image c = Some i -> i < n) l.

Lemma layout_of_snoc l c img : layout_of (l ++ [c]) img = layout_after img (layout_of l img) c.
Proof. unfold layout_of. by rewrite foldl_app. Qed.

Lemma layout_of_other l cmds img :
  Forall (fun c => cmd_image c <> Some img) cmds -> layout_of (l ++ cmds) img = layout_of l img.
Proof.
  intros H. unfold layout_of. rewrite foldl_app. generalize (foldl (layout_after img) UNDEFINED l).
  induction H as [|c cmds Hc _ IH]; intros z; [done|]. cbn [foldl]. rewrite IH.
  destruct c; try done. cbn in *. destruct (Z.eqb_spec img0 img); congruence.
Qed.

Lemma layout_of_new l n img : images_below n l -> n <= img -> layout_of l img = UNDEFINED.
Proof.
  intros H Hn. apply (layout_of_other [] l img). eapply Forall_impl; [exact H|].
  cbn. intros c Hc E. specialize (Hc _ E). lia.
Qed.

Local Ltac solve_layouts :=
  split; [repeat (apply legal_snoc; [|unfold cmd_legal]); try done|];
  rewrite ?layout_of_snoc; unfold layout_after; by rewrite ?Z.eqb_refl.

Lemma clear_legal l i lay color :
  legal l -> lay = layout_of l i ->
  let cmds := [CBarrier i lay TRANSFER_DST (barrier_stage lay TRANSFER_DST); CClear i TRANSFER_DST color;
               CBarrier i TRANSFER_DST SHADER_READ_ONLY (barrier_stage TRANSFER_DST SHADER_READ_ONLY)] in
  legal (l ++ cmds) /\ layout_of (l ++ cmds) i = SHADER_READ_ONLY.
Proof.
  intros Hl ->. cbv zeta. rewrite (app_assoc l [_] [_; _] : l ++ [_; _; _] = _), (app_assoc _ [_] [_] : _ ++ [_; _] = _).
  solve_layouts.
Qed.

Lemma copy_out_legal l i lay dst w h :
  legal l -> lay = layout_of l i ->
  let cmds := [CBarrier i lay TRANSFER_SRC (barrier_stage lay TRANSFER_SRC); CCopyImage i TRANSFER_SRC dst w h] in
  legal (l ++ cmds) /\ layout_of (l ++ cmds) i = TRANSFER_SRC.
Proof.
  intros Hl ->. cbv zeta. rewrite (app_assoc l [_] [_] : l ++ [_; _] = _).
  solve_layouts.
Qed.

(** What a one-time submission adds to the accepted commands. *)
Record sent_by (st st' : gst) (began ok : bool) (cmds : list gcmd) : Prop := {
  sb_none : began = false -> s_sent st' = s_sent st /\ s_lost st' = s_lost st;
  sb_all : began = true -> s_lost st' = false -> s_lost st = false /\ s_sent st' = s_sent st ++ cmds;
  sb_some : s_sent st' = s_sent st \/ s_sent st' = s_sent st ++ cmds;
  sb_ok : ok = true -> began = true /\ s_sent st' = s_sent st ++ cmds;
  sb_next : vk_next (s_vk st) <= vk_next (s_vk st');
}.

Lemma create_next v kind : vk_next v <= vk_next (snd (vk_create v kind)).
Proof. unfold VkLog.vk_create. destruct (answers _); cbn; lia. Qed.

Lemma submit_sent st cb cmds :
  let (ok, st') := submit_one_time st cb cmds in sent_by st st' true ok cmds.
Proof.
  unfold submit_one_time. pose proof (create_next (s_vk st) "fence") as Hn.
  destruct (VkLog.vk_create _ _ _) as [[f|] v]; cbn [snd] in Hn; [|by split; auto].
  unfold VkLog.vk_call. destruct (answers (vk_count v)); split; cbn; auto; done.
Qed.

Lemma one_time_sent st cmds :
  let '(began, ok, st') := one_time st cmds in sent_by st st' began ok cmds.
Proof.
  unfold one_time, alloc_cmd. pose proof (create_next (s_vk st) "cmd") as Hn.
  destruct (VkLog.vk_create _ _ _) as [[c|] v]; cbn [snd] in Hn; [|by split; auto].
  unfold VkLog.vk_call at 1. cbn [with_vk s_vk s_sent s_lost].
  destruct (answers (vk_count v)); [|split; auto; done]. unfold VkLog.vk_call. cbn [s_sent s_lost].
  destruct (answers _); [|split; auto; cbn; rewrite ?record_next; done].
  match goal with |- context [submit_one_time ?s c cmds] =>
    pose proof (submit_sent s c cmds) as H; destruct (submit_one_time s c cmds) as [ok st'] end.
  destruct H as [H1 H2 H3 H4 H5]. split; auto; cbn in *; rewrite ?record_next in *; cbn in *; lia.
Qed.

(** ** Programs over buffers and images *)

(** What a user of the two interfaces holds, and what it may do: create into a
    variable of its own, and use or destroy any of its variables at any time,
    those already destroyed too, which stay in their place. *)
Record client := MkClient { c_bufs : list VulkanBuffer; c_imgs : list VulkanImage; c_st : gst }.

Inductive cstep (d : VulkanDev) : client -> client -> Prop :=
  | st_create_buf bufs imgs st size fast usage r st' :
      vulkan_buffer_create d st size fast usage = (r, st') ->
      cstep d (MkClient bufs imgs st) (MkClient (option_list r ++ bufs) imgs st')
  | st_destroy_buf l1 b l2 imgs st :
      cstep d (MkClient (l1 ++ b :: l2) imgs st) 
        (MkClient (l1 ++ fst (vulkan_buffer_destroy b st) :: l2) imgs (snd (vulkan_buffer_destroy b st)))
  | st_fill bufs imgs st b pattern :
      b ∈ bufs -> cstep d (MkClient bufs imgs st) (MkClient bufs imgs (snd (vulkan_buffer_fill_gpu d st b pattern)))
  | st_verify bufs imgs st b pattern :
      b ∈ bufs ->
      cstep d (MkClient bufs imgs st) (MkClient bufs imgs (snd (vulkan_buffer_verify_mapped d st b pattern)))
  | st_copy bufs imgs st dst src :
      dst ∈ bufs -> src ∈ bufs ->
      cstep d (MkClient bufs imgs st) (MkClient bufs imgs (snd (vulkan_buffer_copy d st dst src)))
  | st_create_img bufs imgs st w h format fast r st' :
      vulkan_image_create_2d d st w h format fast = (r, st') ->
      cstep d (MkClient bufs imgs st) (MkClient bufs (option_list r ++ imgs) st')
  | st_destroy_img bufs l1 im l2 st :
      cstep d (MkClient bufs (l1 ++ im :: l2) st) 
        (MkClient bufs (l1 ++ fst (vulkan_image_destroy im st) :: l2) (snd (vulkan_image_destroy im st)))
  | st_clear bufs l1 im l2 st color ok im' st' :
      vulkan_image_clear_color d st im color = (ok, im', st') ->
      cstep d (MkClient bufs (l1 ++ im :: l2) st) (MkClient bufs (l1 ++ im' :: l2) st')
  | st_copy_out bufs l1 im l2 st b ok im' st' :
      b ∈ bufs -> vulkan_image_copy_to_buffer d st im b = (ok, im', st') ->
      cstep d (MkClient bufs (l1 ++ im :: l2) st) (MkClient bufs (l1 ++ im' :: l2) st').

Definition objects (c : client) : list Z :=
  flat_map buf_objs (c_bufs c) ++ flat_map img_objs (c_imgs c).

(** Layouts: whatever was accepted is legal and the tracked layouts are the
    real ones. *)
Definition tracked (l : list gcmd) (im : VulkanImage) : Prop :=
  forall i, im_img im = Some i -> im_layout im = layout_of l i.

(** What [valid] stands for. *)
Definition buf_ok (b : VulkanBuffer) : Prop := vb_valid b = true -> is_Some (vb_buf b) /\ is_Some (vb_mem b).
Definition img_ok (im : VulkanImage) : Prop := im_valid im = true -> is_Some (im_img im).

Record client_inv (L : list Z) (c : client) : Prop := {
  ci_good : good (s_vk (c_st c)) (objects c ++ L);
  ci_bufs : Forall buf_ok (c_bufs c);
  ci_imgs : Forall img_ok (c_imgs c);
  ci_below : images_below (vk_next (s_vk (c_st c))) (s_sent (c_st c));
  ci_legal : s_lost (c_st c) = false -> legal (s_sent (c_st c)) /\ Forall (tracked (s_sent (c_st c))) (c_imgs c);
}.

Lemma images_below_le n m l : images_below n l -> n <= m -> images_below m l.
Proof. intros H Hn. eapply Forall_impl; [exact H|]. intros c Hc i Hi. specialize (Hc i Hi). cbn in *. lia. Qed.

(** A valid buffer or image of the program is live. *)
Lemma held_buf L bufs imgs st b :
  client_inv L (MkClient bufs imgs st) -> b ∈ bufs -> vb_valid b = true ->
  handle (vb_buf b) ∈ objects (MkClient bufs imgs st) ++ L /\ handle (vb_mem b) ∈ objects (MkClient bufs imgs st) ++ L.
Proof.
  intros [_ Hb _ _ _] Hin Hv. cbn in Hb. rewrite Forall_forall in Hb. destruct (Hb b Hin Hv) as [[h Hh] [m Hm]].
  assert (Hf : forall x, x ∈ buf_objs b -> x ∈ objects (MkClient bufs imgs st) ++ L).
  { intros x Hx. apply elem_of_app; left. apply elem_of_app; left.
    apply list_elem_of_In, in_flat_map. exists b. by rewrite <- !list_elem_of_In. }
  unfold buf_objs in Hf. rewrite Hh, Hm in Hf |- *. split; apply Hf; [left|right; left].
Qed.

Lemma held_img L bufs l1 im l2 st :
  client_inv L (MkClient bufs (l1 ++ im :: l2) st) -> im_valid im = true ->
  exists i, im_img im = Some i /\ i ∈ objects (MkClient bufs (l1 ++ im :: l2) st) ++ L.
Proof.
  intros [_ _ Hi _ _] Hv. cbn in Hi. apply Forall_app in Hi as [_ Hi]. inversion_clear Hi as [|? ? Hi' _].
  destruct (Hi' Hv) as [i Ei]. exists i. split; [done|]. apply elem_of_app; left. apply elem_of_app; right.
  apply list_elem_of_In, in_flat_map. exists im. rewrite <- !list_elem_of_In. split; [set_solver|].
  unfold img_objs. rewrite Ei. left.
Qed.

(** A submission that touches no image keeps the invariant. *)
Lemma inv_buffer_cmds L bufs imgs st cmds :
  Forall (fun c => cmd_image c = None) cmds ->
  Forall (fun c => cmd_objects c ⊆ objects (MkClient bufs imgs st) ++ L) cmds ->
  client_inv L (MkClient bufs imgs st) ->
  client_inv L (MkClient bufs imgs (snd (one_time st cmds))).
Proof.
  intros Hc Ho [Hg Hb Hi Hs Hl]. pose proof (one_time_good st cmds _ Hg Ho) as Hg'.
  pose proof (one_time_sent st cmds) as Hsent. destruct (one_time st cmds) as [[began ok] st']. cbn in *.
  destruct Hsent as [S1 S2 S3 S4 S5].
  assert (Hno : forall img, layout_of (s_sent st ++ cmds) img = layout_of (s_sent st) img).
  { intros img. apply layout_of_other. eapply Forall_impl; [exact Hc|]. cbn. congruence. }
  split; cbn; try done.
  - destruct S3 as [-> | ->]; [by eapply images_below_le|]. apply Forall_app.
    split; [by eapply images_below_le|]. eapply Forall_impl; [exact Hc|]. cbn. congruence.
  - intros Hlost. destruct began.
    + destruct (S2 eq_refl Hlost) as [H0 ->]. destruct (Hl H0) as [Hle Ht]. split.
      * clear -Hc Hle. revert Hc. induction cmds as [|c cmds IH] using rev_ind; intros Hc; [by rewrite app_nil_r|].
        apply Forall_app in Hc as [Hc Hc']. inversion_clear Hc'. rewrite app_assoc. constructor; [by apply IH|].
        by destruct c.
      * eapply Forall_impl; [exact Ht|]. unfold tracked. intros im Hx i Ei. rewrite Hno. by apply Hx.
    + destruct (S1 eq_refl) as [-> E]. rewrite E in Hlost. by apply Hl.
Qed.

(** Images held have handles of their own, so that what is done to one leaves
    the layout of the others. *)
Lemma image_distinct (A L : list Z) l1 im l2 i x :
  NoDup ((A ++ flat_map img_objs l1 ++ img_objs im ++ flat_map img_objs l2) ++ L) -> im_img im = Some i ->
  x ∈ l1 \/ x ∈ l2 -> im_img x <> Some i.
Proof.
  intros Hnd Hi Hx E.
  assert (i ∈ flat_map img_objs l1 \/ i ∈ flat_map img_objs l2) as Hin.
  { destruct Hx as [Hx|Hx]; [left|right]; apply list_elem_of_In, in_flat_map; exists x;
      (split; [by apply list_elem_of_In|]); unfold img_objs; rewrite E; by left. }
  unfold img_objs at 2 in Hnd. rewrite Hi in Hnd. cbn in Hnd.
  rewrite <- !app_assoc in Hnd. apply NoDup_app in Hnd as (_ & _ & Hnd).
  apply NoDup_app in Hnd as (_ & Hnd1 & Hnd). cbn in Hnd. apply NoDup_cons in Hnd as [Hnd2 _]. set_solver.
Qed.

Lemma tracked_other l cmds i x :
  Forall (fun c => cmd_image c = Some i) cmds -> im_img x <> Some i -> tracked l x -> tracked (l ++ cmds) x.
Proof.
  unfold tracked. intros Hc Hx Ht j Hj. rewrite (Ht j Hj). symmetry. apply layout_of_other.
  rewrite Hj in *. eapply Forall_impl; [exact Hc|]. cbn. congruence.
Qed.

(** A submission about one image, with what it does to its layout. *)
Lemma inv_image_cmds L bufs l1 im l2 st cmds lay i :
  im_img im = Some i ->
  Forall (fun c => cmd_image c = Some i) cmds ->
  Forall (fun c => cmd_objects c ⊆ objects (MkClient bufs (l1 ++ im :: l2) st) ++ L) cmds ->
  (forall l, legal l -> tracked l im -> legal (l ++ cmds) /\ layout_of (l ++ cmds) i = lay) ->
  client_inv L (MkClient bufs (l1 ++ im :: l2) st) ->
  let '(began, ok, st') := one_time st cmds in
  client_inv L (MkClient bufs (l1 ++ (if began : bool then with_layout im lay else im) :: l2) st').
Proof.
  intros Hi Hc Ho Hlay [Hg Hb Hn Hs Hl]. pose proof (one_time_good st cmds _ Hg Ho) as Hg'. clear Ho.
  pose proof (one_time_sent st cmds) as Hsent. destruct (one_time st cmds) as [[began ok] st']. cbn in *.
  destruct Hsent as [S1 S2 S3 S4 S5].
  set (im' := if began then _ else _).
  assert (im_img im' = im_img im /\ img_objs im' = img_objs im) as [Ei Eo] by (by destruct began).
  unfold objects in *. cbn [c_bufs c_imgs] in *. rewrite flat_map_app in *. cbn [flat_map] in *.
  apply Forall_app in Hn as [Hn1 Hn2]. inversion_clear Hn2 as [|? ? Hn2' Hn3].
  split; cbn [c_bufs c_imgs c_st]; try done.
  - unfold objects. cbn [c_bufs c_imgs]. rewrite flat_map_app. cbn [flat_map]. by rewrite Eo.
  - apply Forall_app. split; [done|]. constructor; [by destruct began|done].
  - assert (Hlt : i < vk_next (s_vk st)).
    { destruct Hg as [_ Hf _]. rewrite Forall_forall in Hf. apply Hf. unfold img_objs. rewrite Hi. cbn. set_solver. }
    destruct S3 as [-> | ->]; [by eapply images_below_le|]. apply Forall_app.
    split; [by eapply images_below_le|]. eapply Forall_impl; [exact Hc|]. cbn. intros c E j Hj. rewrite E in Hj. injection Hj as <-. lia.
  - intros Hlost. destruct began; [|destruct (S1 eq_refl) as [-> E]; rewrite E in Hlost; by apply Hl].
    destruct (S2 eq_refl Hlost) as [H0 ->]. destruct (Hl H0) as [Hle Ht].
    apply Forall_app in Ht as [Ht1 Ht2]. inversion_clear Ht2 as [|? ? Ht Ht3].
    destruct (Hlay _ Hle Ht) as [Hle' Hlo]. split; [done|].
    pose proof (fun x => image_distinct _ _ _ _ _ _ x (g_nodup _ _ Hg) Hi) as Hd.
    apply Forall_app. split; [|constructor].
    + rewrite Forall_forall in *. intros x Hx. eapply tracked_other; eauto.
    + unfold tracked. cbn. intros j. rewrite Hi. by intros [= <-].
    + rewrite Forall_forall in *. intros x Hx. eapply tracked_other; eauto.
Qed.

(** A state that differs in its calls only. *)
Lemma inv_calls L bufs imgs bufs' imgs' st st' :
  client_inv L (MkClient bufs imgs st) ->
  good (s_vk st') (objects (MkClient bufs' imgs' st') ++ L) ->
  Forall buf_ok bufs' -> Forall img_ok imgs' ->
  s_sent st' = s_sent st -> s_lost st' = s_lost st -> vk_next (s_vk st) <= vk_next (s_vk st') ->
  (forall l, l = s_sent st -> Forall (tracked l) imgs -> Forall (tracked l) imgs') ->
  client_inv L (MkClient bufs' imgs' st').
Proof.
  intros [_ _ _ Hs Hl] Hg Hb Hi Es El Hn Ht. split; cbn in *; try done; rewrite ?Es, ?El.
  - by eapply images_below_le.
  - intros H. destruct (Hl H) as [H1 H2]. split; [done|]. by apply Ht.
Qed.

Lemma bind_next v kind h t : vk_next v <= vk_next (snd (bind_memory v kind h t)).
Proof.
  unfold bind_memory. destruct t as [t|]; [|done].
  match goal with |- context [VkLog.vk_create answers ?w "memory"] => pose proof (create_next w "memory") as H;
    destruct (VkLog.vk_create answers w "memory") as [[m|] v'] end; [|done].
  unfold VkLog.vk_call. by destruct (answers _).
Qed.

Lemma inv_create_buf L d bufs imgs st size fast usage r st' :
  vulkan_buffer_create d st size fast usage = (r, st') -> client_inv L (MkClient bufs imgs st) ->
  client_inv L (MkClient (option_list r ++ bufs) imgs st').
Proof.
  intros E H. pose proof H as [Hg Hb Hi _ _]. pose proof (buffer_create_good d st size fast usage _ Hg) as Hc.
  assert (vk_next (s_vk st) <= vk_next (s_vk st')) as Hn.
  { unfold vulkan_buffer_create in E. destruct (negb _ || _); [by simplify_eq|].
    match type of E with context [VkLog.vk_create answers ?w ?k] => pose proof (create_next w k) as H1;
      destruct (VkLog.vk_create answers w k) as [[h|] v] end; [|by simplify_eq].
    pose proof (bind_next v "buffer" h (pick_mem_type d (fst (req h)) fast)) as H2.
    destruct (bind_memory v "buffer" h _) as [r' v']. simplify_eq. cbn in *. lia. }
  rewrite E in Hc. destruct Hc as (Hc1 & Hs & Hl & Hc).
  eapply inv_calls; try done.
  - unfold objects in *. cbn [c_bufs c_imgs c_st] in *. rewrite flat_map_app.
    destruct r; cbn in *; rewrite ?app_nil_r; by rewrite <- ?app_assoc in *.
  - destruct r as [b|]; [|done]. constructor; [|done]. intros _.
    unfold vulkan_buffer_create in E. repeat case_match; simplify_eq; cbn; eauto.
Qed.

Lemma inv_create_img L d bufs imgs st w h format fast r st' :
  vulkan_image_create_2d d st w h format fast = (r, st') -> client_inv L (MkClient bufs imgs st) ->
  client_inv L (MkClient bufs (option_list r ++ imgs) st').
Proof.
  intros E H. pose proof H as [Hg Hb Hi Hs Hl]. pose proof (image_create_good d st w h format fast _ Hg) as Hc.
  assert (vk_next (s_vk st) <= vk_next (s_vk st')) as Hn.
  { unfold vulkan_image_create_2d in E. destruct (negb _ || _ || _); [by simplify_eq|].
    match type of E with context [VkLog.vk_create answers ?w ?k] => pose proof (create_next w k) as H1;
      destruct (VkLog.vk_create answers w k) as [[i|] v] end; [|by simplify_eq].
    pose proof (bind_next v "image" i (pick_image_type d (fst (req i)) fast)) as H2.
    destruct (bind_memory v "image" i _) as [r' v']. simplify_eq. cbn in *. lia. }
  rewrite E in Hc. destruct Hc as (Hc1 & Hs' & Hl' & Hc).
  eapply inv_calls; try done.
  - unfold objects in *. cbn [c_bufs c_imgs c_st] in *. rewrite flat_map_app.
    eapply good_proper; [done| |exact Hc1]. destruct r; cbn; rewrite ?app_nil_r; solve_Permutation.
  - destruct r as [im|]; [|done]. constructor; [|done]. destruct (Hc im eq_refl) as (_ & i & Ei & _). intros _. by exists i.
  - intros l -> Ht. destruct r as [im|]; [|done]. constructor; [|done].
    destruct (Hc im eq_refl) as (El & i & Ei & Hi'). intros j. rewrite El, Ei. intros [= <-]. symmetry.
    eapply layout_of_new; [exact Hs|]. cbn. lia.
Qed.

Lemma inv_destroy_buf L l1 b l2 imgs st :
  client_inv L (MkClient (l1 ++ b :: l2) imgs st) ->
  client_inv L (MkClient (l1 ++ l2) imgs (snd (vulkan_buffer_destroy b st))).
Proof.
  intros H. pose proof H as [Hg Hb Hi _ _]. eapply inv_calls; try done; cbn.
  - do 2 apply good_destroy_opt. eapply good_proper; [done| |exact Hg].
    unfold objects. cbn. rewrite !flat_map_app. cbn [flat_map]. unfold buf_objs at 4. solve_Permutation.
  - apply Forall_app in Hb as [Hb1 Hb2]. inversion_clear Hb2. by apply Forall_app.
  - by destruct (vb_buf b), (vb_mem b).
Qed.

Lemma inv_destroy_img L bufs l1 im l2 st :
  client_inv L (MkClient bufs (l1 ++ im :: l2) st) ->
  client_inv L (MkClient bufs (l1 ++ l2) (snd (vulkan_image_destroy im st))).
Proof.
  intros H. pose proof H as [Hg Hb Hi _ _]. eapply inv_calls; try done; cbn.
  - do 2 apply good_destroy_opt. eapply good_proper; [done| |exact Hg].
    unfold objects. cbn. rewrite !flat_map_app. cbn [flat_map]. unfold img_objs at 4. solve_Permutation.
  - apply Forall_app in Hi as [Hb1 Hb2]. inversion_clear Hb2. by apply Forall_app.
  - by destruct (im_img im), (im_mem im).
  - intros l _ Ht. apply Forall_app in Ht as [Ht1 Ht2]. inversion_clear Ht2. by apply Forall_app.
Qed.

Lemma inv_verify L d bufs imgs st b pattern :
  b ∈ bufs -> client_inv L (MkClient bufs imgs st) ->
  client_inv L (MkClient bufs imgs (snd (vulkan_buffer_verify_mapped d st b pattern))).
Proof.
  intros Hin H. pose proof H as [Hg Hb Hi _ _]. unfold vulkan_buffer_verify_mapped.
  destruct (negb (d_valid d)); [done|]. destruct (vb_valid b) eqn:Ev; [cbn [orb negb]|done].
  destruct (_ <=? _); [done|]. destruct (negb _); [done|].
  destruct (held_buf _ _ _ _ _ H Hin Ev) as [_ Hm].
  set (m := handle _) in *.
  assert (forall v name data, good v (objects (MkClient bufs imgs st) ++ L) ->
            good (log_call v (Use name [m] data)) (objects (MkClient bufs imgs st) ++ L)) as Huse.
  { intros v name data Hv. eapply good_use; [exact Hv|done|]. set_solver. }
  pose proof (good_call answers (s_vk st) _ (Use "vkMapMemory" [m] [vb_size b]) [m] Hg eq_refl ltac:(set_solver)) as H1.
  unfold VkLog.vk_call in H1 |- *. cbn [snd] in H1. destruct (answers _); cbn [negb snd]; [|by eapply inv_calls].
  destruct (coherent _); (eapply inv_calls; [exact H|..]; try done); cbn; auto.
Qed.

(** A destroyed variable stays, and stands for nothing. *)
Lemma inv_keep_buf L l1 l2 imgs st :
  client_inv L (MkClient (l1 ++ l2) imgs st) -> client_inv L (MkClient (l1 ++ no_buf :: l2) imgs st).
Proof.
  intros H. pose proof H as [Hg Hb Hi _ _]. eapply inv_calls; try done; cbn.
  - unfold objects in *. cbn in *. by rewrite flat_map_app in *.
  - apply Forall_app in Hb as [Hb1 Hb2]. apply Forall_app. split; [done|]. by constructor.
Qed.

Lemma inv_keep_img L bufs l1 l2 st :
  client_inv L (MkClient bufs (l1 ++ l2) st) -> client_inv L (MkClient bufs (l1 ++ no_img :: l2) st).
Proof.
  intros H. pose proof H as [Hg Hb Hi _ _]. eapply inv_calls; try done; cbn.
  - unfold objects in *. cbn in *. by rewrite flat_map_app in *.
  - apply Forall_app in Hi as [Hi1 Hi2]. apply Forall_app. split; [done|]. by constructor.
  - intros l _ Ht. apply Forall_app in Ht as [Ht1 Ht2]. apply Forall_app. split; [done|]. by constructor.
Qed.

Lemma inv_fill L d bufs imgs st b pattern :
  b ∈ bufs -> client_inv L (MkClient bufs imgs st) ->
  client_inv L (MkClient bufs imgs (snd (vulkan_buffer_fill_gpu d st b pattern))).
Proof.
  intros Hb H. unfold vulkan_buffer_fill_gpu. destruct (negb (d_valid d)); [done|].
  destruct (vb_valid b) eqn:Ev; cbn [orb negb]; [|done]. destruct (negb _); [done|].
  destruct (held_buf _ _ _ _ _ H Hb Ev) as [Hh _].
  match goal with |- context [one_time st ?l] => pose proof (inv_buffer_cmds L bufs imgs st l) as Hi end.
  destruct (one_time _ _) as [[? ?] ?]. apply Hi; [by repeat constructor| |done]. apply Forall_singleton. cbn. set_solver.
Qed.

Lemma inv_copy L d bufs imgs st dst src :
  dst ∈ bufs -> src ∈ bufs -> client_inv L (MkClient bufs imgs st) ->
  client_inv L (MkClient bufs imgs (snd (vulkan_buffer_copy d st dst src))).
Proof.
  intros Hd Hs H. unfold vulkan_buffer_copy. destruct (negb (d_valid d)); [done|].
  destruct (vb_valid dst) eqn:Ed; cbn [orb negb]; [|done]. destruct (vb_valid src) eqn:Es; cbn [negb]; [|done].
  destruct (negb _); [done|].
  destruct (held_buf _ _ _ _ _ H Hd Ed) as [Hh1 _]. destruct (held_buf _ _ _ _ _ H Hs Es) as [Hh2 _].
  match goal with |- context [one_time st ?l] => pose proof (inv_buffer_cmds L bufs imgs st l) as Hi end.
  destruct (one_time _ _) as [[? ?] ?]. apply Hi; [by repeat constructor| |done]. apply Forall_singleton. cbn. set_solver.
Qed.

Lemma inv_clear L d bufs l1 im l2 st color ok im' st' :
  vulkan_image_clear_color d st im color = (ok, im', st') ->
  client_inv L (MkClient bufs (l1 ++ im :: l2) st) -> client_inv L (MkClient bufs (l1 ++ im' :: l2) st').
Proof.
  intros E H. unfold vulkan_image_clear_color in E.
  destruct (d_valid d), (im_valid im) eqn:Ev; cbn [orb negb] in E; try by simplify_eq.
  destruct (held_img _ _ _ _ _ _ H Ev) as (i & Hi & Hin). cbn in E. rewrite Hi in E. cbn in E.
  match type of E with context [one_time st ?l] =>
    pose proof (inv_image_cmds L bufs l1 im l2 st l SHADER_READ_ONLY i Hi) as Hk end.
  destruct (one_time _ _) as [[began ok'] st'']. simplify_eq.
  apply Hk; [by repeat constructor|rewrite !Forall_cons; cbn; set_solver| |done].
  intros l Hl Ht. apply clear_legal; [done|]. by apply Ht.
Qed.

Lemma inv_copy_out L d bufs l1 im l2 st b ok im' st' :
  b ∈ bufs -> vulkan_image_copy_to_buffer d st im b = (ok, im', st') ->
  client_inv L (MkClient bufs (l1 ++ im :: l2) st) -> client_inv L (MkClient bufs (l1 ++ im' :: l2) st').
Proof.
  intros Hb E H. unfold vulkan_image_copy_to_buffer in E.
  destruct (d_valid d), (im_valid im) eqn:Ev; cbn [orb negb] in E; try by simplify_eq.
  destruct (vb_valid b) eqn:Eb; cbn [negb] in E; [|by simplify_eq]. destruct (_ <? _); [by simplify_eq|].
  destruct (held_img _ _ _ _ _ _ H Ev) as (i & Hi & Hin). destruct (held_buf _ _ _ _ _ H Hb Eb) as [Hh _].
  cbn in E. rewrite Hi in E. cbn in E.
  match type of E with context [one_time st ?l] =>
    pose proof (inv_image_cmds L bufs l1 im l2 st l TRANSFER_SRC i Hi) as Hk end.
  destruct (one_time _ _) as [[began ok'] st'']. simplify_eq.
  apply Hk; [by repeat constructor|rewrite !Forall_cons; cbn; set_solver| |done].
  intros l Hl Ht. apply copy_out_legal; [done|]. by apply Ht.
Qed.

Lemma client_step d L c c' : cstep d c c' -> client_inv L c -> client_inv L c'.
Proof.
  intros Hs H. destruct Hs.
  - by eapply inv_create_buf.
  - by apply inv_keep_buf, inv_destroy_buf.
  - by apply inv_fill.
  - by apply inv_verify.
  - by apply inv_copy.
  - by eapply inv_create_img.
  - by apply inv_keep_img, inv_destroy_img.
  - by eapply inv_clear.
  - by eapply inv_copy_out.
Qed.

Lemma client_reachable d L c c' : rtc (cstep d) c c' -> client_inv L c -> client_inv L c'.
Proof. induction 1; eauto using client_step. Qed.

(** Destroying everything that is held. *)
Definition release (c : client) : gst :=
  foldl (fun st im => snd (vulkan_image_destroy im st))
        (foldl (fun st b => snd (vulkan_buffer_destroy b st)) (c_st c) (c_bufs c)) (c_imgs c).

Lemma release_inv L c : client_inv L c -> client_inv L (MkClient [] [] (release c)).
Proof.
  destruct c as [bufs imgs st]. unfold release. cbn [c_bufs c_imgs c_st].
  revert st. induction bufs as [|b bufs IH]; intros st H; cbn [foldl]; [|by apply IH, (inv_destroy_buf _ [])].
  revert st H. induction imgs as [|im imgs IH]; intros st H; cbn [foldl]; [done|]. by apply IH, (inv_destroy_img _ _ []).
Qed.

(** C38. Any program over buffers and images, whatever each Vulkan call answers:
    every call it makes, the recording of its commands included, is on live
    objects, although it may keep using the variables it has destroyed; the live
    objects are exactly those of its buffers and images, and destroying all of
    them leaves none; and as long as no recording that was begun is lost before the queue
    takes it, every barrier, clear and copy names the layout its image is
    really in, which is the layout the image is tracked in. *)
Theorem vulkan_resources_sound d L v c :
  good v L -> rtc (cstep d) (MkClient [] [] (MkG v [] false)) c ->
  good (s_vk (c_st c)) (objects c ++ L) /\ good (s_vk (release c)) L /\
  (s_lost (c_st c) = false -> legal (s_sent (c_st c)) /\ Forall (tracked (s_sent (c_st c))) (c_imgs c)).
Proof.
  intros Hg Hr. assert (client_inv L (MkClient [] [] (MkG v [] false))) as H0.
  { split; cbn; try done; try (by constructor). intros _. split; constructor. }
  pose proof (client_reachable _ _ _ _ Hr H0) as H. split; [apply H|]. split; [|apply H].
  by apply release_inv, ci_good in H.
Qed.

(** The documented effect of the two transfer commands, on whole words. *)
Definition fill_documented : Prop := forall l b size p,
  size mod 4 = 0 -> mapped (l ++ [CFill b size p]) b = replicate (Z.to_nat (size `div` 4)) p.
Definition copy_documented : Prop := forall l src dst size,
  size mod 4 = 0 ->
  mapped (l ++ [CCopy src dst size]) dst =
  take (Z.to_nat (size `div` 4)) (mapped l src) ++ drop (Z.to_nat (size `div` 4)) (mapped l dst).

Lemma one_time_ok st cmds st' : (let '(_, ok, st) := one_time st cmds in (ok, st)) = (true, st') ->
  s_sent st' = s_sent st ++ cmds.
Proof.
  pose proof (one_time_sent st cmds) as H. destruct (one_time st cmds) as [[began ok] st1]. intros [= -> ->].
  by destruct (sb_ok _ _ _ _ _ H eq_refl).
Qed.

Lemma fill_sent d st b p st' :
  vulkan_buffer_fill_gpu d st b p = (true, st') ->
  d_valid d = true /\ vb_size b mod 4 = 0 /\ s_sent st' = s_sent st ++ [CFill (handle (vb_buf b)) (vb_size b) p].
Proof.
  unfold vulkan_buffer_fill_gpu. destruct (d_valid d), (vb_valid b), (Z.eqb_spec (vb_size b mod 4) 0); try done.
  cbn [negb orb]. intros H. by apply one_time_ok in H.
Qed.

Lemma copy_sent d st dst src st' :
  vulkan_buffer_copy d st dst src = (true, st') ->
  vb_valid dst = true /\ vb_size dst = vb_size src /\
  s_sent st' = s_sent st ++ [CCopy (handle (vb_buf src)) (handle (vb_buf dst)) (vb_size src)].
Proof.
  unfold vulkan_buffer_copy.
  destruct (d_valid d), (vb_valid dst), (vb_valid src), (Z.eqb_spec (vb_size dst) (vb_size src)); try done.
  cbn [negb orb]. intros H. by apply one_time_ok in H.
Qed.

(** The upload path: when filling one buffer and copying it to another both
    report success, reading the other back through a mapping finds the pattern
    in every word, if only the mapping itself succeeds. *)
Theorem upload_verifies d st st1 st2 src dst p :
  fill_documented -> copy_documented ->
  vulkan_buffer_fill_gpu d st src p = (true, st1) -> vulkan_buffer_copy d st1 dst src = (true, st2) ->
  vb_type dst < zlen (dev_types d) -> host_visible (flags_at (dev_types d) (vb_type dst)) = true ->
  fst (vulkan_buffer_verify_mapped d st2 dst p) = answers (vk_count (s_vk st2)).
Proof.
  intros HF HC Hfill Hcopy Ht Hv. apply fill_sent in Hfill as (Hd & Hm & S1). apply copy_sent in Hcopy as (Hdv & Hs & S2).
  unfold vulkan_buffer_verify_mapped. rewrite Hd, Hdv. cbn [negb orb].
  rewrite (proj2 (Z.leb_gt _ _) Ht), Hv. unfold VkLog.vk_call. cbn [negb].
  destruct (answers _); cbn [negb fst]; [|done].
  rewrite S2, HC, S1, HF, Hs by done. rewrite take_replicate, Nat.min_id.
  rewrite take_app_length' by (by rewrite length_replicate). apply forallb_forall.
  intros w Hw%list_elem_of_In. apply elem_of_replicate in Hw as [-> _]. apply Z.eqb_refl.
Qed.

End vulkan.

(** ** A run *)

(** The words of a buffer as the transfer commands leave them. *)
Definition word_step (m : Z -> list Z) (c : gcmd) : Z -> list Z :=
  match c with
  | CFill b size p => fun x => if x =? b then replicate (Z.to_nat (size `div` 4)) p else m x
  | CCopy src dst size => fun x =>
      if x =? dst then take (Z.to_nat (size `div` 4)) (m src) ++ drop (Z.to_nat (size `div` 4)) (m dst) else m x
  | _ => m
  end.
Definition words_after (l : list gcmd) : Z -> list Z := foldl word_step (fun _ => []) l.

Definition demo_req (_ : Z) : Z * Z := (7, 64).
Definition demo_dev : VulkanDev := snd (fst (vulkan_dev_init yes demo_gpus start)).
Definition demo_vk : vkst := snd (vulkan_dev_init yes demo_gpus start).
Definition demo_start : gst := MkG demo_vk [] false.

Lemma words_fill : fill_documented words_after.
Proof. intros l b size p _. unfold words_after. rewrite foldl_app. cbn. by rewrite Z.eqb_refl. Qed.
Lemma words_copy : copy_documented words_after.
Proof. intros l src dst size _. unfold words_after. rewrite foldl_app. cbn. by rewrite Z.eqb_refl. Qed.

(** A fast and a slow buffer, as their creations return them. *)
Definition src_made : option VulkanBuffer * gst := vulkan_buffer_create yes demo_req demo_dev demo_start 64 true 0.
Definition dst_made : option VulkanBuffer * gst := vulkan_buffer_create yes demo_req demo_dev (snd src_made) 64 false 0.
Definition demo_src : VulkanBuffer := MkBuf (Some 4) (Some 5) 64 0 true true.
Definition demo_dst : VulkanBuffer := MkBuf (Some 6) (Some 7) 64 2 false true.
Definition filled : bool * gst := vulkan_buffer_fill_gpu yes demo_dev (snd dst_made) demo_src 0x12340000.
Definition copied : bool * gst := vulkan_buffer_copy yes demo_dev (snd filled) demo_dst demo_src.

Lemma upload_verifies_witness :
  fst src_made = Some demo_src /\ fst dst_made = Some demo_dst /\
  fst (vulkan_buffer_verify_mapped yes words_after demo_dev (snd copied) demo_dst 0x12340000) = true.
Proof.
  split; [vm_compute; reflexivity|]. split; [vm_compute; reflexivity|].
  refine (upload_verifies yes words_after demo_dev (snd dst_made) (snd filled) (snd copied) demo_src demo_dst 0x12340000
            words_fill words_copy _ _ _ _); vm_compute; reflexivity.
Defined.

Lemma buffer_type_exact_witness :
  pick_mem_type demo_dev 6 true = Some 1 /\ compatible demo_dev 6 1.
Proof.
  split; [reflexivity|].
  refine (proj1 (buffer_type_exact demo_dev 6 true _)).
  intros t [-> | ->]; right; vm_compute; split; congruence.
Defined.

(** The image path: create, clear, copy out to the slow buffer. *)
Definition img_made : option VulkanImage * gst :=
  vulkan_image_create_2d yes demo_req demo_dev (snd src_made) 4 4 R8G8B8A8_UNORM true.
Definition demo_img : VulkanImage := MkImg (Some 6) (Some 7) 4 4 R8G8B8A8_UNORM UNDEFINED 0 true true.
Definition cleared : bool * VulkanImage * gst := vulkan_image_clear_color yes demo_dev (snd img_made) demo_img 9.
Definition copied_out : bool * VulkanImage * gst :=
  vulkan_image_copy_to_buffer yes demo_dev (snd cleared) (snd (fst cleared)) demo_src.
Definition demo_client : client := MkClient [demo_src] [with_layout demo_img TRANSFER_SRC] (snd copied_out).

Lemma demo_vk_good : good demo_vk [3; 2; 1].
Proof. split; [vm_compute; reflexivity|by repeat constructor|by apply (bool_decide_unpack _)]. Qed.

Lemma demo_client_reachable :
  rtc (cstep yes demo_req words_after demo_dev) (MkClient [] [] demo_start) demo_client.
Proof.
  eapply rtc_l; [by apply (st_create_buf yes demo_req words_after demo_dev [] [] demo_start 64 true 0 (Some demo_src) (snd src_made))|].
  eapply rtc_l; [by apply (st_create_img yes demo_req words_after demo_dev _ [] (snd src_made) 4 4 R8G8B8A8_UNORM true (Some demo_img) (snd img_made))|].
  eapply rtc_l; [by apply (st_clear yes demo_req words_after demo_dev _ [] demo_img [] (snd img_made) 9 true
                             (with_layout demo_img SHADER_READ_ONLY) (snd cleared))|].
  eapply rtc_l; [|apply rtc_refl].
  apply (st_copy_out yes demo_req words_after demo_dev [demo_src] [] (with_layout demo_img SHADER_READ_ONLY) []
           (snd cleared) demo_src true); [left|done].
Qed.

Lemma vulkan_resources_sound_witness :
  good (s_vk (release demo_client)) [3; 2; 1] /\ legal (s_sent (c_st demo_client)) /\
  length (s_sent (c_st demo_client)) = 5%nat.
Proof.
  destruct (vulkan_resources_sound yes demo_req words_after demo_dev [3; 2; 1] demo_vk demo_client
              demo_vk_good demo_client_reachable) as (_ & H & Hl).
  split; [exact H|]. split; [apply Hl; vm_compute; reflexivity|vm_compute; reflexivity].
Defined.

(** When the submission is refused the image is tracked in a layout it never
    reached. *)
Example refused_clear_moves_the_layout :
  let refuse (n : nat) := negb (n =? 12)%nat in
  let made := vulkan_image_create_2d refuse demo_req demo_dev demo_start 4 4 R8G8B8A8_UNORM true in
  match fst made with
  | Some im => let '(ok, im', st) := vulkan_image_clear_color refuse demo_dev (snd made) im 9 in
               ok = false /\ s_sent st = [] /\ im_layout im' = SHADER_READ_ONLY
  | None => False
  end.
Proof. vm_compute. done. Qed.

End VulkanRes.
