(* ===== verification/VulkanPresent.v ===== *)
(** The window presenter ([class VulkanPresenter], src/vulkan_present.cpp, the
    GLFW build): choice of a device that can present, swapchain, staging buffer,
    set-up and teardown, the process-wide reference count of GLFW, and the
    upload and presentation of a frame. Calls go through VkLog.v; GLFW being
    initialised is an object of the log too, created by glfwInit and destroyed
    by glfwTerminate. What the surface, the window and the swapchain answer are
    parameters, one answer per call. *)
From stdpp Require Import base numbers list gmap strings sorting.
From Stdlib Require Import ZArith Lia.
From S2P Require Import Prelude VkLog VulkanDev VulkanRes.
Open Scope Z_scope.

Module VulkanPresent.
Import VkLog VulkanDev.

(** ** Data *)

(** A physical device as the presenter sees it: its extensions, and the answer
    to vkGetPhysicalDeviceSurfaceSupportKHR for each queue family ([None]: the
    call fails). *)
Record present_gpu := MkPGpu {
  pg_gpu : host_gpu;
  pg_exts : list string;
  pg_support : Z -> option bool;
}.

Definition score (g : present_gpu) : Z :=
  if g_discrete (pg_gpu g) then (if g_vendor (pg_gpu g) =? AMD then 2 else 1) else 0.

(** std::sort with the comparison [score a > score b]: a permutation in
    descending order of score, unspecified among equals. *)
Definition before (a b : present_gpu) : Prop := score b <= score a.
#[export] Instance before_dec : RelDecision before.
Proof. intros a b. unfold before. apply _. Defined.

Class StdSort := {
  std_sort : list present_gpu -> list present_gpu;
  std_sort_perm l : std_sort l ≡ₚ l;
  std_sort_sorted l : StronglySorted before (std_sort l);
}.

(** What a surface answers: extent limits, image counts, formats with their
    colour spaces, present modes, and the images of a swapchain made for it. *)
Record surface := MkSurface {
  sf_min : Z * Z; sf_max : Z * Z; sf_min_count : Z; sf_max_count : Z;
  sf_formats : list (Z * Z); sf_modes : list Z; sf_images : nat;
}.

Definition R8G8B8A8_UNORM : Z := 37.
Definition R8G8B8A8_SRGB : Z := 43.
Definition B8G8R8A8_UNORM : Z := 44.
Definition B8G8R8A8_SRGB : Z := 50.
Definition kWant : list Z := [R8G8B8A8_UNORM; B8G8R8A8_UNORM; R8G8B8A8_SRGB; B8G8R8A8_SRGB].
Definition FIFO : Z := 2.
Definition PRESENT_SRC : Z := 1000001002.
Definition SWAPCHAIN_EXT : string := "VK_KHR_swapchain".

(** VkResult of acquiring and presenting, as far as the code tells them apart. *)
Inductive vkresult := VK_SUCCESS | VK_SUBOPTIMAL | VK_OUT_OF_DATE | VK_OTHER.
#[export] Instance vkresult_eq_dec : EqDecision vkresult.
Proof. solve_decision. Defined.

(** An image of a swapchain is the swapchain and an index; [None] is the null
    handle. *)
Record Impl := MkImpl {
  p_win : option Z; p_inst : option Z; p_surf : option Z;
  p_phys : option present_gpu; p_dev : option Z; p_qfam : Z;
  p_swap : option Z; p_format : Z; p_swizzle : bool; p_extent : Z * Z; p_images : list (option (Z * Z));
  p_pool : option Z; p_cmd : option Z;
  p_staging : option Z; p_mem : option Z; p_size : Z;
  p_fence : option Z; p_sem : option Z; p_glfw : bool;
}.
Definition new_impl (w h : Z) : Impl :=
  MkImpl None None None None None 0 None 0 false (w, h) [] None None None None 0 None None false.

Definition with_win (im : Impl) x := MkImpl x (p_inst im) (p_surf im) (p_phys im) (p_dev im) (p_qfam im) (p_swap im)
  (p_format im) (p_swizzle im) (p_extent im) (p_images im) (p_pool im) (p_cmd im) (p_staging im) (p_mem im) (p_size im)
  (p_fence im) (p_sem im) (p_glfw im).
Definition with_inst (im : Impl) x := MkImpl (p_win im) x (p_surf im) (p_phys im) (p_dev im) (p_qfam im) (p_swap im)
  (p_format im) (p_swizzle im) (p_extent im) (p_images im) (p_pool im) (p_cmd im) (p_staging im) (p_mem im) (p_size im)
  (p_fence im) (p_sem im) (p_glfw im).
Definition with_surf (im : Impl) x := MkImpl (p_win im) (p_inst im) x (p_phys im) (p_dev im) (p_qfam im) (p_swap im)
  (p_format im) (p_swizzle im) (p_extent im) (p_images im) (p_pool im) (p_cmd im) (p_staging im) (p_mem im) (p_size im)
  (p_fence im) (p_sem im) (p_glfw im).
Definition with_phys (im : Impl) x q := MkImpl (p_win im) (p_inst im) (p_surf im) x (p_dev im) q (p_swap im)
  (p_format im) (p_swizzle im) (p_extent im) (p_images im) (p_pool im) (p_cmd im) (p_staging im) (p_mem im) (p_size im)
  (p_fence im) (p_sem im) (p_glfw im).
Definition with_dev (im : Impl) x := MkImpl (p_win im) (p_inst im) (p_surf im) (p_phys im) x (p_qfam im) (p_swap im)
  (p_format im) (p_swizzle im) (p_extent im) (p_images im) (p_pool im) (p_cmd im) (p_staging im) (p_mem im) (p_size im)
  (p_fence im) (p_sem im) (p_glfw im).
Definition with_extent (im : Impl) x := MkImpl (p_win im) (p_inst im) (p_surf im) (p_phys im) (p_dev im) (p_qfam im)
  (p_swap im) (p_format im) (p_swizzle im) x (p_images im) (p_pool im) (p_cmd im) (p_staging im) (p_mem im) (p_size im)
  (p_fence im) (p_sem im) (p_glfw im).
Definition with_format (im : Impl) f s := MkImpl (p_win im) (p_inst im) (p_surf im) (p_phys im) (p_dev im) (p_qfam im)
  (p_swap im) f s (p_extent im) (p_images im) (p_pool im) (p_cmd im) (p_staging im) (p_mem im) (p_size im)
  (p_fence im) (p_sem im) (p_glfw im).
Definition with_swap (im : Impl) x l := MkImpl (p_win im) (p_inst im) (p_surf im) (p_phys im) (p_dev im) (p_qfam im)
  x (p_format im) (p_swizzle im) (p_extent im) l (p_pool im) (p_cmd im) (p_staging im) (p_mem im) (p_size im)
  (p_fence im) (p_sem im) (p_glfw im).
Definition with_cmds (im : Impl) p c := MkImpl (p_win im) (p_inst im) (p_surf im) (p_phys im) (p_dev im) (p_qfam im)
  (p_swap im) (p_format im) (p_swizzle im) (p_extent im) (p_images im) p c (p_staging im) (p_mem im) (p_size im)
  (p_fence im) (p_sem im) (p_glfw im).
Definition with_staging (im : Impl) b m n := MkImpl (p_win im) (p_inst im) (p_surf im) (p_phys im) (p_dev im) (p_qfam im)
  (p_swap im) (p_format im) (p_swizzle im) (p_extent im) (p_images im) (p_pool im) (p_cmd im) b m n
  (p_fence im) (p_sem im) (p_glfw im).
Definition with_sync (im : Impl) f s := MkImpl (p_win im) (p_inst im) (p_surf im) (p_phys im) (p_dev im) (p_qfam im)
  (p_swap im) (p_format im) (p_swizzle im) (p_extent im) (p_images im) (p_pool im) (p_cmd im) (p_staging im) (p_mem im)
  (p_size im) f s (p_glfw im).
Definition with_glfw (im : Impl) g := MkImpl (p_win im) (p_inst im) (p_surf im) (p_phys im) (p_dev im) (p_qfam im)
  (p_swap im) (p_format im) (p_swizzle im) (p_extent im) (p_images im) (p_pool im) (p_cmd im) (p_staging im) (p_mem im)
  (p_size im) (p_fence im) (p_sem im) g.

(** Commands of a frame, and what reaches the queue: a submission with the
    bytes the staging buffer holds at that time, and a presentation. *)
Inductive pcmd :=
  | PBarrier (img : Z * Z) (old new src dst ss ds : Z)
  | PCopy (staging : Z) (img : Z * Z) (layout w h : Z).
Inductive pevent :=
  | Submitted (staged : list Z) (cmds : list pcmd)
  | Presented (swap idx : Z) (r : vkresult).

(** The process: Vulkan, the reference count of GLFW, the bytes of each staging
    memory, and what reached the queue. [g_lib] is the initialised library. *)
Record pst := MkP {
  s_vk : vkst; g_refs : Z; g_lib : option Z; s_stage : gmap Z (list Z); s_events : list pevent;
}.
Definition put_vk (st : pst) v := MkP v (g_refs st) (g_lib st) (s_stage st) (s_events st).
Definition put_glfw (st : pst) v n l := MkP v n l (s_stage st) (s_events st).
Definition put_stage (st : pst) v m bs := MkP v (g_refs st) (g_lib st) (<[m := bs]> (s_stage st)) (s_events st).
Definition put_event (st : pst) v e := MkP v (g_refs st) (g_lib st) (s_stage st) (s_events st ++ [e]).

Record VulkanPresenter := MkPres {
  pr_valid : bool; pr_width : Z; pr_height : Z; pr_presents : Z; pr_errors : Z; pr_impl : option Impl;
}.
Definition new_presenter : VulkanPresenter := MkPres false 0 0 0 0 None.

(** std::clamp: defined when the limits are in order. *)
Definition clamp (x lo hi : Z) : outcome Z :=
  if hi <? lo then Ub "clamp" else Ok (if x <? lo then lo else if hi <? x then hi else x).

Definition opt (o : option Z) : Z := default 0 o.

Section presenter.
Context (answers : nat -> bool) (gpus : list present_gpu) `{StdSort}
        (surf_at : nat -> surface) (req : Z -> Z * Z) (closing : nat -> bool)
        (acquired : nat -> vkresult * Z) (presented : nat -> vkresult).

Notation vk_create := (vk_create answers).
Notation vk_call := (vk_call answers).

(** The two-call queries whose results the code does not look at: a count,
    which stays 0 when the call fails, and a fill, which leaves the entries of
    the vector at [zero]. *)
Definition query_count {A} (v : vkst) (name : string) (h : list Z) (l : list A) : nat * vkst :=
  let (ok, v) := vk_call v (Use name h [0]) in (if ok then length l else 0%nat, v).
Definition query_fill {A} (v : vkst) (name : string) (h : list Z) (l : list A) (n : nat) (zero : A) : list A * vkst :=
  let (ok, v) := vk_call v (Use name h [1]) in (if ok then take n l else replicate n zero, v).

(** ** Choice of a device *)

Definition has_dev_ext (v : vkst) (g : present_gpu) (name : string) : bool * vkst :=
  let (n, v) := query_count v "vkEnumerateDeviceExtensionProperties" [] (pg_exts g) in
  let (exts, v) := query_fill v "vkEnumerateDeviceExtensionProperties" [] (pg_exts g) n "" in
  (existsb (fun e => bool_decide (e = name)) exts, v).

Fixpoint scan_families (v : vkst) (surf : Z) (g : present_gpu) (l : list Z) (i : Z) : option Z * vkst :=
  match l with
  | [] => (None, v)
  | f :: l' =>
      if negb (has_bits f QUEUE_GRAPHICS) then scan_families v surf g l' (i + 1)
      else
        let v := log_call v (Use "vkGetPhysicalDeviceSurfaceSupportKHR" [surf] [i]) in
        match pg_support g i with
        | Some true => (Some i, v)
        | _ => scan_families v surf g l' (i + 1)
        end
  end.

Fixpoint scan_devices (v : vkst) (surf : Z) (devs : list present_gpu) : option (present_gpu * Z) * vkst :=
  match devs with
  | [] => (None, v)
  | g :: devs' =>
      let (has, v) := has_dev_ext v g SWAPCHAIN_EXT in
      if negb has then scan_devices v surf devs'
      else
        let (fam, v) := scan_families v surf g (g_queues (pg_gpu g)) 0 in
        match fam with
        | Some i => (Some (g, i), v)
        | None => scan_devices v surf devs'
        end
  end.

(** The result of the second enumeration is not checked: its handles stay null
    when it fails. *)
Definition pick_physical (v : vkst) (inst surf : Z) : outcome (option (present_gpu * Z) * vkst) :=
  let (ok, v) := vk_call v (Use "vkEnumeratePhysicalDevices" [inst] [0]) in
  if negb ok || (length gpus =? 0)%nat then Ok (None, v)
  else
    let (ok, v) := vk_call v (Use "vkEnumeratePhysicalDevices" [inst] [zlen gpus]) in
    if negb ok then Ub "null physical device"
    else Ok (scan_devices v surf (std_sort gpus)).

(** ** Swapchain *)

Definition no_surface : surface := MkSurface (0, 0) (0, 0) 0 0 [] [] 0.

(** The first wanted format that the surface has. *)
Definition choose_format (fmts : list (Z * Z)) : option (Z * Z) :=
  head (omap (fun want => snd <$> list_find (fun f => fst f = want) fmts) kWant).

Definition image_count (c : surface) : Z :=
  let n := u32 (sf_min_count c + 1) in
  if (0 <? sf_max_count c) && (sf_max_count c <? n) then sf_max_count c else n.

(** From the create information on: the new swapchain replaces the old one. *)
Definition create_swapchain (caps now : surface) (space pmode : Z) (im : Impl) (st : pst) : bool * Impl * pst :=
  let v := log_call (s_vk st) (Use "VkSwapchainCreateInfoKHR" (opt (p_surf im) :: opt_list (p_swap im))
             [image_count caps; p_format im; space; fst (p_extent im); snd (p_extent im); pmode]) in
  let (fresh, v) := vk_create v "swapchain" in
  match fresh with
  | None => (false, im, put_vk st v)
  | Some s =>
      let v := vk_destroy v "swapchain" (p_swap im) in
      let imgs := (fun i => Some (s, i)) <$> seqZ 0 (Z.of_nat (sf_images now)) in
      let (ni, v) := query_count v "vkGetSwapchainImagesKHR" [s] imgs in
      let (images, v) := query_fill v "vkGetSwapchainImagesKHR" [s] imgs ni None in
      (negb (length images =? 0)%nat, with_swap im fresh images, put_vk st v)
  end.

Definition make_swapchain (im : Impl) (st : pst) : outcome (bool * Impl * pst) :=
  let surf := opt (p_surf im) in
  let now := surf_at (vk_count (s_vk st)) in
  let (ok, v) := vk_call (s_vk st) (Use "vkGetPhysicalDeviceSurfaceCapabilitiesKHR" [surf] []) in
  let caps := if ok : bool then now else no_surface in
  let! w := clamp (fst (p_extent im)) (fst (sf_min caps)) (fst (sf_max caps)) in
  let! h := clamp (snd (p_extent im)) (snd (sf_min caps)) (snd (sf_max caps)) in
  let im := with_extent im (w, h) in
  let (nf, v) := query_count v "vkGetPhysicalDeviceSurfaceFormatsKHR" [surf] (sf_formats now) in
  if (nf =? 0)%nat then Ok (false, im, put_vk st v)
  else
    let (fmts, v) := query_fill v "vkGetPhysicalDeviceSurfaceFormatsKHR" [surf] (sf_formats now) nf (0, 0) in
    match choose_format fmts with
    | None => Ok (false, im, put_vk st v)
    | Some chosen =>
        let im := with_format im (fst chosen)
                    ((fst chosen =? B8G8R8A8_UNORM) || (fst chosen =? B8G8R8A8_SRGB)) in
        let (nm, v) := query_count v "vkGetPhysicalDeviceSurfacePresentModesKHR" [surf] (sf_modes now) in
        let (modes, v) := query_fill v "vkGetPhysicalDeviceSurfacePresentModesKHR" [surf] (sf_modes now) nm 0 in
        let! pmode := if bool_decide (FIFO ∈ modes) then Ok FIFO
                      else match modes with m :: _ => Ok m | [] => Ub "modes[0] of no modes" end in
        Ok (create_swapchain caps now (snd chosen) pmode im (put_vk st v))
    end.

(** ** Staging buffer *)

Definition make_staging (size : Z) (im : Impl) (st : pst) : outcome (bool * Impl * pst) :=
  let v := log_call (s_vk st) (Use "vkCreateBuffer" [] [size; 1]) in
  let (buf, v) := vk_create v "buffer" in
  match buf with
  | None => Ok (false, im, put_vk st v)
  | Some b =>
      let im := with_staging im buf (p_mem im) (p_size im) in
      let types := match p_phys im with Some g => g_types (pg_gpu g) | None => [] end in
      match VulkanRes.find_type (fst (req b)) (fun f => host_visible f && coherent f) types 0 with
      | None => Ok (false, im, put_vk st v)
      | Some t =>
          let v := log_call v (Use "vkAllocateMemory" [] [snd (req b); t]) in
          let (mem, v) := vk_create v "memory" in
          match mem with
          | None => Ok (false, im, put_vk st v)
          | Some m =>
              let im := with_staging im buf mem (p_size im) in
              let (ok, v) := vk_call v (Use "vkBindBufferMemory" [b; m] [0]) in
              Ok (ok, if ok then with_staging im buf mem size else im, put_vk st v)
          end
      end
  end.

(** ** GLFW and teardown *)

Definition glfw_acquire (st : pst) : bool * pst :=
  if g_refs st =? 0 then
    let (lib, v) := vk_create (s_vk st) "glfw" in
    match lib with
    | None => (false, put_vk st v)
    | Some _ => (true, put_glfw st v (g_refs st + 1) lib)
    end
  else (true, put_glfw st (s_vk st) (g_refs st + 1) (g_lib st)).

Definition glfw_release (st : pst) : pst :=
  if 0 <? g_refs st then
    if g_refs st - 1 =? 0 then put_glfw st (vk_destroy (s_vk st) "glfw" (g_lib st)) 0 None
    else put_glfw st (s_vk st) (g_refs st - 1) (g_lib st)
  else st.

(** [x] when the handle it belongs to is there. *)
Definition if_there (owner x : option Z) : option Z := match owner with Some _ => x | None => None end.

Definition teardown (o : option Impl) (st : pst) : pst :=
  match o with
  | None => st
  | Some im =>
      let v := match p_dev im with
               | Some d => log_call (s_vk st) (Use "vkDeviceWaitIdle" [d] [])
               | None => s_vk st
               end in
      let v := vk_destroy v "semaphore" (if_there (p_dev im) (p_sem im)) in
      let v := vk_destroy v "fence" (if_there (p_dev im) (p_fence im)) in
      let v := vk_destroy v "buffer" (if_there (p_dev im) (p_staging im)) in
      let v := vk_destroy v "memory" (if_there (p_dev im) (p_mem im)) in
      let v := vk_destroy v "cmd_pool" (if_there (p_dev im) (p_pool im)) in
      let v := vk_destroy v "swapchain" (if_there (p_dev im) (p_swap im)) in
      let v := vk_destroy v "device" (p_dev im) in
      let v := vk_destroy v "surface" (if_there (p_inst im) (p_surf im)) in
      let v := vk_destroy v "instance" (p_inst im) in
      let v := vk_destroy v "window" (p_win im) in
      if p_glfw im then glfw_release (put_vk st v) else put_vk st v
  end.

(** ** Set-up *)

(** One step of [init]: whether it succeeded, and what it left. *)
Definition stage : Type := Impl -> pst -> outcome (bool * Impl * pst).
Definition andthen (a b : stage) : stage := fun im st =>
  let! (ok, im, st) := a im st in if ok : bool then b im st else Ok (false, im, st).

(** A step that creates one object, after an information structure. *)
Definition create_stage (kind : string) (uses : Impl -> vkcall) (put : Impl -> option Z -> Impl) : stage := fun im st =>
  let v := log_call (s_vk st) (uses im) in
  let (h, v) := vk_create v kind in
  Ok (match h with Some _ => true | None => false end, put im h, put_vk st v).

Definition window_stage (lib : Z) : stage := fun im st =>
  create_stage "window" (fun im => Use "glfwCreateWindow" [lib] [fst (p_extent im); snd (p_extent im)]) with_win im st.
(** glfwGetRequiredInstanceExtensions: null or none is a failure. *)
Definition extensions_stage (lib : Z) : stage := fun im st =>
  let (ok, v) := vk_call (s_vk st) (Use "glfwGetRequiredInstanceExtensions" [lib] []) in Ok (ok, im, put_vk st v).
Definition instance_stage : stage :=
  create_stage "instance" (fun im => Use "vkCreateInstance" [] []) with_inst.
Definition surface_stage : stage :=
  create_stage "surface" (fun im => Use "glfwCreateWindowSurface" [opt (p_inst im); opt (p_win im)] []) with_surf.
Definition physical_stage : stage := fun im st =>
  let! (r, v) := pick_physical (s_vk st) (opt (p_inst im)) (opt (p_surf im)) in
  match r with
  | Some (g, q) => Ok (true, with_phys im (Some g) q, put_vk st v)
  | None => Ok (false, im, put_vk st v)
  end.
Definition device_stage : stage :=
  create_stage "device" (fun im => Use "vkCreateDevice" [] [p_qfam im]) with_dev.
Definition pool_stage : stage :=
  create_stage "cmd_pool" (fun im => Use "vkCreateCommandPool" [opt (p_dev im)] [p_qfam im])
    (fun im h => with_cmds im h (p_cmd im)).
(** A command buffer belongs to its pool. *)
Definition cmd_stage : stage := fun im st =>
  let (ok, v) := vk_call (s_vk st) (Use "vkAllocateCommandBuffers" [opt (p_pool im)] [1]) in
  Ok (ok, if ok then with_cmds im (p_pool im) (Some (vk_next v)) else im,
      put_vk st (if ok then MkVk (vk_count v) (vk_next v + 1) (vk_log v) else v)).
Definition fence_stage : stage :=
  create_stage "fence" (fun im => Use "vkCreateFence" [opt (p_dev im)] []) (fun im h => with_sync im h (p_sem im)).
Definition semaphore_stage : stage :=
  create_stage "semaphore" (fun im => Use "vkCreateSemaphore" [opt (p_dev im)] [])
    (fun im h => with_sync im (p_fence im) h).

Definition init_stages (w h lib : Z) : stage :=
  andthen (window_stage lib) (andthen (extensions_stage lib) (andthen instance_stage (andthen surface_stage
  (andthen physical_stage (andthen device_stage (andthen make_swapchain (andthen pool_stage (andthen cmd_stage
  (andthen (make_staging (u64 (u64 (w * h) * 4))) (andthen fence_stage semaphore_stage)))))))))).

Definition shutdown (p : VulkanPresenter) (st : pst) : VulkanPresenter * pst :=
  (MkPres false 0 0 (pr_presents p) (pr_errors p) None, teardown (pr_impl p) st).

Definition init (p : VulkanPresenter) (w h : Z) (st : pst) : outcome (bool * VulkanPresenter * pst) :=
  let (p, st) := shutdown p st in
  if (w =? 0) || (h =? 0) || (1920 <? w) || (1080 <? h) then Ok (false, p, st)
  else
    let (ok, st) := glfw_acquire st in
    if negb ok then Ok (false, p, st)
    else
      let im := with_glfw (new_impl w h) true in
      let! (ok, im, st) := init_stages w h (opt (g_lib st)) im st in
      if ok : bool
      then Ok (true, MkPres true (fst (p_extent im)) (snd (p_extent im)) (pr_presents p) (pr_errors p) (Some im), st)
      else Ok (false, p, teardown (Some im) st).

Definition window_open (p : VulkanPresenter) : option Z :=
  if negb (pr_valid p) then None
  else match pr_impl p with Some im => p_win im | None => None end.

Definition should_close (p : VulkanPresenter) (st : pst) : bool * pst :=
  match window_open p with
  | None => (true, st)
  | Some w => (closing (vk_count (s_vk st)), put_vk st (snd (vk_call (s_vk st) (Use "glfwWindowShouldClose" [w] []))))
  end.
Definition poll (p : VulkanPresenter) (st : pst) : bool * pst :=
  match window_open p with
  | None => (false, st)
  | Some w =>
      let v := log_call (s_vk st) (Use "glfwPollEvents" (opt_list (g_lib st)) []) in
      (negb (closing (vk_count v)), put_vk st (snd (vk_call v (Use "glfwWindowShouldClose" [w] []))))
  end.

(** ** A frame *)

(** The copy loops: the staged bytes, undefined when the source has fewer. *)
Fixpoint swizzle (bs : list Z) : list Z :=
  match bs with
  | r :: g :: b :: a :: bs' => b :: g :: r :: a :: swizzle bs'
  | _ => []
  end.
Definition stage_bytes (rb : bool) (pixels : list Z) (need : Z) : outcome (list Z) :=
  if zlen pixels <? need then Ub "pixels"
  else let px := take (Z.to_nat need) pixels in Ok (if rb then swizzle px else px).

Definition transition (img : Z * Z) (old new src dst ss ds : Z) : pcmd := PBarrier img old new src dst ss ds.

Definition frame_cmds (staging : Z) (img : Z * Z) (w h : Z) : list pcmd :=
  [transition img VulkanRes.UNDEFINED VulkanRes.TRANSFER_DST 0 VulkanRes.ACCESS_TRANSFER_WRITE VulkanRes.STAGE_TOP
     VulkanRes.STAGE_TRANSFER;
   PCopy staging img VulkanRes.TRANSFER_DST w h;
   transition img VulkanRes.TRANSFER_DST PRESENT_SRC VulkanRes.ACCESS_TRANSFER_WRITE 0 VulkanRes.STAGE_TRANSFER 0x2000].

Definition count_error (p : VulkanPresenter) : VulkanPresenter :=
  MkPres (pr_valid p) (pr_width p) (pr_height p) (pr_presents p) (u64 (pr_errors p + 1)) (pr_impl p).
Definition count_present (p : VulkanPresenter) : VulkanPresenter :=
  MkPres (pr_valid p) (pr_width p) (pr_height p) (u64 (pr_presents p + 1)) (pr_errors p) (pr_impl p).
Definition with_impl (p : VulkanPresenter) im : VulkanPresenter :=
  MkPres (pr_valid p) (pr_width p) (pr_height p) (pr_presents p) (pr_errors p) (Some im).
Definition failed (p : VulkanPresenter) (st : pst) : outcome (bool * VulkanPresenter * pst) :=
  Ok (false, count_error p, st).

(** vkDeviceWaitIdle and a new swapchain. *)
Definition recreate (im : Impl) (st : pst) : outcome (bool * Impl * pst) :=
  make_swapchain im (put_vk st (log_call (s_vk st) (Use "vkDeviceWaitIdle" [opt (p_dev im)] []))).

(** The commands of a frame as they are recorded. *)
Definition record_frame (v : vkst) (im : Impl) (img : Z * Z) : vkst :=
  let barrier v := log_call v (Use "vkCmdPipelineBarrier" [opt (p_pool im); fst img] [opt (p_cmd im); snd img]) in
  let copy v := log_call v (Use "vkCmdCopyBufferToImage" [opt (p_pool im); opt (p_staging im); fst img]
                              [opt (p_cmd im); snd img]) in
  barrier (copy (barrier v)).

(** From the acquired image to the presentation. *)
Definition present_image (p : VulkanPresenter) (im : Impl) (idx : Z) (st : pst) : outcome (bool * VulkanPresenter * pst) :=
  let pool := opt (p_pool im) in
  let v := log_call (s_vk st) (Use "vkResetCommandBuffer" [pool] [opt (p_cmd im)]) in
  let (ok, v) := vk_call v (Use "vkBeginCommandBuffer" [pool] [opt (p_cmd im)]) in
  if negb ok then failed p (put_vk st v)
  else match p_images im !! Z.to_nat idx with
  | None => Ub "images[idx]"
  | Some None => Ub "null image"
  | Some (Some img) =>
      let cmds := frame_cmds (opt (p_staging im)) img (pr_width p) (pr_height p) in
      let v := record_frame v im img in
      let (ok, v) := vk_call v (Use "vkEndCommandBuffer" [pool] [opt (p_cmd im)]) in
      if negb ok then failed p (put_vk st v)
      else
        let v := log_call v (Use "vkResetFences" [opt (p_fence im)] []) in
        let (ok, v) := vk_call v (Use "vkQueueSubmit" [pool; opt (p_sem im); opt (p_fence im)] [opt (p_cmd im)]) in
        if negb ok then failed p (put_vk st v)
        else
          let st := put_event st v (Submitted (default [] (s_stage st !! opt (p_mem im))) cmds) in
          let (ok, v) := vk_call (s_vk st) (Use "vkWaitForFences" [opt (p_fence im)] []) in
          if negb ok then failed p (put_vk st v)
          else
            let r := presented (vk_count v) in
            let (_, v) := vk_call v (Use "vkQueuePresentKHR" [opt (p_swap im)] [idx]) in
            let st := put_event st v (Presented (opt (p_swap im)) idx r) in
            match r with
            | VK_OUT_OF_DATE | VK_SUBOPTIMAL =>
                let! (_, im, st) := recreate im st in Ok (true, count_present (with_impl p im), st)
            | VK_OTHER => failed p st
            | VK_SUCCESS => Ok (true, count_present p, st)
            end
  end.

Definition upload_and_present (p : VulkanPresenter) (pixels : option (list Z)) (w h : Z) (st : pst)
  : outcome (bool * VulkanPresenter * pst) :=
  match pr_impl p, pixels with
  | Some im, Some px =>
      if negb (pr_valid p) then failed p st
      else if negb (w =? pr_width p) || negb (h =? pr_height p) then failed p st
      else
        let need := u64 (u64 (w * h) * 4) in
        if p_size im <? need then failed p st
        else
          let (ok, v) := vk_call (s_vk st) (Use "vkMapMemory" [opt (p_mem im)] [need]) in
          if negb ok then failed p (put_vk st v)
          else
            let! bs := stage_bytes (p_swizzle im) px need in
            let st := put_stage st (log_call v (Use "vkUnmapMemory" [opt (p_mem im)] [])) (opt (p_mem im)) bs in
            let (acq, idx) := acquired (vk_count (s_vk st)) in
            let (_, v) := vk_call (s_vk st) (Use "vkAcquireNextImageKHR" [opt (p_swap im); opt (p_sem im)] []) in
            let st := put_vk st v in
            match acq with
            | VK_OUT_OF_DATE =>
                let! (ok, im, st) := recreate im st in
                Ok (false, if ok : bool then with_impl p im else count_error (with_impl p im), st)
            | VK_OTHER => failed p st
            | VK_SUCCESS | VK_SUBOPTIMAL => present_image p im idx st
            end
  | _, _ => failed p st
  end.

(** ** Objects held *)

Definition objs (im : Impl) : list Z :=
  opt_list (p_sem im) ++ opt_list (p_fence im) ++ opt_list (p_staging im) ++ opt_list (p_mem im) ++
  opt_list (p_pool im) ++ opt_list (p_swap im) ++ opt_list (p_dev im) ++ opt_list (p_surf im) ++
  opt_list (p_inst im) ++ opt_list (p_win im).

(** Handles in the order in which [init] makes them; the first [k] are there,
    and with the swapchain a format, swizzled when its red and blue are, and
    images that are the swapchain's. *)
Definition fields : list (Impl -> option Z) :=
  [p_win; p_inst; p_surf; p_dev; p_swap; p_pool; p_cmd; p_staging; p_mem; p_fence; p_sem].
Definition is_bgra (f : Z) : bool := (f =? B8G8R8A8_UNORM) || (f =? B8G8R8A8_SRGB).
Definition fmt_ok (im : Impl) : Prop :=
  p_format im ∈ kWant /\ p_swizzle im = is_bgra (p_format im) /\
  Forall (fun o => forall img, o = Some img -> p_swap im = Some (fst img)) (p_images im).
Definition built (k : nat) (im : Impl) : Prop :=
  Forall (fun f => is_Some (f im)) (take k fields) /\ Forall (fun f => f im = None) (drop k fields) /\
  ((5 <= k)%nat -> fmt_ok im).

(** Nothing is held without what it belongs to. *)
Record wf (im : Impl) : Prop := {
  wf_dev : p_dev im = None -> p_sem im = None /\ p_fence im = None /\ p_staging im = None /\ p_mem im = None /\
                              p_pool im = None /\ p_swap im = None;
  wf_inst : p_inst im = None -> p_surf im = None;
}.

Lemma built_wf k im : built k im -> wf im.
Proof.
  intros (Hs & Hn & _). do 12 (try destruct k as [|k]); cbn in Hs, Hn; rewrite ?Forall_cons in *;
    destruct_and?; split; intros E; rewrite ?E in *; try done; try (by (repeat split));
    match goal with H : is_Some None |- _ => by destruct H end.
Qed.

Lemma if_there_wf im x :
  wf im -> x ∈ [p_sem im; p_fence im; p_staging im; p_mem im; p_pool im; p_swap im] -> if_there (p_dev im) x = x.
Proof.
  intros [Hd _] Hx. destruct (p_dev im); [done|]. cbn. destruct (Hd eq_refl) as (E1 & E2 & E3 & E4 & E5 & E6).
  rewrite E1, E2, E3, E4, E5, E6 in Hx. set_solver.
Qed.

(** Teardown without the reference to GLFW. *)
Lemma teardown_good im st L :
  wf im -> good (s_vk st) (objs im ++ L) ->
  exists v, good v L /\ teardown (Some im) st = if p_glfw im then glfw_release (put_vk st v) else put_vk st v.
Proof.
  clear req.
  intros Hwf Hg. unfold teardown. rewrite !(if_there_wf im) by (try done; set_solver).
  assert (if_there (p_inst im) (p_surf im) = p_surf im) as ->.
  { destruct (p_inst im) eqn:E; [done|]. by rewrite (wf_inst _ Hwf E). }
  eexists. split; [|reflexivity]. do 10 apply good_destroy_opt.
  eapply (good_proper _ _ eq_refl (objs im ++ L)); [unfold objs; by rewrite <- !app_assoc|].
  destruct (p_dev im) as [d|] eqn:Ed; [|done].
  eapply good_use; [exact Hg|done|]. unfold objs. rewrite Ed. set_solver.
Qed.

(** ** Steps of the set-up *)

(** What a step does to the objects, with the others in [L] left alone. *)
Definition keeps (L : list Z) (r : outcome (bool * Impl * pst)) (im : Impl) (st : pst) (Q : Impl -> Prop) : Prop :=
  match r with
  | Ok (ok, im', st') =>
      wf im' /\ good (s_vk st') (objs im' ++ L) /\ p_glfw im' = p_glfw im /\
      g_refs st' = g_refs st /\ g_lib st' = g_lib st /\ (ok = true -> Q im')
  | _ => True
  end.
Definition triple (L : list Z) (P Q : Impl -> Prop) (s : stage) : Prop := forall im st,
  P im -> good (s_vk st) (objs im ++ L) -> keeps L (s im st) im st Q.

Lemma triple_andthen L P Q R a b : triple L P Q a -> triple L Q R b -> triple L P R (andthen a b).
Proof.
  intros Ha Hb im st HP Hg. unfold andthen, obind. specialize (Ha im st HP Hg).
  destruct (a im st) as [[[ok im'] st']| |]; try done. destruct Ha as (Hw & Hg' & E1 & E2 & E3 & HQ).
  destruct ok; [|by split_and!]. specialize (Hb im' st' (HQ eq_refl) Hg').
  destruct (b im' st') as [[[ok im''] st'']| |]; try done. cbn in *. destruct_and!. split_and!; try done; congruence.
Qed.

(** A creation that fills the next handle. *)
Lemma create_triple L kind uses put k :
  (forall im, built k im -> exists name hs data, uses im = Use name hs data /\ hs ⊆ objs im ++ L) ->
  (forall im h, built k im -> built (S k) (put im (Some h)) /\ objs (put im (Some h)) ≡ₚ h :: objs im) ->
  (forall im, built k im -> built k (put im None) /\ objs (put im None) = objs im) ->
  (forall im h, p_glfw (put im h) = p_glfw im) ->
  triple L (built k) (built (S k)) (create_stage kind uses put).
Proof.
  intros Hu Hs Hn Hp im st HP Hg. unfold create_stage. destruct (Hu im HP) as (name & hs & data & -> & Hin).
  pose proof (good_use _ _ (Use name hs data) hs Hg eq_refl Hin) as H1.
  pose proof (good_create answers _ _ kind H1) as H2.
  destruct (VkLog.vk_create answers _ kind) as [[h|] v]; cbn.
  - destruct (Hs im h HP) as [Hb Ho]. split_and!; [by eapply built_wf| |by apply Hp|done|done|done].
    eapply good_proper; [done| |exact H2]. by rewrite Ho.
  - destruct (Hn im HP) as [Hb Ho]. split_and!; [by eapply built_wf|by rewrite Ho|by apply Hp|done|done|done].
Qed.

Lemma good_count {A} v L name h (l : list A) : good v L -> h ⊆ L -> good (snd (query_count v name h l)) L.
Proof. intros Hg Hh. by apply (good_call answers v L (Use name h [0]) h). Qed.
Lemma good_fill {A} v L name h (l : list A) n z : good v L -> h ⊆ L -> good (snd (query_fill v name h l n z)) L.
Proof. intros Hg Hh. by apply (good_call answers v L (Use name h [1]) h). Qed.

(** The images a fill leaves are the swapchain's, or null. *)
Lemma filled_images v s n k :
  Forall (fun o => forall img, o = Some img -> Some s = Some (fst img))
    (fst (query_fill v "vkGetSwapchainImagesKHR" [s] ((fun i => Some (s, i)) <$> seqZ 0 n) k None)).
Proof.
  clear req. unfold query_fill, VkLog.vk_call. destruct (answers _); cbn [fst].
  - apply Forall_take, Forall_fmap, Forall_forall. intros i _ img. cbn. by intros [= <-].
  - apply Forall_replicate. done.
Qed.

(** The swapchain step, at set-up and when it is made again. *)
Record swapped (im im' : Impl) (ok : bool) : Prop := {
  sw_same : exists e f z x l, im' = with_swap (with_format (with_extent im e) f z) x l;
  sw_swap : p_swap im' = p_swap im \/ is_Some (p_swap im');
  sw_ok : ok = true -> is_Some (p_swap im') /\ p_images im' <> [] /\ fmt_ok im';
  sw_fmt : fmt_ok im -> fmt_ok im';
}.

Lemma objs_swap im x l : objs (with_swap im x l) ≡ₚ opt_list x ++ objs (with_swap im None l).
Proof. unfold objs. cbn. solve_Permutation. Qed.

(** The same process but for its calls, and the objects of the new [Impl]. *)
Definition swap_good (im : Impl) (st : pst) (L : list Z) (r : bool * Impl * pst) : Prop :=
  let '(ok, im', st') := r in
  swapped im im' ok /\ good (s_vk st') (objs im' ++ L) /\ g_refs st' = g_refs st /\ g_lib st' = g_lib st /\
  s_stage st' = s_stage st /\ s_events st' = s_events st.

Lemma kept_good im st v L e :
  good v (objs im ++ L) -> swap_good im st L (false, with_extent im e, put_vk st v).
Proof.
  intros Hg. split; [|by split_and!]. split; [|by left|done|done].
  exists e, (p_format im), (p_swizzle im), (p_swap im), (p_images im). by destruct im.
Qed.

Lemma create_swapchain_good caps now space pmode im im0 st L :
  (exists e f, im = with_format (with_extent im0 e) f (is_bgra f) /\ f ∈ kWant) -> is_Some (p_surf im0) -> good (s_vk st) (objs im ++ L) ->
  swap_good im0 st L (create_swapchain caps now space pmode im st).
Proof.
  clear req.
  intros (e & f & -> & Hf) [sf Hsf] Hg. unfold create_swapchain. set (im := with_format _ _ _) in *.
  pose proof (good_use _ _ (Use "VkSwapchainCreateInfoKHR" (opt (p_surf im) :: opt_list (p_swap im))
             [image_count caps; p_format im; space; fst (p_extent im); snd (p_extent im); pmode]) _ Hg eq_refl) as H1.
  specialize (H1 ltac:(unfold objs; cbn; rewrite Hsf; set_solver)).
  pose proof (good_create answers _ _ "swapchain" H1) as H2.
  destruct (VkLog.vk_create answers _ "swapchain") as [[s|] v2].
  - assert (good (vk_destroy v2 "swapchain" (p_swap im)) (objs (with_swap im (Some s) []) ++ L)) as H3.
    { apply good_destroy_opt. eapply good_proper; [done| |exact H2].
      rewrite objs_swap. pose proof (objs_swap im (p_swap im) (p_images im)) as E.
      replace (with_swap im (p_swap im) (p_images im)) with im in E by done. rewrite E. cbn.
      replace (objs (with_swap im None (p_images im))) with (objs (with_swap im None [])) by done. solve_Permutation. }
    set (imgs := (_ <$> _) : list (option (Z * Z))). set (v3 := vk_destroy _ _ _) in *.
    assert (Hin : [s] ⊆ objs (with_swap im (Some s) []) ++ L) by (unfold objs; cbn; set_solver).
    pose proof (good_count v3 _ "vkGetSwapchainImagesKHR" [s] imgs H3 Hin) as H4.
    destruct (query_count v3 _ _ _) as [ni v4]; cbn [snd] in H4.
    pose proof (good_fill v4 _ "vkGetSwapchainImagesKHR" [s] imgs ni None H4 Hin) as H5.
    pose proof (filled_images v4 s (Z.of_nat (sf_images now)) ni) as Him. fold imgs in Him.
    destruct (query_fill v4 _ _ _ _ _) as [images v5]; cbn [fst snd] in H5, Him.
    split; [|by split_and!]. split; [by eauto 10|right; by eexists| |by intros _; split_and!].
    intros Hn. split_and!; [by eexists| |by split_and!]. cbn. by intros ->.
  - split; [|by split_and!]. split; [|by left|done|by intros (_ & _ & ?); split_and!]. exists e, f, (is_bgra f), (p_swap im0), (p_images im0). by destruct im0.
Qed.

Lemma choose_format_wanted fmts f : choose_format fmts = Some f -> fst f ∈ kWant.
Proof.
  unfold choose_format. intros Hh. apply head_Some in Hh as [l Hl].
  assert (f ∈ omap (fun want => snd <$> list_find (fun f => fst f = want) fmts) kWant) as Hin by (rewrite Hl; left).
  apply list_elem_of_omap in Hin as (want & Hw & Hf). apply fmap_Some in Hf as ([i x] & Hx & ->).
  apply list_find_Some in Hx as (_ & <- & _). done.
Qed.

Lemma make_swapchain_good im st L :
  is_Some (p_surf im) -> good (s_vk st) (objs im ++ L) ->
  match make_swapchain im st with Ok r => swap_good im st L r | _ => True end.
Proof.
  clear req.
  intros [sf Hsf] Hg. unfold make_swapchain. rewrite Hsf. cbn [opt default].
  assert (Hin : forall l, [sf] ⊆ objs im ++ l) by (intros l; unfold objs; rewrite Hsf; set_solver).
  pose proof (good_call answers (s_vk st) _ (Use "vkGetPhysicalDeviceSurfaceCapabilitiesKHR" [sf] []) [sf] Hg eq_refl (Hin _)) as H1.
  destruct (VkLog.vk_call answers (s_vk st) _) as [okc v1]; cbn [snd] in H1.
  set (caps := if okc then _ else _). set (now := surf_at _). clearbody caps now.
  destruct (clamp (fst (p_extent im)) _ _) as [w| |]; cbn [obind]; try done.
  destruct (clamp (snd (p_extent im)) _ _) as [h| |]; cbn [obind]; try done.
  pose proof (good_count v1 _ "vkGetPhysicalDeviceSurfaceFormatsKHR" [sf] (sf_formats now) H1 (Hin _)) as H2.
  destruct (query_count v1 _ _ _) as [nf v2]; cbn [snd] in H2.
  destruct (nf =? 0)%nat.
  { by apply kept_good. }
  pose proof (good_fill v2 _ "vkGetPhysicalDeviceSurfaceFormatsKHR" [sf] (sf_formats now) nf (0, 0) H2 (Hin _)) as H3.
  destruct (query_fill v2 _ _ _ _ _) as [fmts v3]; cbn [snd] in H3.
  destruct (choose_format fmts) as [ch|] eqn:Hch.
  2: { by apply kept_good. }
  pose proof (good_count v3 _ "vkGetPhysicalDeviceSurfacePresentModesKHR" [sf] (sf_modes now) H3 (Hin _)) as H4.
  destruct (query_count v3 _ _ _) as [nm v4]; cbn [snd] in H4.
  pose proof (good_fill v4 _ "vkGetPhysicalDeviceSurfacePresentModesKHR" [sf] (sf_modes now) nm 0 H4 (Hin _)) as H5.
  destruct (query_fill v4 _ _ _ _ _) as [modes v5]; cbn [snd] in H5.
  match goal with |- context [obind ?m _] => destruct m as [pmode| |]; cbn [obind]; try done end.
  apply (create_swapchain_good _ _ _ _ _ im (put_vk st v5)); [|by eexists|exact H5].
  exists (w, h), (fst ch). split; [done|]. by eapply choose_format_wanted.
Qed.

Local Ltac built_facts :=
  repeat match goal with H : built _ _ |- _ => destruct H as (?Hsome & ?Hnone & ?Hfmt) end;
  cbn in *; rewrite ?Forall_cons in *; destruct_and?.
Local Ltac solve_built :=
  intros; built_facts; unfold built; cbn; rewrite ?Forall_cons, ?Forall_nil;
  split_and?; try done; try (by eexists);
  try match goal with Hfmt : (5 <= _)%nat -> fmt_ok _ |- _ => intros _; apply Hfmt; lia | _ => lia end.
Local Ltac solve_objs :=
  intros; built_facts; unfold objs; cbn;
  repeat match goal with H : _ = None |- _ => rewrite H; clear H end; cbn; try done; try solve_Permutation.
Local Ltac solve_uses :=
  intros; built_facts;
  repeat match goal with H : is_Some _ |- _ => destruct H as [? ?] end;
  eexists _, _, _; split; [reflexivity|]; unfold objs;
  repeat match goal with H : _ = Some _ |- _ => rewrite H; clear H end; cbn; set_solver.
Local Ltac solve_create :=
  apply create_triple; [solve_uses|split; [solve_built|solve_objs]|split; [solve_built|solve_objs]|done].

Lemma instance_triple L : triple L (built 1) (built 2) instance_stage.
Proof. solve_create. Qed.
Lemma surface_triple L : triple L (built 2) (built 3) surface_stage.
Proof. solve_create. Qed.
Lemma device_triple L : triple L (built 3) (built 4) device_stage.
Proof. solve_create. Qed.
Lemma pool_triple L : triple L (built 5) (built 6) pool_stage.
Proof. solve_create. Qed.
Lemma fence_triple L : triple L (built 9) (built 10) fence_stage.
Proof. solve_create. Qed.
Lemma semaphore_triple L : triple L (built 10) (built 11) semaphore_stage.
Proof. solve_create. Qed.
Lemma window_triple L lib : lib ∈ L -> triple L (built 0) (built 1) (window_stage lib).
Proof. intros Hl. solve_create. Qed.

Lemma keeps_calls L im st v (Q : Impl -> Prop) ok im' :
  wf im' -> good v (objs im' ++ L) -> p_glfw im' = p_glfw im -> (ok = true -> Q im') ->
  keeps L (Ok (ok, im', put_vk st v)) im st Q.
Proof. by intros. Qed.

Lemma extensions_triple L lib : lib ∈ L -> triple L (built 1) (built 1) (extensions_stage lib).
Proof.
  intros Hl im st Hb Hg. unfold extensions_stage.
  pose proof (good_call answers (s_vk st) _ (Use "glfwGetRequiredInstanceExtensions" [lib] []) [lib] Hg eq_refl
                ltac:(set_solver)) as H1.
  destruct (VkLog.vk_call answers _ _) as [ok v]. apply keeps_calls; try done. by eapply built_wf.
Qed.

(** *** The device *)

Lemma has_dev_ext_good v g name L : good v L -> good (snd (has_dev_ext v g name)) L.
Proof.
  intros Hg. unfold has_dev_ext.
  pose proof (good_count v _ "vkEnumerateDeviceExtensionProperties" [] (pg_exts g) Hg ltac:(set_solver)) as H1.
  destruct (query_count v _ _ _) as [n v1]; cbn [snd] in H1.
  pose proof (good_fill v1 _ "vkEnumerateDeviceExtensionProperties" [] (pg_exts g) n "" H1 ltac:(set_solver)) as H2.
  by destruct (query_fill v1 _ _ _ _ _).
Qed.

(** A queue family that draws and presents. *)
Definition presents_on (g : present_gpu) (i : Z) : Prop :=
  exists f, g_queues (pg_gpu g) !! Z.to_nat i = Some f /\ 0 <= i /\ has_bits f QUEUE_GRAPHICS = true /\
            pg_support g i = Some true.

(** The first family of [l], numbered from [i], that draws and presents. *)
Definition family_found (g : present_gpu) (l : list Z) (i : Z) (r : option Z) : Prop :=
  match r with
  | Some j => exists k f, j = i + Z.of_nat k /\ l !! k = Some f /\ has_bits f QUEUE_GRAPHICS = true /\
                          pg_support g j = Some true
  | None => forall k f, l !! k = Some f -> has_bits f QUEUE_GRAPHICS = true -> pg_support g (i + Z.of_nat k) <> Some true
  end.

Lemma family_later g f l i r :
  (has_bits f QUEUE_GRAPHICS = true -> pg_support g i <> Some true) ->
  family_found g l (i + 1) r -> family_found g (f :: l) i r.
Proof.
  clear req.
  intros Hf. destruct r as [j|]; cbn.
  - intros (k & f' & -> & Hk & Hb & Hp). exists (S k), f'. split_and!; try done. lia.
  - intros Hn [|k] f' Hk Hb; cbn in Hk.
    + injection Hk as <-. rewrite Z.add_0_r. by apply Hf.
    + replace (i + Z.of_nat (S k)) with (i + 1 + Z.of_nat k) by lia. by eapply Hn.
Qed.

Lemma scan_families_spec v surf g l i L :
  good v L -> surf ∈ L -> let (r, v') := scan_families v surf g l i in good v' L /\ family_found g l i r.
Proof.
  clear req.
  revert v i. induction l as [|f l IH]; intros v i Hg Hs; cbn [scan_families]; [by split|].
  assert (Hrec : forall w, good w L -> (has_bits f QUEUE_GRAPHICS = true -> pg_support g i <> Some true) ->
    let (r, v') := scan_families w surf g l (i + 1) in good v' L /\ family_found g (f :: l) i r).
  { intros w Hw Hf. specialize (IH w (i + 1) Hw Hs). destruct (scan_families w surf g l (i + 1)) as [r v'].
    destruct IH. split; [done|]. by apply family_later. }
  destruct (has_bits f QUEUE_GRAPHICS) eqn:Ef; cbn [negb]; [|by apply Hrec].
  pose proof (good_use v L (Use "vkGetPhysicalDeviceSurfaceSupportKHR" [surf] [i]) [surf] Hg eq_refl ltac:(set_solver)) as H1.
  destruct (pg_support g i) as [[]|] eqn:Ep; [|apply Hrec; [done|congruence]..].
  split; [done|]. exists 0%nat, f. split_and!; try done. lia.
Qed.

Lemma families_spec v surf g L :
  good v L -> surf ∈ L -> let (r, v') := scan_families v surf g (g_queues (pg_gpu g)) 0 in
  good v' L /\ match r with Some i => presents_on g i | None => forall i, ~ presents_on g i end.
Proof.
  clear req.
  intros Hg Hs. pose proof (scan_families_spec v surf g (g_queues (pg_gpu g)) 0 L Hg Hs) as H1.
  destruct (scan_families v surf g _ 0) as [[i|] v']; destruct H1 as [Hv Hr]; (split; [done|]).
  - destruct Hr as (k & f & -> & Hk & Hb & Hp). exists f. rewrite Z.add_0_l, Nat2Z.id. split_and!; try done. lia.
  - intros i (f & Hf & Hi & Hb & Hp). apply (Hr _ _ Hf Hb). replace (0 + Z.of_nat (Z.to_nat i)) with i by lia. done.
Qed.

Definition presentable (g : present_gpu) : Prop := SWAPCHAIN_EXT ∈ pg_exts g /\ exists i, presents_on g i.

Lemma has_dev_ext_exact v g name :
  name <> "" -> (fst (has_dev_ext v g name) = true -> name ∈ pg_exts g) /\
  ((forall n, answers n = true) -> name ∈ pg_exts g -> fst (has_dev_ext v g name) = true).
Proof.
  intros Hn. unfold has_dev_ext, query_count, query_fill, VkLog.vk_call. cbn [fst]. split.
  - intros (e & Hin & He)%existsb_exists. apply bool_decide_eq_true in He as ->.
    apply list_elem_of_In in Hin. destruct (answers (vk_count _)); [|by apply elem_of_replicate in Hin as [? _]].
    by eapply elem_of_take in Hin as (? & ?%list_elem_of_lookup_2 & _).
  - intros Ha Hin. rewrite !Ha, take_ge by done. apply existsb_exists. exists name.
    split; [by apply list_elem_of_In|by apply bool_decide_true].
Qed.

(** What the scan over the devices returns: a device that can present, and the
    first of them when no call fails. *)
Record device_found (devs : list present_gpu) (r : option (present_gpu * Z)) : Prop := {
  df_some : forall g i, r = Some (g, i) -> g ∈ devs /\ SWAPCHAIN_EXT ∈ pg_exts g /\ presents_on g i;
  df_first : (forall n, answers n = true) ->
    match r with
    | Some (g, _) => exists l1 l2, devs = l1 ++ g :: l2 /\ Forall (fun g' => ~ presentable g') l1
    | None => Forall (fun g' => ~ presentable g') devs
    end;
}.

Lemma device_later g devs r :
  ((forall n, answers n = true) -> ~ presentable g) -> device_found devs r -> device_found (g :: devs) r.
Proof.
  intros Hno [H3 H4]. split.
  - intros g0 i Hr. destruct (H3 g0 i Hr) as (? & ? & ?). split_and!; try done. by right.
  - intros Ha. specialize (H4 Ha). specialize (Hno Ha). destruct r as [[g0 ?]|]; [|by constructor].
    destruct H4 as (l1 & l2 & -> & Hl). exists (g :: l1), l2. split; [done|by constructor].
Qed.

Lemma scan_devices_spec v surf devs L :
  good v L -> surf ∈ L -> let (r, v') := scan_devices v surf devs in good v' L /\ device_found devs r.
Proof.
  clear req.
  revert v. induction devs as [|g devs IH]; intros v Hg Hs; cbn [scan_devices].
  { split; [done|]. split; [done|by constructor]. }
  pose proof (has_dev_ext_good v g SWAPCHAIN_EXT L Hg) as H1.
  destruct (has_dev_ext_exact v g SWAPCHAIN_EXT ltac:(done)) as [E1 E2].
  destruct (has_dev_ext v g SWAPCHAIN_EXT) as [has v1]. cbn [fst snd] in *.
  assert (Hrec : forall w, good w L -> ((forall n, answers n = true) -> ~ presentable g) ->
    let (r, v') := scan_devices w surf devs in good v' L /\ device_found (g :: devs) r).
  { intros w Hw Hno. specialize (IH w Hw Hs). destruct (scan_devices w surf devs) as [r v']. destruct IH.
    split; [done|]. by apply device_later. }
  destruct has; cbn [negb].
  - pose proof (families_spec v1 surf g L H1 Hs) as Hf.
    destruct (scan_families v1 surf g _ 0) as [[i|] v2]; destruct Hf as [Hv Hf].
    + split; [done|]. split; [|by exists [], devs; auto]. intros ? ? [= <- <-]. split_and!; [left|by apply E1|done].
    + apply Hrec; [done|]. intros _ (_ & i & Hi). by eapply Hf.
  - apply Hrec; [done|]. intros Ha (Hin & _). by specialize (E2 Ha Hin).
Qed.

Lemma pick_physical_good v inst surf L :
  good v L -> inst ∈ L -> surf ∈ L -> match pick_physical v inst surf with
  | Ok (r, v') => good v' L /\ (forall g i, r = Some (g, i) -> g ∈ gpus /\ SWAPCHAIN_EXT ∈ pg_exts g /\ presents_on g i)
  | _ => True
  end.
Proof.
  intros Hg Hi Hs. unfold pick_physical.
  pose proof (good_call answers v L (Use "vkEnumeratePhysicalDevices" [inst] [0]) [inst] Hg eq_refl ltac:(set_solver)) as H1.
  destruct (VkLog.vk_call answers v _) as [ok1 v1]; cbn [snd] in H1. destruct (negb ok1 || _); [by split|].
  pose proof (good_call answers v1 L (Use "vkEnumeratePhysicalDevices" [inst] [zlen gpus]) [inst] H1 eq_refl
                ltac:(set_solver)) as H2.
  destruct (VkLog.vk_call answers v1 _) as [ok2 v2]; cbn [snd] in H2. destruct ok2; [|done]. cbn [negb].
  pose proof (scan_devices_spec v2 surf (std_sort gpus) L H2 Hs) as H3. destruct (scan_devices v2 surf _) as [r v3].
  destruct H3 as [H3 [H4 _]]. split; [done|]. intros g i Hr. destruct (H4 g i Hr) as (Hin & ? & ?).
  split_and!; try done. by rewrite std_sort_perm in Hin.
Qed.

Lemma physical_triple L : triple L (built 3) (built 3) physical_stage.
Proof.
  intros im st Hb Hg. unfold physical_stage. pose proof (built_wf _ _ Hb) as Hw.
  assert (opt (p_inst im) ∈ objs im ++ L /\ opt (p_surf im) ∈ objs im ++ L) as [Hi Hs].
  { assert (is_Some (p_inst im) /\ is_Some (p_surf im)) as [[i Hi] [s Hs]] by (built_facts; done).
    unfold objs. rewrite Hi, Hs. cbn. set_solver. }
  pose proof (pick_physical_good _ _ _ _ Hg Hi Hs) as Hp.
  destruct (pick_physical _ _ _) as [[[[g q]|] v]| |]; cbn [obind]; try done; destruct Hp as [Hp _]; [|by apply keeps_calls].
  assert (built 3 (with_phys im (Some g) q)) as Hb' by solve_built. apply keeps_calls; try done. by eapply built_wf.
Qed.

Lemma swapchain_triple L : triple L (built 4) (built 5) make_swapchain.
Proof.
  intros im st Hb Hg. pose proof (make_swapchain_good im st L) as H1.
  assert (is_Some (p_surf im)) as Hs by (built_facts; done). specialize (H1 Hs Hg).
  destruct (make_swapchain im st) as [[[ok im'] st']| |]; try done.
  destruct H1 as ([(e & f & z & x & l & ->) Hsw Hok _] & H2 & H3 & H4 & _). cbn.
  assert (is_Some (p_dev im)) as [d Hd] by (built_facts; done).
  split_and!; try done.
  - split; cbn; [by rewrite Hd|]. apply (built_wf _ _ Hb).
  - intros ->. destruct (Hok eq_refl) as (Hx & _ & Hfm). cbn in Hx. solve_built.
Qed.

Lemma good_next v L n : good v L -> vk_next v <= n -> good (MkVk (vk_count v) n (vk_log v)) L.
Proof. clear req. intros [H1 H2 H3] Hn. split; cbn; try done. eapply Forall_impl; [exact H2|]. intros x. cbn. lia. Qed.

Lemma cmd_triple L : triple L (built 6) (built 7) cmd_stage.
Proof.
  intros im st Hb Hg. unfold cmd_stage. assert (is_Some (p_pool im)) as [p Hp] by (built_facts; done). rewrite Hp. cbn [opt default].
  pose proof (good_call answers (s_vk st) _ (Use "vkAllocateCommandBuffers" [p] [1]) [p] Hg eq_refl
                ltac:(unfold objs; rewrite Hp; set_solver)) as H1.
  destruct (VkLog.vk_call answers _ _) as [[] v]; cbn [snd] in H1; [|apply keeps_calls; try done; by eapply built_wf].
  assert (built 7 (with_cmds im (Some p) (Some (vk_next v)))) as Hb' by solve_built.
  apply keeps_calls; try done; [by eapply built_wf|]. unfold objs in *. cbn. rewrite Hp in H1.
  apply good_next; [done|lia].
Qed.

Lemma staging_triple L size : triple L (built 7) (built 9) (make_staging size).
Proof.
  intros im st Hb Hg. unfold make_staging.
  pose proof (good_use _ _ (Use "vkCreateBuffer" [] [size; 1]) [] Hg eq_refl ltac:(set_solver)) as H1.
  pose proof (good_create answers _ _ "buffer" H1) as H2.
  destruct (VkLog.vk_create answers _ "buffer") as [[b|] v2]; [|apply keeps_calls; try done; by eapply built_wf].
  assert (forall n, built 8 (with_staging im (Some b) (p_mem im) n)) as Hb1 by solve_built.
  assert (forall n m, built 9 (with_staging im (Some b) (Some m) n)) as Hb2 by solve_built.
  assert (forall n, objs (with_staging im (Some b) (p_mem im) n) ≡ₚ b :: objs im) as Ho1 by solve_objs.
  assert (forall n m, objs (with_staging im (Some b) (Some m) n) ≡ₚ m :: b :: objs im) as Ho2 by solve_objs.
  destruct (VulkanRes.find_type _ _ _ _) as [t|];
    [|apply keeps_calls; try done; [by eapply built_wf|by rewrite Ho1]].
  pose proof (good_use _ _ (Use "vkAllocateMemory" [] [snd (req b); t]) [] H2 eq_refl ltac:(set_solver)) as H3.
  pose proof (good_create answers _ _ "memory" H3) as H4.
  destruct (VkLog.vk_create answers _ "memory") as [[m|] v4];
    [|apply keeps_calls; try done; [by eapply built_wf|by rewrite Ho1]].
  pose proof (good_call answers v4 _ (Use "vkBindBufferMemory" [b; m] [0]) [b; m] H4 eq_refl ltac:(set_solver)) as H5.
  destruct (VkLog.vk_call answers v4 _) as [[] v5]; cbn [snd] in H5; (apply keeps_calls; [by eapply built_wf, Hb2| |done|]); try done.
  - eapply good_proper; [done| |exact H5]. exact (Permutation_app_tail L (Ho2 size m)).
  - intros _. apply Hb2.
  - eapply good_proper; [done| |exact H5]. exact (Permutation_app_tail L (Ho2 (p_size im) m)).
Qed.

#[local] Hint Resolve triple_andthen window_triple extensions_triple instance_triple surface_triple physical_triple
  device_triple swapchain_triple pool_triple cmd_triple staging_triple fence_triple semaphore_triple : stages.

Lemma init_stages_triple L w h lib : lib ∈ L -> triple L (built 0) (built 11) (init_stages w h lib).
Proof. intros Hl. unfold init_stages. eauto 30 with stages. Qed.

(** ** Frames *)

(** A presenter between calls: what it holds is complete. *)
Definition presenter_ok (p : VulkanPresenter) : Prop :=
  match pr_impl p with
  | Some im => pr_valid p = true /\ built 11 im /\ p_glfw im = true
  | None => pr_valid p = false
  end.
Definition held (p : VulkanPresenter) : list Z := match pr_impl p with Some im => objs im | None => [] end.

Lemma built_in_objs im :
  built 11 im -> Forall (fun f => opt (f im) ∈ objs im)
    [p_win; p_inst; p_surf; p_dev; p_swap; p_pool; p_staging; p_mem; p_fence; p_sem].
Proof.
  clear req.
  intros (Hs & _). cbn in Hs. rewrite !Forall_cons in Hs. destruct_and!.
  repeat match goal with H : is_Some _ |- _ => destruct H as [? ?] end.
  rewrite !Forall_cons, Forall_nil. unfold objs.
  repeat match goal with H : _ = Some _ |- _ => rewrite H; clear H end. cbn. set_solver.
Qed.

Lemma uses_held im L hs : Forall (fun h => h ∈ objs im) hs -> hs ⊆ objs im ++ L.
Proof. rewrite Forall_forall. intros Hh h Hin. apply elem_of_app. left. by apply Hh. Qed.
Local Ltac solve_held := apply uses_held; repeat constructor; assumption.

(** What a call on a presenter may do to the process. *)
Definition frame_keeps (L : list Z) (p : VulkanPresenter) (st : pst) (r : outcome (bool * VulkanPresenter * pst)) : Prop :=
  match r with
  | Ok (_, p', st') =>
      presenter_ok p' /\ (is_Some (pr_impl p') <-> is_Some (pr_impl p)) /\ good (s_vk st') (held p' ++ L) /\
      g_refs st' = g_refs st /\ g_lib st' = g_lib st
  | _ => True
  end.

Lemma failed_keeps L p st st' :
  presenter_ok p -> good (s_vk st') (held p ++ L) -> g_refs st' = g_refs st -> g_lib st' = g_lib st ->
  frame_keeps L p st (failed p st').
Proof. intros. by split_and!. Qed.

Lemma recreate_keeps L p st st0 im :
  pr_impl p = Some im -> presenter_ok p -> good (s_vk st) (objs im ++ L) ->
  g_refs st = g_refs st0 -> g_lib st = g_lib st0 ->
  match recreate im st with
  | Ok (_, im', st') =>
      frame_keeps L p st0 (Ok (false, with_impl p im', st')) /\ s_events st' = s_events st
  | _ => True
  end.
Proof.
  clear req.
  intros Hi Hp Hg Er El. unfold presenter_ok in Hp. rewrite Hi in Hp. destruct Hp as (Hv & Hb & Hglfw).
  pose proof (built_in_objs im Hb) as Hin. rewrite !Forall_cons in Hin. destruct_and!.
  assert (is_Some (p_surf im) /\ is_Some (p_swap im)) as [Hs Hsw] by (built_facts; done). unfold recreate.
  match goal with |- context [make_swapchain im ?s] => pose proof (make_swapchain_good im s L Hs) as Hm;
    destruct (make_swapchain im s) as [[[ok im'] st']| |]; try done end.
  cbn [s_vk put_vk] in Hm.
  specialize (Hm ltac:(eapply good_use; [exact Hg|done|solve_held])).
  destruct Hm as ([(e & f & z & x & l & ->) Hx _ Hfm] & Hm2 & Hm3 & Hm4 & _ & Hm6). cbn in *.
  assert (is_Some x) as Hsx by (destruct Hx as [->|?]; done).
  split; [|done]. split; [|split; [rewrite Hi; by split; eexists|split_and!; [done|congruence|congruence]]].
  unfold presenter_ok. cbn. split_and!; [done| |done]. specialize (Hfm (proj2 (proj2 Hb) ltac:(lia))). solve_built.
Qed.

Local Ltac call_good Hg :=
  match goal with
  | |- context [VkLog.vk_call answers ?v (Use ?n ?hs ?d)] =>
      let H := fresh "Hcall" in
      assert (good (snd (vk_call v (Use n hs d))) _) as H
        by (eapply (good_call answers v _ (Use n hs d) hs); [exact Hg|reflexivity|solve_held]);
      destruct (VkLog.vk_call answers v (Use n hs d)) as [? ?]; cbn [snd] in H; clear Hg; rename H into Hg
  end.

Lemma record_frame_good im img v L :
  built 11 im -> (forall i, Some img = Some i -> p_swap im = Some (fst i)) -> good v (objs im ++ L) ->
  good (record_frame v im img) (objs im ++ L).
Proof.
  clear req. intros Hb Himg Hg. pose proof (built_in_objs im Hb) as Hin. rewrite !Forall_cons in Hin. destruct_and!.
  assert (fst img ∈ objs im) as Hi by (unfold objs; rewrite (Himg img eq_refl), !elem_of_app; cbn [opt_list]; rewrite list_elem_of_singleton; tauto).
  unfold record_frame. do 3 (eapply good_use; [|done|solve_held]). done.
Qed.

Lemma present_image_keeps L p im idx st :
  pr_impl p = Some im -> presenter_ok p -> good (s_vk st) (objs im ++ L) ->
  frame_keeps L p st (present_image p im idx st).
Proof.
  intros Hi Hp Hg. pose proof Hp as Hp'. unfold presenter_ok in Hp'. rewrite Hi in Hp'. destruct Hp' as (_ & Hb & _).
  pose proof (proj2 (proj2 (proj2 (proj2 Hb) ltac:(lia)))) as Himg. pose proof Hb as Hb'.
  pose proof (built_in_objs im Hb) as Hin. rewrite !Forall_cons in Hin. destruct_and!. clear Hb.
  assert (Hh : held p = objs im) by (unfold held; by rewrite Hi).
  unfold present_image.
  assert (Hg1 : good (log_call (s_vk st) (Use "vkResetCommandBuffer" [opt (p_pool im)] [opt (p_cmd im)])) (objs im ++ L))
    by (eapply good_use; [exact Hg|done|solve_held]).
  call_good Hg1. case_if; [apply failed_keeps; try done; by rewrite Hh|].
  destruct (p_images im !! Z.to_nat idx) as [[img|]|] eqn:Eimg; try done.
  apply (record_frame_good im img) in Hg1; [|done|by eapply (Forall_lookup_1 _ _ _ _ Himg Eimg)].
  call_good Hg1. case_if; [apply failed_keeps; try done; by rewrite Hh|].
  assert (Hg2 : good (log_call v0 (Use "vkResetFences" [opt (p_fence im)] [])) (objs im ++ L))
    by (eapply good_use; [exact Hg1|done|solve_held]).
  call_good Hg2. case_if; [apply failed_keeps; try done; by rewrite Hh|]. cbn [s_vk put_event].
  call_good Hg2. case_if; [apply failed_keeps; try done; by rewrite Hh|].
  set (r := presented _). clearbody r.
  call_good Hg2.
  match goal with |- context [recreate im ?s] => pose proof (recreate_keeps L p s st im Hi Hp Hg2 eq_refl eq_refl) as Hr end.
  destruct r; [by rewrite <- Hh in Hg2| | |apply failed_keeps; try done; by rewrite Hh].
  all: destruct (recreate im _) as [[[ok im'] st']| |]; cbn [obind]; try done; destruct Hr as [Hr _]; exact Hr.
Qed.

Lemma upload_keeps L p px w h st :
  presenter_ok p -> good (s_vk st) (held p ++ L) -> frame_keeps L p st (upload_and_present p px w h st).
Proof.
  intros Hp Hg. unfold upload_and_present. destruct (pr_impl p) as [im|] eqn:Hi; [|by apply failed_keeps].
  destruct px as [px|]; [|by apply failed_keeps]. case_if; [by apply failed_keeps|]. case_if; [by apply failed_keeps|].
  cbv zeta. case_if; [by apply failed_keeps|].
  assert (Hh : held p = objs im) by (unfold held; by rewrite Hi). rewrite Hh in Hg.
  pose proof Hp as Hp'. unfold presenter_ok in Hp'. rewrite Hi in Hp'. destruct Hp' as (_ & Hb & _).
  pose proof (built_in_objs im Hb) as Hin. rewrite !Forall_cons in Hin. destruct_and!. clear Hb.
  call_good Hg. case_if; [apply failed_keeps; try done; by rewrite Hh|].
  destruct (stage_bytes _ _ _) as [bs| |]; cbn [obind]; try done.
  match goal with |- context [acquired ?n] => destruct (acquired n) as [acq idx] end.
  assert (Hg2 : good (log_call v (Use "vkUnmapMemory" [opt (p_mem im)] [])) (objs im ++ L))
    by (eapply good_use; [exact Hg|done|solve_held]).
  cbn [s_vk put_stage]. call_good Hg2.
  match goal with |- context [present_image p im idx ?s] =>
    pose proof (present_image_keeps L p im idx s Hi Hp Hg2) as Hpr end.
  destruct acq; [exact Hpr|exact Hpr| |].
  - match goal with |- context [recreate im ?s] =>
      pose proof (recreate_keeps L p s st im Hi Hp Hg2 eq_refl eq_refl) as Hr;
      destruct (recreate im s) as [[[ok im'] st']| |] end; cbn [obind]; try done. destruct Hr as [Hr _].
    by destruct ok.
  - apply failed_keeps; try done. by rewrite Hh.
Qed.

(** ** All presenters of a process *)

Inductive pstep : list VulkanPresenter * pst -> list VulkanPresenter * pst -> Prop :=
  | ps_new ps st : pstep (ps, st) (new_presenter :: ps, st)
  | ps_init l1 p l2 st w h ok p' st' :
      init p w h st = Ok (ok, p', st') -> pstep (l1 ++ p :: l2, st) (l1 ++ p' :: l2, st')
  | ps_upload l1 p l2 st px w h ok p' st' :
      upload_and_present p px w h st = Ok (ok, p', st') -> pstep (l1 ++ p :: l2, st) (l1 ++ p' :: l2, st')
  | ps_poll l1 p l2 st : pstep (l1 ++ p :: l2, st) (l1 ++ p :: l2, snd (poll p st))
  | ps_should_close l1 p l2 st : pstep (l1 ++ p :: l2, st) (l1 ++ p :: l2, snd (should_close p st))
  | ps_shutdown l1 p l2 st :
      pstep (l1 ++ p :: l2, st) (l1 ++ fst (shutdown p st) :: l2, snd (shutdown p st))
  | ps_destroy l1 p l2 st : pstep (l1 ++ p :: l2, st) (l1 ++ l2, snd (shutdown p st)).

Definition open_count (ps : list VulkanPresenter) : Z := zlen (omap pr_impl ps).

(** The live objects are those of the presenters, and GLFW is initialised
    exactly while some presenter is open, with one reference for each. *)
Record process_inv (L : list Z) (ps : list VulkanPresenter) (st : pst) : Prop := {
  pi_good : good (s_vk st) (flat_map held ps ++ opt_list (g_lib st) ++ L);
  pi_refs : g_refs st = open_count ps;
  pi_lib : is_Some (g_lib st) <-> 0 < g_refs st;
  pi_ok : Forall presenter_ok ps;
}.

(** The same with one presenter set apart. *)
Definition others (L : list Z) (l1 l2 : list VulkanPresenter) (st : pst) : list Z :=
  flat_map held l1 ++ flat_map held l2 ++ opt_list (g_lib st) ++ L.

Lemma open_count_middle l1 p l2 :
  open_count (l1 ++ p :: l2) = open_count l1 + open_count [p] + open_count l2.
Proof. clear req. unfold open_count. rewrite omap_app. cbn [omap list_omap]. destruct (pr_impl p); rewrite ?length_app; cbn; lia. Qed.

Lemma held_middle L l1 p l2 st :
  flat_map held (l1 ++ p :: l2) ++ opt_list (g_lib st) ++ L ≡ₚ held p ++ others L l1 l2 st.
Proof. unfold others. rewrite flat_map_app. cbn [flat_map]. solve_Permutation. Qed.

Lemma focus L l1 p l2 st :
  process_inv L (l1 ++ p :: l2) st ->
  presenter_ok p /\ good (s_vk st) (held p ++ others L l1 l2 st).
Proof.
  intros [Hg _ _ Ho]. rewrite held_middle in Hg. split; [|done].
  apply Forall_app in Ho as [_ Ho]. by apply Forall_cons in Ho as [? _].
Qed.

(** Putting back what a call left, with the reference count it left. *)
Lemma unfocus L l1 p p' l2 st st' :
  process_inv L (l1 ++ p :: l2) st -> presenter_ok p' -> good (s_vk st') (held p' ++ others L l1 l2 st') ->
  g_refs st' - open_count [p'] = g_refs st - open_count [p] -> (is_Some (g_lib st') <-> 0 < g_refs st') ->
  process_inv L (l1 ++ p' :: l2) st'.
Proof.
  clear req.
  intros [_ Hr _ Ho] Hp Hg Er Hl. split; [by rewrite held_middle| |done|].
  - rewrite open_count_middle in *. lia.
  - apply Forall_app in Ho as [? Ho]. apply Forall_cons in Ho as [_ ?]. by apply Forall_app; split; [|constructor].
Qed.

Lemma open_count_one p : open_count [p] = match pr_impl p with Some _ => 1 | None => 0 end.
Proof. unfold open_count. cbn. by destruct (pr_impl p). Qed.

Lemma shutdown_inv L l1 p l2 st :
  process_inv L (l1 ++ p :: l2) st -> process_inv L (l1 ++ fst (shutdown p st) :: l2) (snd (shutdown p st)).
Proof.
  clear req.
  intros Hinv. pose proof (focus _ _ _ _ _ Hinv) as [Hp Hg]. pose proof Hinv as [_ Hr Hl _].
  unfold presenter_ok, held in Hp, Hg. unfold shutdown. cbn [fst snd].
  destruct (pr_impl p) as [im|] eqn:Hi.
  2: { eapply unfocus; [exact Hinv|done|done| |done]. cbn [teardown]. by rewrite !open_count_one, Hi. }
  destruct Hp as (Hv & Hb & Hglfw). destruct (teardown_good im st _ (built_wf _ _ Hb) Hg) as (v & Hgv & E).
  rewrite E, Hglfw. rewrite open_count_middle, open_count_one, Hi in Hr.
  assert (0 < g_refs st) as Hpos by (unfold open_count in *; lia).
  unfold glfw_release. cbn [g_refs put_vk s_vk]. rewrite (proj2 (Z.ltb_lt _ _) Hpos).
  destruct (Z.eqb_spec (g_refs st - 1) 0) as [E0|E0]; (eapply unfocus; [exact Hinv|done| | |]); cbn;
    rewrite ?open_count_one, ?Hi; cbn.
  - unfold others in *. cbn. apply good_destroy_opt. eapply good_proper; [done| |exact Hgv]. solve_Permutation.
  - lia.
  - split; [by intros [? ?]|lia].
  - exact Hgv.
  - lia.
  - rewrite Hl. lia.
Qed.

(** Taking a reference: the library is there afterwards. *)
Lemma acquire_good st L :
  good (s_vk st) (opt_list (g_lib st) ++ L) -> 0 <= g_refs st -> (is_Some (g_lib st) <-> 0 < g_refs st) ->
  let (ok, st') := glfw_acquire st in
  good (s_vk st') (opt_list (g_lib st') ++ L) /\ g_refs st' = g_refs st + (if ok : bool then 1 else 0) /\
  (is_Some (g_lib st') <-> 0 < g_refs st').
Proof.
  clear req.
  intros Hg H0 Hl. unfold glfw_acquire. destruct (Z.eqb_spec (g_refs st) 0) as [E|E].
  - destruct (g_lib st) as [h|] eqn:El; [destruct Hl as [Hl _]; specialize (Hl ltac:(by eexists)); lia|].
    pose proof (good_create answers _ _ "glfw" Hg) as H1.
    destruct (VkLog.vk_create answers _ "glfw") as [[h|] v]; cbn; [|by rewrite El, Z.add_0_r].
    split_and!; [done|done|]. split; [lia|by eexists].
  - cbn. split_and!; [done|done|]. rewrite Hl. lia.
Qed.

Lemma release_keeps im st L :
  wf im -> p_glfw im = true -> good (s_vk st) (objs im ++ opt_list (g_lib st) ++ L) -> 0 < g_refs st ->
  (is_Some (g_lib st) <-> 0 < g_refs st) ->
  let st' := teardown (Some im) st in
  good (s_vk st') (opt_list (g_lib st') ++ L) /\ g_refs st' = g_refs st - 1 /\ (is_Some (g_lib st') <-> 0 < g_refs st').
Proof.
  clear req.
  intros Hw Hp Hg Hpos Hl. cbv zeta. destruct (teardown_good im st _ Hw Hg) as (v & Hv & ->). rewrite Hp.
  unfold glfw_release. cbn [g_refs put_vk s_vk g_lib]. rewrite (proj2 (Z.ltb_lt _ _) Hpos).
  destruct (Z.eqb_spec (g_refs st - 1) 0) as [E0|E0]; cbn.
  - split_and!; [by apply good_destroy_opt|lia|]. split; [by intros [? ?]|lia].
  - split_and!; [done|done|]. rewrite Hl. lia.
Qed.

Lemma others_lib L l1 l2 st : others L l1 l2 st ≡ₚ opt_list (g_lib st) ++ flat_map held l1 ++ flat_map held l2 ++ L.
Proof. unfold others. solve_Permutation. Qed.

(** [init] on a closed presenter. *)
Lemma init_closed L l1 p l2 st w h :
  process_inv L (l1 ++ p :: l2) st -> pr_impl p = None ->
  match init p w h st with Ok (_, p', st') => process_inv L (l1 ++ p' :: l2) st' | _ => True end.
Proof.
  intros Hinv Hi. pose proof (focus _ _ _ _ _ Hinv) as [Hp Hg]. pose proof Hinv as [_ Hr Hl _].
  unfold init, shutdown. rewrite Hi. change (teardown None st) with st.
  assert (Hclosed : forall st', good (s_vk st') (others L l1 l2 st') -> g_refs st' = g_refs st ->
            (is_Some (g_lib st') <-> 0 < g_refs st') ->
            process_inv L (l1 ++ MkPres false 0 0 (pr_presents p) (pr_errors p) None :: l2) st').
  { intros st' Hg' Er' Hl'. eapply unfocus; [exact Hinv|done|exact Hg'| |done]. rewrite !open_count_one, Hi. cbn. lia. }
  unfold held in Hg. rewrite Hi in Hg. case_if; [by apply Hclosed|].
  set (R := flat_map held l1 ++ flat_map held l2 ++ L).
  assert (Ho : forall st, others L l1 l2 st ≡ₚ opt_list (g_lib st) ++ R) by (intros; apply others_lib).
  pose proof (acquire_good st R) as Ha. rewrite <- Ho in Ha.
  specialize (Ha Hg ltac:(rewrite Hr; unfold open_count; lia) Hl).
  destruct (glfw_acquire st) as [[] st1]; cbn [negb]; destruct Ha as (Ha1 & Ha2 & Ha3); rewrite <- Ho in Ha1.
  2: { apply Hclosed; [done|lia|done]. }
  assert (is_Some (g_lib st1)) as [lib Hlib] by (apply Ha3; rewrite Ha2, Hr; unfold open_count; lia).
  rewrite Hlib. change (opt (Some lib)) with lib.
  assert (Ht : triple (others L l1 l2 st1) (built 0) (built 11) (init_stages w h lib)).
  { apply init_stages_triple. rewrite Ho, Hlib. cbn. left. }
  specialize (Ht (with_glfw (new_impl w h) true) st1
                ltac:(split; [constructor|split; [by repeat constructor|lia]]) Ha1).
  destruct (init_stages w h lib _ st1) as [[[ok im] st2]| |]; cbn [obind]; try done.
  destruct Ht as (Hw & Hg2 & Hpg & Er & El & Hb). cbn in Hpg.
  assert (He : others L l1 l2 st2 = others L l1 l2 st1) by (unfold others; by rewrite El).
  destruct ok.
  - eapply unfocus; [exact Hinv|by split_and!; auto|by rewrite He| |by rewrite Er, El].
    rewrite !open_count_one, Hi. cbn. lia.
  - rewrite <- He, Ho in Hg2. destruct (release_keeps im st2 R Hw Hpg Hg2) as (Hx1 & Hx2 & Hx3);
      [rewrite Er, Ha2, Hr; unfold open_count; lia|by rewrite Er, El|].
    rewrite <- Ho in Hx1. apply Hclosed; [done|lia|done].
Qed.

(** [init] shuts down first, so it is [init] on the presenter this leaves. *)
Lemma init_after_shutdown p w h st : init p w h st = init (fst (shutdown p st)) w h (snd (shutdown p st)).
Proof. done. Qed.

Lemma calls_inv L ps st v :
  process_inv L ps st -> good v (flat_map held ps ++ opt_list (g_lib st) ++ L) -> process_inv L ps (put_vk st v).
Proof. intros [? ? ? ?] Hv. by split. Qed.

Lemma window_held L l1 p l2 st w :
  process_inv L (l1 ++ p :: l2) st -> window_open p = Some w ->
  [w] ⊆ flat_map held (l1 ++ p :: l2) ++ opt_list (g_lib st) ++ L.
Proof.
  clear req.
  intros Hinv Hw. rewrite held_middle. apply focus in Hinv as [Hp _]. unfold window_open, presenter_ok, held in *.
  destruct (pr_impl p) as [im|]; [|by destruct (pr_valid p)]. destruct (pr_valid p); [|done]. cbn in Hw.
  unfold objs. rewrite Hw. set_solver.
Qed.

Lemma should_close_inv L l1 p l2 st :
  process_inv L (l1 ++ p :: l2) st -> process_inv L (l1 ++ p :: l2) (snd (should_close p st)).
Proof.
  clear req.
  intros Hinv. unfold should_close. destruct (window_open p) as [w|] eqn:Hw; [|done]. cbn [snd]. apply calls_inv; [done|].
  eapply (good_call answers _ _ _ [w]); [apply Hinv|done|]. by apply window_held.
Qed.

Lemma poll_inv L l1 p l2 st :
  process_inv L (l1 ++ p :: l2) st -> process_inv L (l1 ++ p :: l2) (snd (poll p st)).
Proof.
  clear req.
  intros Hinv. unfold poll. destruct (window_open p) as [w|] eqn:Hw; [|done]. cbn [snd]. apply calls_inv; [done|].
  eapply (good_call answers _ _ _ [w]); [|done|by apply window_held].
  eapply good_use; [apply Hinv|done|]. set_solver.
Qed.

(** Dropping a closed presenter. *)
Lemma drop_inv L l1 p l2 st :
  pr_impl p = None -> process_inv L (l1 ++ p :: l2) st -> process_inv L (l1 ++ l2) st.
Proof.
  clear req.
  intros Hi [H1 H2 H3 H4]. split; [| |done|].
  - rewrite held_middle in H1. unfold held, others in H1. rewrite Hi in H1. by rewrite flat_map_app, <- app_assoc.
  - rewrite open_count_middle, open_count_one, Hi in H2. unfold open_count in *. rewrite omap_app, length_app. lia.
  - apply Forall_app in H4 as [? H4]. apply Forall_cons in H4 as [_ ?]. by apply Forall_app.
Qed.

Lemma upload_inv L l1 p l2 st px w h ok p' st' :
  upload_and_present p px w h st = Ok (ok, p', st') ->
  process_inv L (l1 ++ p :: l2) st -> process_inv L (l1 ++ p' :: l2) st'.
Proof.
  intros E Hinv. destruct (focus _ _ _ _ _ Hinv) as [Hp Hg]. pose proof (upload_keeps _ p px w h _ Hp Hg) as Hu.
  rewrite E in Hu. destruct Hu as (Hp' & Hi & Hg' & Er & El). destruct Hinv as [? ? Hl ?].
  eapply unfocus; [by split|done| | |by rewrite Er, El].
  - unfold others in *. by rewrite El.
  - rewrite !open_count_one, Er. destruct (pr_impl p'), (pr_impl p); try done; destruct Hi as [Hi1 Hi2].
    + by destruct (Hi1 ltac:(by eexists)).
    + by destruct (Hi2 ltac:(by eexists)).
Qed.

Lemma pstep_inv L s s' : pstep s s' -> process_inv L (fst s) (snd s) -> process_inv L (fst s') (snd s').
Proof.
  intros Hs Hinv. destruct Hs as [|l1 p l2 st w h ok p' st' E| | | | |]; cbn [fst snd] in *.
  - destruct Hinv. split; try done. by constructor.
  - rewrite init_after_shutdown in E. pose proof (init_closed L l1 _ l2 _ w h (shutdown_inv _ _ _ _ _ Hinv) eq_refl) as Hc.
    by rewrite E in Hc.
  - by eapply upload_inv.
  - by apply poll_inv.
  - by apply should_close_inv.
  - by apply shutdown_inv.
  - eapply drop_inv; [|by apply shutdown_inv]. done.
Qed.

(** Shutting every presenter down, as their destructors do. *)
Definition close_all (ps : list VulkanPresenter) (st : pst) : pst := foldl (fun st p => snd (shutdown p st)) st ps.

Lemma close_all_inv L ps st : process_inv L ps st -> process_inv L [] (close_all ps st).
Proof.
  revert st. induction ps as [|p ps IH]; intros st Hinv; [done|]. cbn [close_all foldl]. apply IH.
  eapply (drop_inv L [] (fst (shutdown p st)) ps); [done|]. by apply (shutdown_inv L []).
Qed.

Lemma reachable_inv L v ps st :
  good v L -> rtc pstep ([], MkP v 0 None ∅ []) (ps, st) -> process_inv L ps st.
Proof.
  intros Hg Hr. assert (process_inv L [] (MkP v 0 None ∅ [])) as H0 by (split; cbn; done).
  remember ([], MkP v 0 None ∅ []) as s0. remember (ps, st) as s1.
  assert (process_inv L (fst s0) (snd s0)) as H1 by by subst. clear Heqs0 H0.
  induction Hr as [s|s s' s'' Hs _ IH]; [by subst|]. apply IH; [done|]. by eapply pstep_inv.
Qed.

(** ** What can be undefined *)

(** A call that never fails with an error value, and is undefined only in these
    ways. *)
Definition only_ub {A} (ways : list string) (r : outcome A) : Prop :=
  match r with Ok _ => True | Fail _ => False | Ub what => what ∈ ways end.

Lemma only_ub_bind {A B} ways (r : outcome A) (f : A -> outcome B) :
  only_ub ways r -> (forall a, only_ub ways (f a)) -> only_ub ways (obind r f).
Proof. intros Hr Hf. destruct r; cbn; [apply Hf|done|done]. Qed.

Lemma only_ub_mono {A} ways ways' (r : outcome A) : ways ⊆ ways' -> only_ub ways r -> only_ub ways' r.
Proof. intros Hs. destruct r; cbn; auto. Qed.

(** A surface whose limits are not in order, and a failed query of the present
    modes, whose count of 0 is then used. *)
Definition surface_ways : list string := ["clamp"; "modes[0] of no modes"].
(** And a device list that could be counted but not read. *)
Definition init_ways : list string := "null physical device" :: surface_ways.
(** And fewer pixels than the frame has, an image index beyond the swapchain's
    images, and images that could be counted but not read. *)
Definition upload_ways : list string := "pixels" :: "images[idx]" :: "null image" :: surface_ways.

Lemma clamp_ub x lo hi : only_ub surface_ways (clamp x lo hi).
Proof. unfold clamp. case_if; [left|done]. Qed.

Lemma make_swapchain_ub im st : only_ub surface_ways (make_swapchain im st).
Proof.
  clear req. unfold make_swapchain. destruct (VkLog.vk_call _ _ _) as [okc v1].
  do 2 (apply only_ub_bind; [apply clamp_ub|intros ?]).
  destruct (query_count v1 _ _ _) as [nf v2]. case_if; [done|].
  destruct (query_fill v2 _ _ _ _ _) as [fmts v3]. destruct (choose_format fmts) as [ch|]; [|done].
  destruct (query_count v3 _ _ _) as [nm v4]. destruct (query_fill v4 _ _ _ _ _) as [modes v5].
  apply only_ub_bind; [|done]. case_if; [done|]. destruct modes; [|done]. right; left.
Qed.

Lemma andthen_ub ways a b :
  (forall im st, only_ub ways (a im st)) -> (forall im st, only_ub ways (b im st)) ->
  forall im st, only_ub ways (andthen a b im st).
Proof. intros Ha Hb im st. apply only_ub_bind; [apply Ha|]. intros [[[] im'] st']; [apply Hb|done]. Qed.

Lemma physical_ub im st : only_ub init_ways (physical_stage im st).
Proof.
  clear req. unfold physical_stage, pick_physical. apply only_ub_bind; [|intros [[[g q]|] v]; done].
  do 2 (destruct (VkLog.vk_call _ _ _) as [? ?]; case_if; try done). left.
Qed.

Lemma staging_ub ways size im st : only_ub ways (make_staging size im st).
Proof.
  unfold make_staging. repeat case_match; simplify_eq; done.
Qed.

Lemma create_ub ways kind uses put im st : only_ub ways (create_stage kind uses put im st).
Proof. clear req. unfold create_stage. by destruct (VkLog.vk_create _ _ _). Qed.

Lemma init_ub p w h st : only_ub init_ways (init p w h st).
Proof.
  unfold init. destruct (shutdown p st) as [p0 st0]. case_if; [done|].
  destruct (glfw_acquire st0) as [[] st1]; cbn [negb]; [|done].
  apply only_ub_bind; [|intros [[[] im] st2]; done]. unfold init_stages.
  repeat apply andthen_ub; intros im st'; try apply create_ub.
  - unfold extensions_stage. by destruct (VkLog.vk_call answers _ _).
  - apply physical_ub.
  - eapply only_ub_mono; [|apply make_swapchain_ub]. set_solver.
  - unfold cmd_stage. by destruct (VkLog.vk_call answers _ _).
  - apply staging_ub.
Qed.

Lemma recreate_ub im st : only_ub upload_ways (recreate im st).
Proof. clear req. eapply only_ub_mono; [|apply make_swapchain_ub]. set_solver. Qed.

Lemma present_image_ub p im idx st : only_ub upload_ways (present_image p im idx st).
Proof.
  clear req. unfold present_image. cbv zeta.
  destruct (VkLog.vk_call _ _ _) as [[] v1]; cbn [negb]; [|done].
  destruct (p_images im !! Z.to_nat idx) as [[img|]|]; [|right; right; left|right; left].
  do 3 (destruct (VkLog.vk_call _ _ _) as [[] ?]; cbn [negb]; [|done]).
  destruct (presented _); destruct (VkLog.vk_call _ _ _) as [? ?]; try done.
  all: apply only_ub_bind; [apply recreate_ub|]; intros [[? ?] ?]; done.
Qed.

Lemma upload_ub p px w h st : only_ub upload_ways (upload_and_present p px w h st).
Proof.
  clear req. unfold upload_and_present. destruct (pr_impl p) as [im|]; [|done]. destruct px as [px|]; [|done].
  do 3 (case_if; [done|]). destruct (VkLog.vk_call _ _ _) as [ok v]. case_if; [done|].
  apply only_ub_bind. { unfold stage_bytes. case_if; [left|done]. }
  intros bs. destruct (acquired _) as [[] idx]; destruct (VkLog.vk_call _ _ _) as [ok' v'].
  1,2: apply present_image_ub.
  - apply only_ub_bind; [apply recreate_ub|]. intros [[? ?] ?]. done.
  - done.
Qed.

(** C36. Any number of presenters, used in any order and whatever GLFW and Vulkan
    answer, as long as no call was undefined: every object used is live, the
    buffer and the image of the recorded commands included, the live objects are
    exactly what the open presenters hold, GLFW is initialised exactly while one
    of them is open (no presenter terminates it under another, and a failed
    [init] leaves no reference), and closing all of them releases everything.
    The next call is defined too, except in the ways of [init_ways] and
    [upload_ways]. *)
Theorem presenters_balanced L v ps st :
  good v L -> rtc pstep ([], MkP v 0 None ∅ []) (ps, st) ->
  good (s_vk st) (flat_map held ps ++ opt_list (g_lib st) ++ L) /\
  g_refs st = open_count ps /\ (is_Some (g_lib st) <-> 0 < open_count ps) /\
  (forall p, p ∈ ps -> (pr_valid p = true <-> is_Some (pr_impl p))) /\
  good (s_vk (close_all ps st)) L /\ g_refs (close_all ps st) = 0 /\
  forall p, (forall w h, only_ub init_ways (init p w h st)) /\
            forall px w h, only_ub upload_ways (upload_and_present p px w h st).
Proof.
  intros Hg Hr. pose proof (reachable_inv _ _ _ _ Hg Hr) as Hinv.
  pose proof (close_all_inv _ _ _ Hinv) as [Hc1 Hc2 Hc3 _]. change (open_count []) with 0 in Hc2.
  destruct (g_lib (close_all ps st)) eqn:El; [destruct Hc3 as [Hc3 _]; specialize (Hc3 ltac:(by eexists)); lia|].
  destruct Hinv as [H1 H2 H3 H4]. rewrite H2 in H3.
  split_and!; try done; [|intros p; split; intros; [apply init_ub|apply upload_ub]].
  intros p Hp. rewrite Forall_forall in H4. specialize (H4 p Hp). unfold presenter_ok in H4.
  destruct (pr_impl p) as [im|]; [destruct H4 as [-> _]; split; [by eexists|done]|]. rewrite H4. by split; [|intros [? ?]].
Qed.

(** *** What a successful [init] leaves *)

Lemma andthen_true a b im st im' st' :
  andthen a b im st = Ok (true, im', st') ->
  exists im1 st1, a im st = Ok (true, im1, st1) /\ b im1 st1 = Ok (true, im', st').
Proof. unfold andthen. destruct (a im st) as [[[[] im1] st1]| |]; cbn [obind]; try done. eauto. Qed.

Lemma create_keeps_size kind uses put im st ok im' st' :
  (forall im h, p_size (put im h) = p_size im) ->
  create_stage kind uses put im st = Ok (ok, im', st') -> p_size im' = p_size im.
Proof. intros Hp. unfold create_stage. destruct (VkLog.vk_create _ _ _). by intros [= _ <- _]. Qed.

Lemma staging_size size im st im' st' : make_staging size im st = Ok (true, im', st') -> p_size im' = size.
Proof.
  unfold make_staging. destruct (VkLog.vk_create _ _ "buffer") as [[]]; [|done].
  destruct (VulkanRes.find_type _ _ _ _); [|done]. destruct (VkLog.vk_create _ _ "memory") as [[]]; [|done].
  destruct (VkLog.vk_call _ _ _) as [[]]; [|done]. by intros [= <- _].
Qed.

(** The staging buffer holds a frame of the size asked for, and the frames to
    come have the extent of the swapchain. *)
Lemma init_opened p w h st p' st' :
  init p w h st = Ok (true, p', st') ->
  exists im, pr_impl p' = Some im /\ p_size im = u64 (u64 (w * h) * 4) /\ pr_valid p' = true /\
    (pr_width p', pr_height p') = p_extent im /\ pr_presents p' = pr_presents p /\ pr_errors p' = pr_errors p.
Proof.
  unfold init. destruct (shutdown p st) as [p0 st0] eqn:Hs.
  assert (pr_presents p0 = pr_presents p /\ pr_errors p0 = pr_errors p) as [<- <-] by (unfold shutdown in Hs; by simplify_eq).
  case_if; [done|]. destruct (glfw_acquire st0) as [[] st1]; [|done]. cbn [negb].
  destruct (init_stages w h _ _ st1) as [[[[] im] st2]| |] eqn:E; cbn [obind]; try done.
  intros [= <- <-]. exists im. split_and!; try done; [|by cbn; destruct (p_extent im)].
  unfold init_stages in E. do 9 (apply andthen_true in E as (? & ? & _ & E)).
  apply andthen_true in E as (im1 & st3 & E1%staging_size & E). apply andthen_true in E as (im2 & st4 & E2 & E3).
  apply create_keeps_size in E2, E3; try done. congruence.
Qed.

(** ** What a frame shows *)

(** Where the four bytes of a pixel keep each channel: in the order of the
    format's name, from the lowest address (the Vulkan specification's rule for
    formats of 8-bit components). *)
Inductive channel := Red | Green | Blue | Alpha.
Definition byte_of (format : Z) (c : channel) : nat :=
  if (format =? B8G8R8A8_UNORM) || (format =? B8G8R8A8_SRGB)
  then match c with Blue => 0 | Green => 1 | Red => 2 | Alpha => 3 end
  else match c with Red => 0 | Green => 1 | Blue => 2 | Alpha => 3 end.

(** The pixels of an image of the format, each as its red, green, blue, alpha. *)
Definition rgba_of (format : Z) (bs : list Z) : list Z :=
  flat_map (fun k => map (fun c => default 0 (bs !! (4 * k + byte_of format c)%nat)) [Red; Green; Blue; Alpha])
           (seq 0 (length bs `div` 4)).

Lemma rgba_cons format w x y z bs :
  rgba_of format (w :: x :: y :: z :: bs) =
  map (fun c => default 0 ([w; x; y; z] !! byte_of format c)) [Red; Green; Blue; Alpha] ++ rgba_of format bs.
Proof.
  clear req. unfold rgba_of.
  replace (length (w :: x :: y :: z :: bs) `div` 4)%nat with (S (length bs `div` 4)).
  2:{ replace (length (w :: x :: y :: z :: bs)) with (1 * 4 + length bs)%nat by (cbn; lia). by rewrite Nat.div_add_l by lia. }
  cbn [seq flat_map]. f_equal.
  - apply map_ext. intros c. unfold byte_of. by destruct (_ || _), c.
  - rewrite <- seq_shift, !flat_map_concat_map, map_map. f_equal. apply map_ext. intros k. apply map_ext. intros c.
    by replace (4 * S k + byte_of format c)%nat with (S (S (S (S (4 * k + byte_of format c))))) by lia.
Qed.

Lemma rgba_of_staged format n bs :
  length bs = (4 * n)%nat -> rgba_of format (if is_bgra format then swizzle bs else bs) = bs.
Proof.
  clear req. revert bs. induction n as [|n IH]; intros bs Hl; [destruct bs; by destruct (is_bgra _)|].
  destruct bs as [|r [|g [|b [|a bs]]]]; cbn in Hl; try lia. specialize (IH bs ltac:(lia)).
  destruct (is_bgra format) eqn:E; cbn [swizzle]; rewrite rgba_cons, IH; unfold byte_of, is_bgra in *; by rewrite E.
Qed.

Lemma staged_rgba im px need bs n :
  fmt_ok im -> need = 4 * Z.of_nat n -> stage_bytes (p_swizzle im) px need = Ok bs ->
  rgba_of (p_format im) bs = take (Z.to_nat need) px /\ need <= zlen px.
Proof.
  clear req.
  intros (_ & Hz & _) Hn. unfold stage_bytes. rewrite Hz.
  destruct (Z.ltb_spec (zlen px) need) as [?|Hle]; [done|]. intros [= <-]. split; [|done].
  apply (rgba_of_staged _ n). rewrite length_take. lia.
Qed.

(** The events and the counters of one presentation. *)
Record shown (p p' : VulkanPresenter) (im : Impl) (idx : Z) (st st' : pst) (bs : list Z) : Prop := {
  sh_events : exists img r, p_images im !! Z.to_nat idx = Some (Some img) /\ r <> VK_OTHER /\
    s_events st' = s_events st ++ [Submitted bs (frame_cmds (opt (p_staging im)) img (pr_width p) (pr_height p));
                                   Presented (opt (p_swap im)) idx r];
  sh_presents : pr_presents p' = u64 (pr_presents p + 1) /\ pr_errors p' = pr_errors p;
}.

(** A call that shows nothing counts one error, or none when it only made the
    swapchain again. *)
Definition counted (p p' : VulkanPresenter) (resized : bool) : Prop :=
  pr_presents p' = pr_presents p /\ pr_errors p' = if resized then pr_errors p else u64 (pr_errors p + 1).

Lemma create_events caps now space pmode im st :
  s_events (snd (create_swapchain caps now space pmode im st)) = s_events st.
Proof. unfold create_swapchain. by destruct (VkLog.vk_create _ _ _) as [[]]. Qed.

Lemma recreate_events im st ok im' st' : recreate im st = Ok (ok, im', st') -> s_events st' = s_events st.
Proof.
  unfold recreate, make_swapchain. cbn [s_vk put_vk]. unfold VkLog.vk_call at 1.
  destruct (clamp (fst _) _ _) as [w| |]; cbn [obind]; try done.
  destruct (clamp (snd _) _ _) as [h| |]; cbn [obind]; try done.
  unfold query_count at 1, VkLog.vk_call at 1. case_if; [by intros [= _ _ <-]|].
  unfold query_fill at 1, VkLog.vk_call at 1. destruct (choose_format _); [|by intros [= _ _ <-]].
  unfold query_count at 1, VkLog.vk_call at 1. unfold query_fill at 1, VkLog.vk_call at 1.
  match goal with |- context [obind ?m _] => destruct m as [pmode| |]; cbn [obind]; try done end.
  match goal with |- Ok (create_swapchain ?a ?b ?c ?d ?e ?s) = _ -> _ =>
    pose proof (create_events a b c d e s) as He; destruct (create_swapchain a b c d e s) as [[? ?] ?] end.
  intros [= _ _ <-]. exact He.
Qed.

Lemma present_image_exact p im idx st ok p' st' :
  present_image p im idx st = Ok (ok, p', st') ->
  if ok then shown p p' im idx st st' (default [] (s_stage st !! opt (p_mem im))) else counted p p' false.
Proof.
  unfold present_image. cbv zeta.
  destruct (VkLog.vk_call _ _ _) as [[] v1]; cbn [negb]; [|by intros [= <- <- _]].
  destruct (p_images im !! Z.to_nat idx) as [[img|]|] eqn:Hi; try done.
  destruct (VkLog.vk_call _ _ _) as [[] v2]; cbn [negb]; [|by intros [= <- <- _]].
  destruct (VkLog.vk_call _ _ _) as [[] v3]; cbn [negb]; [|by intros [= <- <- _]].
  destruct (VkLog.vk_call _ _ _) as [[] v4]; cbn [negb]; [|by intros [= <- <- _]].
  match goal with |- context [presented ?n] => destruct (presented n) eqn:Hr end;
    destruct (VkLog.vk_call _ _ _) as [ok5 v5].
  - intros [= <- <- <-]. split; [|done]. exists img, VK_SUCCESS. cbn. rewrite <- app_assoc. by split_and!.
  - destruct (recreate im _) as [[[ok' im'] st1]| |] eqn:E; cbn [obind]; try done. intros [= <- <- <-].
    split; [|done]. exists img, VK_SUBOPTIMAL. apply recreate_events in E. rewrite E. cbn. rewrite <- app_assoc. by split_and!.
  - destruct (recreate im _) as [[[ok' im'] st1]| |] eqn:E; cbn [obind]; try done. intros [= <- <- <-].
    split; [|done]. exists img, VK_OUT_OF_DATE. apply recreate_events in E. rewrite E. cbn. rewrite <- app_assoc. by split_and!.
  - by intros [= <- <- _].
Qed.

Lemma need_words w h : exists n, u64 (u64 (w * h) * 4) = 4 * Z.of_nat n.
Proof.
  clear req.
  exists (Z.to_nat (u64 (w * h) mod 2 ^ 62)). pose proof (u64_range (w * h)).
  pose proof (Z.mod_pos_bound (u64 (w * h)) (2 ^ 62) ltac:(lia)). unfold u64 at 1.
  rewrite Z2Nat.id by lia. replace (2 ^ 64) with (2 ^ 62 * 4) by lia. rewrite Z.mul_mod_distr_r by lia. lia.
Qed.

Lemma upload_exact p px w h st ok p' st' :
  presenter_ok p -> upload_and_present p px w h st = Ok (ok, p', st') ->
  if ok then
    exists im idx bs bytes, pr_impl p = Some im /\ px = Some bytes /\ w = pr_width p /\ h = pr_height p /\
      shown p p' im idx st st' bs /\ u64 (u64 (w * h) * 4) <= zlen bytes /\
      rgba_of (p_format im) bs = take (Z.to_nat (u64 (u64 (w * h) * 4))) bytes
  else counted p p' false \/ counted p p' true /\ fst (acquired (S (vk_count (s_vk st)))) = VK_OUT_OF_DATE.
Proof.
  clear req.
  intros Hp. unfold upload_and_present, presenter_ok in *.
  destruct (pr_impl p) as [im|]; [|intros [= <- <- _]; by left]. destruct px as [px|]; [|intros [= <- <- _]; by left].
  destruct Hp as (_ & Hb & _). case_if; [intros [= <- <- _]; by left|].
  destruct (Z.eqb_spec w (pr_width p)) as [->|]; [|intros [= <- <- _]; by left].
  destruct (Z.eqb_spec h (pr_height p)) as [->|]; [|intros [= <- <- _]; by left]. cbn [negb orb].
  set (need := u64 (u64 _ * 4)). case_if; [intros [= <- <- _]; by left|]. unfold VkLog.vk_call at 1.
  case_if; [intros [= <- <- _]; by left|].
  destruct (stage_bytes _ _ _) as [bs| |] eqn:Hst; cbn [obind]; try done.
  destruct (need_words (pr_width p) (pr_height p)) as [n Hn].
  destruct (staged_rgba im px need bs n (proj2 (proj2 Hb) ltac:(lia)) Hn Hst) as [Hrgba Hlen].
  cbn [s_vk put_stage log_call vk_count]. destruct (acquired _) as [acq idx] eqn:Hacq. unfold VkLog.vk_call at 1.
  assert (Hshow : forall v, present_image p im idx (put_vk (put_stage st v (opt (p_mem im)) bs) v) = Ok (ok, p', st') ->
    if ok then shown p p' im idx st st' bs else counted p p' false).
  { intros v E. apply present_image_exact in E. destruct ok; [|done]. cbn in E. rewrite lookup_insert_eq in E.
    destruct E as [E1 E2]. by split. }
  destruct acq.
  1,2: intros E; specialize (Hshow _ E); destruct ok; [|by left]; eexists im, idx, bs, px; by split_and!.
  - destruct (recreate im _) as [[[[] im'] st1]| |]; cbn [obind]; try done; intros [= <- <- <-]; [by right|by left].
  - intros [= <- <- _]. by left.
Qed.

(** A frame that [upload_and_present] reports as shown reached the queue once:
    one submission that moves the acquired image from undefined to a copy of the
    staging buffer and on to presentation, with the caller's pixels in the
    staging buffer (in the byte order of the swapchain's format), and one
    presentation of that image; and it counts one frame. Any other call counts
    one error, unless the swapchain was out of date and was made again. *)
Theorem upload_presents_pixels L v ps st p px w h ok p' st' :
  good v L -> rtc pstep ([], MkP v 0 None ∅ []) (ps, st) -> p ∈ ps ->
  upload_and_present p px w h st = Ok (ok, p', st') ->
  if ok then
    exists im idx bs bytes, pr_impl p = Some im /\ px = Some bytes /\ w = pr_width p /\ h = pr_height p /\
      shown p p' im idx st st' bs /\ u64 (u64 (w * h) * 4) <= zlen bytes /\
      rgba_of (p_format im) bs = take (Z.to_nat (u64 (u64 (w * h) * 4))) bytes
  else counted p p' false \/ counted p p' true /\ fst (acquired (S (vk_count (s_vk st)))) = VK_OUT_OF_DATE.
Proof.
  intros Hg Hr Hp. apply upload_exact. pose proof (reachable_inv _ _ _ _ Hg Hr) as [_ _ _ Ho].
  rewrite Forall_forall in Ho. by apply Ho.
Qed.

Local Ltac call_ok Ha :=
  match goal with
  | |- context [VkLog.vk_call answers ?v ?c] =>
      pose proof (Ha (vk_count v) : fst (vk_call v c) = true);
      destruct (VkLog.vk_call answers v c) as [? ?]; cbn [fst] in *; subst; cbn [negb]
  end.

(** When nothing goes wrong outside, a frame of the right size is shown. *)
Lemma upload_succeeds p im px w h st :
  (forall n, answers n = true) -> (forall n, presented n = VK_SUCCESS) ->
  (forall n, fst (acquired n) = VK_SUCCESS /\ exists img, p_images im !! Z.to_nat (snd (acquired n)) = Some (Some img)) ->
  pr_impl p = Some im -> pr_valid p = true -> w = pr_width p -> h = pr_height p ->
  u64 (u64 (w * h) * 4) <= p_size im -> u64 (u64 (w * h) * 4) <= zlen px ->
  exists st', upload_and_present p (Some px) w h st = Ok (true, count_present p, st') /\
              g_refs st' = g_refs st /\ g_lib st' = g_lib st.
Proof.
  intros Ha Hs Hq Hi Hv -> -> Hn Hx. unfold upload_and_present. rewrite Hi, Hv, !Z.eqb_refl. cbn [negb orb].
  rewrite (proj2 (Z.ltb_ge _ _) Hn). call_ok Ha.
  unfold stage_bytes. rewrite (proj2 (Z.ltb_ge _ _) Hx). cbn [obind].
  match goal with |- context [acquired ?n] => destruct (Hq n) as [Hq1 [img Hq2]]; destruct (acquired n) as [acq idx] end.
  cbn [fst snd] in *. subst acq. call_ok Ha. unfold present_image. cbv zeta. call_ok Ha. rewrite Hq2. do 3 call_ok Ha.
  rewrite Hs. call_ok Ha. eexists. split; [reflexivity|]. done.
Qed.

(** When no call fails, the device chosen is the best of those that can
    present: none that can present has a higher score. *)
Theorem pick_physical_best v inst surf L :
  (forall n, answers n = true) -> gpus <> [] -> good v L -> inst ∈ L -> surf ∈ L ->
  exists r v', pick_physical v inst surf = Ok (r, v') /\
  match r with
  | Some (g, i) => g ∈ gpus /\ presentable g /\ presents_on g i /\
                   forall g', g' ∈ gpus -> presentable g' -> score g' <= score g
  | None => forall g', g' ∈ gpus -> ~ presentable g'
  end.
Proof.
  clear req.
  intros Ha Hne Hg Hi Hs. unfold pick_physical.
  pose proof (good_call answers v L (Use "vkEnumeratePhysicalDevices" [inst] [0]) [inst] Hg eq_refl ltac:(set_solver)) as G1.
  pose proof (Ha (vk_count v) : fst (vk_call v (Use "vkEnumeratePhysicalDevices" [inst] [0])) = true) as A1.
  destruct (VkLog.vk_call answers v _) as [ok1 v1]. cbn [fst snd] in *. subst ok1.
  destruct (Nat.eqb_spec (length gpus) 0) as [E|_]; [by destruct gpus|]. cbn [negb orb].
  pose proof (good_call answers v1 L (Use "vkEnumeratePhysicalDevices" [inst] [zlen gpus]) [inst] G1 eq_refl
                ltac:(set_solver)) as G2.
  pose proof (Ha (vk_count v1) : fst (vk_call v1 (Use "vkEnumeratePhysicalDevices" [inst] [zlen gpus])) = true) as A2.
  destruct (VkLog.vk_call answers v1 _) as [ok2 v2]. cbn [fst snd] in *. subst ok2. cbn [negb].
  pose proof (scan_devices_spec v2 surf (std_sort gpus) L G2 Hs) as H1. destruct (scan_devices v2 surf _) as [r v'].
  exists r, v'. split; [done|]. destruct H1 as [_ [H1 H2]]. specialize (H2 Ha).
  assert (Hp : forall g, g ∈ std_sort gpus <-> g ∈ gpus) by (intros g; by rewrite std_sort_perm).
  destruct r as [[g i]|].
  - destruct (H1 g i eq_refl) as (Hin & Hx & Ho). split_and!; [by apply Hp|by split; [|eexists]|done|].
    intros g' Hg' Hpr. apply Hp in Hg'. destruct H2 as (l1 & l2 & E & Hl1). pose proof (std_sort_sorted gpus) as Hsort.
    rewrite E in Hg', Hsort. apply elem_of_app in Hg' as [Hg'|Hg'].
    + rewrite Forall_forall in Hl1. by specialize (Hl1 _ Hg').
    + apply StronglySorted_app_1_r in Hsort. inversion_clear Hsort as [|? ? _ Hall].
      apply elem_of_cons in Hg' as [->|Hg']; [lia|]. rewrite Forall_forall in Hall. by apply Hall.
  - intros g' Hg'. apply Hp in Hg'. rewrite Forall_forall in H2. by apply H2.
Qed.

End presenter.

(** ** The build without GLFW *)

(** Every call fails, and an upload counts an error. *)
Module Stub.
Definition init (p : VulkanPresenter) (w h : Z) : bool * VulkanPresenter := (false, p).
Definition shutdown (p : VulkanPresenter) : VulkanPresenter := p.
Definition poll (p : VulkanPresenter) : bool := false.
Definition should_close (p : VulkanPresenter) : bool := true.
Definition upload_and_present (p : VulkanPresenter) : bool * VulkanPresenter := (false, count_error p).
End Stub.

(** ** A process *)

#[export] Program Instance merge_std_sort : StdSort := {
  std_sort := merge_sort before;
}.
Next Obligation. intros l. apply merge_sort_Permutation. Qed.
Next Obligation.
  intros l. apply StronglySorted_merge_sort.
  - intros a b c. unfold before. lia.
  - intros a b. unfold before. lia.
Qed.

Definition demo_pgpu (g : host_gpu) (exts : list string) : present_gpu := MkPGpu g exts (fun _ => Some true).
Definition demo_pgpus : list present_gpu :=
  [demo_pgpu (MkHostGpu "integrated" false 0x8086 [7] [7] []) [SWAPCHAIN_EXT];
   demo_pgpu (MkHostGpu "radeon" true AMD [4; 7] [1; 6] []) [SWAPCHAIN_EXT]].
Definition demo_surface (_ : nat) : surface := MkSurface (1, 1) (4096, 4096) 2 8 [(44, 0)] [0; 2] 3.
Definition demo_acquired (n : nat) : vkresult * Z := (VK_SUCCESS, 1).
Definition demo_presented (_ : nat) : vkresult := VK_SUCCESS.
Definition demo_closing (_ : nat) : bool := false.
Definition demo_proc : pst := MkP start 0 None ∅ [].

Abbreviation demo_init p w h st :=
  (init yes demo_pgpus demo_surface VulkanRes.demo_req p w h st).
Abbreviation demo_upload p px w h st :=
  (upload_and_present yes demo_surface demo_acquired demo_presented p px w h st).
Abbreviation demo_step := (pstep yes demo_pgpus demo_surface VulkanRes.demo_req demo_closing demo_acquired demo_presented).

Definition unwrap (r : outcome (bool * VulkanPresenter * pst)) : VulkanPresenter * pst :=
  match r with Ok (_, p, st) => (p, st) | _ => (new_presenter, demo_proc) end.
(** A presenter of two by one pixels, and a frame. *)
Definition opened : VulkanPresenter * pst := unwrap (demo_init new_presenter 2 1 demo_proc).
Definition demo_pixels : list Z := [1; 2; 3; 4; 5; 6; 7; 8].
Definition drawn : VulkanPresenter * pst := unwrap (demo_upload (fst opened) (Some demo_pixels) 2 1 (snd opened)).

Lemma opened_reachable : rtc demo_step ([], demo_proc) ([fst opened], snd opened).
Proof.
  eapply rtc_l; [apply ps_new|]. eapply rtc_l; [|apply rtc_refl].
  eapply (ps_init _ _ _ _ _ _ _ [] new_presenter [] demo_proc 2 1 true). vm_compute. reflexivity.
Qed.

Lemma presenters_balanced_witness :
  g_refs (snd opened) = 1 /\ length (flat_map held [fst opened]) = 10%nat /\
  good (s_vk (close_all [fst opened] (snd opened))) [].
Proof.
  pose proof (presenters_balanced yes demo_pgpus demo_surface VulkanRes.demo_req demo_closing demo_acquired demo_presented
                [] start [fst opened] (snd opened) start_good opened_reachable) as (_ & Hr & _ & _ & Hc & _ & _).
  split; [rewrite Hr; vm_compute; reflexivity|]. split; [vm_compute; reflexivity|]. exact Hc.
Defined.

Lemma upload_presents_pixels_witness :
  exists im bs, pr_impl (fst opened) = Some im /\ p_format im = B8G8R8A8_UNORM /\
    rgba_of (p_format im) bs = demo_pixels /\ pr_presents (fst drawn) = 1.
Proof.
  pose proof (upload_presents_pixels yes demo_pgpus demo_surface VulkanRes.demo_req demo_closing demo_acquired demo_presented
                [] start [fst opened] (snd opened) (fst opened) (Some demo_pixels) 2 1 true (fst drawn) (snd drawn)
                start_good opened_reachable ltac:(left) ltac:(vm_compute; reflexivity)) as H.
  destruct H as (im & idx & bs & bytes & Hi & [= <-] & _ & _ & Hs & _ & Hrgba). exists im, bs.
  assert (p_format <$> pr_impl (fst opened) = Some B8G8R8A8_UNORM) as Hf by (vm_compute; reflexivity).
  rewrite Hi in Hf. cbn in Hf. injection Hf as Hf. split; [exact Hi|]. split; [exact Hf|].
  split; [rewrite Hrgba; vm_compute; reflexivity|vm_compute; reflexivity].
Defined.

Lemma pick_physical_best_witness :
  exists g i v, pick_physical yes demo_pgpus start 1 2 = Ok (Some (g, i), v) /\ score g = 2 /\
    forall g', g' ∈ demo_pgpus -> presentable g' -> score g' <= score g.
Proof.
  pose (v2 := snd (vk_create yes (snd (vk_create yes start "instance")) "surface")).
  assert (good v2 [2; 1]) as Hg.
  { split; [vm_compute; reflexivity|by repeat constructor|by apply (bool_decide_unpack _)]. }
  pose proof (pick_physical_best yes demo_pgpus v2 1 2 [2; 1] (fun _ => eq_refl) ltac:(done) Hg
                ltac:(right; left) ltac:(left)) as (r & v' & E & Hr).
  destruct r as [[g i]|]; [|vm_compute in E; discriminate].
  eexists g, i, _. split; [|split; [|apply Hr]].
  - vm_compute in E |- *. injection E as <- <- _. reflexivity.
  - vm_compute in E. injection E as <- _ _. reflexivity.
Defined.

(** A window that shrinks: the swapchain made again is smaller than the frames,
    whose size was fixed by [init], and the next frame copies past its edge. *)
Example shrunk_window_keeps_frame_size :
  let small (_ : nat) := MkSurface (1, 1) (1, 1) 2 8 [(44, 0)] [0; 2] 3 in
  let stale (_ : nat) := (VK_OUT_OF_DATE, 0) in
  match upload_and_present yes small stale demo_presented (fst opened) (Some demo_pixels) 2 1 (snd opened) with
  | Ok (_, p, _) => (p_extent <$> pr_impl p) = Some (1, 1) /\ (pr_width p, pr_height p) = (2, 1)
  | _ => False
  end.
Proof. vm_compute. done. Qed.

(** The count query of the present modes fails: its zero is used as a count and
    the first of no modes is read. *)
Example failed_mode_query_is_undefined :
  init (fun n => negb (n =? 13)%nat) demo_pgpus demo_surface VulkanRes.demo_req new_presenter 2 1 demo_proc
  = Ub "modes[0] of no modes".
Proof. vm_compute. reflexivity. Qed.

(** A frame that was never shown: presentation is refused as out of date and is
    counted as a frame. *)
Example refused_frame_is_counted :
  let stale (_ : nat) := VK_OUT_OF_DATE in
  match upload_and_present yes demo_surface demo_acquired stale (fst opened) (Some demo_pixels) 2 1 (snd opened) with
  | Ok (ok, p, _) => ok = true /\ pr_presents p = 1
  | _ => False
  end.
Proof. vm_compute. done. Qed.

End VulkanPresent.
