(* ===== verification/MainWindow.v ===== *)
(** The window of the demonstration program (src/main.cpp): its command line,
    and the loop that clears the guest frame buffer, flips, and shows the frame
    in the host window. It composes the command processor (GpuStub.v), the
    display (XboxDisplay.v) and the presenter (VulkanPresent.v) over one guest
    memory. *)
From stdpp Require Import base numbers list gmap strings.
From Stdlib Require Import ZArith Lia.
From S2P Require Import Prelude XbeRam MemMap KrnlPrintf GpuStub XboxDisplay VkLog VulkanDev VulkanRes VulkanPresent.
Open Scope Z_scope.

Module MainWindow.
Import MemMap.

(** ** Command line *)

Definition is_digit (c : Z) : bool := (48 <=? c) && (c <=? 57).
Definition is_blank (c : Z) : bool := (c =? 32) || ((9 <=? c) && (c <=? 13)).

Fixpoint digits_value (l : list Z) (acc : Z) : Z :=
  match l with
  | c :: l' => if is_digit c then digits_value l' (acc * 10 + (c - 48)) else acc
  | [] => acc
  end.

(** std::atol: undefined when the value does not fit in a long. *)
Fixpoint skip_blanks (l : list Z) : list Z :=
  match l with c :: l' => if is_blank c then skip_blanks l' else l | [] => [] end.
Definition atol (l : list Z) : outcome Z :=
  let l := skip_blanks l in
  let v := match l with
           | c :: l' => if c =? 45 then - digits_value l' 0
                        else if c =? 43 then digits_value l' 0 else digits_value l 0
           | [] => 0
           end in
  if (v <? - 2 ^ 63) || (2 ^ 63 <=? v) then Ub "atol" else Ok v.

Definition txt := KrnlPrintf.bytes_of.
Definition is_arg (a : list Z) (long short : string) : bool := bool_decide (a = txt long) || bool_decide (a = txt short).

(** The arguments after the program name; [None] when usage was printed. A
    string is compared with each option in turn, and the option that takes a
    value consumes the next argument when there is one. *)
Fixpoint parse_args (argv : list (list Z)) (window : bool) (frames : Z) : outcome (option (bool * Z)) :=
  match argv with
  | [] => Ok (Some (window, frames))
  | a :: rest =>
      if is_arg a "--help" "-h" then Ok None
      else
        let window := if is_arg a "--window" "-w" then true else window in
        match is_arg a "--frames" "-n", rest with
        | true, v :: rest' =>
            let! n := atol v in parse_args rest' window (u32 (if n <? 0 then 0 else n))
        | _, _ => parse_args rest window frames
        end
  end.
Definition main_args (argv : list (list Z)) : outcome (option (bool * Z)) := parse_args argv false 600.

(** *** Numbers on the command line *)

Definition decimal (n : Z) : list Z := GpuStub.put 10 n.

Lemma digits_loop_value fuel n acc :
  0 <= n < 10 ^ Z.of_nat fuel ->
  exists D, KrnlPrintf.digits_loop fuel 10 false n acc = D ++ acc /\ Forall (fun c => is_digit c = true) D /\
    (0 < n -> D <> []) /\
    forall l a, digits_value (D ++ l) a = digits_value l (a * 10 ^ zlen D + n).
Proof.
  revert n acc. induction fuel as [|fuel IH]; intros n acc Hn; cbn [KrnlPrintf.digits_loop].
  { exists []. assert (n = 0) as -> by (cbn in Hn; lia). split_and!; [done|constructor|lia|]. intros l a. cbn. f_equal. lia. }
  destruct (Z.eqb_spec n 0) as [->|Hz].
  { exists []. split_and!; [done|constructor|lia|]. intros l a. cbn. f_equal. lia. }
  assert (Hd : 0 <= n mod 10 < 10) by (apply Z.mod_pos_bound; lia). rewrite (proj2 (Z.ltb_lt (n mod 10) 10)) by lia.
  assert (Hq : 0 <= n `div` 10 < 10 ^ Z.of_nat fuel).
  { rewrite Nat2Z.inj_succ, Z.pow_succ_r in Hn by lia. split; [apply Z.div_pos; lia|apply Z.div_lt_upper_bound; lia]. }
  assert (Hc : is_digit (48 + n mod 10) = true).
  { unfold is_digit. rewrite (proj2 (Z.leb_le 48 _)), (proj2 (Z.leb_le _ 57)) by lia. done. }
  destruct (IH (n `div` 10) ((48 + n mod 10) :: acc) Hq) as (D & -> & HD & _ & Hv).
  exists (D ++ [48 + n mod 10]). rewrite <- app_assoc. split_and!; [done|by apply Forall_app; split; [|constructor]| |].
  - intros _. by destruct D.
  - intros l a. rewrite <- app_assoc, Hv. cbn [app digits_value]. rewrite Hc. f_equal. rewrite length_app.
    cbn [length]. rewrite Nat2Z.inj_add, Z.pow_add_r by lia. pose proof (Z.div_mod n 10). lia.
Qed.

Lemma atol_decimal n : 0 <= n < 2 ^ 63 -> atol (decimal n) = Ok n.
Proof.
  intros Hn. unfold decimal, GpuStub.put. destruct (Z.eqb_spec n 0) as [->|Hz]; [done|].
  unfold KrnlPrintf.digits. destruct (digits_loop_value 32 n []) as (D & -> & HD & Hne & Hv); [cbn; lia|].
  rewrite app_nil_r. specialize (Hv [] 0). rewrite app_nil_r in Hv. cbn in Hv.
  unfold atol. destruct D as [|c D]; [by exfalso; apply Hne|]. apply Forall_cons in HD as [Hc _].
  assert (48 <= c <= 57) as Hr by (unfold is_digit in Hc; bool_facts; lia).
  assert (is_blank c = false) as Hb.
  { unfold is_blank. apply orb_false_iff. split; [apply Z.eqb_neq; lia|]. apply andb_false_iff. right. apply Z.leb_gt. lia. }
  cbn [skip_blanks]. rewrite Hb, (proj2 (Z.eqb_neq c 45)), (proj2 (Z.eqb_neq c 43)) by lia. rewrite Hv.
  rewrite (proj2 (Z.ltb_ge n _)), (proj2 (Z.leb_gt _ n)) by lia. done.
Qed.

(** The number of frames given on the command line is the one used, with and
    without the window option before it; a number of more than 32 bits is
    reduced to 32 bits, and a negative one is no frames. *)
Theorem frames_argument_is_read (n : Z) :
  0 <= n < 2 ^ 63 ->
  main_args [txt "--frames"; decimal n] = Ok (Some (false, u32 n)) /\
  main_args [txt "-w"; txt "-n"; decimal n] = Ok (Some (true, u32 n)) /\
  main_args [txt "-n"; txt "-5"] = Ok (Some (false, 0)).
Proof.
  intros Hn. unfold main_args. split_and!; [| |done].
  - change (parse_args [txt "--frames"; decimal n] false 600) with
      (let! m := atol (decimal n) in parse_args [] false (u32 (if m <? 0 then 0 else m))).
    rewrite atol_decimal by done. cbn [obind parse_args]. by rewrite (proj2 (Z.ltb_ge n 0)) by lia.
  - change (parse_args [txt "-w"; txt "-n"; decimal n] false 600) with
      (let! m := atol (decimal n) in parse_args [] true (u32 (if m <? 0 then 0 else m))).
    rewrite atol_decimal by done. cbn [obind parse_args]. by rewrite (proj2 (Z.ltb_ge n 0)) by lia.
Qed.

(** ** The window *)

Definition W : Z := 640.
Definition H : Z := 480.
Definition FB : Z := 0x100000.

Definition anim_color (f : Z) : Z * Z * Z * Z :=
  (u8 (Z.land f 0xFF), 0, u8 (255 - Z.land f 0xFF), 0xFF).
Definition anim (f : Z) : GpuStub.XboxPacket :=
  GpuStub.MkPacket GpuStub.ClearRenderTarget (GpuStub.MkAddr FB GpuStub.GpuOptimal (W * H * 4))
    (GpuStub.MkAddr 0 GpuStub.GpuOptimal 0) 0 (anim_color f) W H 0.

(** The command processor with the guest memory, the display, the window, and
    the host process. *)
Record world := MkWorld {
  w_gpu : GpuStub.gpu; w_disp : XboxDisplay.display;
  w_win : VulkanPresent.VulkanPresenter; w_host : VulkanPresent.pst;
}.

Section window.
Context `{os : HostOS} (answers : nat -> bool) (gpus : list VulkanPresent.present_gpu) `{VulkanPresent.StdSort}
        (surf_at : nat -> VulkanPresent.surface) (req : Z -> Z * Z) (closing : nat -> bool)
        (acquired : nat -> VulkanPresent.vkresult * Z) (presented : nat -> VulkanPresent.vkresult)
        (clock : Z -> Z).

(** [n] frames left, the next one is [f]. A frame that is not shown ends the
    loop. *)
Fixpoint window_loop (n : nat) (f : Z) (w : world) : outcome world :=
  match n with
  | O => Ok w
  | S n' =>
      let (closed, st) := VulkanPresent.should_close answers closing (w_win w) (w_host w) in
      if closed : bool then Ok (MkWorld (w_gpu w) (w_disp w) (w_win w) st)
      else
        let (_, g) := GpuStub.submit_xbox (w_gpu w) (clock f) (anim f) in
        let (_, d) := XboxDisplay.on_flip (w_disp w) (GpuStub.gpu_mem g) (clock f) in
        let! (ok, win, st) :=
          VulkanPresent.upload_and_present answers surf_at acquired presented (w_win w) (Some (XboxDisplay.frame d)) W H st in
        if ok : bool
        then let (_, st) := VulkanPresent.poll answers closing win st in
             window_loop n' (u32 (f + 1)) (MkWorld g d win st)
        else Ok (MkWorld g d win st)
  end.

(** The whole block: what was shown and the errors counted, [None] when the
    frame buffer or the window is not there. The window is closed at the end. *)
Definition window_block (frames : Z) (g : GpuStub.gpu) (st : VulkanPresent.pst)
  : outcome (option (Z * Z) * GpuStub.gpu * VulkanPresent.pst) :=
  let g := match GpuStub.gpu_mem g with
           | Some m => GpuStub.attach g (Some (snd (commit_range m FB (W * H * 4))))
           | None => g
           end in
  let (ok, d) := XboxDisplay.set_framebuffer XboxDisplay.new_display (GpuStub.gpu_mem g) FB W H in
  if negb ok then Ok (None, g, st)
  else
    let! (ok, win, st) := VulkanPresent.init answers gpus surf_at req VulkanPresent.new_presenter W H st in
    if ok : bool then
      let! w := window_loop (Z.to_nat frames) 0 (MkWorld g d win st) in
      Ok (Some (VulkanPresent.pr_presents (w_win w), VulkanPresent.pr_errors (w_win w)), w_gpu w,
          snd (VulkanPresent.shutdown (w_win w) (w_host w)))
    else Ok (None, g, snd (VulkanPresent.shutdown win st)).

(** ** What the window shows *)

Section laws.
Context `{!HostLaws os} (Hpage : page_bits <= 34).
(** The window system and Vulkan answer every call, and the window stays open. *)
Context (Hans : forall n, answers n = true) (Hpres : forall n, presented n = VulkanPresent.VK_SUCCESS)
        (Hopen : forall n, closing n = false).

Definition fb_ready (m : memmap) : Prop :=
  map_ok m /\ is_writable m FB (W * H * 4) = true /\ GpuStub.whole_windows m FB (4 * (W * H)).

Record loop_ok (im : VulkanPresent.Impl) (w : world) : Prop := {
  lo_mem : exists m, GpuStub.gpu_mem (w_gpu w) = Some m /\ fb_ready m;
  lo_disp : XboxDisplay.display_ok (w_disp w) /\ XboxDisplay.has_fb (w_disp w) = true /\
            XboxDisplay.fb_gpa (w_disp w) = FB /\ XboxDisplay.fb_w (w_disp w) = W /\ XboxDisplay.fb_h (w_disp w) = H;
  lo_impl : VulkanPresent.pr_impl (w_win w) = Some im;
  lo_win : VulkanPresent.presenter_ok (w_win w) /\ VulkanPresent.pr_width (w_win w) = W /\
           VulkanPresent.pr_height (w_win w) = H;
  lo_size : W * H * 4 <= VulkanPresent.p_size im;
  lo_acq : forall n, fst (acquired n) = VulkanPresent.VK_SUCCESS /\
                     exists img, VulkanPresent.p_images im !! Z.to_nat (snd (acquired n)) = Some (Some img);
}.

(** [n] frames from [f] on reached the queue, each in the colour of its number. *)
Fixpoint frames_shown (im : VulkanPresent.Impl) (f : Z) (n : nat) (evs : list VulkanPresent.pevent) : Prop :=
  match n with
  | O => evs = []
  | S n' => exists bs img idx r rest,
      evs = VulkanPresent.Submitted bs (VulkanPresent.frame_cmds (VulkanPresent.opt (VulkanPresent.p_staging im)) img W H)
            :: VulkanPresent.Presented (VulkanPresent.opt (VulkanPresent.p_swap im)) idx r :: rest /\
      VulkanPresent.p_images im !! Z.to_nat idx = Some (Some img) /\ r <> VulkanPresent.VK_OTHER /\
      VulkanPresent.rgba_of (VulkanPresent.p_format im) bs =
        GpuStub.words (Z.to_nat (W * H)) (GpuStub.pixel_word (anim_color f)) /\
      frames_shown im (u32 (f + 1)) n' rest
  end.

Lemma clear_valid m f : fb_ready m -> GpuStub.packet_valid m (anim f) = true.
Proof.
  intros (_ & Hw & _). unfold GpuStub.packet_valid, GpuStub.commit_ok. cbn [GpuStub.pk_dst anim GpuStub.ga_gpa GpuStub.ga_size].
  rewrite Hw. reflexivity.
Qed.

Lemma stored_ready m f : fb_ready m -> fb_ready (GpuStub.stored m (anim f)).
Proof. intros ([H1 H2 H3 H4 H5 H6] & Hw & Ha). split_and!; try done. Qed.

(** The guest side of one frame. *)
Lemma clear_and_flip g d m f t :
  GpuStub.gpu_mem g = Some m -> fb_ready m ->
  XboxDisplay.display_ok d -> XboxDisplay.has_fb d = true -> XboxDisplay.fb_gpa d = FB -> XboxDisplay.fb_w d = W ->
  XboxDisplay.fb_h d = H ->
  let g' := snd (GpuStub.submit_xbox g t (anim f)) in
  GpuStub.gpu_mem g' = Some (GpuStub.stored m (anim f)) /\
  XboxDisplay.on_flip d (GpuStub.gpu_mem g') t =
    (true, XboxDisplay.MkDisplay true FB W H
             (GpuStub.words (Z.to_nat (W * H)) (GpuStub.pixel_word (anim_color f)))
             (u64 (XboxDisplay.frames_presented d + 1)) t (XboxDisplay.errors d)).
Proof.
  intros Hg Hm Hd Hfb Hga Hw Hh. cbv zeta. pose proof Hm as (Hok & Hwr & Hww).
  destruct (GpuStub.submit_xbox g t (anim f)) as [ok g'] eqn:E.
  destruct (GpuStub.submit_memory g t (anim f) m ok g') as (Hv & _ & _); try done; [by auto|].
  rewrite clear_valid in Hv by done. subst ok.
  destruct (XboxDisplay.clear_then_present g g' m d (anim f) t t) as [E1 E2]; try done; try (by rewrite ?Hga, ?Hw, ?Hh).
  split; [exact E1|]. unfold XboxDisplay.on_flip. cbn [snd]. rewrite E2, Hga, Hw, Hh. done.
Qed.

Lemma should_close_open w : 
  VulkanPresent.presenter_ok (w_win w) -> is_Some (VulkanPresent.pr_impl (w_win w)) ->
  exists st, VulkanPresent.should_close answers closing (w_win w) (w_host w) = (false, st) /\
             VulkanPresent.s_events st = VulkanPresent.s_events (w_host w).
Proof.
  intros Hp [im Hi]. unfold VulkanPresent.presenter_ok in Hp. rewrite Hi in Hp. destruct Hp as (Hv & Hb & _).
  unfold VulkanPresent.should_close, VulkanPresent.window_open. rewrite Hv, Hi. cbn [negb].
  assert (is_Some (VulkanPresent.p_win im)) as [x Hx].
  { destruct Hb as (Hb & _). cbn in Hb. by apply Forall_cons in Hb as [? _]. }
  rewrite Hx, Hopen. by eexists.
Qed.

Lemma poll_events p st :
  VulkanPresent.s_events (snd (VulkanPresent.poll answers closing p st)) = VulkanPresent.s_events st.
Proof. unfold VulkanPresent.poll. by destruct (VulkanPresent.window_open p). Qed.

Lemma need_val : u64 (u64 (W * H) * 4) = W * H * 4.
Proof. reflexivity. Qed.

(** The host side of one frame. *)
Lemma upload_frame im p st bs :
  VulkanPresent.pr_impl p = Some im -> VulkanPresent.presenter_ok p -> VulkanPresent.pr_width p = W ->
  VulkanPresent.pr_height p = H -> W * H * 4 <= VulkanPresent.p_size im -> zlen bs = W * H * 4 ->
  (forall n, fst (acquired n) = VulkanPresent.VK_SUCCESS /\
             exists img, VulkanPresent.p_images im !! Z.to_nat (snd (acquired n)) = Some (Some img)) ->
  exists st', VulkanPresent.upload_and_present answers surf_at acquired presented p (Some bs) W H st =
                Ok (true, VulkanPresent.count_present p, st') /\
    exists staged img idx r, VulkanPresent.p_images im !! Z.to_nat idx = Some (Some img) /\ r <> VulkanPresent.VK_OTHER /\
      VulkanPresent.s_events st' = VulkanPresent.s_events st ++
        [VulkanPresent.Submitted staged (VulkanPresent.frame_cmds (VulkanPresent.opt (VulkanPresent.p_staging im)) img W H);
         VulkanPresent.Presented (VulkanPresent.opt (VulkanPresent.p_swap im)) idx r] /\
      VulkanPresent.rgba_of (VulkanPresent.p_format im) staged = bs.
Proof.
  intros Hi Hp Hw Hh Hs Hl Hq.
  assert (VulkanPresent.pr_valid p = true) as Hv.
  { unfold VulkanPresent.presenter_ok in Hp. rewrite Hi in Hp. apply Hp. }
  destruct (VulkanPresent.upload_succeeds answers surf_at acquired presented p im bs W H st)
    as (st' & E & _); rewrite ?need_val; try done; [lia|].
  exists st'. split; [exact E|]. pose proof (VulkanPresent.upload_exact _ _ _ _ _ _ _ _ _ _ _ _ Hp E) as Hx.
  destruct Hx as (im' & idx & staged & bytes & Hi' & [= <-] & _ & _ & [(img & r & H1 & H2 & H3) _] & _ & H4).
  rewrite Hi in Hi'. injection Hi' as <-. rewrite Hw, Hh in H3. exists staged, img, idx, r. split_and!; try done.
  rewrite H4, need_val, <- Hl. rewrite Nat2Z.id. apply firstn_all.
Qed.

Lemma loop_shows im n f w :
  loop_ok im w ->
  exists w' evs, window_loop n f w = Ok w' /\ loop_ok im w' /\
    VulkanPresent.pr_presents (w_win w') = (if (n =? 0)%nat then VulkanPresent.pr_presents (w_win w)
                                            else u64 (VulkanPresent.pr_presents (w_win w) + Z.of_nat n)) /\
    VulkanPresent.pr_errors (w_win w') = VulkanPresent.pr_errors (w_win w) /\
    VulkanPresent.s_events (w_host w') = VulkanPresent.s_events (w_host w) ++ evs /\ frames_shown im f n evs.
Proof.
  revert f w. induction n as [|n IH]; intros f w Hw; cbn [window_loop].
  { exists w, []. rewrite app_nil_r. by split_and!. }
  pose proof Hw as [(m & Hm & Hr) (Hd & Hfb & Hga & Hdw & Hdh) Hi (Hp & Hpw & Hph) Hs Hq].
  destruct (should_close_open w Hp ltac:(by eexists)) as (st & -> & Hev).
  pose proof (clear_and_flip (w_gpu w) (w_disp w) m f (clock f) Hm Hr Hd Hfb Hga Hdw Hdh) as Hc. cbv zeta in Hc.
  destruct (GpuStub.submit_xbox (w_gpu w) (clock f) (anim f)) as [ok g]. cbn [snd] in Hc. destruct Hc as [Hg ->].
  cbn [XboxDisplay.frame]. remember (GpuStub.words (Z.to_nat (W * H)) (GpuStub.pixel_word (anim_color f))) as bs eqn:Hbs.
  assert (zlen bs = W * H * 4) as Hlen by (rewrite Hbs, GpuStub.length_words; unfold W, H; lia).
  destruct (upload_frame im (w_win w) st bs Hi Hp Hpw Hph Hs Hlen Hq)
    as (st1 & -> & staged & img & idx & r & Hx1 & Hx2 & Hx3 & Hx4).
  cbn [obind]. destruct (VulkanPresent.poll answers closing _ st1) as [b st2] eqn:Ep.
  assert (VulkanPresent.s_events st2 = VulkanPresent.s_events st1) as He2.
  { pose proof (poll_events (VulkanPresent.count_present (w_win w)) st1) as He. by rewrite Ep in He. }
  match goal with |- context [window_loop n _ ?w2] => destruct (IH (u32 (f + 1)) w2) as (w' & evs & -> & H1 & H2 & H3 & H4 & H5) end.
  { split; cbn [w_gpu w_disp w_win]; [| |exact Hi|by split_and!|done|done].
    - exists (GpuStub.stored m (anim f)). split; [done|by apply stored_ready].
    - split; [|by split_and!]. rewrite Hbs, <- Hga, <- Hdw, <- Hdh. by apply XboxDisplay.cleared_ok. }
  exists w', (VulkanPresent.Submitted staged
                (VulkanPresent.frame_cmds (VulkanPresent.opt (VulkanPresent.p_staging im)) img W H) ::
              VulkanPresent.Presented (VulkanPresent.opt (VulkanPresent.p_swap im)) idx r :: evs).
  split_and!; [done|done| |done| |].
  - rewrite H2. cbn. destruct n; cbn; [done|]. unfold u64. rewrite Zplus_mod_idemp_l. f_equal. lia.
  - rewrite H4. cbn. rewrite He2, Hx3, Hev, <- app_assoc. reflexivity.
  - cbn [frames_shown]. exists staged, img, idx, r, evs. rewrite <- Hbs. by split_and!.
Qed.

(** The loop is made of calls that keep the process in order. *)
Lemma loop_inv L n f w w' :
  VulkanPresent.process_inv L [w_win w] (w_host w) -> window_loop n f w = Ok w' ->
  VulkanPresent.process_inv L [w_win w'] (w_host w').
Proof.
  revert f w. induction n as [|n IH]; intros f w Hw; cbn [window_loop]; [by intros [= <-]|].
  pose proof (VulkanPresent.should_close_inv answers closing L [] (w_win w) [] (w_host w) Hw) as Hs.
  destruct (VulkanPresent.should_close answers closing _ _) as [[] st]; cbn [snd app] in Hs; [by intros [= <-]|].
  destruct (GpuStub.submit_xbox _ _ _) as [? g]. destruct (XboxDisplay.on_flip _ _ _) as [? d].
  destruct (VulkanPresent.upload_and_present _ _ _ _ _ _ _ _ _) as [[[ok win] st1]| |] eqn:E; cbn [obind]; try done.
  pose proof (VulkanPresent.upload_inv answers surf_at acquired presented L [] (w_win w) [] _ _ _ _ _ _ _ E Hs) as Hu.
  destruct ok; [|by intros [= <-]].
  pose proof (VulkanPresent.poll_inv answers closing L [] win [] st1 Hu) as Hp.
  destruct (VulkanPresent.poll answers closing win st1) as [? st2]. by apply IH.
Qed.

Lemma teardown_events o st : VulkanPresent.s_events (VulkanPresent.teardown o st) = VulkanPresent.s_events st.
Proof.
  destruct o as [im|]; [|done]. unfold VulkanPresent.teardown, VulkanPresent.glfw_release.
  destruct (VulkanPresent.p_glfw im); [|done]. by repeat case_if.
Qed.

Lemma framebuffer_set m :
  map_ok m -> is_writable m FB (W * H * 4) = true ->
  XboxDisplay.set_framebuffer XboxDisplay.new_display (Some m) FB W H =
    (true, XboxDisplay.MkDisplay true FB W H [] 0 0 0).
Proof.
  intros Hm Hw. pose proof (GpuStub.readable_of_writable m FB (W * H * 4) Hm Hw) as Hr.
  unfold XboxDisplay.set_framebuffer. change (u64 (u64 (W * H) * XboxDisplay.kBytesPerPixel)) with (W * H * 4).
  rewrite Hr. reflexivity.
Qed.

(** C35. The whole block with an ordinary host: when the frame buffer can be
    committed and the window opens at the size asked for, the block reports as
    many frames as were asked for and no error, the queue received exactly
    those frames in order, every pixel of each in the colour computed for its
    number, and everything the window held is released. *)
Theorem window_shows_every_frame (frames : Z) (g : GpuStub.gpu) (m m1 : memmap) (v : VkLog.vkst) (L : list Z)
    (win : VulkanPresent.VulkanPresenter) (st1 : VulkanPresent.pst) (im : VulkanPresent.Impl) :
  0 <= frames < 2 ^ 32 ->
  GpuStub.gpu_mem g = Some m -> map_reachable m -> commit_range m FB (W * H * 4) = (true, m1) ->
  is_writable m1 FB (W * H * 4) = true -> GpuStub.whole_windows m1 FB (4 * (W * H)) ->
  VkLog.good v L ->
  VulkanPresent.init answers gpus surf_at req VulkanPresent.new_presenter W H (VulkanPresent.MkP v 0 None ∅ []) =
    Ok (true, win, st1) ->
  VulkanPresent.pr_impl win = Some im -> VulkanPresent.p_extent im = (W, H) ->
  (forall n, fst (acquired n) = VulkanPresent.VK_SUCCESS /\
             exists img, VulkanPresent.p_images im !! Z.to_nat (snd (acquired n)) = Some (Some img)) ->
  exists g' st' evs,
    window_block frames g (VulkanPresent.MkP v 0 None ∅ []) = Ok (Some (frames, 0), g', st') /\
    VulkanPresent.s_events st' = VulkanPresent.s_events st1 ++ evs /\ frames_shown im 0 (Z.to_nat frames) evs /\
    VkLog.good (VulkanPresent.s_vk st') L /\ VulkanPresent.g_refs st' = 0.
Proof.
  intros Hf Hg Hm%(reachable_ok Hpage) Hc Hw Hww Hgood Hinit Hi He Hq.
  assert (map_ok m1) as Hm1 by (eapply commit_range_ok; [exact Hpage|exact Hm| |exact Hc]; unfold FB; lia).
  unfold window_block. rewrite Hg, Hc. cbn [snd GpuStub.gpu_mem GpuStub.attach]. rewrite framebuffer_set by done.
  cbn [negb]. rewrite Hinit. cbn [obind].
  destruct (VulkanPresent.init_opened _ _ _ _ _ _ _ _ _ _ Hinit) as (im' & Hi' & Hsz & Hv & Hext & Hp0 & He0).
  rewrite Hi in Hi'. injection Hi' as <-. rewrite He in Hext. injection Hext as Hpw Hph.
  assert (VulkanPresent.process_inv L [win] st1) as Hinv.
  { pose proof (VulkanPresent.init_closed answers gpus surf_at req L [] VulkanPresent.new_presenter []
                  (VulkanPresent.MkP v 0 None ∅ []) W H) as Hx. rewrite Hinit in Hx. apply Hx; [|done].
    split; cbn; try done. by repeat constructor. }
  destruct (loop_shows im (Z.to_nat frames) 0
              (MkWorld (GpuStub.attach g (Some m1)) (XboxDisplay.MkDisplay true FB W H [] 0 0 0) win st1))
    as (w' & evs & E & Hlo & H2 & H3 & H4 & H5).
  { split; cbn [w_gpu w_disp w_win]; [by exists m1| |done| | |done].
    - split; [|done]. split; cbn; unfold W, H, FB, XboxDisplay.kMaxWidth, XboxDisplay.kMaxHeight; try lia; by left.
    - split_and!; [|done|done]. by destruct Hinv as [_ _ _ Ho]; apply Forall_cons in Ho as [? _].
    - rewrite Hsz, need_val. done. }
  pose proof (loop_inv L (Z.to_nat frames) 0 (MkWorld _ _ win st1) w' Hinv E) as Hinv'. rewrite E. cbn [obind].
  pose proof (VulkanPresent.close_all_inv L [w_win w'] (w_host w') Hinv') as [Hc1 Hc2 Hc3 _].
  cbn [VulkanPresent.close_all foldl] in Hc1, Hc2, Hc3. change (VulkanPresent.open_count []) with 0 in Hc2.
  cbn [VulkanPresent.new_presenter VulkanPresent.pr_presents VulkanPresent.pr_errors] in Hp0, He0.
  assert (VulkanPresent.pr_presents (w_win w') = frames) as ->.
  { rewrite H2. cbn [w_win]. rewrite Hp0. destruct (Nat.eqb_spec (Z.to_nat frames) 0); [lia|].
    rewrite Z2Nat.id, u64_small by lia. lia. }
  rewrite H3. cbn [w_win]. rewrite He0. set (st' := snd (VulkanPresent.shutdown _ _)) in *.
  destruct (VulkanPresent.g_lib st') eqn:El; [destruct Hc3 as [Hc3 _]; specialize (Hc3 ltac:(by eexists)); lia|].
  exists (w_gpu w'), st', evs. split_and!; [done| |done|exact Hc1|exact Hc2].
  unfold st', VulkanPresent.shutdown. cbn [snd]. rewrite teardown_events. exact H4.
Qed.

End laws.
End window.

(** ** A window *)

#[local] Existing Instance VulkanPresent.merge_std_sort.

Definition committed : memmap := snd (commit_range reserved FB (W * H * 4)).
Definition demo_process : VulkanPresent.pst := VulkanPresent.demo_proc.
Definition demo_window : VulkanPresent.VulkanPresenter * VulkanPresent.pst :=
  VulkanPresent.unwrap (VulkanPresent.demo_init VulkanPresent.new_presenter W H demo_process).
Definition demo_impl : VulkanPresent.Impl :=
  default (VulkanPresent.new_impl 0 0) (VulkanPresent.pr_impl (fst demo_window)).

Lemma window_shows_every_frame_witness :
  exists g' st' evs,
    window_block VulkanDev.yes VulkanPresent.demo_pgpus VulkanPresent.demo_surface VulkanRes.demo_req
      VulkanPresent.demo_closing VulkanPresent.demo_acquired VulkanPresent.demo_presented (fun f => f)
      2 (GpuStub.new_gpu (Some reserved)) demo_process = Ok (Some (2, 0), g', st') /\
    frames_shown demo_impl 0 2 evs.
Proof.
  destruct (window_shows_every_frame VulkanDev.yes VulkanPresent.demo_pgpus VulkanPresent.demo_surface VulkanRes.demo_req
              VulkanPresent.demo_closing VulkanPresent.demo_acquired VulkanPresent.demo_presented (fun f => f)
              demo_page_bits (fun _ => eq_refl) (fun _ => eq_refl) (fun _ => eq_refl)
              2 (GpuStub.new_gpu (Some reserved)) reserved committed VulkanDev.start []
              (fst demo_window) (snd demo_window) demo_impl) as (g' & st' & evs & H1 & _ & H2 & _).
  - lia.
  - reflexivity.
  - exact reserved_reachable.
  - vm_compute. reflexivity.
  - vm_compute. reflexivity.
  - intros a Ha. vm_compute in Ha. by apply elem_of_nil in Ha.
  - exact VulkanDev.start_good.
  - vm_compute. reflexivity.
  - vm_compute. reflexivity.
  - vm_compute. reflexivity.
  - intros n. split; [reflexivity|]. vm_compute. by eexists.
  - exists g', st', evs. split; [exact H1|exact H2].
Defined.

Lemma frames_argument_is_read_witness :
  main_args [txt "--frames"; txt "120"] = Ok (Some (false, 120)).
Proof. exact (proj1 (frames_argument_is_read 120 ltac:(lia))). Defined.

End MainWindow.
