(* ===== verification/MainData.v ===== *)
(** The file and memory blocks of the demonstration program (src/main.cpp): a
    file of the file system is loaded into guest memory by the asynchronous
    queue while the title waits, guest pages are protected and aliased, and the
    command processor and the display work on the same memory. The general
    statement behind the first block composes Vfs.v, IoQueue.v and MemMap.v: a
    request made of a quiet queue is served before [wait_all] returns, whatever
    the worker thread does. *)
From stdpp Require Import base numbers list gmap strings.
From Stdlib Require Import ZArith Lia.
From S2P Require Import Prelude XbeRam MemMap KrnlPrintf Vfs IoQueue GpuStub XboxDisplay.
Open Scope Z_scope.

Module MainData.
Import MemMap IoQueue.

(** ** The blocks of the program *)

Section blocks.
Context `{os : HostOS}.

Definition kSlowBase : Z := kFastSize.

(** Two pages and a word: what is printed of them. *)
Definition memory_block (m : memmap) : (Z * bool * bool) * memmap :=
  let m := snd (commit_page m 0x1000) in
  let m := snd (commit_page m (kSlowBase + 0x1000)) in
  let m := snd (write32 m 0x1000 0xC0DECAFE) in
  let v := default 0 (read32 m 0x1000) in
  ((v, is_fast 0x1000, is_fast (kSlowBase + 0x1000)), m).

Definition payload : list Z := [9; 8; 7; 6; 5; 4; 3; 2].
Definition hello : list Z := KrnlPrintf.bytes_of "S:\hello.bin".
Definition io_dst : Z := kSlowBase + 0x2000.
Definition io_request : Req := MkReq hello 0 (zlen payload) io_dst 42 Pending.

(** Up to the wait: whether both calls were accepted, and the queue. *)
Definition io_started (m : memmap) : bool * ioq :=
  let fs := snd (Vfs.create_file [] hello payload) in
  let m := snd (commit_page m io_dst) in
  let (ok, q) := enqueue (new_queue m fs) io_request in
  if ok : bool then submit q else (false, q).

(** After the wait. *)
Definition io_landed (ok : bool) (q : ioq) : bool :=
  ok && bool_decide (status q 42 = Done) &&
  match read_bytes (io_mem q) io_dst (zlen payload) with
  | Some got => bool_decide (got = payload)
  | None => false
  end.

(** A page made read-only, made writable again, and mirrored. *)
Definition alias_block (m : memmap) : (bool * bool) * memmap :=
  let m := snd (commit_page m 0x4000) in
  let m := snd (commit_page m 0x5000) in
  let m := snd (write32 m 0x4000 0xBEEF) in
  let m := snd (protect m 0x4000 4096 ReadOnly) in
  let (ok, m) := write32 m 0x4000 1 in
  let m := snd (protect m 0x4000 4096 ReadWrite) in
  let (mapped, m) := alias_map m 0x5000 0x4000 4096 in
  let (aliased, m) := if mapped : bool then write32 m 0x5000 0xCAFE else (false, m) in
  let mirror := aliased && match read32 m 0x4000 with Some av => av =? 0xCAFE | None => false end in
  ((negb ok, mirror), m).

Definition fill_pkt : GpuStub.XboxPacket :=
  GpuStub.MkPacket GpuStub.FillMemory (GpuStub.MkAddr 0x80000 GpuStub.GpuOptimal 4096)
    (GpuStub.MkAddr 0 GpuStub.GpuOptimal 0) 0x58B0C5 (0, 0, 0, 0) 0 0 0.
Definition copy_pkt : GpuStub.XboxPacket :=
  GpuStub.MkPacket GpuStub.CopyMemory (GpuStub.MkAddr (kSlowBase + 0x80000) GpuStub.Standard 1024)
    (GpuStub.MkAddr 0x80000 GpuStub.GpuOptimal 1024) 0 (0, 0, 0, 0) 0 0 0.
Definition fence_pkt : GpuStub.XboxPacket :=
  GpuStub.MkPacket GpuStub.FenceSignal (GpuStub.MkAddr 0 GpuStub.GpuOptimal 0)
    (GpuStub.MkAddr 0 GpuStub.GpuOptimal 0) 0 (0, 0, 0, 0) 0 0 7.
Definition flip_pkt : GpuStub.XboxPacket :=
  GpuStub.MkPacket GpuStub.Flip (GpuStub.MkAddr 0 GpuStub.GpuOptimal 0)
    (GpuStub.MkAddr 0 GpuStub.GpuOptimal 0) 0 (0, 0, 0, 0) 0 0 0.
Definition clear_pkt : GpuStub.XboxPacket :=
  GpuStub.MkPacket GpuStub.ClearRenderTarget (GpuStub.MkAddr 0x80000 GpuStub.GpuOptimal (32 * 32 * 4))
    (GpuStub.MkAddr 0 GpuStub.GpuOptimal 0) 0 (0xFF, 0, 0xFF, 0xFF) 32 32 0.

(** [a && b && ...] over packets: stop at the first refused one. *)
Fixpoint submit_all (g : GpuStub.gpu) (now : Z) (l : list GpuStub.XboxPacket) : bool * GpuStub.gpu :=
  match l with
  | [] => (true, g)
  | p :: l' => let (ok, g) := GpuStub.submit_xbox g now p in
               if ok : bool then submit_all g now l' else (false, g)
  end.

(** The command processor, then the display; [None] when no frame was shown. *)
Definition gpu_block (m : memmap) (now : Z) : bool * option XboxDisplay.display * GpuStub.gpu :=
  let m := snd (commit_range m 0x80000 4096) in
  let m := snd (commit_range m (kSlowBase + 0x80000) 4096) in
  let (ok, g) := submit_all (GpuStub.new_gpu (Some m)) now [fill_pkt; copy_pkt; fence_pkt; flip_pkt] in
  let (set, d) := XboxDisplay.set_framebuffer XboxDisplay.new_display (GpuStub.gpu_mem g) 0x80000 32 32 in
  if set : bool then
    let (cleared, g) := GpuStub.submit_xbox g now clear_pkt in
    if cleared : bool then
      let (shown, d) := XboxDisplay.on_flip d (GpuStub.gpu_mem g) now in
      (ok, if shown : bool then Some d else None, g)
    else (ok, None, g)
  else (ok, None, g).

End blocks.

(** ** A request of a quiet queue *)

Section queue.
Context `{os : HostOS}.

(** What the worker thread does while the title is in [wait_all]. *)
Inductive worker_step (q : ioq) : ioq -> Prop :=
  | ws_take q' : worker_take q = Some q' -> worker_step q q'
  | ws_move q' : worker_move q = Some q' -> worker_step q q'
  | ws_finish q' : worker_finish q = Some q' -> worker_step q q'.

(** No request is pending and the worker waits for the gate. *)
Definition quiet (q : ioq) : Prop :=
  io_worker q = WIdle /\ io_submitted q = false /\ io_stopping q = false /\ pending q = 0.

Lemma worker_step_det q q1 q2 : worker_step q q1 -> worker_step q q2 -> q1 = q2.
Proof.
  unfold worker_take, worker_move, worker_finish.
  destruct 1 as [? H1|? H1|? H1], 1 as [? H2|? H2|? H2]; unfold worker_take, worker_move, worker_finish in *;
    destruct (io_worker q); congruence.
Qed.

(** A deterministic run that has been computed to its end: every run is a
    prefix of it. *)
Lemma run_prefix {A} (R : A -> A -> Prop) (Hdet : forall x y z, R x y -> R x z -> y = z) l :
  forall n x y, nsteps R n x y ->
  (forall i a b, (x :: l) !! i = Some a -> (x :: l) !! S i = Some b -> R a b) ->
  (forall a b, last (x :: l) = Some a -> ~ R a b) -> (x :: l) !! n = Some y.
Proof.
  induction l as [|z l IH]; intros n x y Hr Hc He; inversion Hr as [|n' ? z' ? Hxz Hzy]; subst; try done.
  - by destruct (He x z').
  - assert (z' = z) as -> by (eapply Hdet; [exact Hxz|]; by apply (Hc 0%nat)).
    cbn. apply IH; [done| |].
    + intros i a b Ha Hb. by apply (Hc (S i)).
    + intros a b Ha. by apply He.
Qed.

Lemma find_tag_app l tag x :
  existsb (fun r => q_tag r =? tag) l = false -> q_tag x = tag -> find_tag (l ++ [x]) tag = Some x.
Proof.
  intros Hl Hx. induction l as [|a l IH]; cbn in *; [by rewrite Hx, Z.eqb_refl|].
  apply orb_false_iff in Hl as [-> Hl]. by apply IH.
Qed.

Lemma take_first_app l x :
  count_status Pending l = 0 -> q_status x = Pending ->
  take_first (l ++ [x]) = Some (set_status InFlight x, l ++ [set_status InFlight x]).
Proof.
  intros Hl Hx. induction l as [|a l IH]; cbn.
  - unfold is_status. by rewrite bool_decide_true.
  - rewrite count_status_cons in Hl. pose proof (count_status_nonneg Pending l).
    destruct (is_status Pending a); [lia|]. by rewrite IH by lia.
Qed.

Lemma finish_first_app l x s :
  count_status InFlight l = 0 -> q_status x = InFlight ->
  finish_first (l ++ [x]) (q_tag x) s = l ++ [set_status s x].
Proof.
  intros Hl Hx. induction l as [|a l IH]; cbn.
  - unfold is_status. by rewrite Z.eqb_refl, bool_decide_true.
  - rewrite count_status_cons in Hl. pose proof (count_status_nonneg InFlight l).
    destruct (is_status InFlight a); [lia|]. rewrite andb_false_r. by rewrite IH by lia.
Qed.

(** The four states of the queue around one request. *)
Section one_request.
Context (q : ioq) (r : Req) (Hinv : io_inv q) (Hquiet : quiet q)
        (Hok : request_ok q r = true) (Htag : known_tag q (q_tag r) = false).

Definition result : bool * memmap := transfer (io_mem q) (io_vfs q) r.
Definition waiting_q : ioq := with_submitted (with_reqs q (io_reqs q ++ [set_status Pending r])) true.
Definition taken_q : ioq :=
  with_worker (with_reqs waiting_q (io_reqs q ++ [set_status InFlight r])) (io_inflight q + 1)
    (WTaken (set_status InFlight r)).
Definition moved_q : ioq :=
  with_world (with_worker taken_q (io_inflight q + 1) (WMoved (set_status InFlight r) (fst result)))
    (snd result) (io_vfs q).
Definition served_q : ioq :=
  with_submitted (with_worker (with_reqs moved_q
      (io_reqs q ++ [set_status (if fst result then Done else Error) r])) (io_inflight q + 1 - 1) WIdle) false.

Lemma quiet_counts :
  io_inflight q = 0 /\ count_status InFlight (io_reqs q) = 0 /\ count_status Pending (io_reqs q) = 0.
Proof.
  destruct Hquiet as (Hw & _ & _ & Hp). pose proof (inv_worker q Hinv) as Ha. unfold worker_agrees in Ha.
  rewrite Hw in Ha. by destruct Ha.
Qed.

Lemma accepted :
  enqueue q r = (true, with_reqs q (io_reqs q ++ [set_status Pending r])) /\
  submit (with_reqs q (io_reqs q ++ [set_status Pending r])) = (true, waiting_q).
Proof.
  destruct quiet_counts as (Hn & Hf & Hp). destruct Hquiet as (_ & Hs & _ & _).
  split.
  - unfold enqueue. rewrite Hok, Htag. unfold slots_in_use, pending. rewrite Hp, Hn. cbn [negb Z.add Z.leb kCapacity].
    unfold push, pending. cbn [io_reqs with_reqs io_auto io_submitted]. rewrite pending_push, Hp, andb_comm.
    change (kCapacity <=? 0) with false. cbn iota. by rewrite andb_comm, andb_false_r.
  - unfold submit, pending. cbn [io_submitted with_reqs io_reqs]. by rewrite Hs, pending_push, Hp.
Qed.

Lemma served_in_three_steps :
  worker_step waiting_q taken_q /\ worker_step taken_q moved_q /\ worker_step moved_q served_q /\
  forall q', ~ worker_step served_q q'.
Proof.
  destruct quiet_counts as (Hn & Hf & Hp). destruct Hquiet as (Hw & Hs & Hst & _). split_and!.
  - apply ws_take. unfold worker_take. cbn [io_worker waiting_q with_submitted with_reqs io_stopping io_submitted io_reqs].
    rewrite Hw, Hst. cbn [orb negb]. by rewrite take_first_app.
  - apply ws_move. unfold worker_move. cbn [io_worker taken_q with_worker io_mem io_vfs waiting_q with_submitted with_reqs].
    change (transfer (io_mem q) (io_vfs q) (set_status InFlight r)) with result.
    unfold moved_q. by destruct result.
  - apply ws_finish. unfold worker_finish.
    cbn [io_worker moved_q with_world with_worker io_reqs taken_q with_reqs waiting_q with_submitted].
    rewrite finish_first_app by done. unfold pending. cbn [io_reqs with_worker with_reqs].
    rewrite count_status_app, Hp. unfold served_q. by destruct (fst result).
  - intros q'. inversion 1 as [? E|? E|? E]; [|done..].
    unfold worker_take in E. cbn in E. by rewrite Hst in E.
Qed.

Lemma runs_of_the_worker n q' :
  nsteps worker_step n waiting_q q' -> [waiting_q; taken_q; moved_q; served_q] !! n = Some q'.
Proof.
  destruct served_in_three_steps as (S1 & S2 & S3 & S4). intros Hr.
  apply (run_prefix worker_step worker_step_det); [done| |by intros ? ? [= <-]].
  intros [|[|[|[|i]]]] a b; cbn; intros Ha Hb; simplify_eq; done.
Qed.

(** [wait_all] returns exactly when the request has been served, and until then
    the worker has a step to take. *)
Lemma ready_at_the_end q' :
  rtc worker_step waiting_q q' ->
  if wait_all_ready q' then q' = served_q else exists q'', worker_step q' q''.
Proof.
  destruct quiet_counts as (Hn & Hf & Hp). destruct served_in_three_steps as (S1 & S2 & S3 & _).
  assert (wait_all_ready waiting_q = false /\ wait_all_ready taken_q = false /\ wait_all_ready moved_q = false /\
          wait_all_ready served_q = true) as (W1 & W2 & W3 & W4).
  { unfold wait_all_ready, pending. cbn. rewrite Hn, pending_push, Hp. done. }
  intros [n Hr%runs_of_the_worker]%rtc_nsteps. destruct n as [|[|[|[|n]]]]; cbn in Hr; simplify_eq;
    [rewrite W1|rewrite W2|rewrite W3|rewrite W4]; eauto.
Qed.

Lemma status_served : status served_q (q_tag r) = (if fst result then Done else Error).
Proof. unfold status. cbn [served_q io_reqs with_submitted with_worker with_reqs]. by rewrite find_tag_app. Qed.

End one_request.

(** ** What the transfer does *)

Definition slice (e : list Z) (r : Req) : list Z :=
  take (Z.to_nat (q_size r)) (drop (Z.to_nat (q_off r)) e).

(** The file has the part asked for and the destination can be written. *)
Definition possible (m : memmap) (files : gmap (list Z) (list Z)) (r : Req) : option (list Z) :=
  match files !! q_path r with
  | Some e => if bool_decide (q_off r + q_size r <= zlen e) && is_writable m (q_dest r) (q_size r)
              then Some (slice e r) else None
  | None => None
  end.

Lemma transfer_exact m v files r :
  Vfs.vfs_rep v files -> 0 <= q_off r -> 0 < q_size r ->
  transfer m v r =
    match possible m files r with
    | Some d => (true, set_mbytes m (mem_write (m_bytes m) (resolve_alias m (q_dest r) (q_size r)) d))
    | None => (false, m)
    end /\
  (forall d, possible m files r = Some d -> zlen d = q_size r).
Proof.
  intros Hv Ho Hn. unfold transfer, possible. rewrite (Vfs.slice_refines _ _ _ _ _ Hv Ho) by lia.
  destruct (files !! q_path r) as [e|]; [|done].
  case_bool_decide as H1; case_bool_decide as H2; try lia; [|done].
  assert (zlen (slice e r) = q_size r) as Hl by (unfold slice; rewrite length_take, length_drop; lia).
  unfold write_bytes. change (take _ _) with (slice e r). rewrite Hl, (proj2 (Z.eqb_neq _ 0)) by lia.
  cbn [orb andb]. destruct (is_writable m _ _); cbn [negb]; split; try done. by intros d [= <-].
Qed.

End queue.

Section laws.
Context `{os : HostOS}.

(** C25. A file request made of a quiet queue and submitted is served while the
    title waits: the worker always has a step to take until [wait_all] can
    return, it takes at most three, and when [wait_all] returns the status is
    Done and the destination holds the part of the file asked for, if the file
    has it and the destination is writable; otherwise the status is Error and
    guest memory is as it was. *)
Theorem file_request_lands (q : ioq) (r : Req) (files : gmap (list Z) (list Z)) :
  io_reachable q -> quiet q -> map_ok (io_mem q) -> Vfs.vfs_rep (io_vfs q) files ->
  request_ok q r = true -> known_tag q (q_tag r) = false ->
  0 <= q_off r -> 0 < q_size r ->
  exists q1 q2, enqueue q r = (true, q1) /\ submit q1 = (true, q2) /\
    (forall n q', nsteps worker_step n q2 q' -> (n <= 3)%nat) /\
    forall q', rtc worker_step q2 q' ->
      if wait_all_ready q' then
        match possible (io_mem q) files r with
        | Some d => status q' (q_tag r) = Done /\ read_bytes (io_mem q') (q_dest r) (q_size r) = Some d
        | None => status q' (q_tag r) = Error /\ io_mem q' = io_mem q
        end
      else exists q'', worker_step q' q''.
Proof.
  intros Hr%io_reachable_inv Hq Hm Hv Hok Htag Ho Hn.
  destruct (accepted q r Hr Hq Hok Htag) as [He Hs]. eexists _, _. split; [exact He|]. split; [exact Hs|]. split.
  { intros n q' Hn'%runs_of_the_worker%lookup_lt_Some; [|done..]. cbn in Hn'. lia. }
  intros q' Hrun%ready_at_the_end; [|done..]. destruct (wait_all_ready q'); [subst q'|done].
  rewrite status_served by done. unfold result. change (io_mem (served_q q r)) with (snd (transfer (io_mem q) (io_vfs q) r)).
  destruct (transfer_exact (io_mem q) _ _ r Hv Ho Hn) as [-> Hl].
  destruct (possible (io_mem q) files r) as [d|] eqn:Ep; [|done]. split; [done|]. cbn [fst snd].
  assert (is_writable (io_mem q) (q_dest r) (q_size r) = true) as Hw.
  { revert Ep. unfold possible. destruct (files !! _) as [e|]; [|done]. case_bool_decide; cbn [andb]; [|done].
    by destruct (is_writable _ _ _). }
  unfold read_bytes. change (is_readable (set_mbytes ?m ?b)) with (is_readable m).
  change (resolve_alias (set_mbytes ?m ?b)) with (resolve_alias m). cbn [m_bytes set_mbytes].
  rewrite (GpuStub.readable_of_writable _ _ _ Hm Hw), (proj2 (Z.eqb_neq _ 0)) by lia. cbn [orb negb].
  f_equal. etransitivity; [|apply (mem_read_write (m_bytes (io_mem q)))]. by rewrite (Hl d eq_refl).
Qed.

End laws.

(** ** The program's own run *)

Definition after_memory : memmap := snd (memory_block reserved).
Definition first_queue : ioq :=
  new_queue (snd (commit_page after_memory io_dst)) (snd (Vfs.create_file [] hello payload)).

Lemma first_queue_quiet : quiet first_queue.
Proof. done. Qed.

Lemma first_files : Vfs.vfs_rep (io_vfs first_queue) {[hello := payload]}.
Proof.
  split; [apply (NoDup_singleton hello)|by vm_compute|].
  intros p d H. apply lookup_singleton_Some in H as [<- <-]. split; [by vm_compute|vm_compute; discriminate].
Qed.

Lemma first_map_ok : map_ok (io_mem first_queue).
Proof.
  apply (reachable_ok demo_page_bits).
  assert (H : forall m g, 0 <= g -> map_reachable m -> map_reachable (snd (commit_page m g))).
  { intros m g Hg Hm. destruct (commit_page m g) eqn:E. eapply mr_step; [done|]. by eapply st_commit_page. }
  apply H; [done|]. cbn [after_memory memory_block snd].
  destruct (write32 _ _ _) as [ok m] eqn:E. eapply mr_step; [|by eapply st_write].
  do 2 (apply H; [done|]). apply reserved_reachable.
Qed.

Lemma file_request_lands_witness :
  exists q1 q2, enqueue first_queue io_request = (true, q1) /\ submit q1 = (true, q2) /\
    forall q', rtc worker_step q2 q' -> wait_all_ready q' = true ->
      status q' 42 = Done /\ read_bytes (io_mem q') io_dst 8 = Some payload.
Proof.
  destruct (file_request_lands first_queue io_request {[hello := payload]}) as (q1 & q2 & H1 & H2 & _ & H3).
  - apply io_new.
  - exact first_queue_quiet.
  - exact first_map_ok.
  - exact first_files.
  - vm_compute. reflexivity.
  - reflexivity.
  - done.
  - done.
  - exists q1, q2. split; [exact H1|]. split; [exact H2|]. intros q' Hr Hw. specialize (H3 q' Hr).
    rewrite Hw in H3. assert (possible (io_mem first_queue) {[hello := payload]} io_request = Some payload) as E
      by (vm_compute; reflexivity). rewrite E in H3. exact H3.
Defined.

(** The memory block prints the word it wrote and the pools of its two pages. *)
Example memory_block_prints : fst (memory_block reserved) = (0xC0DECAFE, true, false).
Proof. vm_compute. reflexivity. Qed.

(** Whatever the worker does, once [wait_all] returns the file has landed, the
    store to the read-only page was refused, and the alias shows the word. *)
Example io_block_prints q' :
  rtc worker_step (snd (io_started after_memory)) q' -> wait_all_ready q' = true ->
  io_landed (fst (io_started after_memory)) q' = true /\ fst (alias_block (io_mem q')) = (true, true).
Proof.
  assert (snd (io_started after_memory) = waiting_q first_queue io_request) as -> by (vm_compute; reflexivity).
  intros Hr%ready_at_the_end Hw; [|apply io_reachable_inv, io_new|exact first_queue_quiet].
  rewrite Hw in Hr. subst q'. vm_compute. done.
Qed.

(** Fill, copy, fence and flip are accepted, and the cleared frame is shown
    once, magenta. *)
Example gpu_block_prints :
  let '(ok, d, g) := gpu_block after_memory 5 in
  ok = true /\ GpuStub.gpu_signalled g = 7 /\
  (XboxDisplay.frames_presented <$> d) = Some 1 /\
  (d ≫= fun d => match XboxDisplay.pixel d 31 31 with Ok p => p | _ => None end) = Some 0xFFFF00FF.
Proof. vm_compute. done. Qed.

End MainData.
