(* ===== verification/MainVulkan.v ===== *)
(** The Vulkan blocks of the demonstration program (src/main.cpp): device,
    memory, buffers, an image and a batch are created, used and released in one
    function. The blocks compose VulkanDev.v, VulkanRes.v and GpuBatch.v; the
    theorem is that every path through them releases what it created. *)
From stdpp Require Import base numbers list gmap strings.
From Stdlib Require Import ZArith Lia.
From S2P Require Import Prelude XbeRam MemMap GpuStub VkLog GpuBatch VulkanDev VulkanRes.
Open Scope Z_scope.

Module MainVulkan.
Import VkLog VulkanDev VulkanRes.

Definition USAGE_TRANSFER_DST : Z := 2.
Definition USAGE_UNIFORM : Z := 0x10.
Definition MiB : Z := Z.shiftl 1 20.

(** The buffer as the batch sees it. *)
Definition as_batch (b : VulkanBuffer) : GpuBatch.VulkanBuffer :=
  GpuBatch.MkBuf (handle (vb_buf b)) (vb_size b) (vb_fast b) (vb_valid b).

Definition root_layout : list GpuBatch.RootParam :=
  [GpuBatch.MkRoot GpuBatch.Constants32 2; GpuBatch.MkRoot GpuBatch.Cbv 1].

Section block.
Context (answers : nat -> bool) (gpus : list host_gpu) (req : Z -> Z * Z)
        (mapped : list gcmd -> Z -> list Z) (readback : list Z -> list Z).

(** ** The blocks *)

(** The heap report: [None] when the query fails. *)
Definition heaps_block (v : vkst) : option (VulkanHeapInfo * bool) * vkst :=
  let '(ok, h, v) := query_vulkan_heaps answers gpus v in
  (if ok : bool then Some (h, xbox_split_fits h) else None, v).

(** Plain allocations, written and read through their mappings. *)
Definition alloc_block (d : VulkanDev) (v : vkst) : (bool * bool * option bool * option bool) * vkst :=
  let (fast_mem, v) := vulkan_alloc answers d v in
  let (slow_mem, v) := vulkan_alloc answers d v in
  let (slow_rw, v) :=
    match slow_mem with
    | Some m => let (r, v) := vulkan_write_read answers readback d v m (16 * MiB) (d_slow d) 0xA5A50000 in (Some r, v)
    | None => (None, v)
    end in
  let (fast_rw, v) :=
    match fast_mem with
    | Some m => if d_mappable d
                then let (r, v) := vulkan_write_read answers readback d v m (64 * MiB) (d_fast d) 0xC0DE0000 in (Some r, v)
                else (None, v)
    | None => (None, v)
    end in
  ((bool_decide (is_Some fast_mem), bool_decide (is_Some slow_mem), slow_rw, fast_rw),
   vk_destroy (vk_destroy v "memory" fast_mem) "memory" slow_mem).

(** Two buffers: a fill that is read back, and a fill that is copied. *)
Definition buffer_block (d : VulkanDev) (st : gst) : (option bool * option bool) * gst :=
  let (slow_buf, st) := vulkan_buffer_create answers req d st MiB false USAGE_TRANSFER_DST in
  let (fast_buf, st) := vulkan_buffer_create answers req d st MiB true USAGE_TRANSFER_DST in
  let (verified, st) :=
    match slow_buf with
    | Some s =>
        let (filled, st) := vulkan_buffer_fill_gpu answers d st s 0xDEADBEEF in
        let (ok, st) := if filled : bool then vulkan_buffer_verify_mapped answers mapped d st s 0xDEADBEEF else (false, st) in
        (Some ok, st)
    | None => (None, st)
    end in
  let (copied, st) :=
    match slow_buf, fast_buf with
    | Some s, Some f =>
        let (ok, st) := vulkan_buffer_fill_gpu answers d st f 0x12340000 in
        let (ok, st) := if ok : bool then vulkan_buffer_copy answers d st s f else (false, st) in
        let (ok, st) := if ok : bool then vulkan_buffer_verify_mapped answers mapped d st s 0x12340000 else (false, st) in
        (Some ok, st)
    | _, _ => (None, st)
    end in
  let st := match slow_buf with Some s => snd (vulkan_buffer_destroy s st) | None => st end in
  let st := match fast_buf with Some f => snd (vulkan_buffer_destroy f st) | None => st end in
  ((verified, copied), st).

(** An image, cleared, copied to a buffer and read back. The colour is given by
    its RGBA8 value. *)
Definition image_block (d : VulkanDev) (st : gst) : option (bool * Z) * gst :=
  let (img, st) := vulkan_image_create_2d answers req d st 512 512 R8G8B8A8_UNORM true in
  let (stage, st) :=
    match img with
    | Some _ => vulkan_buffer_create answers req d st MiB false USAGE_TRANSFER_DST
    | None => (None, st)
    end in
  let im := default no_img img in
  let '(result, im, st) :=
    match stage with
    | Some b =>
        let '(ok, im, st) := vulkan_image_clear_color answers d st im 0xFFFF00FF in
        let '(ok, im, st) := if ok : bool then vulkan_image_copy_to_buffer answers d st im b else (false, im, st) in
        let (ok, st) := if ok : bool then vulkan_buffer_verify_mapped answers mapped d st b 0xFFFF00FF else (false, st) in
        (Some (ok, im_layout im), im, st)
    | None => (None, im, st)
    end in
  let st := snd (vulkan_buffer_destroy (default no_buf stage) st) in
  (result, snd (vulkan_image_destroy im st)).

(** The calls of the batch up to its submission, stopping at the first that
    fails. *)
Definition batch_calls (d : VulkanDev) (a b : VulkanBuffer) (v : vkst)
  : outcome (bool * GpuBatch.batch * vkst * option GpuStub.gpu) :=
  let log := Some (GpuStub.new_gpu None) in
  let '(ok, k, v) := GpuBatch.init answers GpuBatch.new_batch v (d_valid d) root_layout in
  if negb ok then Ok (false, k, v, log) else
  let! (ok, k) := GpuBatch.push k 0 (Some [7; 8]) 2 in
  if negb ok then Ok (false, k, v, log) else
  let (ok, v) := GpuBatch.bind k v 1 (as_batch a) in
  if negb ok then Ok (false, k, v, log) else
  let '(ok, k, v) := GpuBatch.begin answers k v in
  if negb ok then Ok (false, k, v, log) else
  let (ok, v) := GpuBatch.copy k v (as_batch b) (as_batch a) in
  if negb ok then Ok (false, k, v, log) else
  Ok (GpuBatch.submit answers k v log).

(** A submitted batch adds its copy to what the queue accepted. The batch is
    shut down when it goes out of scope. *)
Definition batch_part (d : VulkanDev) (a b : VulkanBuffer) (st : gst) : outcome ((bool * Z * Z) * gst) :=
  let! (ok, k, v, log) := batch_calls d a b (s_vk st) in
  let st := MkG v (if ok : bool then s_sent st ++ [CCopy (handle (vb_buf a)) (handle (vb_buf b)) (vb_size a)] else s_sent st)
                (s_lost st) in
  let (ok, st) := if ok : bool then vulkan_buffer_verify_mapped answers mapped d st b 0xB47C4000 else (false, st) in
  Ok ((ok, GpuBatch.b_submits k, GpuBatch.b_fence k), with_vk st (snd (GpuBatch.shutdown k (s_vk st)))).

Definition batch_block (d : VulkanDev) (st : gst) : outcome (option (bool * Z * Z) * gst) :=
  let (ba, st) := vulkan_buffer_create answers req d st (Z.shiftl 1 16) false USAGE_UNIFORM in
  let (bb, st) :=
    match ba with
    | Some _ => vulkan_buffer_create answers req d st (Z.shiftl 1 16) false USAGE_UNIFORM
    | None => (None, st)
    end in
  let! (r, st) :=
    match ba, bb with
    | Some a, Some b =>
        let (filled, st) := vulkan_buffer_fill_gpu answers d st a 0xB47C4000 in
        if filled : bool then let! (r, st) := batch_part d a b st in Ok (Some r, st) else Ok (None, st)
    | _, _ => Ok (None, st)
    end in
  let st := snd (vulkan_buffer_destroy (default no_buf ba) st) in
  Ok (r, snd (vulkan_buffer_destroy (default no_buf bb) st)).

(** The whole block; [None] when there is no device. *)
Definition vulkan_block (v : vkst) : outcome (option gst * VulkanDev * vkst) :=
  let '(ok, d, v) := vulkan_dev_init answers gpus v in
  if ok : bool then
    let (_, v) := alloc_block d v in
    let (_, st) := buffer_block d (MkG v [] false) in
    let (_, st) := image_block d st in
    let! (_, st) := batch_block d st in
    let (d, v) := vulkan_dev_shutdown d (s_vk st) in
    Ok (Some st, d, v)
  else Ok (None, d, v).

(** ** What each block leaves *)

(** A user of the device who holds these buffers and images, beside [L]. *)
Notation holds L bufs imgs st := (client_inv L (MkClient bufs imgs st)).

Lemma write_read_good d v mem size t p L :
  good v L -> mem ∈ L -> good (snd (vulkan_write_read answers readback d v mem size t p)) L.
Proof.
  intros Hg Hm. unfold vulkan_write_read. destruct (_ <=? _); [done|]. destruct (negb _); [done|].
  assert (forall v name data, good v L -> good (log_call v (Use name [mem] data)) L) as Huse.
  { intros v0 name data Hv. eapply good_use; [exact Hv|done|]. set_solver. }
  pose proof (good_call answers v L (Use "vkMapMemory" [mem] [size]) [mem] Hg eq_refl ltac:(set_solver)) as H1.
  destruct (vk_call answers v _) as [[] v1]; cbn [snd negb] in *; [|done].
  destruct (coherent _); cbn [snd]; auto.
Qed.

Lemma alloc_block_good d v L : good v L -> good (snd (alloc_block d v)) L.
Proof.
  intros Hg. unfold alloc_block.
  assert (Ha : forall v L, good v L -> let (m, v') := vulkan_alloc answers d v in good v' (opt_list m ++ L)).
  { intros v0 L0 H0. unfold vulkan_alloc. destruct (negb _); [done|].
    pose proof (good_create answers v0 L0 "memory" H0) as H. by destruct (vk_create answers v0 "memory") as [[m|] v']. }
  pose proof (Ha _ _ Hg) as H1. destruct (vulkan_alloc answers d v) as [fast v1].
  pose proof (Ha _ _ H1) as H2. destruct (vulkan_alloc answers d v1) as [slow v2]. clear Ha H1 Hg.
  match goal with |- context [match slow with Some m => @?A m | None => _ end] =>
    assert (H3 : good (snd (match slow with Some m => A m | None => (None, v2) end)) (opt_list slow ++ opt_list fast ++ L)) end.
  { destruct slow as [m|]; [|done]. pose proof (write_read_good d v2 m (16 * MiB) (d_slow d) 0xA5A50000 _ H2 ltac:(left)).
    by destruct (vulkan_write_read answers readback d v2 m _ _ _). }
  destruct (match slow with Some m => _ | None => _ end) as [slow_rw v3]. cbn [snd] in H3.
  match goal with |- context [match fast with Some m => @?A m | None => _ end] =>
    assert (H4 : good (snd (match fast with Some m => A m | None => (None, v3) end)) (opt_list slow ++ opt_list fast ++ L)) end.
  { destruct fast as [m|]; [|done]. destruct (d_mappable d); [|done].
    pose proof (write_read_good d v3 m (64 * MiB) (d_fast d) 0xC0DE0000 _ H3 ltac:(set_solver)).
    by destruct (vulkan_write_read answers readback d v3 m _ _ _). }
  destruct (match fast with Some m => _ | None => _ end) as [fast_rw v4]. cbn [snd] in *.
  do 2 apply good_destroy_opt. eapply good_proper; [done| |exact H4]. solve_Permutation.
Qed.

(** The operations on what is held, as steps of the user. *)
Lemma holds_fill L d bufs imgs st b p :
  holds L bufs imgs st -> b ∈ bufs -> holds L bufs imgs (snd (vulkan_buffer_fill_gpu answers d st b p)).
Proof. intros H Hb. revert H. apply (client_step answers req mapped d). by apply st_fill. Qed.

Lemma holds_copy L d bufs imgs st a b :
  holds L bufs imgs st -> a ∈ bufs -> b ∈ bufs -> holds L bufs imgs (snd (vulkan_buffer_copy answers d st a b)).
Proof. intros H Ha Hb. revert H. apply (client_step answers req mapped d). by apply st_copy. Qed.

Lemma holds_verify L d bufs imgs st b p :
  holds L bufs imgs st -> b ∈ bufs -> holds L bufs imgs (snd (vulkan_buffer_verify_mapped answers mapped d st b p)).
Proof. intros H Hb. by apply (inv_verify answers req mapped L d). Qed.

Lemma holds_create L d bufs imgs st size fast usage :
  holds L bufs imgs st -> let (r, st') := vulkan_buffer_create answers req d st size fast usage in
  holds L (option_list r ++ bufs) imgs st'.
Proof. intros H. destruct (vulkan_buffer_create _ _ _ _ _ _ _) eqn:E. by apply (inv_create_buf answers req L d _ _ _ _ _ _ _ _ E). Qed.

Lemma destroy_nothing st : snd (vulkan_buffer_destroy no_buf st) = st /\ snd (vulkan_image_destroy no_img st) = st.
Proof. by destruct st. Qed.

Lemma holds_destroy L b bufs imgs st :
  holds L (b :: bufs) imgs st -> holds L bufs imgs (snd (vulkan_buffer_destroy b st)).
Proof. apply (inv_destroy_buf L []). Qed.

Lemma holds_destroy_next L a b bufs imgs st :
  holds L (a :: b :: bufs) imgs st -> holds L (a :: bufs) imgs (snd (vulkan_buffer_destroy b st)).
Proof. apply (inv_destroy_buf L [a]). Qed.

(** Run the next operation of a block and keep what is held. *)
Ltac op lemma H :=
  let H' := fresh "H" in
  pose proof lemma as H';
  match type of H' with
  | client_inv _ (MkClient _ _ (snd ?e)) => destruct e as [[] ?]; cbn [snd] in H'; clear H; rename H' into H
  end.

Lemma buffer_block_releases d st L : holds L [] [] st -> holds L [] [] (snd (buffer_block d st)).
Proof.
  intros H. unfold buffer_block.
  pose proof (holds_create L d [] [] st MiB false USAGE_TRANSFER_DST H) as H1.
  destruct (vulkan_buffer_create _ _ _ _ _ _ _) as [slow st1].
  pose proof (holds_create L d _ [] st1 MiB true USAGE_TRANSFER_DST H1) as H2.
  destruct (vulkan_buffer_create _ _ _ _ _ _ _) as [fast st2]. clear H H1.
  match goal with |- context [match slow with Some s => @?A s | None => (None, st2) end] =>
    assert (H3 : holds L (option_list fast ++ option_list slow ++ []) []
                   (snd (match slow with Some s => A s | None => (None, st2) end))) end.
  { destruct slow as [s|]; [|done].
    op (holds_fill L d _ [] st2 s 0xDEADBEEF H2 ltac:(set_solver)) H2; [|done].
    by op (holds_verify L d _ [] g s 0xDEADBEEF H2 ltac:(set_solver)) H2. }
  destruct (match slow with Some s => _ | None => _ end) as [verified st3]. cbn [snd] in H3.
  match goal with |- context [let (copied, st) := ?e in _] =>
    assert (H4 : holds L (option_list fast ++ option_list slow ++ []) [] (snd e)) end.
  { destruct slow as [s|]; [|done]. destruct fast as [f|]; [|done].
    op (holds_fill L d _ [] st3 f 0x12340000 H3 ltac:(set_solver)) H3; [|done].
    op (holds_copy L d _ [] g s f H3 ltac:(set_solver) ltac:(set_solver)) H3; [|done].
    by op (holds_verify L d _ [] g0 s 0x12340000 H3 ltac:(set_solver)) H3. }
  match goal with |- context [let (copied, st) := ?e in _] => destruct e as [copied st4] end. cbn [snd] in *.
  destruct slow as [s|], fast as [f|]; cbn in H4; [|by apply holds_destroy|by apply holds_destroy|done].
  by apply holds_destroy, holds_destroy_next.
Qed.

Lemma image_block_releases d st L : holds L [] [] st -> holds L [] [] (snd (image_block d st)).
Proof.
  intros H. unfold image_block.
  destruct (vulkan_image_create_2d _ _ _ _ _ _ _ _) as [img st1] eqn:E.
  pose proof (inv_create_img answers req L d _ _ _ _ _ _ _ _ _ E H) as H1. clear E H.
  destruct img as [im|]; [|by destruct st1]. cbn [option_list app] in H1.
  pose proof (holds_create L d [] [im] st1 MiB false USAGE_TRANSFER_DST H1) as H2.
  destruct (vulkan_buffer_create _ _ _ _ _ _ _) as [[b|] st2]; clear H1; cbn [option_list app default] in *.
  2:{ apply (inv_destroy_img L [] [] im []). by rewrite (proj1 (destroy_nothing st2)). }
  destruct (vulkan_image_clear_color _ _ _ _ _) as [[ok im1] st3] eqn:E.
  apply (client_step answers req mapped d L _ _ (st_clear answers req mapped d [b] [] im [] _ _ _ _ _ E)) in H2.
  clear E. cbn [app] in H2.
  assert (exists ok2 im2 st4, (if ok then vulkan_image_copy_to_buffer answers d st3 im1 b else (false, im1, st3)) =
            (ok2, im2, st4) /\ holds L [b] [im2] st4) as (ok' & im2 & st4 & -> & H3).
  { destruct ok; [|eauto]. destruct (vulkan_image_copy_to_buffer _ _ _ _ _) as [[ok' im2] st4] eqn:E.
    exists ok', im2, st4. split; [done|].
    by apply (client_step answers req mapped d L _ _ (st_copy_out answers req mapped d [b] [] im1 [] _ b _ _ _ ltac:(left) E)) in H2. }
  clear H2. destruct ok'; [op (holds_verify L d [b] [im2] st4 b 0xFFFF00FF H3 ltac:(left)) H3|]; cbn [snd];
    apply (inv_destroy_img L [] [] im2 []), holds_destroy, H3.
Qed.

(** *** The batch *)

(** Handles are given out in increasing order. *)
Definition later (v v' : vkst) : Prop := vk_next v <= vk_next v'.

Lemma destroy_later v kind h : vk_next (vk_destroy v kind h) = vk_next v.
Proof. by destruct h. Qed.

Lemma batch_shutdown_later k v : later v (snd (GpuBatch.shutdown k v)).
Proof. unfold later, GpuBatch.shutdown, GpuBatch.destroy_pool. destruct (GpuBatch.b_dev k); cbn [snd]; rewrite ?destroy_later; lia. Qed.

Lemma pipeline_later k v push bindings : later v (snd (GpuBatch.init_pipeline answers k v push bindings)).
Proof.
  unfold later, GpuBatch.init_pipeline. pose proof (create_next answers v "pipeline_layout") as H.
  destruct (vk_create answers v "pipeline_layout") as [[h|] v1]; cbn [snd] in *; [done|].
  unfold GpuBatch.fail_init. match goal with |- context [GpuBatch.shutdown ?k ?w] =>
    pose proof (batch_shutdown_later k w) as H2; destruct (GpuBatch.shutdown k w) end.
  unfold later in H2. cbn [snd] in *. lia.
Qed.

Lemma batch_init_later k v dv ps : later v (snd (GpuBatch.init answers k v dv ps)).
Proof.
  unfold GpuBatch.init. pose proof (batch_shutdown_later k v) as H0. destruct (GpuBatch.shutdown k v) as [k0 v0].
  cbn [snd] in H0. destruct (_ || _); [done|]. destruct (GpuBatch.count_params ps 0 0) as [[n m]|]; [|done].
  destruct (_ || _); [done|]. set (k1 := GpuBatch.MkBatch _ _ _ _ _ _ _ _ _ _ _ _ _ _ _). clearbody k1.
  unfold GpuBatch.init_sets, later in *. destruct (m =? 0).
  { pose proof (pipeline_later k1 v0 n m). unfold later in *. lia. }
  assert (Hf : forall k w, vk_next w <= vk_next (snd (GpuBatch.fail_init k w))).
  { intros k' w. unfold GpuBatch.fail_init. pose proof (batch_shutdown_later k' w) as H.
    by destruct (GpuBatch.shutdown k' w). }
  pose proof (create_next answers v0 "set_layout") as H1.
  destruct (vk_create answers v0 "set_layout") as [[l|] v1]; cbn [snd] in H1; [|etransitivity; [|apply Hf]; lia].
  pose proof (create_next answers v1 "pool") as H2.
  destruct (vk_create answers v1 "pool") as [[q|] v2]; cbn [snd] in H2; [|etransitivity; [|apply Hf]; lia].
  unfold GpuBatch.alloc_set. match goal with |- context [vk_create answers ?w "set"] =>
    pose proof (create_next answers w "set") as H3; destruct (vk_create answers w "set") as [[s|] v3] end;
    cbn [snd vk_next log_call] in H3; (etransitivity; [|first [apply pipeline_later|apply Hf]]); lia.
Qed.

Lemma batch_begin_later k v : later v (snd (GpuBatch.begin answers k v)).
Proof.
  unfold GpuBatch.begin, later. destruct (GpuBatch.b_cmd k); [done|]. destruct (negb _); [done|].
  pose proof (create_next answers v "cmd") as H. destruct (vk_create answers v "cmd") as [[c|] v1]; cbn [snd] in *; [|done].
  unfold vk_call. destruct (answers _); cbn [snd]; rewrite ?destroy_later; done.
Qed.

Lemma batch_submit_later k v log n : later v (snd (fst (GpuBatch.submit_fence answers k v log n))).
Proof.
  unfold GpuBatch.submit_fence, later. destruct (_ <=? _); [done|]. destruct (GpuBatch.b_cmd k) as [c|]; [|done].
  destruct (negb _); [done|]. unfold vk_call at 1. destruct (answers _); cbn [negb]; [|done].
  unfold fence_submit. match goal with |- context [vk_create answers ?w "fence"] => pose proof (create_next answers w "fence") as H;
    destruct (vk_create answers w "fence") as [[f|] v1] end; cbn [snd fst vk_next log_call] in *; [|done].
  unfold vk_call. destruct (answers (vk_count v1)); [|done]. cbn zeta. by destruct (answers _).
Qed.

Lemma later_trans v v' v'' : later v v' -> later v' v'' -> later v v''.
Proof. unfold later. lia. Qed.

(** Whatever fails, the batch holds what it created, and nothing is undefined. *)
Lemma batch_calls_hold d a b v F :
  good v F -> GpuBatch.live_buf F (as_batch a) -> GpuBatch.live_buf F (as_batch b) -> exists ok k v' log, batch_calls d a b v = Ok (ok, k, v', log) /\ GpuBatch.owns F k v' /\ later v v'.
Proof.
  intros Hg La Lb. unfold batch_calls.
  assert (GpuBatch.owns F GpuBatch.new_batch v) as H0 by done.
  pose proof (GpuBatch.init_owns answers F _ _ (d_valid d) root_layout H0) as H1.
  pose proof (batch_init_later GpuBatch.new_batch v (d_valid d) root_layout) as N1.
  pose proof (GpuBatch.init_layout answers GpuBatch.new_batch v (d_valid d) root_layout ltac:(repeat constructor; done)) as Hl.
  destruct (GpuBatch.init _ _ _ _ _) as [[ok1 k1] v1]. cbn [snd] in N1. destruct ok1; cbn [negb]; [|eauto 10].
  destruct (GpuBatch.push_exact k1 0 [7; 8] 2 Hl ltac:(lia) ltac:(cbn; lia)) as [E _]. rewrite E. cbn [obind].
  destruct (GpuBatch.accepts_push k1 0 2); cbn [obind negb]; [|eauto 10]. clear E.
  set (k2 := GpuBatch.with_push k1 _). assert (GpuBatch.owns F k2 v1) as H2 by (by destruct H1).
  pose proof (GpuBatch.bind_good F k2 v1 1 (as_batch a) H2 La) as G3.
  assert (later v1 (snd (GpuBatch.bind k2 v1 1 (as_batch a)))) as N3
    by (unfold GpuBatch.bind, later; repeat case_match; done).
  destruct (GpuBatch.bind k2 v1 1 _) as [ok3 v3]. cbn [snd] in *.
  assert (GpuBatch.owns F k2 v3) as H3 by (destruct H2; by split). pose proof (later_trans _ _ _ N1 N3) as N4.
  destruct ok3; cbn [negb]; [|eauto 10].
  pose proof (GpuBatch.begin_owns answers F k2 v3 H3) as H5. pose proof (batch_begin_later k2 v3) as N5.
  destruct (GpuBatch.begin _ _ _) as [[ok5 k5] v5]. cbn [snd] in N5. pose proof (later_trans _ _ _ N4 N5) as N6.
  destruct ok5; cbn [negb]; [|eauto 10].
  pose proof (GpuBatch.copy_good F k5 v5 (as_batch b) (as_batch a) H5 Lb La) as G6.
  assert (later v5 (snd (GpuBatch.copy k5 v5 (as_batch b) (as_batch a)))) as N7
    by (unfold GpuBatch.copy, later; repeat case_match; done).
  destruct (GpuBatch.copy k5 v5 _ _) as [ok7 v7]. cbn [snd] in *.
  assert (GpuBatch.owns F k5 v7) as H7 by (destruct H5; by split). pose proof (later_trans _ _ _ N6 N7) as N8.
  destruct ok7; cbn [negb]; [|eauto 10].
  unfold GpuBatch.submit. set (n := u64 _).
  pose proof (GpuBatch.submit_fence_owns answers F k5 v7 (Some (GpuStub.new_gpu None)) n H7) as H9.
  pose proof (batch_submit_later k5 v7 (Some (GpuStub.new_gpu None)) n) as N9.
  destruct (GpuBatch.submit_fence _ _ _ _ _) as [[[ok9 k9] v9] log9]. cbn [snd fst] in N9.
  pose proof (later_trans _ _ _ N8 N9). eauto 10.
Qed.

(** The batch created objects of its own, and the queue may have taken its copy. *)
Lemma holds_beside L F bufs imgs st v' cmds :
  holds L bufs imgs st -> good v' (F ++ objects (MkClient bufs imgs st) ++ L) -> later (s_vk st) v' ->
  Forall (fun c => cmd_image c = None) cmds ->
  holds (F ++ L) bufs imgs (MkG v' (s_sent st ++ cmds) (s_lost st)).
Proof.
  intros [_ Hb Hi Hs Hl] Hg Hn Hc. split; cbn [c_st c_bufs c_imgs s_vk s_sent s_lost] in *; try done.
  - eapply good_proper; [done| |exact Hg]. unfold objects. cbn. solve_Permutation.
  - apply Forall_app. split; [by eapply images_below_le|]. eapply Forall_impl; [exact Hc|]. cbn. congruence.
  - intros Hlost. destruct (Hl Hlost) as [H1 H2]. split.
    + clear -H1 Hc. induction cmds as [|c cmds IH] using rev_ind; [by rewrite app_nil_r|].
      apply Forall_app in Hc as [Hc Hc']. inversion_clear Hc'. rewrite app_assoc. constructor; [by apply IH|]. by destruct c.
    + eapply Forall_impl; [exact H2|]. unfold tracked. intros im Hx i Ei. rewrite (Hx i Ei). symmetry. apply layout_of_other.
      eapply Forall_impl; [exact Hc|]. cbn. congruence.
Qed.

Lemma batch_part_releases d a b st L bufs :
  holds L bufs [] st -> a ∈ bufs -> b ∈ bufs ->
  exists r st', batch_part d a b st = Ok (r, st') /\ holds L bufs [] st'.
Proof.
  intros H Ha Hb. unfold batch_part. pose proof (ci_good _ _ H) as Hg. cbn [c_st] in Hg.
  destruct (batch_calls_hold d a b (s_vk st) _ Hg (fun Hv => proj1 (held_buf _ _ _ _ _ H Ha Hv))
              (fun Hv => proj1 (held_buf _ _ _ _ _ H Hb Hv))) as (ok & k & v & log & -> & Ho & Hn). cbn [obind].
  pose proof (GpuBatch.o_good _ _ _ Ho) as Hg'.
  match goal with |- context [MkG v ?l _] => set (sent := l) end.
  assert (holds (GpuBatch.held k ++ L) bufs [] (MkG v sent (s_lost st))) as H1.
  { unfold sent. destruct ok; [by apply holds_beside; [..|repeat constructor]|].
    rewrite <- (app_nil_r (s_sent st)). by apply holds_beside. }
  clearbody sent. clear H Hg Hg' Hn. set (st1 := MkG v sent _) in *.
  assert (exists ok2 st2, (if ok then vulkan_buffer_verify_mapped answers mapped d st1 b 0xB47C4000 else (false, st1)) =
            (ok2, st2) /\ holds (GpuBatch.held k ++ L) bufs [] st2) as (ok2 & st2 & -> & H2).
  { destruct ok; [|eauto]. op (holds_verify _ d bufs [] st1 b 0xB47C4000 H1 Hb) H1; eauto. }
  eexists _, _. split; [reflexivity|]. pose proof H2 as [G2 Hm Hi _ _]. cbn [c_st c_bufs c_imgs] in *.
  assert (GpuBatch.owns (objects (MkClient bufs [] st2) ++ L) k (s_vk st2)) as Ho2.
  { destruct Ho as [_ O2 O3]. split; [|done|done]. eapply good_proper; [done| |exact G2]. solve_Permutation. }
  apply GpuBatch.shutdown_releases in Ho2. destruct H2 as [_ _ _ Hs Hl]. split; cbn in *; try done.
  eapply images_below_le; [exact Hs|]. apply batch_shutdown_later.
Qed.

Lemma batch_block_releases d st L :
  holds L [] [] st -> exists r st', batch_block d st = Ok (r, st') /\ holds L [] [] st'.
Proof.
  intros H. unfold batch_block.
  pose proof (holds_create L d [] [] st (Z.shiftl 1 16) false USAGE_UNIFORM H) as H1.
  destruct (vulkan_buffer_create _ _ _ _ _ _ _) as [[a|] st1]; cbn [option_list app default] in *.
  2:{ eexists _, _. split; [reflexivity|]. by destruct st1. }
  pose proof (holds_create L d _ [] st1 (Z.shiftl 1 16) false USAGE_UNIFORM H1) as H2. clear H H1.
  destruct (vulkan_buffer_create _ _ _ _ _ _ _) as [[b|] st2]; cbn [option_list app default] in *.
  2:{ eexists _, _. split; [reflexivity|]. rewrite (proj1 (destroy_nothing _)). by apply holds_destroy. }
  assert (Hend : forall st, holds L [b; a] [] st ->
            holds L [] [] (snd (vulkan_buffer_destroy b (snd (vulkan_buffer_destroy a st))))).
  { intros st' H'. by apply holds_destroy, holds_destroy_next. }
  op (holds_fill L d _ [] st2 a 0xB47C4000 H2 ltac:(set_solver)) H2;
    [|eexists _, _; split; [reflexivity|by apply Hend]].
  destruct (batch_part_releases d a b g L _ H2 ltac:(set_solver) ltac:(left)) as (r & st' & -> & H3). cbn [obind].
  eexists _, _. split; [reflexivity|by apply Hend].
Qed.

(** C40. Whatever Vulkan answers and whichever of the blocks fail, the program ends
    its Vulkan part with nothing undefined and everything released: every object
    was used and destroyed while it was alive, and afterwards exactly the
    objects of before are left. As long as no recording was lost, every
    command named the layout its image was in. Only when there was no
    device can something remain, the command pool of a device without the
    memory types. *)
Theorem vulkan_block_releases (v : vkst) (L : list Z) :
  types_bounded gpus -> good v L ->
  exists r d v', vulkan_block v = Ok (r, d, v') /\
    match r with
    | Some st => good v' L /\ (s_lost st = false -> legal (s_sent st))
    | None => good v' (opt_list (d_pool d) ++ L)
    end.
Proof.
  intros Ht Hg. unfold vulkan_block. pose proof (init_good answers gpus v L Ht Hg) as H.
  destruct (vulkan_dev_init answers gpus v) as [[ok d] v1]. destruct H as [_ H].
  destruct ok; [|destruct H as [H _]; eauto]. destruct H as (i & dv & p & g & Hi & Hd & Hp & _ & H).
  apply (alloc_block_good d) in H. destruct (alloc_block d v1) as [r1 v2]. cbn [snd] in H.
  assert (holds (p :: dv :: i :: L) [] [] (MkG v2 [] false)) as H0.
  { split; cbn; try done; try (by constructor). intros _. split; constructor. }
  apply (buffer_block_releases d) in H0. destruct (buffer_block d _) as [r2 st2]. cbn [snd] in H0.
  apply (image_block_releases d) in H0. destruct (image_block d st2) as [r3 st3]. cbn [snd] in H0.
  destruct (batch_block_releases d _ _ H0) as (r4 & st4 & -> & H4). cbn [obind].
  pose proof (shutdown_good i dv p d (s_vk st4) L Hi Hd Hp (ci_good _ _ H4)) as H5.
  destruct (vulkan_dev_shutdown d (s_vk st4)) as [d' v']. cbn [snd] in H5.
  eexists _, _, _. split; [reflexivity|]. split; [done|]. intros Hl. by apply H4.
Qed.

End block.

(** ** A run *)

(** A host that refuses the allocation of slow memory and nothing else. *)
Definition no_slow (n : nat) : bool := negb (n =? 6)%nat.

Definition demo_run : outcome (option gst * VulkanDev * vkst) :=
  vulkan_block no_slow demo_gpus demo_req words_after (fun l => l) start.

Lemma vulkan_block_releases_witness :
  exists st d v', demo_run = Ok (Some st, d, v') /\ good v' [] /\ (s_lost st = false -> legal (s_sent st)).
Proof.
  destruct (vulkan_block_releases no_slow demo_gpus demo_req words_after (fun l => l) start [] demo_bounded start_good)
    as (r & d & v' & E & H).
  destruct r as [st|].
  - exists st, d, v'. split; [exact E|exact H].
  - exfalso. assert (match demo_run with Ok (Some _, _, _) => true | _ => false end = true) as E'
      by (vm_compute; reflexivity).
    unfold demo_run in E'. rewrite E in E'. discriminate E'.
Defined.

(** What the blocks print on that host: the fast allocation, both buffer checks,
    the batch with its one submission and fence. *)
Example blocks_print :
  let '(_, d, v) := vulkan_dev_init no_slow demo_gpus start in
  let (r1, v) := alloc_block no_slow (fun l => l) d v in
  let (r2, st) := buffer_block no_slow demo_req words_after d (MkG v [] false) in
  let (r3, st) := image_block no_slow demo_req words_after d st in
  r1 = (true, false, None, None) /\ r2 = (Some true, Some true) /\ (snd <$> r3) = Some TRANSFER_SRC /\
  match batch_block no_slow demo_req words_after d st with Ok (r, _) => r = Some (true, 1, 1) | _ => False end.
Proof. vm_compute. done. Qed.

End MainVulkan.
