(* ===== verification/MainGuest.v ===== *)
(** The guest threads of the demonstration program (src/main.cpp). Two fibers
    that count and yield run under the scheduler of CpuSched.v; two fibers that
    hand a critical section over run under the scheduler and the kernel of
    KrnlCall.v. A guest fiber is a program of kernel calls and stores, so the
    run of any such programs is a run of the whole system: scheduler loop,
    dispatcher, waits and finish hooks. *)
From stdpp Require Import base numbers list gmap strings.
From Stdlib Require Import ZArith Lia.
From S2P Require Import Prelude XbeRam CpuSched KrnlMm KrnlPrintf KrnlState KrnlObjects KrnlCall KrnlInv KrnlSpec GpuStub.
From S2P Require Import Float32 XboxAudio XboxInput XboxSys.
Open Scope Z_scope.

Module MainGuest.
Import XbeRam CpuSched KrnlMm KrnlState KrnlObjects KrnlCall KrnlInv KrnlSpec.

(** ** Counting fibers *)

(** The counter of a fiber and the iterations it has left. *)
Abbreviation counters := (list (Z * nat)).

(** One dispatch: count, then yield, or end after the last iteration. *)
Definition count_body (i : nat) (s : sched) (w : counters) : option (sched * counters) :=
  match w !! i with
  | Some (n, S (S m)) => Some (thread_yield s i, <[i := (n + 1, S m)]> w)
  | Some (n, S O) => Some (thread_finish s i 0, <[i := (n + 1, O)]> w)
  | _ => Some (thread_finish s i 0, w)
  end.

(** [n] iterations each; the program has 4. *)
Definition sched_block (n : nat) (fuel : nat) : option (bool * sched * counters) :=
  let (t1, s) := spawn true new_sched "ping" in
  let (t2, s) := spawn true s "pong" in
  run_until_complete count_body fuel s [(0, n); (0, n)].

(** The scheduler after [j] rounds, both fibers in state [st]. *)
Definition round_thread (nm : string) (h : Z) (st : tstate) (j : nat) : gthread :=
  GThread nm h st (negb (j =? 0)%nat) (Z.of_nat j) 0 0 0 false 0 0.
Definition round_sched (st : tstate) (j : nat) : sched :=
  Sched [round_thread "ping" 1 st j; round_thread "pong" 2 st j] None 3 0 0 (2 * Z.of_nat j) false false.

Lemma round_start : snd (spawn true (snd (spawn true new_sched "ping")) "pong") = round_sched Ready 0.
Proof. reflexivity. Qed.

(** In the middle of a round: the first fiber has run and is in state [st]. *)
Definition half_sched (st : tstate) (j : nat) : sched :=
  Sched [round_thread "ping" 1 st (S j); round_thread "pong" 2 Ready j] None 3 0 1 (2 * Z.of_nat j + 1) false false.

(** The state a fiber leaves behind with [l] iterations left. *)
Definition left_state (l : nat) : tstate := match l with O => Finished | S _ => Ready end.

Lemma next_switch j : Z.of_nat j < 2 ^ 62 -> u64 (Z.of_nat j + 1) = Z.of_nat (S j).
Proof. intros. rewrite u64_small by lia. lia. Qed.

Lemma first_half j c l :
  Z.of_nat j < 2 ^ 62 ->
  run_step count_body (round_sched Ready j) [(c, S l); (c, S l)] =
    (Continue, half_sched (left_state l) j, [(c + 1, l); (c, S l)]).
Proof.
  intros Hj. pose proof (next_switch j Hj) as E1.
  assert (u64 (2 * Z.of_nat j + 1) = 2 * Z.of_nat j + 1) as E2 by (rewrite u64_small by lia; lia).
  unfold half_sched, round_thread, round_sched. rewrite <- E1, <- E2.
  destruct j as [|j], l as [|l]; lazy -[u64 Z.of_nat Z.mul Z.add]; reflexivity.
Qed.

Lemma second_half j c l :
  Z.of_nat j < 2 ^ 62 ->
  run_step count_body (half_sched (left_state l) j) [(c + 1, l); (c, S l)] =
    (Continue, round_sched (left_state l) (S j), [(c + 1, l); (c + 1, l)]).
Proof.
  intros Hj. pose proof (next_switch j Hj) as E1.
  assert (u64 (2 * Z.of_nat j + 1 + 1) = 2 * Z.of_nat (S j)) as E2 by (rewrite u64_small by lia; lia).
  unfold half_sched, round_sched, round_thread. rewrite <- E2, <- E1.
  destruct j as [|j], l as [|l]; lazy -[u64 Z.of_nat Z.mul Z.add]; reflexivity.
Qed.

Lemma rounds n : forall j c,
  Z.of_nat (j + n) < 2 ^ 62 -> (0 < n)%nat ->
  run_until_complete count_body (2 * n + 1) (round_sched Ready j) [(c, n); (c, n)] =
    Some (true, round_sched Finished (j + n), [(c + Z.of_nat n, 0%nat); (c + Z.of_nat n, 0%nat)]).
Proof.
  induction n as [|n IH]; intros j c Hj Hn; [lia|].
  replace (2 * S n + 1)%nat with (S (S (2 * n + 1))) by lia. cbn [run_until_complete].
  rewrite first_half, second_half by lia. destruct n as [|n]; cbn [left_state].
  - rewrite (Nat.add_1_r j). reflexivity.
  - rewrite IH by lia. replace (S j + S n)%nat with (j + S (S n))%nat by lia.
    by replace (c + 1 + Z.of_nat (S n)) with (c + Z.of_nat (S (S n))) by lia.
Qed.

(** Two fibers that count to [n] and yield between: the run completes, each has
    counted to [n], each was switched to [n] times and there were [2 * n]
    switches in all, with no deadlock and no time passing. *)
Theorem counting_fibers_alternate (n : nat) :
  (0 < n)%nat -> Z.of_nat n < 2 ^ 62 ->
  exists s, sched_block n (2 * n + 1) = Some (true, s, [(Z.of_nat n, 0%nat); (Z.of_nat n, 0%nat)]) /\
    switches_total s = 2 * Z.of_nat n /\ (t_switches <$> threads s) = [Z.of_nat n; Z.of_nat n] /\
    finished_count s = 2 /\ tick s = 0 /\ deadlocked s = false.
Proof.
  intros Hn Hb. exists (round_sched Finished n). split; [|by split_and!].
  exact (rounds n 0 0 Hb Hn).
Qed.

Lemma counting_fibers_alternate_witness :
  exists s, sched_block 4 9 = Some (true, s, [(4, 0%nat); (4, 0%nat)]) /\ switches_total s = 8.
Proof.
  destruct (counting_fibers_alternate 4) as (s & H1 & H2 & _); [lia|lia|].
  exists s. split; [exact H1|exact H2].
Defined.

(** ** Fibers that call the kernel *)

(** What the body of a fiber does: kernel calls, and stores through the guest
    memory of bytes or of the first [n] bytes of a string literal. *)
Inductive guest :=
  | GEnd
  | GCall (ordinal : Z) (args : list Z) (next : Z -> guest)
  | GWrite (va : Z) (bs : list Z) (next : guest)
  | GLiteral (va : Z) (lit : list Z) (n : Z) (next : guest).

(** A fiber: about to run, or inside a call that switched away. *)
Inductive fiber := FRun (g : guest) | FWait (p : pending) (next : Z -> guest).

(** The kernel and the fibers, or why the run is undefined. *)
Abbreviation system := (outcome (kernel * list (option fiber))).

Section system.
Context `{os : HostOS} (envs : nat -> env).

(** Run until the fiber switches away; [None] when it has ended. *)
Fixpoint run_guest (e : env) (g : guest) : K (option fiber) :=
  match g with
  | GEnd => thread_exit 0 ;; kret None
  | GCall ordinal args next =>
      let* out := call e ordinal args in
      match out with
      | Ret eax _ _ => run_guest e (next eax)
      | Blocked p => kret (Some (FWait p next))
      | Exited => kret None
      end
  | GWrite va bs next => wr_bytes va bs ;; run_guest e next
  | GLiteral va lit n next =>
      if zlen lit + 1 <? n then kub "read past a string literal"
      else wr_bytes va (take (Z.to_nat n) (lit ++ [0])) ;; run_guest e next
  end.

Definition run_fiber (e : env) (f : fiber) : K (option fiber) :=
  match f with
  | FRun g => run_guest e g
  | FWait p next =>
      let* out := resume e p in
      match out with
      | Ret eax _ _ => run_guest e (next eax)
      | Blocked p => kret (Some (FWait p next))
      | Exited => kret None
      end
  end.

Definition guest_body (i : nat) (s : sched) (w : system) : option (sched * system) :=
  match w with
  | Ok (k, fs) =>
      match fs !! i with
      | Some (Some f) =>
          match run_fiber (envs i) f (with_sched k s) with
          | Ok (f', k') => Some (k_sched k', Ok (k', <[i := f']> fs))
          | Fail m => Some (thread_finish s i 0, Fail m)
          | Ub m => Some (thread_finish s i 0, Ub m)
          end
      | _ => Some (thread_finish s i 0, w)
      end
  | _ => Some (thread_finish s i 0, w)
  end.

(** Spawn one fiber per program and run them. *)
Fixpoint spawn_all (s : sched) (names : list string) : sched :=
  match names with
  | [] => s
  | nm :: names => spawn_all (snd (spawn true s nm)) names
  end.

Definition run_guests (fuel : nat) (k : kernel) (l : list (string * guest)) : option (bool * sched * system) :=
  let s := spawn_all (k_sched k) (fst <$> l) in
  run_until_complete guest_body fuel s (Ok (with_sched k s, (fun x => Some (FRun (snd x))) <$> l)).

(** ** The whole system keeps the kernel's invariant *)

Definition system_ok (w : system) : Prop := forall k fs, w = Ok (k, fs) -> kreachable k.

Lemma kreachable_call e o args k out k' : kreachable k -> call e o args k = Ok (out, k') -> kreachable k'.
Proof. intros H E. eapply kr_step; [exact H|]. by eapply ks_call. Qed.

Lemma kreachable_exit code k u k' : kreachable k -> thread_exit code k = Ok (u, k') -> kreachable k'.
Proof.
  intros H. unfold thread_exit, kbind, kget. destruct (current (k_sched k)); [|by intros [= <- <-]].
  unfold kput, sched_handle. intros E. eapply kr_step; [|by eapply ks_hook].
  eapply kr_step; [exact H|]. apply ks_sched.
Qed.

Lemma run_guest_keeps e g : forall k f k', kreachable k -> run_guest e g k = Ok (f, k') -> kreachable k'.
Proof.
  induction g as [|o args next IH|va bs next IH|va lit n next IH]; intros k f k' H; cbn [run_guest].
  - unfold kbind at 1. destruct (thread_exit 0 k) as [[u k1]| |] eqn:E; try done. intros [= <- <-].
    by eapply kreachable_exit.
  - unfold kbind at 1. destruct (call e o args k) as [[out k1]| |] eqn:E; try done.
    apply (kreachable_call _ _ _ _ _ _ H) in E. destruct out; [by apply IH|by intros [= <- <-]..].
  - unfold kbind at 1, wr_bytes, kmod. apply IH. eapply kr_step; [exact H|apply ks_ram].
  - destruct (_ <? _); [done|]. unfold kbind at 1, wr_bytes, kmod. apply IH. eapply kr_step; [exact H|apply ks_ram].
Qed.

Lemma run_fiber_keeps e f k f' k' : kreachable k -> run_fiber e f k = Ok (f', k') -> kreachable k'.
Proof.
  intros H. destruct f as [g|p next]; cbn [run_fiber]; [by apply run_guest_keeps|].
  unfold kbind at 1. destruct (resume e p k) as [[out k1]| |] eqn:E; try done.
  assert (kreachable k1) as H1 by (eapply kr_step; [exact H|by eapply ks_resume]).
  destruct out; [by apply run_guest_keeps|by intros [= <- <-]..].
Qed.

Lemma guest_body_keeps i s w s' w' : system_ok w -> guest_body i s w = Some (s', w') -> system_ok w'.
Proof.
  intros H. unfold guest_body. destruct w as [[k fs]| |]; [|by intros [= <- <-]..].
  destruct (fs !! i) as [[f|]|]; [|by intros [= <- <-]..].
  destruct (run_fiber _ _ _) as [[f' k']| |] eqn:E; intros [= <- <-]; [|by intros ??..].
  intros k0 fs0 [= <- <-]. eapply run_fiber_keeps; [|exact E]. eapply kr_step; [by eapply H|apply ks_sched].
Qed.

(** Any guest programs, run by the scheduler over a reachable kernel to the end
    of the loop, leave the kernel with its invariant: no interleaving of calls,
    waits, resumptions, stores and fiber ends breaks the tables. *)
Theorem guests_keep_the_tables (fuel : nat) (k : kernel) (l : list (string * guest)) b s k' fs :
  kreachable k -> run_guests fuel k l = Some (b, s, Ok (k', fs)) -> tables_ok k'.
Proof.
  intros H E. apply kreachable_ok. eapply (run_keeps guest_body system_ok); [exact guest_body_keeps| |exact E|reflexivity].
  intros k0 fs0 [= <- <-]. eapply kr_step; [exact H|apply ks_sched].
Qed.

(** ** The kernel block *)

(** [callk] from the host: the low word of the result. *)
Definition callk (e : env) (ordinal : Z) (args : list Z) : K Z :=
  let* out := call e ordinal args in
  kret (match out with Ret eax _ _ => eax | _ => 0 end).

Definition holding : list Z := KrnlPrintf.bytes_of "main: holding cs, delaying".
Definition acquired : list Z := KrnlPrintf.bytes_of "work: acquired cs".

(** [n]: the length given for the literal; the program gives 29. *)
Definition game_main (n cs_va : Z) : guest :=
  GCall 277 [cs_va] (fun _ =>
  GCall 165 [48] (fun fmt =>
  GLiteral fmt holding n (
  GCall 8 [fmt] (fun _ =>
  GCall 165 [8] (fun tv =>
  GWrite tv (le_bytes 8 (u64 (-10000))) (
  GCall 99 [0; 0; tv] (fun _ =>
  GCall 294 [cs_va] (fun _ => GEnd)))))))).
Definition game_work (cs_va : Z) : guest :=
  GCall 277 [cs_va] (fun _ =>
  GCall 165 [48] (fun fmt =>
  GLiteral fmt acquired 18 (
  GCall 8 [fmt] (fun _ =>
  GCall 294 [cs_va] (fun _ => GEnd))))).

(** On an installed kernel: the thunks implemented, and the run. *)
Definition implemented_count (slots : list ThunkSlot) : Z :=
  foldl (fun n s => u32 (n + (if s_implemented s then 1 else 0))) 0 slots.

Definition kernel_block (fuel : nat) (n : Z) (k : kernel) : outcome (option (bool * sched * system)) :=
  let! (cs_va, k) := callk (envs 0) 165 [64] k in
  let! (_, k) := callk (envs 0) 291 [cs_va] k in
  Ok (run_guests fuel k [("game.main", game_main n cs_va); ("game.work", game_work cs_va)]).

End system.

(** ** Runs *)

(** A kernel with a pool of guest memory and a sink for DbgPrint. *)
Definition pool_kernel : kernel :=
  with_mm (new_kernel (fst demo_pool) new_sched true false) (snd demo_pool).
Definition demo_envs (i : nat) : env := envn (Z.of_nat i + 1).

Definition run_result (o : outcome (option (bool * sched * system))) : option (bool * Z * outcome (list (list Z))) :=
  match o with
  | Ok (Some (b, s, w)) => Some (b, tick s, let! (k, _) := w in Ok (k_dbg_sent k))
  | _ => None
  end.

(** With the length of the literal and its terminator the section is handed
    over: one line each, in order, after one tick. *)
Example critical_section_is_handed_over :
  run_result (kernel_block demo_envs 20 27 pool_kernel) = Some (true, 1, Ok [holding; acquired]).
Proof. vm_compute. reflexivity. Qed.

(** With the length the program gives, bytes after the literal are read. *)
Example literal_is_read_past_its_end :
  run_result (kernel_block demo_envs 20 29 pool_kernel) = Some (true, 0, Ub "read past a string literal").
Proof. vm_compute. reflexivity. Qed.

(** One fiber creates an event, another a mutant that it owns when it ends. *)
Definition two_guests : list (string * guest) :=
  [("events", GCall 189 [4096; 0; 1; 0] (fun _ => GEnd)); ("mutants", GCall 192 [4100; 0; 1] (fun _ => GEnd))].
Definition two_guests_run : option (bool * sched * system) :=
  run_guests demo_envs 4 (new_kernel demo_ram new_sched false false) two_guests.

Lemma guests_keep_the_tables_witness :
  exists s k' fs, two_guests_run = Some (true, s, Ok (k', fs)) /\ length (k_objects k') = 2%nat /\ tables_ok k'.
Proof.
  pose (r := two_guests_run).
  assert (match r with Some (true, _, Ok (k', _)) => (length (k_objects k') =? 2)%nat | _ => false end = true) as E
    by (vm_compute; reflexivity).
  destruct r as [[[[] s] [[k' fs]| |]]|] eqn:Er; try discriminate E.
  exists s, k', fs. split; [exact Er|]. split; [by apply Nat.eqb_eq in E|].
  eapply (guests_keep_the_tables demo_envs 4 (new_kernel demo_ram new_sched false false) two_guests true s k' fs);
    [apply kr_new|exact Er].
Defined.

(** ** The native traps *)

(** The trap handler of the program counts traps and submits one packet. *)
Definition trap_block (ns1 ns2 : Z) : Z * GpuStub.gpu :=
  foldl (fun (acc : Z * GpuStub.gpu) (t : Z * Z) => let (n, g) := acc in
                      (n + 1, if fst t =? 2 then GpuStub.submit g (GpuStub.MkGpuPacket 1 0x1000 64) else g))
        (0, GpuStub.new_gpu None) (XboxSys.cpu_run_native true ns1 ns2).

(** Whatever the clocks read: six traps, one packet. *)
Example traps_are_counted ns1 ns2 :
  fst (trap_block ns1 ns2) = 6 /\ GpuStub.gpu_submitted (snd (trap_block ns1 ns2)) = 1 /\
  GpuStub.gpu_log (snd (trap_block ns1 ns2)) = KrnlPrintf.bytes_of "gpu pkt#1 type=1 addr=0x1000 size=64".
Proof. by vm_compute. Qed.

(** ** The devices *)

Definition kXboxBtnA : Z := 0x1000.

(** The pad: one button and the right stick, read back. *)
Definition pad_block : outcome XboxInput.XboxGamepad :=
  let raw := XboxInput.MkPad kXboxBtnA 0 0 0 0 20000 0 0 in
  let pad := snd (XboxInput.set_state XboxInput.new_input 0 raw) in
  let! cooked := XboxInput.get_state pad 0 in
  Ok (default XboxInput.no_pad cooked).

(** A tone of that many frames, queued and played. *)
Definition sound_block (sinf : Float32.f32 -> Float32.f32) (frames : nat) : outcome Z :=
  let! (pcm, _) := XboxAudio.render_sine sinf (Float32.lit 440 0) frames Float32.fzero (Float32.lit 1 (-1)) in
  let! (_, au) := XboxAudio.submit_vector XboxAudio.new_audio pcm in
  Ok (fst (XboxAudio.consume_frames au (Z.of_nat frames))).

(** What is printed: the game cores, the committed memory in KiB (from the page
    count of the memory map), the button, the stick and the frames played. *)
Definition device_block (sinf : Float32.f32 -> Float32.f32) (pages : Z) : outcome (Z * Z * Z * bool * Z * Z) :=
  let aff := XboxSys.xbox_game_affinity false in
  let mst := XboxSys.xbox_mem_status pages 4096 in
  let! cooked := pad_block in
  let! played := sound_block sinf 4800 in
  Ok (XboxSys.game_mask aff, XboxSys.game_threads aff, Z.shiftr (XboxSys.committed_bytes mst) 10,
      negb (Z.land (XboxInput.buttons cooked) kXboxBtnA =? 0), XboxInput.thumb_rx cooked, played).

Lemma sine_length sinf n : forall step amp phase out pcm phase',
  XboxAudio.sine_loop sinf n step amp phase out = Ok (pcm, phase') -> zlen pcm = zlen out + 2 * Z.of_nat n.
Proof.
  induction n as [|n IH]; intros step amp phase out pcm phase'; cbn [XboxAudio.sine_loop]; [intros [= <- <-]; lia|].
  destruct (XboxAudio.to_int16 _) as [v| |]; cbn [obind]; try done. intros E. apply IH in E.
  rewrite length_app in E. cbn in E. lia.
Qed.

(** A tone that fits the queue is played in full. *)
Lemma tone_is_played sinf (frames : nat) n :
  0 < Z.of_nat frames <= 96000 -> sound_block sinf frames = Ok n -> n = Z.of_nat frames.
Proof.
  intros Hf. unfold sound_block. destruct (XboxAudio.render_sine _ _ _ _ _) as [[pcm ph]| |] eqn:E; [|done..].
  apply sine_length in E. change (zlen []) with 0 in E. rewrite Z.add_0_l in E. pose proof XboxAudio.new_audio_ok as H0.
  assert (XboxAudio.accepts XboxAudio.new_audio pcm = true) as Ha.
  { unfold XboxAudio.accepts. rewrite E. change (zlen (XboxAudio.stream XboxAudio.new_audio)) with 0.
    replace (2 * Z.of_nat frames) with (Z.of_nat frames * 2) by lia. rewrite Z.mod_mul by lia.
    unfold XboxAudio.kChannels, XboxAudio.kMaxQueuedFrames.
    rewrite (proj2 (Z.ltb_lt _ _)), (proj2 (Z.leb_le _ _)) by lia. done. }
  cbn [obind]. rewrite XboxAudio.submit_exact by (done || lia). rewrite Ha. cbn [obind].
  pose proof (XboxAudio.enqueue_ok _ _ H0 Ha) as H1. pose proof (XboxAudio.stream_enqueue _ pcm H0) as Es.
  destruct (XboxAudio.queued_exact _ H1) as [Eq _]. rewrite Es in Eq. change (XboxAudio.stream XboxAudio.new_audio) with (@nil Z) in Eq.
  cbn [app] in Eq. unfold XboxAudio.kChannels in Eq.
  destruct (XboxAudio.consume_exact _ (Z.of_nat frames) H1) as (a' & -> & _); [lia|]. cbn [fst]. intros [= <-]. lia.
Qed.

(** Whatever the sine function of the host returns within range: seven game
    cores, the pages in KiB, the button and the stick past its dead zone, and
    every frame played. *)
Lemma devices_print sinf pages r :
  0 <= pages < 2 ^ 52 -> device_block sinf pages = Ok r -> r = (0x7F, 7, 4 * pages, true, 15392, 4800).
Proof.
  intros Hp. unfold device_block. pose proof (tone_is_played sinf 4800) as Ht.
  destruct (sound_block sinf 4800) as [n| |]; [|done..]. rewrite (Ht n ltac:(lia) eq_refl).
  unfold XboxSys.xbox_mem_status. cbn [XboxSys.committed_bytes]. rewrite u64_small by lia.
  rewrite Z.shiftr_div_pow2 by lia. replace (pages * 4096) with (4 * pages * 2 ^ 10) by lia. rewrite Z.div_mul by lia.
  vm_compute. by intros [= <-].
Qed.

End MainGuest.
