(* ===== verification/MainXbe.v ===== *)
(** The executable of the demonstration program (src/main.cpp): a sample XBE is
    read and loaded, its TLS template is given to two fibers that keep values
    in their own storage across context switches, and its entry point is run on
    the guest CPU. The blocks compose LoadedXbe.v, FiberTls.v, CpuSched.v,
    KrnlCall.v, UnicornRt.v and GuestCpu.v. *)
From stdpp Require Import base numbers list gmap strings.
From Stdlib Require Import ZArith Lia.
From S2P Require Import Prelude XbeRam XbeImage LoadedXbe CpuSched FiberTls.
From S2P Require Import KrnlState KrnlCall KrnlSpec CpuRuntime UnicornRt GuestCpu.
Open Scope Z_scope.

Module MainXbe.
Import CpuSched.

(** ** Reading the file *)

(** A file the host opened: what [ftell] says and what [fread] returned. *)
Record host_file := MkFile { hf_tell : Z; hf_read : list Z }.

(** The candidate paths in order, [None] when one cannot be opened. A negative
    size becomes a huge one, which [resize] refuses by an exception. *)
Fixpoint read_fixture (l : list (option host_file)) : outcome (list Z) :=
  match l with
  | [] => Ok []
  | None :: l' => read_fixture l'
  | Some f :: l' =>
      if hf_tell f <? 0 then Fail "vector::_M_default_append"
      else if (zlen (hf_read f) =? hf_tell f) && negb (hf_tell f =? 0) then Ok (hf_read f)
      else read_fixture l'
  end.

(** ** The template the fibers get *)

(** What the runtime is given, and the image after the index is written. The
    template already ends with its zero fill, which is given once more. *)
Definition tls_init_of (l : LoadedXbe.loaded) : outcome (option (FiberTls.Init * LoadedXbe.loaded)) :=
  match XbeImage.tls (LoadedXbe.l_image l) with
  | None => Ok None
  | Some t =>
      let! raw := LoadedXbe.tls_template l in
      let init := FiberTls.MkInit raw (XbeImage.zero_fill t) 0 (LoadedXbe.tls_callbacks l) in
      Ok (Some (init, snd (LoadedXbe.write_tls_index l (FiberTls.index init))))
  end.

(** ** Fibers with storage of their own *)

Section tls.
Context (stack_base : Z -> Z).
Import FiberTls.

(** What each of the two fibers has at hand: nothing yet, the pointer it got
    before it yielded, or it has ended. *)
Inductive tls_phase := TStart | TYielded (v : option Z) | TEnded.

Record tls_world := MkTls { tw_fibers : fibers; tw_phases : list tls_phase; tw_writes : Z }.

(** The offset and the value of each fiber. *)
Definition tls_offset (i : nat) : Z := if (i =? 0)%nat then 0 else 4.
Definition tls_value (i : nat) : Z := if (i =? 0)%nat then 0x11111111 else 0x22222222.

(** [if (v) { *v = value; ++total_writes; }] *)
Definition tls_store (f : fibers) (v : option Z) (value n : Z) : fibers * Z :=
  match v with
  | Some a => (with_mem f (mem_write (f_mem f) a (le_bytes 4 value)), n + 1)
  | None => (f, n)
  end.
(** [if (v && *v == value) ++total_writes;] *)
Definition tls_check (f : fibers) (v : option Z) (value n : Z) : Z :=
  match v with
  | Some a => if le_val (mem_read (f_mem f) a 4) =? value then n + 1 else n
  | None => n
  end.

Definition tls_body (i : nat) (s : sched) (w : tls_world) : option (sched * tls_world) :=
  let f := with_sched (tw_fibers w) s in
  match tw_phases w !! i with
  | Some TStart =>
      let v := current_data f (tls_offset i) 4 in
      let (f, n) := tls_store f v (tls_value i) (tw_writes w) in
      Some (thread_yield s i, MkTls f (<[i := TYielded v]> (tw_phases w)) n)
  | Some (TYielded v) =>
      let n := tls_check f v (tls_value i) (tw_writes w) in
      let s := thread_finish s i 0 in
      Some (s, MkTls (finish_hooks (with_sched f s) (current_handle s)) (<[i := TEnded]> (tw_phases w)) n)
  | _ => Some (thread_finish s i 0, w)
  end.

Definition tls_block (fuel : nat) (init : Init) : option (bool * sched * tls_world) :=
  let f := set_init new_fibers init in
  let (fm, f) := spawn_with_tls stack_base true f "game.main" in
  let (fw, f) := spawn_with_tls stack_base true f "game.work" in
  run_until_complete tls_body fuel (f_sched f) (MkTls f [TStart; TStart] 0).

(** *** The two spawns *)

Lemma record_all f l fiber reason :
  foldl (fun f cb => record f fiber cb reason) f l =
  MkFibers (f_sched f) (f_hooks f) (f_mem f) (f_init f) (f_events f ++ ((fun cb => FiberTls.MkEvent fiber cb reason) <$> l))
           (f_blocks f) (f_main_seen f) (f_hook_installed f).
Proof.
  revert f; induction l as [|cb l IH]; intros f; cbn [foldl].
  - rewrite fmap_nil, app_nil_r. by destruct f.
  - rewrite IH. cbn [record f_sched f_hooks f_mem f_init f_events f_blocks f_main_seen f_hook_installed].
    by rewrite fmap_cons, <- app_assoc.
Qed.

Context (init : Init) (Hok : init_ok init) (Hindex : index init < kSlots)
        (Hfits : reserve_of init <= kStackSize - kMinUsable).

Definition tls_thread (nm : string) (h : Z) : gthread := new_thread nm h (reserve_of init).
Definition block_at (h : Z) : Block :=
  let top := stack_base h + (kGuardSize + kStackSize - reserve_of init) in
  MkBlock top (top + array_bytes) (init_size init).

Lemma reserve_pos : 0 < reserve_of init /\ array_bytes + init_size init <= reserve_of init.
Proof.
  destruct (reserve_bounds init Hok) as [E H]. split; [|done].
  destruct Hok as (? & [? ?] & _). unfold array_bytes, kSlots in *. lia.
Qed.

(** One spawn, as a record. *)
Lemma spawn_record s hooks m evs bs seen nm h inst :
  next_handle s = h -> h = zlen (threads s) + 1 -> h + 1 < 2 ^ 64 ->
  (inst = true -> hooks = [TlsHook]) ->
  spawn_with_tls stack_base true (MkFibers s hooks m (Some init) evs bs seen inst) nm =
    (h, MkFibers (with_threads (with_next s (h + 1)) (threads s ++ [tls_thread nm h])) [TlsHook]
          (init_block m init (b_array (block_at h)) (b_data (block_at h))) (Some init)
          (evs ++ attach_events init h (if seen then kReasonThreadAttach else kReasonProcessAttach))
          (bs ++ [(h, block_at h)]) true true).
Proof.
  intros Hh Hl Hb Hinst. pose proof reserve_pos as [Hr _]. unfold spawn_with_tls. cbn [f_init].
  set (f0 := if f_hook_installed _ then _ else _).
  assert (f0 = MkFibers s [TlsHook] m (Some init) evs bs seen true) as ->.
  { unfold f0. cbn. destruct inst; [by rewrite Hinst|done]. }
  unfold spawn_reserved. cbn [f_sched]. rewrite (proj2 (Z.ltb_ge _ _) Hfits), Hh. cbn [negb t_handle new_thread].
  rewrite u64_small by lia. rewrite (proj2 (Z.eqb_neq h 0)) by lia. cbn [with_sched f_main_seen].
  unfold install. cbn [f_init with_sched f_sched]. unfold stack_top_reserve, find.
  cbn [next_handle with_threads with_next threads]. rewrite (proj2 (Z.eqb_neq h 0)) by lia. rewrite (proj2 (Z.leb_gt (h + 1) h)) by lia.
  cbn [orb]. replace (Z.to_nat (h - 1)) with (length (threads s)) by lia.
  rewrite list_lookup_middle by done. cbn [t_stack_reserve new_thread]. rewrite (proj2 (Z.eqb_neq (reserve_of init) 0)) by lia.
  cbn [snd with_main with_block with_mem f_sched f_hooks f_mem f_init f_events f_blocks f_main_seen f_hook_installed].
  unfold attach_events. destruct (callbacks init) as [|cb cbs]; [done|]. by rewrite record_all.
Qed.

(** *** The run *)

(** One dispatch of the scheduler loop. *)
Lemma dispatch {W} (body : nat -> sched -> W -> option (sched * W)) s w i s1 e s2 w2 s3 :
  all_finished s = false -> pick_next s = (Some i, s1) -> enter s1 i = e ->
  body i e w = Some (s2, w2) -> with_current s2 None = s3 ->
  run_step body s w = (Continue, s3, w2).
Proof. intros H1 H2 <- H3 <-. unfold run_step. by rewrite H1, H2, H3. Qed.

(** A fiber of the run, and the scheduler with both. *)
Definition run_thread (nm : string) (h : Z) (st : tstate) (started : bool) (switches : Z) : gthread :=
  GThread nm h st started switches 0 0 0 false 0 (reserve_of init).
Definition run_sched (cur : option nat) (cursor : nat) (total : Z) (st1 : tstate) (a1 : bool) (n1 : Z)
    (st2 : tstate) (a2 : bool) (n2 : Z) : sched :=
  Sched [run_thread "game.main" 1 st1 a1 n1; run_thread "game.work" 2 st2 a2 n2] cur 3 0 cursor total false false.

(** The addresses the two fibers use. *)
Definition slot1 : Z := b_data (block_at 1) + 0.
Definition slot2 : Z := b_data (block_at 2) + 4.

Context (Hmap : Mappings stack_base 2) (Hsize : 8 <= init_size init).

Lemma init_size_small : init_size init < 2 ^ 64.
Proof. unfold init_size. apply u64_range. Qed.

Lemma slots_apart : slot1 + 4 <= slot2 \/ slot2 + 4 <= slot1.
Proof.
  pose proof reserve_pos as [_ Hr]. unfold slot1, slot2, block_at. cbn [b_data].
  unfold array_bytes, kSlots, kStackSize, kMinUsable, kGuardSize in *.
  destruct (map_apart stack_base 1 2) as [H|H]; [lia|lia|lia|left|right]; unfold map_size, kGuardSize, kStackSize in H; lia.
Qed.

Definition two_blocks : list (Z * Block) := [(1, block_at 1); (2, block_at 2)].

Lemma data_found :
  scan_data two_blocks 1 0 4 = Some slot1 /\ scan_data two_blocks 2 4 4 = Some slot2.
Proof.
  pose proof init_size_small. unfold two_blocks. cbn [scan_data Z.eqb Pos.eqb negb b_size block_at]. rewrite !u64_small by lia.
  rewrite !(proj2 (Z.ltb_ge _ _)) by lia. done.
Qed.

(** The fibers with this much of the run behind them. *)
Definition run_fibers (s : sched) (m : bytes_map) (evs : list Event) : fibers :=
  MkFibers s [TlsHook] m (Some init) evs two_blocks true true.

Definition store1 (m : bytes_map) : bytes_map := mem_write m slot1 (le_bytes 4 0x11111111).
Definition store2 (m : bytes_map) : bytes_map := mem_write m slot2 (le_bytes 4 0x22222222).

Lemma stored_values m :
  le_val (mem_read (store2 (store1 m)) slot1 4) = 0x11111111 /\
  le_val (mem_read (store2 (store1 m)) slot2 4) = 0x22222222.
Proof.
  unfold store2, store1. pose proof slots_apart as Ha. split.
  - rewrite mem_read_write_disjoint by (rewrite length_le_bytes; lia).
    by rewrite (mem_read_write m slot1 (le_bytes 4 0x11111111) : mem_read _ _ 4 = _).
  - by rewrite (mem_read_write (mem_write m slot1 _) slot2 (le_bytes 4 0x22222222) : mem_read _ _ 4 = _).
Qed.

(** What each dispatch does. *)
Lemma store_first s s' m evs ph n :
  current_handle s' = 1 ->
  tls_body 0 s' (MkTls (run_fibers s m evs) (TStart :: ph) n) =
    Some (thread_yield s' 0, MkTls (run_fibers s' (store1 m) evs) (TYielded (Some slot1) :: ph) (n + 1)).
Proof.
  intros Hc. unfold tls_body. cbn [tw_phases lookup list_lookup tw_fibers tw_writes].
  assert (current_data (with_sched (run_fibers s m evs) s') (tls_offset 0) 4 = Some slot1) as ->; [|done].
  unfold current_data, data_of. cbn [f_sched with_sched f_blocks run_fibers]. rewrite Hc. apply data_found.
Qed.

Lemma store_second s s' m evs x n :
  current_handle s' = 2 ->
  tls_body 1 s' (MkTls (run_fibers s m evs) [x; TStart] n) =
    Some (thread_yield s' 1, MkTls (run_fibers s' (store2 m) evs) [x; TYielded (Some slot2)] (n + 1)).
Proof.
  intros Hc. unfold tls_body. cbn [tw_phases lookup list_lookup tw_fibers tw_writes].
  assert (current_data (with_sched (run_fibers s m evs) s') (tls_offset 1) 4 = Some slot2) as ->; [|done].
  unfold current_data, data_of. cbn [f_sched with_sched f_blocks run_fibers]. rewrite Hc. apply data_found.
Qed.

Lemma check_and_end i s s' m evs ph a n h :
  current_handle (thread_finish s' i 0) = h -> ph !! i = Some (TYielded (Some a)) ->
  le_val (mem_read m a 4) = tls_value i ->
  tls_body i s' (MkTls (run_fibers s m evs) ph n) =
    Some (thread_finish s' i 0,
          MkTls (run_fibers (thread_finish s' i 0) m (evs ++ [FiberTls.MkEvent h 0 kReasonThreadDetach])) (<[i := TEnded]> ph) (n + 1)).
Proof.
  intros <- Hp Hv. unfold tls_body. cbn [tw_phases tw_fibers tw_writes]. rewrite Hp.
  unfold tls_check. cbn [f_mem with_sched run_fibers]. by rewrite Hv, Z.eqb_refl.
Qed.

Lemma tls_run s m evs :
  exists s', run_until_complete tls_body 5 (run_sched None 0 0 Ready false 0 Ready false 0)
    (MkTls (run_fibers s m evs) [TStart; TStart] 0) =
  Some (true, run_sched None 0 4 Finished true 2 Finished true 2,
        MkTls (run_fibers s' (store2 (store1 m))
                 ((evs ++ [FiberTls.MkEvent 1 0 kReasonThreadDetach]) ++ [FiberTls.MkEvent 2 0 kReasonThreadDetach]))
              [TEnded; TEnded] 4).
Proof.
  destruct (stored_values m) as [V1 V2]. eexists. cbn [run_until_complete].
  erewrite (dispatch tls_body (run_sched None 0 0 Ready false 0 Ready false 0) _
             0%nat (run_sched None 1 0 Ready false 0 Ready false 0)
             (run_sched (Some 0%nat) 1 1 Running true 1 Ready false 0) _ _
             (run_sched None 1 1 Ready true 1 Ready false 0)); [|reflexivity..|by apply store_first|reflexivity].
  erewrite (dispatch tls_body (run_sched None 1 1 Ready true 1 Ready false 0) _
             1%nat (run_sched None 0 1 Ready true 1 Ready false 0)
             (run_sched (Some 1%nat) 0 2 Ready true 1 Running true 1) _ _
             (run_sched None 0 2 Ready true 1 Ready true 1)); [|reflexivity..|by apply store_second|reflexivity].
  erewrite (dispatch tls_body (run_sched None 0 2 Ready true 1 Ready true 1) _
             0%nat (run_sched None 1 2 Ready true 1 Ready true 1)
             (run_sched (Some 0%nat) 1 3 Ready true 2 Ready true 1) _ _
             (run_sched None 1 3 Finished true 2 Ready true 1)); [|reflexivity..|by apply (check_and_end 0 _ _ _ _ _ slot1 _ 1)|reflexivity].
  erewrite (dispatch tls_body (run_sched None 1 3 Finished true 2 Ready true 1) _
             1%nat (run_sched None 0 3 Finished true 2 Ready true 1)
             (run_sched (Some 1%nat) 0 4 Finished true 2 Ready true 2) _ _
             (run_sched None 0 4 Finished true 2 Finished true 2)); [|reflexivity..|by apply (check_and_end 1 _ _ _ _ _ slot2 _ 2)|reflexivity].
  reflexivity.
Qed.

(** Storage of a fiber's own survives the switches to the other: whatever the
    template, if it holds the eight bytes the two fibers use, both find what
    they stored, all four accesses are counted, both fibers end, and each is
    notified of its attach (the first as the process) and of its detach. *)
Theorem tls_survives_switches :
  exists s w, tls_block 5 init = Some (true, s, w) /\ tw_writes w = 4 /\ finished_count s = 2 /\
    switches_total s = 4 /\
    f_events (tw_fibers w) =
      attach_events init 1 kReasonProcessAttach ++ attach_events init 2 kReasonThreadAttach ++
      [FiberTls.MkEvent 1 0 kReasonThreadDetach; FiberTls.MkEvent 2 0 kReasonThreadDetach] /\
    le_val (mem_read (f_mem (tw_fibers w)) slot1 4) = 0x11111111 /\
    le_val (mem_read (f_mem (tw_fibers w)) slot2 4) = 0x22222222.
Proof.
  unfold tls_block, set_init. rewrite (proj2 (Z.leb_gt _ _) Hindex).
  change (with_init new_fibers (Some init)) with (MkFibers new_sched [] ∅ (Some init) [] [] false false).
  rewrite (spawn_record new_sched [] ∅ [] [] false "game.main" 1 false) by (done || lia).
  rewrite (spawn_record _ [TlsHook] _ _ _ true "game.work" 2 true) by (done || lia).
  cbn [f_sched]. match goal with |- context [MkTls (MkFibers ?s _ ?m _ ?evs _ _ _) _ _] =>
    destruct (tls_run s m evs) as [s' E]; destruct (stored_values m) as [V1 V2] end.
  eexists _, _. split; [exact E|]. cbn [tw_writes tw_fibers f_events f_mem run_fibers].
  split; [done|]. split; [done|]. split; [done|]. split; [|by split]. by rewrite !app_nil_l, <- !app_assoc.
Qed.

End tls.

(** A template that was read is as long as its two parts. *)
Lemma template_length l t out :
  XbeImage.tls (LoadedXbe.l_image l) = Some t -> is_u32 (XbeImage.zero_fill t) ->
  XbeImage.raw_size t + XbeImage.zero_fill t < 2 ^ 32 -> LoadedXbe.tls_template l = Ok out ->
  out = [] \/ zlen out = XbeImage.raw_size t + XbeImage.zero_fill t.
Proof.
  intros Ht Hz Hs. unfold LoadedXbe.tls_template. rewrite Ht. unfold is_u32 in Hz.
  assert (0 <= XbeImage.raw_size t) by apply u32_range. rewrite u32_small by lia.
  destruct (Z.ltb_spec 0 (XbeImage.raw_size t)).
  - destruct (XbeRam.read_bytes _ _ _) as [bs|] eqn:Eb; [|intros [= <-]; by left].
    rewrite (proj2 (Z.ltb_ge _ _)) by lia. intros [= <-]. right. apply XbeRam.read_bytes_inv in Eb as [_ ->].
    rewrite length_app, length_mem_read, length_replicate. lia.
  - intros [= <-]. right. rewrite length_replicate. lia.
Qed.

(** The storage the program gives a fiber is valid, and counts the zero fill of
    the image twice. *)
Theorem program_zero_fills_twice l t init l' :
  XbeImage.tls (LoadedXbe.l_image l) = Some t -> is_u32 (XbeImage.zero_fill t) ->
  XbeImage.raw_size t + XbeImage.zero_fill t < 2 ^ 32 -> tls_init_of l = Ok (Some (init, l')) ->
  FiberTls.init_ok init /\ FiberTls.index init < FiberTls.kSlots /\
  (FiberTls.raw init <> [] -> FiberTls.init_size init = XbeImage.raw_size t + 2 * XbeImage.zero_fill t).
Proof.
  intros Ht Hz Hs. unfold tls_init_of. rewrite Ht. destruct (LoadedXbe.tls_template l) as [raw| |] eqn:Er; [|done..].
  intros [= <- _]. pose proof (template_length l t raw Ht Hz Hs Er) as Hl.
  assert (0 <= XbeImage.raw_size t) by apply u32_range. unfold is_u32 in Hz.
  unfold FiberTls.init_ok, FiberTls.init_size, FiberTls.kSlots, is_u32. cbn [FiberTls.raw FiberTls.zero_fill FiberTls.index].
  assert (zlen raw < 2 ^ 63) by (destruct Hl as [->|Hl]; [cbn|]; lia).
  split_and!; try lia. intros Hne. destruct Hl as [->|Hl]; [done|]. rewrite Hl, u64_small; lia.
Qed.

(** ** The entry point on the guest CPU *)

Section guest.
Import XbeRam KrnlState KrnlCall KrnlSpec CpuRuntime UnicornRt GuestCpu.
Context `{os : HostOS} `{eng : Unicorn}.

(** What is printed: a failure with its message, or the outcome of the run. *)
Inductive cpu_report := AttachFailed (err : string) | Ran (r : option (outcome round_out)).

(** The CPU of the program is the only one registered. It is taken out of the
    registry while it runs, as [GuestCpu.machine] has it. *)
Definition take_cpu (t : rt) (c : cpu) : machine :=
  match rt_cpus t with
  | (_, c') :: l => MkM c' (with_cpus t l)
  | [] => MkM c t
  end.

(** The kernel starts without a thread runner; the runtime installs one. *)
Definition cpu_block (es : nat -> env) (fuel : nat) (i : XbeImage.image) (r : ram) : outcome cpu_report :=
  let! p := install_thunks i (new_kernel r new_sched false true) in
  let t := new_runtime (snd p) in
  let! p := set_image t i in
  let! p := build_teb (snd p) in
  let (teb, t) := p in
  match attach (rt_ram t) (set_teb new_cpu teb) with
  | None => Ub "the scan at attach does not end"
  | Some (Some err, _) => Ok (AttachFailed err)
  | Some (None, c) =>
      let t := register_cpu t 0 c in
      if has_tls_template t then
        let! p := alloc_stack t 0x40000 in
        let (stack, t) := p in
        Ok (Ran (run es fuel (take_cpu t c) (XbeImage.entry_va i) stack 2000000))
      else Ok (AttachFailed "")
  end.

(** *** The CPU that runs is an attached one *)

Lemma take_cpu_attached t n p t' c :
  is_Some (c_uc c) -> rt_cpus t = [] -> alloc_stack (register_cpu t 0 c) n = Ok (p, t') ->
  is_Some (c_uc (m_cpu (take_cpu t' c))).
Proof.
  intros Hc Ht E. apply alloc_stack_remaps in E as (_ & _ & _ & E). cbn [register_cpu with_cpus rt_cpus] in E.
  rewrite Ht in E. unfold take_cpu. destruct E as [-> |(m & va & size & ro & ->)]; [done|]. by apply map_on_same_cpu.
Qed.

Lemma set_image_keeps t i o t' :
  set_image t i = Ok (o, t') ->
  rt_cpus t' = rt_cpus t /\ (XbeImage.tls i = None -> t' = t).
Proof.
  unfold set_image, LoadedXbe.has_tls. cbn [LoadedXbe.l_image].
  destruct (XbeImage.tls i); cbn [negb]; [|by intros [= <- <-]].
  destruct (LoadedXbe.tls_template _); cbn [obind]; [|done..]. by intros [= <- <-].
Qed.

Context `{laws : !RunLaws eng}.

(** What the program reports of the guest is true: guest code runs only for an
    image with a TLS directory; it executes at most the two million
    instructions it was given; a clean exit means that the guest jumped to the
    exit address with no fault recorded, and any other end left a fault. *)
Theorem guest_report_is_true (es : nat -> env) (fuel : nat) (i : XbeImage.image) (r : ram) (x : option (outcome round_out)) :
  cpu_block es fuel i r = Ok (Ran x) ->
  XbeImage.tls i <> None /\
  forall y, x = Some (Ok y) -> c_instr (m_cpu (machine_of y)) <= 2000000 /\ verdict y.
Proof.
  unfold cpu_block. destruct (install_thunks _ _) as [[slots k]| |]; cbn [obind snd]; [|done..].
  destruct (set_image _ i) as [[o t]| |] eqn:Ei; cbn [obind snd]; [|done..].
  destruct (build_teb t) as [[teb t1]| |] eqn:Et; cbn [obind]; [|done..].
  destruct (attach _ _) as [[[err|] c]|] eqn:Ea; [done| |done].
  apply set_image_keeps in Ei as [Ec Hno]. apply build_teb_remaps in Et as (_ & Er & Ez & Ecs).
  apply attach_new in Ea as [Ea _]. assert (Hnil : rt_cpus t1 = []).
  { destruct Ecs as [-> |(? & ? & ? & ? & ->)]; by rewrite Ec. }
  destruct (has_tls_template _) eqn:Eh; [|done].
  destruct (alloc_stack _ _) as [[stack t2]| |] eqn:Es; cbn [obind]; [|done..]. intros [= <-]. split.
  - intros Hn. specialize (Hno Hn). subst t. unfold has_tls_template in Eh. cbn [register_cpu with_cpus rt_raw rt_zerofill] in Eh.
    by rewrite Er, Ez in Eh.
  - intros y Hy. destruct (take_cpu_attached _ _ _ _ _ Ea Hnil Es) as [u Hu].
    unfold run in Hy. rewrite Hu in Hy. split.
    + eapply run_loop_budget; [..|exact Hy]; [by eexists|cbn; lia|lia].
    + eapply run_loop_verdict; [|exact Hy]. by eexists.
Qed.

End guest.

(** ** Runs on the sample image *)

(** The sample has 32 bytes of template and 16 of zero fill, and each fiber gets
    64 bytes. *)
Example sample_tls :
  match LoadedXbe.load XbeImage.demo_file with
  | Ok l => match tls_init_of l with
            | Ok (Some (init, _)) => (FiberTls.init_size init, match tls_block FiberTls.demo_base 5 init with
                                       | Some (b, s, w) => (b, tw_writes w, finished_count s) | None => (false, 0, 0) end)
            | _ => (0, (false, 0, 0)) end
  | _ => (0, (false, 0, 0))
  end = (64, (true, 4, 2)).
Proof. vm_compute. reflexivity. Qed.

Lemma tls_survives_switches_witness :
  exists s w, tls_block FiberTls.demo_base 5 FiberTls.demo_init = Some (true, s, w) /\ tw_writes w = 4.
Proof.
  destruct (tls_survives_switches FiberTls.demo_base FiberTls.demo_init) as (s & w & H1 & H2 & _).
  - split_and!; vm_compute; try done.
  - vm_compute. done.
  - vm_compute. done.
  - apply FiberTls.demo_mappings. lia.
  - vm_compute. done.
  - exists s, w. split; [exact H1|exact H2].
Defined.

(** The sizes of the sample's template, and that its raw part was read. *)
Definition sample_sizes : option (Z * Z) :=
  (fun t => (XbeImage.raw_size t, XbeImage.zero_fill t)) <$> XbeImage.tls (LoadedXbe.l_image LoadedXbe.demo_loaded).
Definition template_read (o : outcome (option (FiberTls.Init * LoadedXbe.loaded))) : bool :=
  match o with Ok (Some (init, _)) => (0 <? length (FiberTls.raw init))%nat | _ => false end.

Lemma program_zero_fills_twice_witness :
  exists init l', tls_init_of LoadedXbe.demo_loaded = Ok (Some (init, l')) /\
    FiberTls.init_size init = 32 + 2 * 16.
Proof.
  assert (Hs : sample_sizes = Some (32, 16)) by (vm_compute; reflexivity).
  assert (Hr : template_read (tls_init_of LoadedXbe.demo_loaded) = true) by (vm_compute; reflexivity).
  unfold sample_sizes in Hs. destruct (XbeImage.tls _) as [t|] eqn:Et; [|discriminate Hs].
  cbn [fmap option_fmap option_map] in Hs. injection Hs as Hraw Hz.
  destruct (tls_init_of _) as [[[init l']|]| |] eqn:E; try discriminate Hr.
  exists init, l'. split; [reflexivity|].
  destruct (program_zero_fills_twice _ t init l' Et) as (_ & _ & H);
    [rewrite Hz; unfold is_u32; lia|rewrite Hraw, Hz; lia|exact E|].
  rewrite Hraw, Hz in H. apply H. intros Hn. cbn in Hr. by rewrite Hn in Hr.
Defined.

(** The sample on an engine whose guest calls one import and exits. *)
Section sample.
Import CpuRuntime GuestCpu.
#[local] Existing Instance call_engine.
#[local] Existing Instance call_run_laws.

Definition sample_report : outcome cpu_report :=
  cpu_block (fun _ => any_env) 3 (LoadedXbe.l_image LoadedXbe.demo_loaded) (LoadedXbe.l_ram LoadedXbe.demo_loaded).

Definition sample_tag (o : outcome cpu_report) : option (bool * Z * list Z) :=
  match o with
  | Ok (Ran (Some (Ok (RDone b m)))) => Some (b, c_instr (m_cpu m), c_served (m_cpu m))
  | _ => None
  end.

Example sample_guest : sample_tag sample_report = Some (true, 2, [5]).
Proof. vm_compute. reflexivity. Qed.

Lemma guest_report_is_true_witness :
  exists y, sample_report = Ok (Ran (Some (Ok y))) /\ c_instr (m_cpu (machine_of y)) <= 2000000 /\ verdict y.
Proof.
  pose proof sample_guest as G.
  destruct sample_report as [[err|[[[b m|? ?|? ? ?|?]| |]|]]| |] eqn:E; cbn [sample_tag] in G; try discriminate G.
  unfold sample_report in E. exists (RDone b m). split; [reflexivity|].
  destruct (guest_report_is_true _ _ _ _ _ E) as [_ H]. exact (H _ eq_refl).
Defined.
End sample.

End MainXbe.
