(* ===== verification/CLayout.v ===== *)
(** Layout of C data on the guest (ia32, the structure rules of [#pragma
    ms_struct]): sizes, alignments and offsets of the types the reference
    headers of the Xbox kernel declare, and what a call takes from the stack. *)
From stdpp Require Import base numbers list strings.
From Stdlib Require Import ZArith Lia.
From S2P Require Import Prelude.
Open Scope Z_scope.

Module CLayout.

(** ** Types *)

(** Integers by their width, pointers, arrays, structures and unions. An
    anonymous member has the empty name. *)
Inductive ctype :=
  | Int (bytes : Z)
  | Ptr
  | Arr (t : ctype) (n : Z)
  | Struct (fields : list (string * ctype))
  | Union (members : list (string * ctype)).

(** Induction with the fields at hand. *)
Section induction.
Context (P : ctype -> Prop).
Context (HInt : forall n, P (Int n)) (HPtr : P Ptr) (HArr : forall t n, P t -> P (Arr t n)).
Context (HStruct : forall fs, Forall (fun f => P (snd f)) fs -> P (Struct fs)).
Context (HUnion : forall fs, Forall (fun f => P (snd f)) fs -> P (Union fs)).

Fixpoint ctype_rect' (t : ctype) : P t :=
  let all := fix all (fs : list (string * ctype)) : Forall (fun f => P (snd f)) fs :=
    match fs with
    | [] => List.Forall_nil _
    | f :: fs' => List.Forall_cons _ f fs' (ctype_rect' (snd f)) (all fs')
    end in
  match t with
  | Int n => HInt n
  | Ptr => HPtr
  | Arr t n => HArr t n (ctype_rect' t)
  | Struct fs => HStruct fs (all fs)
  | Union fs => HUnion fs (all fs)
  end.
End induction.

(** ** Sizes, alignments, offsets *)

(** The next multiple of [a] from [n] on. *)
Definition pad (a n : Z) : Z := (n + a - 1) `div` a * a.

Fixpoint alignof (t : ctype) : Z :=
  match t with
  | Int n => n
  | Ptr => 4
  | Arr t _ => alignof t
  | Struct fs | Union fs => foldr (fun f a => Z.max (alignof (snd f)) a) 1 fs
  end.

(** Where a run of fields that starts at [off] ends. *)
Definition fields_end (size : ctype -> Z) (off : Z) (fs : list (string * ctype)) : Z :=
  foldl (fun o f => pad (alignof (snd f)) o + size (snd f)) off fs.

Fixpoint sizeof (t : ctype) : Z :=
  match t with
  | Int n => n
  | Ptr => 4
  | Arr t n => n * sizeof t
  | Struct fs =>
      pad (alignof t) (foldl (fun o f => pad (alignof (snd f)) o + sizeof (snd f)) 0 fs)
  | Union fs => pad (alignof t) (foldr (fun f m => Z.max (sizeof (snd f)) m) 0 fs)
  end.

(** The offset of field [i] of a structure. *)
Definition offset_at (fs : list (string * ctype)) (i : nat) : option Z :=
  (fun f => pad (alignof (snd f)) (fields_end sizeof 0 (take i fs))) <$> fs !! i.

Definition has_name (n : string) (f : string * ctype) : bool := String.eqb n (fst f).

(** The first field of that name: its offset and its type. *)
Definition field (t : ctype) (n : string) : option (Z * ctype) :=
  match t with
  | Struct fs =>
      p ← list_find (has_name n) fs;
      off ← offset_at fs (fst p);
      Some (off, snd (snd p))
  | Union fs => p ← list_find (has_name n) fs; Some (0, snd (snd p))
  | _ => None
  end.

(** [__builtin_offsetof] with a path of member names. *)
Fixpoint offsetof (t : ctype) (path : list string) : option (Z * ctype) :=
  match path with
  | [] => Some (0, t)
  | n :: path' =>
      p ← field t n;
      q ← offsetof (snd p) path';
      Some (fst p + fst q, snd q)
  end.

(** An argument takes whole stack slots. *)
Definition arg_size (t : ctype) : Z := pad 4 (sizeof t).
Definition args_size (l : list ctype) : Z := foldr (fun t n => arg_size t + n) 0 l.

(** The types C can lay out: integers of 1, 2, 4 or 8 bytes. *)
Fixpoint wf (t : ctype) : bool :=
  match t with
  | Int n => (n =? 1) || (n =? 2) || (n =? 4) || (n =? 8)
  | Ptr => true
  | Arr t n => (0 <=? n) && wf t
  | Struct fs | Union fs => forallb (fun f => wf (snd f)) fs
  end.

(** ** Lemmas *)

Definition is_align (a : Z) : Prop := a = 1 \/ a = 2 \/ a = 4 \/ a = 8.

Lemma align_pos a : is_align a -> 0 < a.
Proof. unfold is_align. lia. Qed.

Lemma is_align_max a b : is_align a -> is_align b -> is_align (Z.max a b).
Proof. unfold is_align. lia. Qed.

(** Alignments divide every larger one. *)
Lemma align_divide a b : is_align a -> is_align b -> a <= b -> (a | b).
Proof. intros [->|[->|[->| ->]]] [->|[->|[->| ->]]] H; (by exists 1) || (by exists 2) || (by exists 4) || (by exists 8) || lia. Qed.

Lemma pad_spec a n : 0 < a -> n <= pad a n < n + a /\ (a | pad a n).
Proof.
  intros Ha. unfold pad. pose proof (Z.div_mod (n + a - 1) a). pose proof (Z.mod_pos_bound (n + a - 1) a Ha).
  split; [nia|]. apply Z.divide_factor_r.
Qed.

Lemma align_struct (fs : list (string * ctype)) : Forall (fun f : string * ctype => is_align (alignof (snd f))) fs ->
  let a := foldr (fun f a => Z.max (alignof (snd f)) a) 1 fs in
  is_align a /\ Forall (fun f => alignof (snd f) <= a) fs.
Proof.
  induction 1 as [|f fs Hf _ [IH1 IH2]]; cbn [foldr]; [by split; [left|]|].
  split; [by apply is_align_max|]. constructor; [lia|].
  eapply Forall_impl; [exact IH2|]. cbn. intros g. lia.
Qed.

Lemma forallb_Forall {A} (f : A -> bool) l : forallb f l = true -> Forall (fun x => f x = true) l.
Proof. induction l as [|x l IH]; cbn; [by constructor|]. intros [? ?]%andb_true_iff. by constructor; auto. Qed.

Lemma Forall_apply {A} (P Q : A -> Prop) l : Forall (fun x => P x -> Q x) l -> Forall P l -> Forall Q l.
Proof. intros H. induction H; inversion 1; constructor; auto. Qed.

Lemma alignof_ok t : wf t = true -> is_align (alignof t).
Proof.
  induction t as [n| |t n IH|fs IH|fs IH] using ctype_rect'; cbn [wf alignof]; intros H.
  - unfold is_align. lia.
  - by right; right; left.
  - apply andb_true_iff in H as [_ H]. by apply IH.
  - apply align_struct. apply forallb_Forall in H. exact (Forall_apply _ _ _ IH H).
  - apply align_struct. apply forallb_Forall in H. exact (Forall_apply _ _ _ IH H).
Qed.

Lemma alignof_pos t : wf t = true -> 0 < alignof t.
Proof. intros H%alignof_ok. by apply align_pos. Qed.

(** A size is a multiple of the alignment, so arrays stay aligned. *)
Lemma sizeof_ok t : wf t = true -> 0 <= sizeof t /\ (alignof t | sizeof t).
Proof.
  induction t as [n| |t n IH|fs IH|fs IH] using ctype_rect'; intros H; pose proof (alignof_pos _ H) as Ha.
  - cbn in *. split; [lia|done].
  - by split; [|exists 1].
  - cbn [wf] in H. apply andb_true_iff in H as [Hn%Z.leb_le H]. destruct (IH H) as [I1 I2]. cbn [sizeof alignof]. split; [nia|]. by apply Z.divide_mul_r.
  - cbn [sizeof]. match goal with |- context [pad _ ?x] => destruct (pad_spec (alignof (Struct fs)) x Ha) as [Hb Hd]; assert (0 <= x) end; [|by split; [lia|]].
    clear Ha Hb Hd. cbn [wf] in H. apply forallb_Forall in H.
    assert (Hg : forall o, 0 <= o -> 0 <= foldl (fun o f => pad (alignof (snd f)) o + sizeof (snd f)) o fs); [|by apply Hg].
    induction fs as [|f fs IHf]; intros o Ho; cbn [foldl]; [done|].
    apply Forall_cons in IH as [I1 I2]. apply Forall_cons in H as [H1 H2].
    apply IHf; [done..|]. destruct (I1 H1) as [Hs _]. pose proof (pad_spec (alignof (snd f)) o (alignof_pos _ H1)). lia.
  - cbn [sizeof]. match goal with |- context [pad _ ?x] => destruct (pad_spec (alignof (Union fs)) x Ha) as [Hb Hd]; assert (0 <= x) end; [|by split; [lia|]].
    clear. induction fs as [|f fs IHf]; cbn [foldr]; lia.
Qed.

Lemma fields_end_mono (fs : list (string * ctype)) off :
  forallb (fun f => wf (snd f)) fs = true -> off <= fields_end sizeof off fs.
Proof.
  unfold fields_end. revert off; induction fs as [|f fs IH]; intros off H; cbn [foldl]; [lia|].
  cbn in H. apply andb_true_iff in H as [H1 H2].
  pose proof (pad_spec (alignof (snd f)) off (alignof_pos _ H1)) as [? _]. destruct (sizeof_ok _ H1).
  etrans; [|by apply IH]. lia.
Qed.

Lemma fields_end_take (fs : list (string * ctype)) i f :
  fs !! i = Some f ->
  fields_end sizeof 0 (take (S i) fs) = pad (alignof (snd f)) (fields_end sizeof 0 (take i fs)) + sizeof (snd f).
Proof. intros H. unfold fields_end. by rewrite (take_S_r _ _ _ H), foldl_app. Qed.

Lemma forallb_sub {A} (f : A -> bool) l1 l2 : forallb f (l1 ++ l2) = true -> forallb f l1 = true /\ forallb f l2 = true.
Proof. rewrite forallb_app. apply andb_true_iff. Qed.

Lemma fields_end_split (fs : list (string * ctype)) i :
  forallb (fun f => wf (snd f)) fs = true -> fields_end sizeof 0 (take i fs) <= fields_end sizeof 0 fs.
Proof.
  intros H. rewrite <- (take_drop i fs) in H at 1. apply forallb_sub in H as [_ H].
  rewrite <- (take_drop i fs) at 2. unfold fields_end at 2. rewrite foldl_app. by apply fields_end_mono.
Qed.

(** Fields lie inside the structure, aligned. *)
Lemma offset_at_ok (fs : list (string * ctype)) i f o :
  wf (Struct fs) = true -> fs !! i = Some f -> offset_at fs i = Some o ->
  0 <= o /\ o + sizeof (snd f) <= sizeof (Struct fs) /\ (alignof (snd f) | o) /\ wf (snd f) = true.
Proof.
  intros H Hf. unfold offset_at. rewrite Hf. cbn [fmap option_fmap option_map]. intros [= <-].
  pose proof H as H'. cbn [wf] in H'.
  assert (Hw : wf (snd f) = true) by (apply forallb_Forall in H'; by eapply Forall_lookup_1 in H').
  destruct (pad_spec (alignof (snd f)) (fields_end sizeof 0 (take i fs)) (alignof_pos _ Hw)) as [Hp Hd].
  pose proof (fields_end_split fs (S i) H') as Hs. rewrite (fields_end_take _ _ _ Hf) in Hs.
  pose proof (pad_spec (alignof (Struct fs)) (fields_end sizeof 0 fs) (alignof_pos _ H)) as [Hz _].
  assert (0 <= fields_end sizeof 0 (take i fs)).
  { apply fields_end_mono. rewrite <- (take_drop i fs) in H' at 1. by apply forallb_sub in H' as [? _]. }
  change (sizeof (Struct fs)) with (pad (alignof (Struct fs)) (fields_end sizeof 0 fs)). split_and!; try done; lia.
Qed.

Lemma union_fits fs i f :
  wf (Union fs) = true -> fs !! i = Some f -> sizeof (snd f) <= sizeof (Union fs) /\ wf (snd f) = true.
Proof.
  intros H Hf. pose proof (pad_spec (alignof (Union fs)) (foldr (fun f m => Z.max (sizeof (snd f)) m) 0 fs) (alignof_pos _ H)) as [Hz _].
  change (sizeof (Union fs)) with (pad (alignof (Union fs)) (foldr (fun f m => Z.max (sizeof (snd f)) m) 0 fs)).
  cbn [wf] in H. apply forallb_Forall in H. split; [|by eapply Forall_lookup_1 in H].
  assert (sizeof (snd f) <= foldr (fun f m => Z.max (sizeof (snd f)) m) 0 fs); [|lia].
  clear H Hz. revert i Hf; induction fs as [|g fs IH]; intros [|i]; cbn [lookup list_lookup foldr]; try done.
  - intros [= ->]. lia.
  - intros Hi%IH. lia.
Qed.

(** A member is no more aligned than what holds it. *)
Lemma member_align (fs : list (string * ctype)) i f :
  forallb (fun f => wf (snd f)) fs = true -> fs !! i = Some f ->
  alignof (snd f) <= foldr (fun f a => Z.max (alignof (snd f)) a) 1 fs.
Proof.
  intros H%forallb_Forall Hi. destruct (align_struct fs) as [_ Ha].
  - eapply Forall_impl; [exact H|]. intros g. apply alignof_ok.
  - by eapply Forall_lookup_1 in Ha.
Qed.

Lemma field_ok t n o u :
  wf t = true -> field t n = Some (o, u) ->
  0 <= o /\ o + sizeof u <= sizeof t /\ (alignof u | o) /\ alignof u <= alignof t /\ wf u = true.
Proof.
  intros H. destruct t as [| | |fs|fs]; try done; cbn [field]; intros ([i f] & Hl & Hf)%bind_Some;
    apply list_find_Some in Hl as (Hl & _); cbn [fst snd] in Hf; pose proof (member_align fs i f H Hl).
  - apply bind_Some in Hf as (off & Ho & [= <- <-]). destruct (offset_at_ok _ _ _ _ H Hl Ho) as (? & ? & ? & ?). by split_and!.
  - injection Hf as <- <-. destruct (union_fits fs i f H Hl). split_and!; [lia..|by exists 0|done|done].
Qed.

(** ** Properties *)

(** A member designated by a path lies inside its structure, at a multiple of
    its own alignment. *)
Theorem members_lie_inside t path o u :
  wf t = true -> offsetof t path = Some (o, u) ->
  0 <= o /\ o + sizeof u <= sizeof t /\ (alignof u | o) /\ alignof u <= alignof t /\ wf u = true.
Proof.
  revert t o u; induction path as [|n path IH]; intros t o u H; cbn [offsetof].
  - intros [= <- <-]. split_and!; [lia..|by exists 0|lia|done].
  - intros ([o1 u1] & Hf & ([o2 u2] & Hp & [= <- <-])%bind_Some)%bind_Some. cbn [fst snd] in *.
    destruct (field_ok t n o1 u1 H Hf) as (S1 & S2 & S3 & S4 & S5).
    destruct (IH u1 o2 u2 S5 Hp) as (P1 & P2 & P3 & P4 & P5).
    split_and!; [lia..| |lia|done]. apply Z.divide_add_r; [|done].
    etrans; [|exact S3]. apply align_divide; auto using alignof_ok.
Qed.

(** Two fields of a structure never overlap. *)
Theorem fields_do_not_overlap fs i j f g o1 o2 :
  wf (Struct fs) = true -> (i < j)%nat -> fs !! i = Some f -> fs !! j = Some g ->
  offset_at fs i = Some o1 -> offset_at fs j = Some o2 -> o1 + sizeof (snd f) <= o2.
Proof.
  intros H Hij Hf Hg. unfold offset_at. rewrite Hf, Hg. cbn [fmap option_fmap option_map]. intros [= <-] [= <-].
  rewrite <- (fields_end_take _ _ _ Hf). cbn [wf] in H.
  assert (Ht : forallb (fun f => wf (snd f)) (take j fs) = true).
  { rewrite <- (take_drop j fs) in H at 1. by apply forallb_sub in H as [? _]. }
  pose proof (fields_end_split (take j fs) (S i) Ht) as Hs. rewrite take_take, Nat.min_l in Hs by lia.
  assert (Hw : wf (snd g) = true) by (apply forallb_Forall in H; by eapply Forall_lookup_1 in H).
  pose proof (pad_spec (alignof (snd g)) (fields_end sizeof 0 (take j fs)) (alignof_pos _ Hw)). lia.
Qed.

End CLayout.
