(* ===== verification/NxdkTypes.v ===== *)
(** Types of the Xbox kernel interface as the reference headers of the
    repository declare them (scripts/research/nxdk_xboxdef.h,
    nxdk_xboxkrnl.h): those that the kernel's functions and data mention and
    those whose fields the emulator reads or writes in guest memory. *)
From stdpp Require Import base numbers list strings.
From Stdlib Require Import ZArith Lia.
From S2P Require Import Prelude CLayout.
Open Scope Z_scope.
Open Scope string_scope.

Module NxdkTypes.
Import CLayout.

(** ** xboxdef.h *)

Definition PVOID : ctype := Ptr.
Definition HANDLE : ctype := PVOID.
Definition PHANDLE : ctype := Ptr.
Definition BOOLEAN : ctype := Int 1.
Definition PBOOLEAN : ctype := Ptr.
Definition SCHAR : ctype := Int 1.
Definition CHAR : ctype := Int 1.
Definition PCHAR : ctype := Ptr.
Definition CCHAR : ctype := Int 1.
Definition PCH : ctype := Ptr.
Definition SHORT : ctype := Int 2.
Definition LONG : ctype := Int 4.
Definition PLONG : ctype := Ptr.
Definition LONGLONG : ctype := Int 8.
Definition PLONGLONG : ctype := Ptr.
Definition BYTE : ctype := Int 1.
Definition UCHAR : ctype := Int 1.
Definition PUCHAR : ctype := Ptr.
Definition USHORT : ctype := Int 2.
Definition PUSHORT : ctype := Ptr.
Definition CSHORT : ctype := Int 2.
Definition WCHAR : ctype := Int 2.
Definition PWSTR : ctype := Ptr.
Definition DWORD : ctype := Int 4.
Definition ULONG : ctype := Int 4.
Definition PULONG : ctype := Ptr.
Definition ULONGLONG : ctype := Int 8.
Definition NTSTATUS : ctype := LONG.
Definition SIZE_T : ctype := Int 4.
Definition PSIZE_T : ctype := Ptr.
Definition PCSZ : ctype := Ptr.
Definition PCSTR : ctype := Ptr.
Definition ULONG_PTR : ctype := ULONG.
Definition LONG_PTR : ctype := LONG.
Definition PCONTEXT : ctype := Ptr.
Definition PEXCEPTION_RECORD : ctype := Ptr.
Definition STRING : ctype := Struct [("Length", USHORT); ("MaximumLength", USHORT); ("Buffer", PCHAR)].
Definition PSTRING : ctype := Ptr.
Definition ANSI_STRING : ctype := STRING.
Definition PANSI_STRING : ctype := Ptr.
Definition LARGE_INTEGER : ctype := Union [("", Struct [("LowPart", ULONG); ("HighPart", LONG)]);
  ("u", Struct [("LowPart", ULONG); ("HighPart", LONG)]); ("QuadPart", LONGLONG)].
Definition PLARGE_INTEGER : ctype := Ptr.
Definition ULARGE_INTEGER : ctype := Union [("", Struct [("LowPart", ULONG); ("HighPart", ULONG)]);
  ("u", Struct [("LowPart", ULONG); ("HighPart", ULONG)]); ("QuadPart", ULONGLONG)].
Definition LIST_ENTRY : ctype := Struct [("Flink", Ptr); ("Blink", Ptr)].
Definition PLIST_ENTRY : ctype := Ptr.
Definition RTL_CRITICAL_SECTION : ctype := Struct [("Synchronization", Union [("Event", Struct
  [("Type", UCHAR); ("Absolute", UCHAR); ("Size", UCHAR); ("Inserted", UCHAR); ("SignalState", LONG);
  ("WaitListHead", LIST_ENTRY)]); ("RawEvent", Arr ULONG 4)]); ("LockCount", LONG);
  ("RecursionCount", LONG); ("OwningThread", PVOID)].
Definition PRTL_CRITICAL_SECTION : ctype := Ptr.
Definition XBE_SECTION_HEADER : ctype := Struct [("Flags", DWORD); ("VirtualAddress", DWORD);
  ("VirtualSize", DWORD); ("FileAddress", DWORD); ("FileSize", DWORD); ("SectionName", PCSZ);
  ("SectionReferenceCount", LONG); ("HeadReferenceCount", Ptr); ("TailReferenceCount", Ptr);
  ("CheckSum", Arr BYTE 20)].
Definition PXBE_SECTION_HEADER : ctype := Ptr.

(** ** xboxkrnl.h *)

Definition KIRQL : ctype := UCHAR.
Definition PKIRQL : ctype := Ptr.
Definition PFN_COUNT : ctype := ULONG.
Definition KPRIORITY : ctype := LONG.
Definition DEVICE_TYPE : ctype := ULONG.
Definition LOGICAL : ctype := ULONG.
Definition PSZ : ctype := Ptr.
Definition PCWSTR : ctype := Ptr.
Definition ACCESS_MASK : ctype := ULONG.
Definition PACCESS_MASK : ctype := Ptr.
Definition KPROCESSOR_MODE : ctype := CCHAR.
Definition POBJECT_STRING : ctype := Ptr.
Definition PUNICODE_STRING : ctype := Ptr.
Definition PCUNICODE_STRING : ctype := Ptr.
Definition TIME_FIELDS : ctype := Struct [("Year", SHORT); ("Month", SHORT); ("Day", SHORT);
  ("Hour", SHORT); ("Minute", SHORT); ("Second", SHORT); ("Milliseconds", SHORT); ("Weekday", SHORT)].
Definition PTIME_FIELDS : ctype := Ptr.
Definition WAIT_TYPE : ctype := Int 4.
Definition PIO_STATUS_BLOCK : ctype := Ptr.
Definition FS_INFORMATION_CLASS : ctype := Int 4.
Definition PMEMORY_BASIC_INFORMATION : ctype := Ptr.
Definition FILE_INFORMATION_CLASS : ctype := Int 4.
Definition PFILE_NETWORK_OPEN_INFORMATION : ctype := Ptr.
Definition OBJECT_ATTRIBUTES : ctype := Struct [("RootDirectory", HANDLE); ("ObjectName", PANSI_STRING);
  ("Attributes", ULONG)].
Definition POBJECT_ATTRIBUTES : ctype := Ptr.
Definition EVENT_TYPE : ctype := Int 4.
Definition MM_STATISTICS : ctype := Struct [("Length", ULONG); ("TotalPhysicalPages", ULONG);
  ("AvailablePages", ULONG); ("VirtualMemoryBytesCommitted", ULONG); ("VirtualMemoryBytesReserved", ULONG);
  ("CachePagesCommitted", ULONG); ("PoolPagesCommitted", ULONG); ("StackPagesCommitted", ULONG);
  ("ImagePagesCommitted", ULONG)].
Definition PMM_STATISTICS : ctype := Ptr.
Definition LAUNCH_DATA_HEADER : ctype := Struct [("dwLaunchDataType", DWORD); ("dwTitleId", DWORD);
  ("szLaunchPath", Arr CHAR 520); ("dwFlags", DWORD)].
Definition LAUNCH_DATA_PAGE : ctype := Struct [("Header", LAUNCH_DATA_HEADER); ("Pad", Arr UCHAR 492);
  ("LaunchData", Arr UCHAR 3072)].
Definition PLAUNCH_DATA_PAGE : ctype := Ptr.
Definition DISPATCHER_HEADER : ctype := Struct [("Type", UCHAR); ("Absolute", UCHAR); ("Size", UCHAR);
  ("Inserted", UCHAR); ("SignalState", LONG); ("WaitListHead", LIST_ENTRY)].
Definition KDPC : ctype := Struct [("Type", CSHORT); ("Inserted", BOOLEAN); ("Padding", UCHAR);
  ("DpcListEntry", LIST_ENTRY); ("DeferredRoutine", PVOID); ("DeferredContext", PVOID);
  ("SystemArgument1", PVOID); ("SystemArgument2", PVOID)].
Definition PKDPC : ctype := Ptr.
Definition PRKDPC : ctype := Ptr.
Definition KTIMER : ctype := Struct [("Header", DISPATCHER_HEADER); ("DueTime", ULARGE_INTEGER);
  ("TimerListEntry", LIST_ENTRY); ("Dpc", PKDPC); ("Period", LONG)].
Definition PKTIMER : ctype := Ptr.
Definition PKPROCESS : ctype := Ptr.
Definition KAPC_STATE : ctype := Struct [("ApcListHead", Arr LIST_ENTRY 2); ("Process", PKPROCESS);
  ("KernelApcInProgress", UCHAR); ("KernelApcPending", UCHAR); ("UserApcPending", UCHAR);
  ("ApcQueueable", UCHAR)].
Definition PKQUEUE : ctype := Ptr.
Definition PRKQUEUE : ctype := Ptr.
Definition KWAIT_BLOCK : ctype := Struct [("WaitListEntry", LIST_ENTRY); ("Thread", Ptr); ("Object", PVOID);
  ("NextWaitBlock", Ptr); ("WaitKey", SHORT); ("WaitType", SHORT)].
Definition PKWAIT_BLOCK : ctype := Ptr.
Definition KAPC : ctype := Struct [("Type", SHORT); ("ApcMode", CHAR); ("Inserted", UCHAR); ("Thread", Ptr);
  ("ApcListEntry", LIST_ENTRY); ("KernelRoutine", PVOID); ("RundownRoutine", PVOID);
  ("NormalRoutine", PVOID); ("NormalContext", PVOID); ("SystemArgument1", PVOID);
  ("SystemArgument2", PVOID)].
Definition PRKAPC : ctype := Ptr.
Definition KSEMAPHORE : ctype := Struct [("Header", DISPATCHER_HEADER); ("Limit", LONG)].
Definition PRKSEMAPHORE : ctype := Ptr.
Definition KTHREAD : ctype := Struct [("Header", DISPATCHER_HEADER); ("MutantListHead", LIST_ENTRY);
  ("KernelTime", ULONG); ("StackBase", PVOID); ("StackLimit", PVOID); ("KernelStack", PVOID);
  ("TlsData", PVOID); ("State", UCHAR); ("Alerted", Arr UCHAR 2); ("Alertable", UCHAR); ("NpxState", UCHAR);
  ("Saturation", CHAR); ("Priority", SCHAR); ("Padding", UCHAR); ("ApcState", KAPC_STATE);
  ("ContextSwitches", ULONG); ("WaitStatus", LONG); ("WaitIrql", UCHAR); ("WaitMode", CHAR);
  ("WaitNext", UCHAR); ("WaitReason", UCHAR); ("WaitBlockList", PKWAIT_BLOCK);
  ("WaitListEntry", LIST_ENTRY); ("WaitTime", ULONG); ("KernelApcDisable", ULONG); ("Quantum", LONG);
  ("BasePriority", SCHAR); ("DecrementCount", UCHAR); ("PriorityDecrement", SCHAR); ("DisableBoost", UCHAR);
  ("NpxIrql", UCHAR); ("SuspendCount", CHAR); ("Preempted", UCHAR); ("HasTerminated", UCHAR);
  ("Queue", PKQUEUE); ("QueueListEntry", LIST_ENTRY); ("Timer", KTIMER); ("TimerWaitBlock", KWAIT_BLOCK);
  ("SuspendApc", KAPC); ("SuspendSemaphore", KSEMAPHORE); ("ThreadListEntry", LIST_ENTRY)].
Definition PKTHREAD : ctype := Ptr.
Definition PRKTHREAD : ctype := Ptr.
Definition TIMER_TYPE : ctype := Int 4.
Definition KINTERRUPT : ctype := Struct [("ServiceRoutine", PVOID); ("ServiceContext", PVOID);
  ("BusInterruptLevel", ULONG); ("Irql", ULONG); ("Connected", UCHAR); ("ShareVector", UCHAR);
  ("Mode", UCHAR); ("Padding7", UCHAR); ("ServiceCount", ULONG); ("DispatchCode", Arr ULONG 22)].
Definition PKINTERRUPT : ctype := Ptr.
Definition KSYSTEM_TIME : ctype := Struct [("LowPart", ULONG); ("High1Time", LONG); ("High2Time", LONG)].
Definition FIRMWARE_REENTRY : ctype := Int 4.
Definition OBJECT_TYPE : ctype := Struct [("AllocateProcedure", PVOID); ("FreeProcedure", PVOID);
  ("CloseProcedure", PVOID); ("DeleteProcedure", PVOID); ("ParseProcedure", PVOID);
  ("DefaultObject", PVOID); ("PoolTag", ULONG)].
Definition POBJECT_TYPE : ctype := Ptr.
Definition PKDEFERRED_ROUTINE : ctype := Ptr.
Definition KDEVICE_QUEUE : ctype := Struct [("Type", SHORT); ("Size", UCHAR); ("Busy", UCHAR);
  ("DeviceListHead", LIST_ENTRY)].
Definition PKDEVICE_QUEUE : ctype := Ptr.
Definition PKSTART_ROUTINE : ctype := Ptr.
Definition PFILE_SEGMENT_ELEMENT : ctype := Ptr.
Definition PIO_APC_ROUTINE : ctype := Ptr.
Definition SEMAPHORE_BASIC_INFORMATION : ctype := Struct [("CurrentCount", LONG); ("MaximumCount", LONG)].
Definition PSEMAPHORE_BASIC_INFORMATION : ctype := Ptr.
Definition MUTANT_BASIC_INFORMATION : ctype := Struct [("CurrentCount", LONG); ("OwnedByCaller", UCHAR);
  ("AbandonedState", UCHAR)].
Definition PMUTANT_BASIC_INFORMATION : ctype := Ptr.
Definition PIO_COMPLETION_BASIC_INFORMATION : ctype := Ptr.
Definition EVENT_BASIC_INFORMATION : ctype := Struct [("EventType", EVENT_TYPE); ("EventState", LONG)].
Definition PEVENT_BASIC_INFORMATION : ctype := Ptr.
Definition PPS_STATISTICS : ctype := Ptr.
Definition ETHREAD : ctype := Struct [("Tcb", KTHREAD); ("CreateTime", LARGE_INTEGER);
  ("ExitTime", LARGE_INTEGER); ("", Union [("ExitStatus", NTSTATUS); ("OfsChain", PVOID)]); ("", Union
  [("ReaperListEntry", LIST_ENTRY); ("ActiveTimerListHead", LIST_ENTRY)]); ("UniqueThread", HANDLE);
  ("StartAddress", PVOID); ("IrpList", LIST_ENTRY); ("DebugData", PVOID)].
Definition PCREATE_THREAD_NOTIFY_ROUTINE : ctype := Ptr.
Definition KINTERRUPT_MODE : ctype := Int 4.
Definition PKSERVICE_ROUTINE : ctype := Ptr.
Definition PTIMER_BASIC_INFORMATION : ctype := Ptr.
Definition PTIMER_APC_ROUTINE : ctype := Ptr.
Definition XBOX_KRNL_VERSION : ctype := Struct [("Major", USHORT); ("Minor", USHORT); ("Build", USHORT);
  ("Qfe", USHORT)].
Definition XBOX_HARDWARE_INFO : ctype := Struct [("Flags", ULONG); ("GpuRevision", UCHAR);
  ("McpRevision", UCHAR); ("reserved", Arr UCHAR 2)].
Definition XBOX_KEY_DATA : ctype := Arr UCHAR 16.
Definition PGENERIC_MAPPING : ctype := Ptr.
Definition PSINGLE_LIST_ENTRY : ctype := Ptr.
Definition PSLIST_HEADER : ctype := Ptr.
Definition KEVENT : ctype := Struct [("Header", DISPATCHER_HEADER)].
Definition PKEVENT : ctype := Ptr.
Definition PRKEVENT : ctype := Ptr.
Definition PKDEVICE_QUEUE_ENTRY : ctype := Ptr.
Definition PFILE_OBJECT : ctype := Ptr.
Definition PIRP : ctype := Ptr.
Definition PDRIVER_OBJECT : ctype := Ptr.
Definition PDEVICE_OBJECT : ctype := Ptr.
Definition PERWLOCK : ctype := Ptr.
Definition PKFLOATING_SAVE : ctype := Ptr.
Definition PHARDWARE_PTE : ctype := Ptr.
Definition PPS_APC_ROUTINE : ctype := Ptr.
Definition KWAIT_REASON : ctype := Int 4.
Definition KMUTANT : ctype := Struct [("Header", DISPATCHER_HEADER); ("MutantListEntry", LIST_ENTRY);
  ("OwnerThread", PRKTHREAD); ("Abandoned", BOOLEAN)].
Definition PRKMUTANT : ctype := Ptr.
Definition PSHARE_ACCESS : ctype := Ptr.
Definition PKSYNCHRONIZE_ROUTINE : ctype := Ptr.
Definition PKRUNDOWN_ROUTINE : ctype := Ptr.
Definition PKNORMAL_ROUTINE : ctype := Ptr.
Definition PKKERNEL_ROUTINE : ctype := Ptr.
Definition PHAL_SHUTDOWN_REGISTRATION : ctype := Ptr.
Definition PCRYPTO_VECTOR : ctype := Ptr.
Definition OBJECT_HANDLE_TABLE : ctype := Struct [("HandleCount", LONG); ("FirstFreeTableEntry", LONG_PTR);
  ("NextHandleNeedingPool", HANDLE); ("RootTable", Ptr); ("BuiltinRootTable", Arr Ptr 8)].
Definition PMMPFNREGION : ctype := Ptr.
Definition PMMPTERANGE : ctype := Ptr.
Definition MMGLOBALDATA : ctype := Struct [("RetailPfnRegion", PMMPFNREGION);
  ("SystemPteRange", PMMPTERANGE); ("AvailablePages", PULONG); ("AllocatedPagesByUsage", Ptr);
  ("AddressSpaceLock", PRTL_CRITICAL_SECTION); ("VadRoot", Ptr); ("VadHint", Ptr); ("VadFreeHint", Ptr)].
Definition PIDE_INTERRUPT_ROUTINE : ctype := Ptr.
Definition PIDE_FINISHIO_ROUTINE : ctype := Ptr.
Definition PIDE_POLL_RESET_COMPLETE_ROUTINE : ctype := Ptr.
Definition PIDE_TIMEOUT_EXPIRED_ROUTINE : ctype := Ptr.
Definition PIDE_START_PACKET_ROUTINE : ctype := Ptr.
Definition PIDE_START_NEXT_PACKET_ROUTINE : ctype := Ptr.
Definition IDE_CHANNEL_OBJECT : ctype := Struct [("InterruptRoutine", PIDE_INTERRUPT_ROUTINE);
  ("FinishIoRoutine", PIDE_FINISHIO_ROUTINE);
  ("PollResetCompleteRoutine", PIDE_POLL_RESET_COMPLETE_ROUTINE);
  ("TimeoutExpiredRoutine", PIDE_TIMEOUT_EXPIRED_ROUTINE);
  ("StartPacketRoutine", PIDE_START_PACKET_ROUTINE);
  ("StartNextPacketRoutine", PIDE_START_NEXT_PACKET_ROUTINE); ("InterruptIrql", KIRQL);
  ("ExpectingBusMasterInterrupt", BOOLEAN); ("StartPacketBusy", BOOLEAN); ("StartPacketRequested", BOOLEAN);
  ("Timeout", UCHAR); ("IoRetries", UCHAR); ("MaximumIoRetries", UCHAR); ("CurrentIrp", PIRP);
  ("DeviceQueue", KDEVICE_QUEUE); ("PhysicalRegionDescriptorTablePhysical", ULONG); ("TimerDpc", KDPC);
  ("FinishDpc", KDPC); ("Timer", KTIMER); ("InterruptObject", KINTERRUPT)].
Definition PKSYSTEM_ROUTINE : ctype := Ptr.

(** ** Constants *)

(** [WAIT_TYPE] and [EVENT_TYPE]. *)
Definition WaitAll : Z := 0.
Definition WaitAny : Z := 1.
Definition NotificationEvent : Z := 0.
Definition SynchronizationEvent : Z := 1.

(** The status codes of ntstatus.h. *)
Definition ntstatus : list (string * Z) := [
  ("STATUS_SUCCESS", 0x00000000);
  ("STATUS_WAIT_0", 0x00000000);
  ("STATUS_ABANDONED_WAIT_0", 0x00000080);
  ("STATUS_USER_APC", 0x000000C0);
  ("STATUS_ALERTED", 0x00000101);
  ("STATUS_TIMEOUT", 0x00000102);
  ("STATUS_PENDING", 0x00000103);
  ("STATUS_OBJECT_NAME_EXISTS", 0x40000000);
  ("STATUS_NO_YIELD_PERFORMED", 0x40000024);
  ("STATUS_SEGMENT_NOTIFICATION", 0x40000005);
  ("STATUS_GUARD_PAGE_VIOLATION", 0x80000001);
  ("STATUS_DATATYPE_MISALIGNMENT", 0x80000002);
  ("STATUS_BREAKPOINT", 0x80000003);
  ("STATUS_SINGLE_STEP", 0x80000004);
  ("STATUS_BUFFER_OVERFLOW", 0x80000005);
  ("STATUS_NO_MORE_FILES", 0x80000006);
  ("STATUS_NO_MORE_ENTRIES", 0x8000001A);
  ("STATUS_UNSUCCESSFUL", 0xC0000001);
  ("STATUS_ACCESS_VIOLATION", 0xC0000005);
  ("STATUS_IN_PAGE_ERROR", 0xC0000006);
  ("STATUS_INVALID_HANDLE", 0xC0000008);
  ("STATUS_INVALID_PARAMETER", 0xC000000D);
  ("STATUS_END_OF_FILE", 0xC0000011);
  ("STATUS_NO_MEMORY", 0xC0000017);
  ("STATUS_ILLEGAL_INSTRUCTION", 0xC000001D);
  ("STATUS_ALREADY_COMMITTED", 0xC0000021);
  ("STATUS_ACCESS_DENIED", 0xC0000022);
  ("STATUS_BUFFER_TOO_SMALL", 0xC0000023);
  ("STATUS_OBJECT_TYPE_MISMATCH", 0xC0000024);
  ("STATUS_NONCONTINUABLE_EXCEPTION", 0xC0000025);
  ("STATUS_INVALID_DISPOSITION", 0xC0000026);
  ("STATUS_OBJECT_NAME_INVALID", 0xC0000033);
  ("STATUS_OBJECT_NAME_NOT_FOUND", 0xC0000034);
  ("STATUS_OBJECT_NAME_COLLISION", 0xC0000035);
  ("STATUS_OBJECT_PATH_NOT_FOUND", 0xC000003A);
  ("STATUS_MUTANT_NOT_OWNED", 0xC0000046);
  ("STATUS_SEMAPHORE_LIMIT_EXCEEDED", 0xC0000047);
  ("STATUS_ARRAY_BOUNDS_EXCEEDED", 0xC000008C);
  ("STATUS_FLOAT_DENORMAL_OPERAND", 0xC000008D);
  ("STATUS_FLOAT_DIVIDE_BY_ZERO", 0xC000008E);
  ("STATUS_FLOAT_INEXACT_RESULT", 0xC000008F);
  ("STATUS_FLOAT_INVALID_OPERATION", 0xC0000090);
  ("STATUS_FLOAT_OVERFLOW", 0xC0000091);
  ("STATUS_FLOAT_STACK_CHECK", 0xC0000092);
  ("STATUS_FLOAT_UNDERFLOW", 0xC0000093);
  ("STATUS_INTEGER_DIVIDE_BY_ZERO", 0xC0000094);
  ("STATUS_INTEGER_OVERFLOW", 0xC0000095);
  ("STATUS_PRIVILEGED_INSTRUCTION", 0xC0000096);
  ("STATUS_DATA_OVERRUN", 0xC000003C);
  ("STATUS_INVALID_IMAGE_FORMAT", 0xC000007B);
  ("STATUS_INSUFFICIENT_RESOURCES", 0xC000009A);
  ("STATUS_FILE_IS_A_DIRECTORY", 0xC00000BA);
  ("STATUS_INVALID_PARAMETER_1", 0xC00000EF);
  ("STATUS_INVALID_PARAMETER_2", 0xC00000F0);
  ("STATUS_INVALID_PARAMETER_3", 0xC00000F1);
  ("STATUS_INVALID_PARAMETER_4", 0xC00000F2);
  ("STATUS_INVALID_PARAMETER_5", 0xC00000F3);
  ("STATUS_INVALID_PARAMETER_6", 0xC00000F4);
  ("STATUS_INVALID_PARAMETER_7", 0xC00000F5);
  ("STATUS_INVALID_PARAMETER_8", 0xC00000F6);
  ("STATUS_INVALID_PARAMETER_9", 0xC00000F7);
  ("STATUS_INVALID_PARAMETER_10", 0xC00000F8);
  ("STATUS_INVALID_PARAMETER_11", 0xC00000F9);
  ("STATUS_INVALID_PARAMETER_12", 0xC00000FA);
  ("STATUS_STACK_OVERFLOW", 0xC00000FD);
  ("STATUS_CONTROL_C_EXIT", 0xC000013A);
  ("STATUS_TOO_MANY_SECRETS", 0xC0000156);
  ("STATUS_HANDLE_NOT_CLOSABLE", 0xC0000235);
  ("STATUS_IMAGE_GAME_REGION_VIOLATION", 0xC0050001);
  ("STATUS_IMAGE_MEDIA_TYPE_VIOLATION", 0xC0050002)].

End NxdkTypes.
