(* ===== verification/NxdkDecls.v ===== *)
(** The functions and data of the Xbox kernel as the reference header of the
    repository declares them (scripts/research/nxdk_xboxkrnl.h), in its order. *)
From stdpp Require Import base numbers list strings.
From Stdlib Require Import ZArith Lia.
From S2P Require Import Prelude CLayout NxdkTypes.
Open Scope Z_scope.
Open Scope string_scope.

Module NxdkDecls.
Import CLayout NxdkTypes.

(** [NTAPI] is stdcall. *)
Inductive callconv := NTAPI | FASTCALL | CDECL.

#[export] Instance callconv_eq_dec : EqDecision callconv.
Proof. solve_decision. Defined.

(** A declaration marked [XBAPI]: a function with its result and its
    parameters ([DbgPrint] also takes a variable list), or a variable. *)
Inductive decl :=
  | Fn (name : string) (conv : callconv) (result : option ctype) (params : list ctype)
  | Var (name : string) (t : ctype).

Definition VOID : option ctype := None.
Definition ret (t : ctype) : option ctype := Some t.

Definition decl_name (d : decl) : string := match d with Fn n _ _ _ | Var n _ => n end.

Definition xe_decls_1 : list decl := [
    Fn "XeUnloadSection" NTAPI (ret NTSTATUS) [PXBE_SECTION_HEADER];
    Var "XePublicKeyData" (Arr UCHAR 284);
    Fn "XeLoadSection" NTAPI (ret NTSTATUS) [PXBE_SECTION_HEADER];
    Var "XeImageFileName" (Arr ANSI_STRING 1);
    Fn "XcVerifyPKCS1Signature" NTAPI (ret BOOLEAN) [PUCHAR; PUCHAR; PUCHAR];
    Fn "XcUpdateCrypto" NTAPI VOID [PCRYPTO_VECTOR; PCRYPTO_VECTOR];
    Fn "XcSHAUpdate" NTAPI VOID [PUCHAR; PUCHAR; ULONG];
    Fn "XcSHAInit" NTAPI VOID [PUCHAR];
    Fn "XcSHAFinal" NTAPI VOID [PUCHAR; PUCHAR];
    Fn "XcRC4Key" NTAPI VOID [PUCHAR; ULONG; PUCHAR];
    Fn "XcRC4Crypt" NTAPI VOID [PUCHAR; ULONG; PUCHAR];
    Fn "XcPKGetKeyLen" NTAPI (ret ULONG) [PUCHAR];
    Fn "XcPKEncPublic" NTAPI (ret ULONG) [PUCHAR; PUCHAR; PUCHAR];
    Fn "XcPKDecPrivate" NTAPI (ret ULONG) [PUCHAR; PUCHAR; PUCHAR];
    Fn "XcModExp" NTAPI (ret ULONG) [PULONG; PULONG; PULONG; PULONG; ULONG];
    Fn "XcKeyTable" NTAPI VOID [ULONG; PUCHAR; PUCHAR];
    Fn "XcHMAC" NTAPI VOID [PUCHAR; ULONG; PUCHAR; ULONG; PUCHAR; ULONG; PUCHAR];
    Fn "XcDESKeyParity" NTAPI VOID [PUCHAR; ULONG];
    Fn "XcCryptService" NTAPI (ret ULONG) [ULONG; PVOID];
    Fn "XcBlockCryptCBC" NTAPI VOID [ULONG; ULONG; PUCHAR; PUCHAR; PUCHAR; ULONG; PUCHAR]].

Definition xe_decls_2 : list decl := [
    Fn "XcBlockCrypt" NTAPI VOID [ULONG; PUCHAR; PUCHAR; PUCHAR; ULONG];
    Var "XboxSignatureKey" XBOX_KEY_DATA;
    Var "XboxLANKey" XBOX_KEY_DATA;
    Var "XboxKrnlVersion" XBOX_KRNL_VERSION;
    Var "XboxHardwareInfo" XBOX_HARDWARE_INFO;
    Var "XboxHDKey" XBOX_KEY_DATA;
    Var "XboxEEPROMKey" XBOX_KEY_DATA;
    Var "XboxAlternateSignatureKeys" (Arr XBOX_KEY_DATA 0);
    Fn "WRITE_PORT_BUFFER_USHORT" NTAPI VOID [PUSHORT; PUSHORT; ULONG];
    Fn "WRITE_PORT_BUFFER_ULONG" NTAPI VOID [PULONG; PULONG; ULONG];
    Fn "WRITE_PORT_BUFFER_UCHAR" NTAPI VOID [PUCHAR; PUCHAR; ULONG]].

Definition rtl_decls_1 : list decl := [
    Fn "RtlFillMemory" NTAPI VOID [PVOID; ULONG; UCHAR];
    Fn "RtlMoveMemory" NTAPI VOID [PVOID; PVOID; ULONG];
    Fn "RtlZeroMemory" NTAPI VOID [Ptr; SIZE_T];
    Fn "RtlWalkFrameChain" NTAPI (ret ULONG) [Ptr; ULONG; ULONG];
    Fn "RtlVsprintf" CDECL VOID [Ptr; Ptr];
    Fn "RtlVsnprintf" CDECL VOID [Ptr; SIZE_T; Ptr];
    Fn "RtlUpperString" NTAPI VOID [PSTRING; PSTRING];
    Fn "RtlUpperChar" NTAPI (ret CHAR) [CHAR];
    Fn "RtlUpcaseUnicodeToMultiByteN" NTAPI (ret NTSTATUS) [PCHAR; ULONG; PULONG; PWSTR; ULONG];
    Fn "RtlUpcaseUnicodeString" NTAPI (ret NTSTATUS) [PUNICODE_STRING; PCUNICODE_STRING; BOOLEAN];
    Fn "RtlUpcaseUnicodeChar" NTAPI (ret WCHAR) [WCHAR];
    Fn "RtlUnwind" NTAPI VOID [PVOID; PVOID; PEXCEPTION_RECORD; PVOID];
    Fn "RtlUnicodeToMultiByteSize" NTAPI (ret NTSTATUS) [PULONG; PWSTR; ULONG];
    Fn "RtlUnicodeToMultiByteN" NTAPI (ret NTSTATUS) [PCHAR; ULONG; PULONG; PWSTR; ULONG];
    Fn "RtlUnicodeStringToInteger" CDECL (ret NTSTATUS) [PUNICODE_STRING; ULONG; PULONG];
    Fn "RtlUnicodeStringToAnsiString" NTAPI (ret NTSTATUS) [PSTRING; PUNICODE_STRING; BOOLEAN]].

Definition rtl_decls_2 : list decl := [
    Fn "RtlTryEnterCriticalSection" NTAPI (ret BOOLEAN) [PRTL_CRITICAL_SECTION];
    Fn "RtlTimeToTimeFields" NTAPI VOID [PLARGE_INTEGER; PTIME_FIELDS];
    Fn "RtlTimeFieldsToTime" NTAPI (ret BOOLEAN) [PTIME_FIELDS; PLARGE_INTEGER];
    Fn "RtlSprintf" CDECL VOID [Ptr; Ptr];
    Fn "RtlSnprintf" CDECL VOID [Ptr; SIZE_T; Ptr];
    Fn "RtlRip" NTAPI VOID [PVOID; PVOID; PVOID];
    Fn "RtlRaiseStatus" NTAPI VOID [NTSTATUS];
    Fn "RtlRaiseException" NTAPI VOID [PEXCEPTION_RECORD];
    Fn "RtlNtStatusToDosError" NTAPI (ret ULONG) [NTSTATUS];
    Fn "RtlMultiByteToUnicodeSize" NTAPI (ret NTSTATUS) [PULONG; PCHAR; ULONG];
    Fn "RtlMultiByteToUnicodeN" NTAPI (ret NTSTATUS) [PWSTR; ULONG; PULONG; PCHAR; ULONG];
    Fn "RtlMapGenericMask" NTAPI VOID [PACCESS_MASK; PGENERIC_MAPPING];
    Fn "RtlLowerChar" NTAPI (ret CHAR) [CHAR];
    Fn "RtlLeaveCriticalSectionAndRegion" NTAPI VOID [PRTL_CRITICAL_SECTION];
    Fn "RtlLeaveCriticalSection" NTAPI VOID [PRTL_CRITICAL_SECTION];
    Fn "RtlIntegerToUnicodeString" NTAPI (ret NTSTATUS) [ULONG; ULONG; PUNICODE_STRING];
    Fn "RtlIntegerToChar" NTAPI (ret NTSTATUS) [ULONG; ULONG; LONG; PSZ];
    Fn "RtlInitializeCriticalSection" NTAPI VOID [PRTL_CRITICAL_SECTION];
    Fn "RtlInitUnicodeString" NTAPI VOID [PUNICODE_STRING; PCWSTR]].

Definition rtl_decls_3 : list decl := [
    Fn "RtlInitAnsiString" NTAPI VOID [PANSI_STRING; PCSZ];
    Fn "RtlGetCallersAddress" NTAPI VOID [Ptr; Ptr];
    Fn "RtlFreeUnicodeString" NTAPI VOID [PUNICODE_STRING];
    Fn "RtlFreeAnsiString" NTAPI VOID [PANSI_STRING];
    Fn "RtlFillMemoryUlong" NTAPI VOID [PVOID; SIZE_T; ULONG];
    Fn "RtlExtendedMagicDivide" NTAPI (ret LARGE_INTEGER) [LARGE_INTEGER; LARGE_INTEGER; CCHAR];
    Fn "RtlExtendedLargeIntegerDivide" NTAPI (ret LARGE_INTEGER) [LARGE_INTEGER; ULONG; PULONG];
    Fn "RtlExtendedIntegerMultiply" NTAPI (ret LARGE_INTEGER) [LARGE_INTEGER; LONG];
    Fn "RtlEqualUnicodeString" NTAPI (ret BOOLEAN) [PUNICODE_STRING; PUNICODE_STRING; BOOLEAN];
    Fn "RtlEqualString" NTAPI (ret BOOLEAN) [PSTRING; PSTRING; BOOLEAN];
    Fn "RtlEnterCriticalSectionAndRegion" NTAPI VOID [PRTL_CRITICAL_SECTION];
    Fn "RtlEnterCriticalSection" NTAPI VOID [PRTL_CRITICAL_SECTION];
    Fn "RtlDowncaseUnicodeString" NTAPI (ret NTSTATUS) [PUNICODE_STRING; PUNICODE_STRING; BOOLEAN];
    Fn "RtlDowncaseUnicodeChar" NTAPI (ret WCHAR) [WCHAR];
    Fn "RtlCreateUnicodeString" NTAPI (ret BOOLEAN) [PUNICODE_STRING; PCWSTR];
    Fn "RtlCopyUnicodeString" NTAPI VOID [PUNICODE_STRING; PUNICODE_STRING];
    Fn "RtlCopyString" NTAPI VOID [PSTRING; PSTRING];
    Fn "RtlCompareUnicodeString" NTAPI (ret LONG) [PUNICODE_STRING; PUNICODE_STRING; BOOLEAN]].

Definition rtl_decls_4 : list decl := [
    Fn "RtlCompareString" NTAPI (ret LONG) [PSTRING; PSTRING; BOOLEAN];
    Fn "RtlCompareMemoryUlong" NTAPI (ret SIZE_T) [PVOID; SIZE_T; ULONG];
    Fn "RtlCompareMemory" NTAPI (ret SIZE_T) [Ptr; Ptr; SIZE_T];
    Fn "RtlCharToInteger" NTAPI (ret NTSTATUS) [PCSZ; ULONG; PULONG];
    Fn "RtlCaptureStackBackTrace" NTAPI (ret USHORT) [ULONG; ULONG; Ptr; PULONG];
    Fn "RtlCaptureContext" NTAPI VOID [PCONTEXT];
    Fn "RtlAssert" NTAPI VOID [PVOID; PVOID; ULONG; PCHAR];
    Fn "RtlAppendUnicodeToString" NTAPI (ret NTSTATUS) [PUNICODE_STRING; PCWSTR];
    Fn "RtlAppendUnicodeStringToString" NTAPI (ret NTSTATUS) [PUNICODE_STRING; PUNICODE_STRING];
    Fn "RtlAppendStringToString" NTAPI (ret NTSTATUS) [PSTRING; PSTRING];
    Fn "RtlAnsiStringToUnicodeString" NTAPI (ret NTSTATUS) [PUNICODE_STRING; PSTRING; BOOLEAN]].

Definition ps_decls : list decl := [
    Fn "READ_PORT_BUFFER_USHORT" NTAPI VOID [PUSHORT; PUSHORT; ULONG];
    Fn "READ_PORT_BUFFER_ULONG" NTAPI VOID [PULONG; PULONG; ULONG];
    Fn "READ_PORT_BUFFER_UCHAR" NTAPI VOID [PUCHAR; PUCHAR; ULONG];
    Var "PsThreadObjectType" OBJECT_TYPE;
    Fn "PsTerminateSystemThread" NTAPI VOID [NTSTATUS];
    Fn "PsSetCreateThreadNotifyRoutine" NTAPI (ret NTSTATUS) [PCREATE_THREAD_NOTIFY_ROUTINE];
    Fn "PsQueryStatistics" NTAPI (ret NTSTATUS) [PPS_STATISTICS];
    Fn "PsCreateSystemThreadEx" NTAPI (ret NTSTATUS) [PHANDLE; SIZE_T; SIZE_T; SIZE_T; PHANDLE;
    PKSTART_ROUTINE; PVOID; BOOLEAN; BOOLEAN; PKSYSTEM_ROUTINE];
    Fn "PsCreateSystemThread" NTAPI (ret NTSTATUS) [PHANDLE; PHANDLE; PKSTART_ROUTINE; PVOID; BOOLEAN];
    Fn "PhyInitialize" NTAPI (ret NTSTATUS) [BOOLEAN; PVOID];
    Fn "PhyGetLinkState" NTAPI (ret DWORD) [BOOLEAN]].

Definition ob_decls : list decl := [
    Var "ObpObjectHandleTable" OBJECT_HANDLE_TABLE;
    Var "ObSymbolicLinkObjectType" OBJECT_TYPE;
    Fn "ObReferenceObjectByPointer" NTAPI (ret NTSTATUS) [PVOID; POBJECT_TYPE];
    Fn "ObReferenceObjectByName" NTAPI (ret NTSTATUS) [POBJECT_STRING; ULONG; POBJECT_TYPE; PVOID; Ptr];
    Fn "ObReferenceObjectByHandle" NTAPI (ret NTSTATUS) [HANDLE; POBJECT_TYPE; Ptr];
    Fn "ObOpenObjectByPointer" NTAPI (ret NTSTATUS) [PVOID; POBJECT_TYPE; PHANDLE];
    Fn "ObOpenObjectByName" NTAPI (ret NTSTATUS) [POBJECT_ATTRIBUTES; POBJECT_TYPE; PVOID; PHANDLE];
    Fn "ObMakeTemporaryObject" NTAPI VOID [PVOID];
    Fn "ObInsertObject" NTAPI (ret NTSTATUS) [PVOID; POBJECT_ATTRIBUTES; ULONG; PHANDLE];
    Var "ObDirectoryObjectType" OBJECT_TYPE;
    Fn "ObCreateObject" NTAPI (ret NTSTATUS) [POBJECT_TYPE; POBJECT_ATTRIBUTES; ULONG; Ptr]].

Definition nt_decls_1 : list decl := [
    Fn "NtYieldExecution" NTAPI (ret NTSTATUS) [];
    Fn "NtWriteFileGather" NTAPI (ret BOOLEAN) [HANDLE; HANDLE; PIO_APC_ROUTINE; PVOID; PIO_STATUS_BLOCK;
    PFILE_SEGMENT_ELEMENT; ULONG; PLARGE_INTEGER];
    Fn "NtWriteFile" NTAPI (ret NTSTATUS) [HANDLE; HANDLE; PIO_APC_ROUTINE; PVOID; PIO_STATUS_BLOCK; PVOID;
    ULONG; PLARGE_INTEGER];
    Fn "NtWaitForSingleObjectEx" NTAPI (ret NTSTATUS) [HANDLE; KPROCESSOR_MODE; BOOLEAN; PLARGE_INTEGER];
    Fn "NtWaitForSingleObject" NTAPI (ret NTSTATUS) [HANDLE; BOOLEAN; PLARGE_INTEGER];
    Fn "NtWaitForMultipleObjectsEx" NTAPI (ret NTSTATUS) [ULONG; Ptr; WAIT_TYPE; KPROCESSOR_MODE; BOOLEAN;
    PLARGE_INTEGER];
    Fn "NtUserIoApcDispatcher" NTAPI VOID [PVOID; PIO_STATUS_BLOCK; ULONG];
    Fn "NtSuspendThread" NTAPI (ret NTSTATUS) [HANDLE; PULONG];
    Fn "NtSignalAndWaitForSingleObjectEx" NTAPI (ret NTSTATUS) [HANDLE; HANDLE; KPROCESSOR_MODE; BOOLEAN;
    PLARGE_INTEGER];
    Fn "NtSetTimerEx" NTAPI (ret NTSTATUS) [HANDLE; PLARGE_INTEGER; PTIMER_APC_ROUTINE; KPROCESSOR_MODE;
    PVOID; BOOLEAN; LONG; PBOOLEAN];
    Fn "NtSetSystemTime" NTAPI (ret NTSTATUS) [PLARGE_INTEGER; PLARGE_INTEGER];
    Fn "NtSetIoCompletion" NTAPI (ret NTSTATUS) [HANDLE; PVOID; PVOID; NTSTATUS; ULONG_PTR];
    Fn "NtSetInformationFile" NTAPI (ret NTSTATUS) [HANDLE; PIO_STATUS_BLOCK; PVOID; ULONG;
    FILE_INFORMATION_CLASS]].

Definition nt_decls_2 : list decl := [
    Fn "NtSetEvent" NTAPI (ret NTSTATUS) [HANDLE; PLONG];
    Fn "NtResumeThread" NTAPI (ret NTSTATUS) [HANDLE; PULONG];
    Fn "NtRemoveIoCompletion" NTAPI (ret NTSTATUS) [HANDLE; Ptr; Ptr; PIO_STATUS_BLOCK; PLARGE_INTEGER];
    Fn "NtReleaseSemaphore" NTAPI (ret NTSTATUS) [HANDLE; LONG; PLONG];
    Fn "NtReleaseMutant" NTAPI (ret NTSTATUS) [HANDLE; PLONG];
    Fn "NtReadFileScatter" NTAPI (ret NTSTATUS) [HANDLE; HANDLE; PIO_APC_ROUTINE; PVOID; PIO_STATUS_BLOCK;
    PFILE_SEGMENT_ELEMENT; ULONG; PLARGE_INTEGER];
    Fn "NtReadFile" NTAPI (ret NTSTATUS) [HANDLE; HANDLE; PIO_APC_ROUTINE; PVOID; PIO_STATUS_BLOCK; PVOID;
    ULONG; PLARGE_INTEGER];
    Fn "NtQueueApcThread" NTAPI (ret NTSTATUS) [HANDLE; PPS_APC_ROUTINE; PVOID; PVOID; PVOID];
    Fn "NtQueryVolumeInformationFile" NTAPI (ret NTSTATUS) [HANDLE; PIO_STATUS_BLOCK; PVOID; ULONG;
    FS_INFORMATION_CLASS];
    Fn "NtQueryVirtualMemory" NTAPI (ret NTSTATUS) [PVOID; PMEMORY_BASIC_INFORMATION];
    Fn "NtQueryTimer" NTAPI (ret NTSTATUS) [HANDLE; PTIMER_BASIC_INFORMATION];
    Fn "NtQuerySymbolicLinkObject" NTAPI (ret NTSTATUS) [HANDLE; POBJECT_STRING; PULONG];
    Fn "NtQuerySemaphore" NTAPI (ret NTSTATUS) [HANDLE; PSEMAPHORE_BASIC_INFORMATION];
    Fn "NtQueryMutant" NTAPI (ret NTSTATUS) [HANDLE; PMUTANT_BASIC_INFORMATION];
    Fn "NtQueryIoCompletion" NTAPI (ret NTSTATUS) [HANDLE; PIO_COMPLETION_BASIC_INFORMATION]].

Definition nt_decls_3 : list decl := [
    Fn "NtQueryInformationFile" NTAPI (ret NTSTATUS) [HANDLE; PIO_STATUS_BLOCK; PVOID; ULONG;
    FILE_INFORMATION_CLASS];
    Fn "NtQueryFullAttributesFile" NTAPI (ret NTSTATUS) [POBJECT_ATTRIBUTES; PFILE_NETWORK_OPEN_INFORMATION];
    Fn "NtQueryEvent" NTAPI (ret NTSTATUS) [HANDLE; PEVENT_BASIC_INFORMATION];
    Fn "NtQueryDirectoryObject" NTAPI (ret NTSTATUS) [HANDLE; PVOID; ULONG; BOOLEAN; PULONG; PULONG];
    Fn "NtQueryDirectoryFile" NTAPI (ret NTSTATUS) [HANDLE; HANDLE; PIO_APC_ROUTINE; PVOID;
    PIO_STATUS_BLOCK; PVOID; ULONG; FILE_INFORMATION_CLASS; POBJECT_STRING; BOOLEAN];
    Fn "NtPulseEvent" NTAPI (ret NTSTATUS) [HANDLE; PLONG];
    Fn "NtProtectVirtualMemory" NTAPI (ret NTSTATUS) [Ptr; PSIZE_T; ULONG; PULONG];
    Fn "NtOpenSymbolicLinkObject" NTAPI (ret NTSTATUS) [PHANDLE; POBJECT_ATTRIBUTES];
    Fn "NtOpenFile" NTAPI (ret NTSTATUS) [PHANDLE; ACCESS_MASK; POBJECT_ATTRIBUTES; PIO_STATUS_BLOCK; ULONG;
    ULONG];
    Fn "NtOpenDirectoryObject" NTAPI (ret NTSTATUS) [PHANDLE; POBJECT_ATTRIBUTES];
    Fn "NtFsControlFile" NTAPI (ret NTSTATUS) [HANDLE; HANDLE; PIO_APC_ROUTINE; PVOID; PIO_STATUS_BLOCK;
    ULONG; PVOID; ULONG; PVOID; ULONG];
    Fn "NtFreeVirtualMemory" NTAPI (ret NTSTATUS) [Ptr; PSIZE_T; ULONG];
    Fn "NtFlushBuffersFile" NTAPI (ret NTSTATUS) [HANDLE; PIO_STATUS_BLOCK];
    Fn "NtDuplicateObject" NTAPI (ret NTSTATUS) [HANDLE; PHANDLE; ULONG]].

Definition nt_decls_4 : list decl := [
    Fn "NtDeviceIoControlFile" NTAPI (ret NTSTATUS) [HANDLE; HANDLE; PIO_APC_ROUTINE; PVOID;
    PIO_STATUS_BLOCK; ULONG; PVOID; ULONG; PVOID; ULONG];
    Fn "NtDeleteFile" NTAPI (ret BOOLEAN) [POBJECT_ATTRIBUTES];
    Fn "NtCreateTimer" NTAPI (ret NTSTATUS) [PHANDLE; POBJECT_ATTRIBUTES; TIMER_TYPE];
    Fn "NtCreateSemaphore" NTAPI (ret NTSTATUS) [PHANDLE; POBJECT_ATTRIBUTES; LONG; LONG];
    Fn "NtCreateMutant" NTAPI (ret NTSTATUS) [PHANDLE; POBJECT_ATTRIBUTES; BOOLEAN];
    Fn "NtCreateIoCompletion" NTAPI (ret NTSTATUS) [PHANDLE; ACCESS_MASK; POBJECT_ATTRIBUTES; ULONG];
    Fn "NtCreateFile" NTAPI (ret NTSTATUS) [PHANDLE; ACCESS_MASK; POBJECT_ATTRIBUTES; PIO_STATUS_BLOCK;
    PLARGE_INTEGER; ULONG; ULONG; ULONG; ULONG]].

Definition nt_decls_5 : list decl := [
    Fn "NtCreateEvent" NTAPI (ret NTSTATUS) [PHANDLE; POBJECT_ATTRIBUTES; EVENT_TYPE; BOOLEAN];
    Fn "NtCreateDirectoryObject" NTAPI (ret NTSTATUS) [PHANDLE; POBJECT_ATTRIBUTES];
    Fn "NtClose" NTAPI (ret NTSTATUS) [HANDLE];
    Fn "NtClearEvent" NTAPI (ret NTSTATUS) [HANDLE];
    Fn "NtCancelTimer" NTAPI (ret NTSTATUS) [HANDLE; PBOOLEAN];
    Fn "NtAllocateVirtualMemory" NTAPI (ret NTSTATUS) [Ptr; ULONG_PTR; PSIZE_T; ULONG; ULONG]].

Definition mm_decls_1 : list decl := [
    Fn "MmUnmapIoSpace" NTAPI (ret PVOID) [PVOID; SIZE_T];
    Fn "MmSetAddressProtect" NTAPI VOID [PVOID; ULONG; ULONG];
    Fn "MmQueryStatistics" NTAPI (ret NTSTATUS) [PMM_STATISTICS];
    Fn "MmQueryAllocationSize" NTAPI (ret SIZE_T) [PVOID];
    Fn "MmQueryAddressProtect" NTAPI (ret ULONG) [PVOID];
    Fn "MmPersistContiguousMemory" NTAPI VOID [PVOID; SIZE_T; BOOLEAN];
    Fn "MmMapIoSpace" NTAPI (ret PVOID) [ULONG_PTR; SIZE_T; ULONG];
    Fn "MmLockUnlockPhysicalPage" NTAPI VOID [ULONG_PTR; BOOLEAN];
    Fn "MmLockUnlockBufferPages" NTAPI VOID [PVOID; SIZE_T; BOOLEAN];
    Fn "MmIsAddressValid" NTAPI (ret BOOLEAN) [PVOID];
    Var "MmGlobalData" MMGLOBALDATA;
    Fn "MmGetPhysicalAddress" NTAPI (ret ULONG_PTR) [PVOID];
    Fn "MmFreeSystemMemory" NTAPI (ret ULONG) [PVOID; SIZE_T];
    Fn "MmFreeContiguousMemory" NTAPI VOID [PVOID];
    Fn "MmDeleteKernelStack" NTAPI VOID [PVOID; PVOID];
    Fn "MmDbgWriteCheck" NTAPI (ret PVOID) [PVOID; PHARDWARE_PTE];
    Fn "MmDbgReleaseAddress" NTAPI VOID [PVOID; PHARDWARE_PTE];
    Fn "MmDbgQueryAvailablePages" NTAPI (ret PFN_COUNT) [];
    Fn "MmDbgFreeMemory" NTAPI (ret ULONG) [PVOID; SIZE_T];
    Fn "MmDbgAllocateMemory" NTAPI (ret PVOID) [SIZE_T; ULONG];
    Fn "MmCreateKernelStack" NTAPI (ret PVOID) [SIZE_T; BOOLEAN];
    Fn "MmClaimGpuInstanceMemory" NTAPI (ret PVOID) [SIZE_T; Ptr];
    Fn "MmAllocateSystemMemory" NTAPI (ret PVOID) [SIZE_T; ULONG]].

Definition mm_decls_2 : list decl := [
    Fn "MmAllocateContiguousMemoryEx" NTAPI (ret PVOID) [SIZE_T; ULONG_PTR; ULONG_PTR; ULONG_PTR; ULONG];
    Fn "MmAllocateContiguousMemory" NTAPI (ret PVOID) [SIZE_T]].

Definition ke_decls_1 : list decl := [
    Var "LaunchDataPage" PLAUNCH_DATA_PAGE;
    Var "KiBugCheckData" (Arr ULONG 0);
    Fn "KeWaitForSingleObject" NTAPI (ret NTSTATUS) [PVOID; KWAIT_REASON; KPROCESSOR_MODE; BOOLEAN;
    PLARGE_INTEGER];
    Fn "KeWaitForMultipleObjects" NTAPI (ret NTSTATUS) [ULONG; Ptr; WAIT_TYPE; KWAIT_REASON;
    KPROCESSOR_MODE; BOOLEAN; PLARGE_INTEGER; PKWAIT_BLOCK];
    Var "KeTimeIncrement" ULONG;
    Var "KeTickCount" DWORD;
    Fn "KeTestAlertThread" NTAPI (ret BOOLEAN) [KPROCESSOR_MODE];
    Var "KeSystemTime" KSYSTEM_TIME;
    Fn "KeSynchronizeExecution" NTAPI (ret BOOLEAN) [PKINTERRUPT; PKSYNCHRONIZE_ROUTINE; PVOID];
    Fn "KeSuspendThread" NTAPI (ret ULONG) [PKTHREAD];
    Fn "KeStallExecutionProcessor" NTAPI VOID [ULONG];
    Fn "KeSetTimerEx" NTAPI (ret BOOLEAN) [PKTIMER; LARGE_INTEGER; LONG; PKDPC];
    Fn "KeSetTimer" NTAPI (ret BOOLEAN) [PKTIMER; LARGE_INTEGER; PKDPC];
    Fn "KeSetPriorityThread" NTAPI (ret KPRIORITY) [PKTHREAD; KPRIORITY];
    Fn "KeSetPriorityProcess" NTAPI (ret KPRIORITY) [PKPROCESS; KPRIORITY];
    Fn "KeSetEventBoostPriority" NTAPI VOID [PRKEVENT; Ptr];
    Fn "KeSetEvent" NTAPI (ret LONG) [PRKEVENT; KPRIORITY; BOOLEAN];
    Fn "KeSetDisableBoostThread" NTAPI (ret LOGICAL) [PKTHREAD; LOGICAL];
    Fn "KeSetBasePriorityThread" NTAPI (ret LONG) [PKTHREAD; LONG];
    Fn "KeSaveFloatingPointState" NTAPI (ret NTSTATUS) [PKFLOATING_SAVE];
    Fn "KeRundownQueue" NTAPI (ret PLIST_ENTRY) [PRKQUEUE];
    Fn "KeResumeThread" NTAPI (ret ULONG) [PKTHREAD];
    Fn "KeRestoreFloatingPointState" NTAPI (ret NTSTATUS) [PKFLOATING_SAVE];
    Fn "KeResetEvent" NTAPI (ret LONG) [PRKEVENT]].

Definition ke_decls_2 : list decl := [
    Fn "KeRemoveQueueDpc" NTAPI (ret BOOLEAN) [PRKDPC];
    Fn "KeRemoveQueue" NTAPI (ret PLIST_ENTRY) [PRKQUEUE; KPROCESSOR_MODE; PLARGE_INTEGER];
    Fn "KeRemoveEntryDeviceQueue" NTAPI (ret BOOLEAN) [PKDEVICE_QUEUE; PKDEVICE_QUEUE];
    Fn "KeRemoveDeviceQueue" NTAPI (ret PKDEVICE_QUEUE_ENTRY) [PKDEVICE_QUEUE];
    Fn "KeRemoveByKeyDeviceQueue" NTAPI (ret PKDEVICE_QUEUE_ENTRY) [PKDEVICE_QUEUE; ULONG];
    Fn "KeReleaseSemaphore" NTAPI (ret LONG) [PRKSEMAPHORE; KPRIORITY; LONG; BOOLEAN];
    Fn "KeReleaseMutant" NTAPI (ret LONG) [PRKMUTANT; KPRIORITY; BOOLEAN; BOOLEAN];
    Fn "KeRaiseIrqlToSynchLevel" NTAPI (ret KIRQL) [];
    Fn "KeRaiseIrqlToDpcLevel" NTAPI (ret KIRQL) [];
    Fn "KeQuerySystemTime" NTAPI VOID [PLARGE_INTEGER];
    Fn "KeQueryPerformanceFrequency" NTAPI (ret ULONGLONG) [];
    Fn "KeQueryPerformanceCounter" NTAPI (ret ULONGLONG) [];
    Fn "KeQueryInterruptTime" NTAPI (ret ULONGLONG) [];
    Fn "KeQueryBasePriorityThread" NTAPI (ret LONG) [PKTHREAD];
    Fn "KePulseEvent" NTAPI (ret LONG) [PRKEVENT; KPRIORITY; BOOLEAN];
    Fn "KeLeaveCriticalRegion" NTAPI VOID [];
    Fn "KeIsExecutingDpc" NTAPI (ret BOOLEAN) [];
    Var "KeInterruptTime" KSYSTEM_TIME;
    Fn "KeInsertQueueDpc" NTAPI (ret BOOLEAN) [PRKDPC; PVOID; PVOID];
    Fn "KeInsertQueueApc" NTAPI (ret BOOLEAN) [PRKAPC; PVOID; PVOID; KPRIORITY];
    Fn "KeInsertQueue" NTAPI (ret LONG) [PRKQUEUE; PLIST_ENTRY];
    Fn "KeInsertHeadQueue" NTAPI (ret LONG) [PRKQUEUE; PLIST_ENTRY];
    Fn "KeInsertDeviceQueue" NTAPI (ret BOOLEAN) [PKDEVICE_QUEUE; PKDEVICE_QUEUE_ENTRY];
    Fn "KeInsertByKeyDeviceQueue" NTAPI (ret BOOLEAN) [PKDEVICE_QUEUE; PKDEVICE_QUEUE_ENTRY; ULONG];
    Fn "KeInitializeTimerEx" NTAPI VOID [PKTIMER; TIMER_TYPE];
    Fn "KeInitializeSemaphore" NTAPI VOID [PRKSEMAPHORE; LONG; LONG];
    Fn "KeInitializeQueue" NTAPI VOID [PRKQUEUE; ULONG]].

Definition ke_decls_3 : list decl := [
    Fn "KeInitializeMutant" NTAPI VOID [PRKMUTANT; BOOLEAN];
    Fn "KeInitializeInterrupt" NTAPI VOID [PKINTERRUPT; PKSERVICE_ROUTINE; PVOID; ULONG; KIRQL;
    KINTERRUPT_MODE; BOOLEAN];
    Fn "KeInitializeEvent" NTAPI VOID [PRKEVENT; EVENT_TYPE; BOOLEAN];
    Fn "KeInitializeDpc" NTAPI VOID [Ptr; PKDEFERRED_ROUTINE; PVOID];
    Fn "KeInitializeDeviceQueue" NTAPI VOID [PKDEVICE_QUEUE];
    Fn "KeInitializeApc" NTAPI VOID [PRKAPC; PRKTHREAD; PKKERNEL_ROUTINE; PKRUNDOWN_ROUTINE;
    PKNORMAL_ROUTINE; KPROCESSOR_MODE; PVOID];
    Fn "KeGetCurrentThread" NTAPI (ret PKTHREAD) [];
    Fn "KeGetCurrentIrql" NTAPI (ret KIRQL) [];
    Fn "KeEnterCriticalRegion" NTAPI VOID [];
    Fn "KeDisconnectInterrupt" NTAPI (ret BOOLEAN) [PKINTERRUPT];
    Fn "KeDelayExecutionThread" NTAPI (ret NTSTATUS) [KPROCESSOR_MODE; BOOLEAN; PLARGE_INTEGER];
    Fn "KeConnectInterrupt" NTAPI (ret BOOLEAN) [PKINTERRUPT];
    Fn "KeCancelTimer" NTAPI (ret BOOLEAN) [PKTIMER];
    Fn "KeBugCheckEx" NTAPI VOID [ULONG; ULONG_PTR; ULONG_PTR; ULONG_PTR; ULONG_PTR];
    Fn "KeBugCheck" NTAPI VOID [ULONG];
    Fn "KeBoostPriorityThread" NTAPI VOID [PKTHREAD; KPRIORITY];
    Fn "KeAlertThread" NTAPI (ret BOOLEAN) [PKTHREAD; KPROCESSOR_MODE];
    Fn "KeAlertResumeThread" NTAPI (ret ULONG) [PKTHREAD]].

Definition io_decls_1 : list decl := [
    Var "KdDebuggerNotPresent" BOOLEAN;
    Var "KdDebuggerEnabled" BOOLEAN;
    Fn "IoSynchronousFsdRequest" NTAPI (ret NTSTATUS) [ULONG; PDEVICE_OBJECT; PVOID; ULONG; PLARGE_INTEGER];
    Fn "IoSynchronousDeviceIoControlRequest" NTAPI (ret NTSTATUS) [ULONG; PDEVICE_OBJECT; PVOID; ULONG;
    PVOID; ULONG; PULONG; BOOLEAN];
    Fn "IoStartPacket" NTAPI VOID [PDEVICE_OBJECT; PIRP; PULONG];
    Fn "IoStartNextPacketByKey" NTAPI VOID [PDEVICE_OBJECT; ULONG];
    Fn "IoStartNextPacket" NTAPI VOID [PDEVICE_OBJECT];
    Fn "IoSetShareAccess" NTAPI VOID [ACCESS_MASK; ULONG; PFILE_OBJECT; PSHARE_ACCESS];
    Fn "IoSetIoCompletion" NTAPI (ret NTSTATUS) [PVOID; PVOID; PVOID; NTSTATUS; ULONG_PTR];
    Fn "IoRemoveShareAccess" NTAPI VOID [PFILE_OBJECT; PSHARE_ACCESS];
    Fn "IoQueueThreadIrp" NTAPI VOID [PIRP];
    Fn "IoQueryVolumeInformation" NTAPI (ret NTSTATUS) [PFILE_OBJECT; FS_INFORMATION_CLASS; ULONG; PVOID;
    PULONG];
    Fn "IoQueryFileInformation" NTAPI (ret NTSTATUS) [PFILE_OBJECT; FILE_INFORMATION_CLASS; ULONG; PVOID;
    PULONG];
    Fn "IoMarkIrpMustComplete" NTAPI VOID [PIRP];
    Fn "IoInvalidDeviceRequest" NTAPI (ret NTSTATUS) [PDEVICE_OBJECT; PIRP];
    Fn "IoInitializeIrp" NTAPI VOID [PIRP; USHORT; CCHAR];
    Fn "IoFreeIrp" NTAPI VOID [PIRP];
    Var "IoFileObjectType" OBJECT_TYPE;
    Fn "IoDismountVolumeByName" NTAPI (ret NTSTATUS) [POBJECT_STRING];
    Fn "IoDismountVolume" NTAPI (ret NTSTATUS) [PDEVICE_OBJECT];
    Var "IoDeviceObjectType" OBJECT_TYPE;
    Fn "IoDeleteSymbolicLink" NTAPI (ret NTSTATUS) [POBJECT_STRING];
    Fn "IoDeleteDevice" NTAPI VOID [PDEVICE_OBJECT];
    Fn "IoCreateSymbolicLink" NTAPI (ret NTSTATUS) [POBJECT_STRING; POBJECT_STRING]].

Definition io_decls_2 : list decl := [
    Fn "IoCreateFile" NTAPI (ret NTSTATUS) [PHANDLE; ACCESS_MASK; POBJECT_ATTRIBUTES; PIO_STATUS_BLOCK;
    PLARGE_INTEGER; ULONG; ULONG; ULONG; ULONG; ULONG];
    Fn "IoCreateDevice" NTAPI (ret NTSTATUS) [PDRIVER_OBJECT; ULONG; POBJECT_STRING; DEVICE_TYPE; BOOLEAN;
    Ptr];
    Var "IoCompletionObjectType" OBJECT_TYPE;
    Fn "IoCheckShareAccess" NTAPI (ret NTSTATUS) [ACCESS_MASK; ULONG; PFILE_OBJECT; PSHARE_ACCESS; BOOLEAN];
    Fn "IoBuildSynchronousFsdRequest" NTAPI (ret PIRP) [ULONG; PDEVICE_OBJECT; PVOID; ULONG; PLARGE_INTEGER;
    PKEVENT; PIO_STATUS_BLOCK];
    Fn "IoBuildDeviceIoControlRequest" NTAPI (ret PIRP) [ULONG; PDEVICE_OBJECT; PVOID; ULONG; PVOID; ULONG;
    BOOLEAN; PKEVENT; PIO_STATUS_BLOCK];
    Fn "IoBuildAsynchronousFsdRequest" NTAPI (ret PIRP) [ULONG; PDEVICE_OBJECT; PVOID; ULONG;
    PLARGE_INTEGER; PIO_STATUS_BLOCK];
    Fn "IoAllocateIrp" NTAPI (ret PIRP) [CCHAR]].

Definition hal_decls : list decl := [
    Var "IdexChannelObject" IDE_CHANNEL_OBJECT;
    Fn "HalWriteSMCScratchRegister" NTAPI (ret NTSTATUS) [ULONG];
    Fn "HalWriteSMBusValue" NTAPI (ret NTSTATUS) [UCHAR; UCHAR; BOOLEAN; ULONG];
    Fn "HalReturnToFirmware" NTAPI VOID [FIRMWARE_REENTRY];
    Fn "HalRegisterShutdownNotification" NTAPI VOID [PHAL_SHUTDOWN_REGISTRATION; BOOLEAN];
    Fn "HalReadWritePCISpace" NTAPI VOID [ULONG; ULONG; ULONG; PVOID; ULONG; BOOLEAN];
    Fn "HalReadSMCTrayState" NTAPI (ret NTSTATUS) [PULONG; PULONG];
    Fn "HalReadSMBusValue" NTAPI (ret NTSTATUS) [UCHAR; UCHAR; BOOLEAN; Ptr];
    Fn "HalIsResetOrShutdownPending" NTAPI (ret BOOLEAN) [];
    Fn "HalInitiateShutdown" NTAPI VOID [];
    Fn "HalGetInterruptVector" NTAPI (ret ULONG) [ULONG; PKIRQL];
    Fn "HalEnableSystemInterrupt" NTAPI VOID [ULONG; KINTERRUPT_MODE];
    Fn "HalEnableSecureTrayEject" NTAPI VOID [];
    Var "HalDiskSerialNumber" STRING;
    Var "HalDiskModelNumber" STRING;
    Var "HalDiskCachePartitionCount" ULONG;
    Fn "HalDisableSystemInterrupt" NTAPI VOID [ULONG];
    Var "HalBootSMCVideoMode" DWORD;
    Fn "FscSetCacheSize" NTAPI (ret NTSTATUS) [PFN_COUNT];
    Fn "FscInvalidateIdleBlocks" NTAPI VOID [];
    Fn "FscGetCacheSize" NTAPI (ret PFN_COUNT) []].

Definition ex_decls : list decl := [
    Var "ExTimerObjectType" OBJECT_TYPE;
    Var "ExSemaphoreObjectType" OBJECT_TYPE;
    Fn "ExSaveNonVolatileSetting" NTAPI (ret NTSTATUS) [ULONG; ULONG; PVOID; ULONG];
    Fn "ExReleaseReadWriteLock" NTAPI VOID [PERWLOCK];
    Fn "ExReadWriteRefurbInfo" NTAPI (ret NTSTATUS) [Ptr; ULONG; BOOLEAN];
    Fn "ExRaiseStatus" NTAPI VOID [NTSTATUS];
    Fn "ExRaiseException" NTAPI VOID [PEXCEPTION_RECORD];
    Fn "ExQueryPoolBlockSize" NTAPI (ret ULONG) [PVOID];
    Fn "ExQueryNonVolatileSetting" NTAPI (ret NTSTATUS) [ULONG; PULONG; PVOID; ULONG; PULONG];
    Var "ExMutantObjectType" OBJECT_TYPE;
    Fn "ExInterlockedAddLargeInteger" NTAPI (ret LARGE_INTEGER) [PLARGE_INTEGER; LARGE_INTEGER];
    Fn "ExInitializeReadWriteLock" NTAPI VOID [PERWLOCK];
    Fn "ExFreePool" NTAPI VOID [PVOID];
    Var "ExEventObjectType" OBJECT_TYPE;
    Fn "ExAllocatePoolWithTag" NTAPI (ret PVOID) [SIZE_T; ULONG];
    Fn "ExAllocatePool" NTAPI (ret PVOID) [SIZE_T];
    Fn "ExAcquireReadWriteLockShared" NTAPI VOID [PERWLOCK];
    Fn "ExAcquireReadWriteLockExclusive" NTAPI VOID [PERWLOCK]].

Definition dbg_decls : list decl := [
    Fn "DbgUnLoadImageSymbols" NTAPI VOID [PSTRING; PVOID; ULONG_PTR];
    Fn "DbgPrompt" NTAPI (ret ULONG) [PCH; PCH; ULONG];
    Fn "DbgPrint" CDECL (ret ULONG) [PCSTR];
    Fn "DbgLoadImageSymbols" NTAPI VOID [PSTRING; PVOID; ULONG_PTR];
    Fn "DbgBreakPointWithStatus" NTAPI VOID [ULONG];
    Fn "DbgBreakPoint" NTAPI VOID []].

Definition av_decls : list decl := [
    Fn "AvSetSavedDataAddress" NTAPI VOID [PVOID];
    Fn "AvSetDisplayMode" NTAPI (ret ULONG) [PVOID; ULONG; ULONG; ULONG; ULONG; ULONG];
    Fn "AvSendTVEncoderOption" NTAPI VOID [PVOID; ULONG; ULONG; PULONG];
    Fn "AvGetSavedDataAddress" NTAPI (ret PVOID) []].

Definition fast_decls_1 : list decl := [
    Fn "RtlUshortByteSwap" FASTCALL (ret USHORT) [USHORT];
    Fn "RtlUlongByteSwap" FASTCALL (ret ULONG) [ULONG];
    Fn "ObfReferenceObject" FASTCALL VOID [PVOID];
    Fn "ObfDereferenceObject" FASTCALL VOID [PVOID];
    Fn "KiUnlockDispatcherDatabase" FASTCALL VOID [KIRQL];
    Fn "KfRaiseIrql" FASTCALL (ret KIRQL) [KIRQL];
    Fn "KfLowerIrql" FASTCALL VOID [KIRQL];
    Fn "IofCompleteRequest" FASTCALL VOID [PIRP; CCHAR];
    Fn "IofCallDriver" FASTCALL (ret NTSTATUS) [PDEVICE_OBJECT; PIRP];
    Fn "InterlockedPushEntrySList" FASTCALL (ret PSINGLE_LIST_ENTRY) [PSLIST_HEADER; PSINGLE_LIST_ENTRY];
    Fn "InterlockedPopEntrySList" FASTCALL (ret PSINGLE_LIST_ENTRY) [PSLIST_HEADER];
    Fn "InterlockedIncrement" FASTCALL (ret LONG) [Ptr];
    Fn "InterlockedFlushSList" FASTCALL (ret PSINGLE_LIST_ENTRY) [PSLIST_HEADER];
    Fn "InterlockedExchangeAdd" FASTCALL (ret LONG) [Ptr; LONG];
    Fn "InterlockedExchange" FASTCALL (ret LONG) [Ptr; LONG];
    Fn "InterlockedDecrement" FASTCALL (ret LONG) [Ptr];
    Fn "InterlockedCompareExchange" FASTCALL (ret LONG) [Ptr; LONG; LONG];
    Fn "HalRequestSoftwareInterrupt" FASTCALL VOID [KIRQL];
    Fn "HalClearSoftwareInterrupt" FASTCALL VOID [KIRQL];
    Fn "ExfInterlockedRemoveHeadList" FASTCALL (ret PLIST_ENTRY) [PLIST_ENTRY]].

Definition fast_decls_2 : list decl := [
    Fn "ExfInterlockedInsertTailList" FASTCALL (ret PLIST_ENTRY) [PLIST_ENTRY; PLIST_ENTRY];
    Fn "ExfInterlockedInsertHeadList" FASTCALL (ret PLIST_ENTRY) [PLIST_ENTRY; PLIST_ENTRY];
    Fn "ExInterlockedCompareExchange64" FASTCALL (ret LONGLONG) [Ptr; PLONGLONG; PLONGLONG];
    Fn "ExInterlockedAddLargeStatistic" FASTCALL VOID [PLARGE_INTEGER; ULONG]].

(** The whole interface. *)
Definition xbapi : list decl :=
  xe_decls_1 ++ xe_decls_2 ++ rtl_decls_1 ++ rtl_decls_2 ++ rtl_decls_3 ++ rtl_decls_4 ++ ps_decls
  ++ ob_decls ++ nt_decls_1 ++ nt_decls_2 ++ nt_decls_3 ++ nt_decls_4 ++ nt_decls_5 ++ mm_decls_1 ++
  mm_decls_2 ++ ke_decls_1 ++ ke_decls_2 ++ ke_decls_3 ++ io_decls_1 ++ io_decls_2 ++ hal_decls ++
  ex_decls ++ dbg_decls ++ av_decls ++ fast_decls_1 ++ fast_decls_2.

End NxdkDecls.
