(* ===== verification/NxdkAbi.v ===== *)
(** The emulator against the reference interface: the export table and the
    marshalling of calls against the declared functions, and the structures the
    kernel writes in guest memory against the declared layouts. *)
From stdpp Require Import base numbers list gmap strings.
From Stdlib Require Import ZArith Lia.
From S2P Require Import Prelude XbeRam XbeImage CpuSched KrnlExports KrnlMm KrnlState KrnlObjects KrnlCall KrnlSync KrnlCs KrnlTime KrnlSpec.
From S2P Require Import CpuRuntime UnicornRt GuestCpu CLayout NxdkTypes NxdkDecls.
Open Scope Z_scope.

Module NxdkAbi.
Import CLayout NxdkTypes NxdkDecls XbeRam KrnlExports.

(** ** Functions and data *)

(** What the import library of the kernel must say about a declaration: the
    convention and the bytes of its arguments. *)
Definition decl_conv (d : decl) : Conv :=
  match d with
  | Fn _ NTAPI _ _ => Stdcall
  | Fn _ FASTCALL _ _ => Fastcall
  | Fn _ CDECL _ _ => Cdecl
  | Var _ _ => Data
  end.
Definition decl_bytes (d : decl) : Z :=
  match d with
  | Fn _ NTAPI _ ps | Fn _ FASTCALL _ ps => args_size ps
  | _ => 0
  end.

(** Two declarations of the header disagree with the import library: one lacks
    its convention, the other lacks a parameter. *)
Definition disputed (n : string) : bool :=
  String.eqb n "RtlUnicodeStringToInteger" || String.eqb n "ExInterlockedAddLargeInteger".

Definition named (n : string) (x : Export) : bool := String.eqb n (x_name x).
Definition export_of (d : decl) : option Export := snd <$> list_find (named (decl_name d)) kExports.

Definition agrees (d : decl) : bool :=
  match export_of d with
  | Some x => bool_decide (x_conv x = decl_conv d) && (x_arg_bytes x =? decl_bytes d)
  | None => false
  end.

Lemma all_agree : forallb (fun d => disputed (decl_name d) || agrees d) xbapi = true.
Proof. vm_compute. reflexivity. Qed.

Lemma disputed_disagree : forallb (fun d => negb (disputed (decl_name d)) || negb (agrees d)) xbapi = true.
Proof. vm_compute. reflexivity. Qed.

Lemma disputed_exported : forallb (fun d => bool_decide (is_Some (export_of d))) xbapi = true.
Proof. vm_compute. reflexivity. Qed.

Lemma all_declared :
  forallb (fun x => existsb (fun d => String.eqb (x_name x) (decl_name d)) xbapi) kExports = true.
Proof. vm_compute. reflexivity. Qed.

Lemma export_of_spec d x : export_of d = Some x -> x ∈ kExports /\ x_name x = decl_name d.
Proof.
  unfold export_of. destruct (list_find _ _) as [[i y]|] eqn:E; [|done]. intros [= <-].
  apply list_find_Some in E as (Hi & Hn & _). split; [by eapply list_elem_of_lookup_2|].
  apply Is_true_eq_true in Hn. by apply String.eqb_eq in Hn.
Qed.

Lemma decl_agrees d :
  d ∈ xbapi -> disputed (decl_name d) = false ->
  exists x, export_of d = Some x /\ x_conv x = decl_conv d /\ x_arg_bytes x = decl_bytes d.
Proof.
  intros Hd Hn. pose proof all_agree as H. apply forallb_Forall in H. eapply Forall_forall in H; [|exact Hd].
  rewrite Hn in H. cbn [orb] in H. unfold agrees in H. destruct (export_of d) as [x|]; [|done].
  apply andb_true_iff in H as [H1%bool_decide_eq_true H2%Z.eqb_eq]. by exists x.
Qed.

(** The export table is the declared interface: every export is declared and
    every declaration is exported under its name, and the convention and the
    argument bytes are those that follow from the declared parameters, for all
    371 but the two declarations the header gets wrong. *)
Theorem exports_match_header :
  (forall x, x ∈ kExports -> exists d, d ∈ xbapi /\ decl_name d = x_name x) /\
  (forall d, d ∈ xbapi -> exists x, x ∈ kExports /\ x_name x = decl_name d /\
     (x_conv x = decl_conv d /\ x_arg_bytes x = decl_bytes d <-> disputed (decl_name d) = false)).
Proof.
  split.
  - intros x Hx. pose proof all_declared as H. apply forallb_Forall in H. eapply Forall_forall in H; [|exact Hx].
    apply existsb_exists in H as (d & Hd & He%String.eqb_eq). exists d. by rewrite list_elem_of_In.
  - intros d Hd. destruct (disputed (decl_name d)) eqn:E.
    + pose proof disputed_disagree as H. apply forallb_Forall in H. eapply Forall_forall in H; [|exact Hd].
      rewrite E in H. cbn [negb orb] in H. pose proof disputed_exported as H'. apply forallb_Forall in H'.
      eapply Forall_forall in H'; [|exact Hd]. unfold agrees in H. destruct (export_of d) as [x|] eqn:Ex; [|done].
      exists x. destruct (export_of_spec d x Ex) as [Hx He]. split_and!; [done..|]. split; [|done]. intros [H1 H2].
      rewrite H1, H2, Z.eqb_refl, bool_decide_eq_true_2 in H by done. done.
    + destruct (decl_agrees d Hd E) as (x & Ex & H1 & H2). exists x. destruct (export_of_spec d x Ex). by split_and!.
Qed.

(** *** Calls *)

Section calls.
Import CpuRuntime GuestCpu.
Context `{os : HostOS} `{eng : Unicorn}.

(** The words of the arguments of a call, with its convention: fastcall passes
    the first two in ECX and EDX; the others are on the stack above the return
    address, the first one lowest. *)
Definition word_passed (r : ram) (c : cpu) (cv : callconv) (k : nat) (w : Z) : Prop :=
  match cv, k with
  | FASTCALL, 0%nat => reg c ECX = w
  | FASTCALL, 1%nat => reg c EDX = w
  | FASTCALL, S (S j) => read32 r ((reg c ESP + 4 * (1 + Z.of_nat j)) `mod` 2 ^ 32) = Some w
  | _, j => read32 r ((reg c ESP + 4 * (1 + Z.of_nat j)) `mod` 2 ^ 32) = Some w
  end.

(** The guest stands at the entry of the declared function, called with [ws]. *)
Definition called_with (r : ram) (c : cpu) (cv : callconv) (ps : list ctype) (ws : list Z) : Prop :=
  4 * zlen ws = args_size ps /\ forall k w, ws !! k = Some w -> word_passed r c cv k w.

(** What the function takes off the stack when it returns. *)
Definition popped (cv : callconv) (ps : list ctype) : Z :=
  match cv with NTAPI => args_size ps | FASTCALL => Z.max 0 (args_size ps - 8) | CDECL => 0 end.

(** At most fourteen slots, and something in the first register. *)
Definition slots_fit (d : decl) : bool :=
  match d with
  | Fn _ NTAPI _ ps => (0 <=? args_size ps) && (args_size ps <=? 56)
  | Fn _ FASTCALL _ ps => (args_size ps =? 4) || (args_size ps =? 8) || (args_size ps =? 12)
  | Fn _ CDECL _ ps => args_size ps <=? 52
  | Var _ _ => true
  end.

Lemma all_fit : forallb (fun d => disputed (decl_name d) || slots_fit d) xbapi = true.
Proof. vm_compute. reflexivity. Qed.

Lemma decl_fits d : d ∈ xbapi -> disputed (decl_name d) = false -> slots_fit d = true.
Proof.
  intros Hd Hn. pose proof all_fit as H. apply forallb_Forall in H. eapply Forall_forall in H; [|exact Hd].
  rewrite Hn in H. cbn [orb] in H. by destruct (slots_fit d).
Qed.

(** The words on the stack, from the argument slot on. *)
Lemma stack_words r c (ws : list Z) :
  (forall k w, ws !! k = Some w -> read32 r ((reg c ESP + 4 * (1 + Z.of_nat k)) `mod` 2 ^ 32) = Some w) ->
  stack_args r (reg c ESP) (zlen ws) = ws.
Proof.
  intros H. apply stack_args_words. intros i a Hi. rewrite <- (H i a Hi). f_equal. unfold u32. f_equal. lia.
Qed.

Lemma stack_args_prefix r esp n m : 0 <= n <= m -> stack_args r esp n `prefix_of` stack_args r esp m.
Proof.
  intros H. unfold stack_args. replace m with (n + (m - n)) by lia. rewrite seqZ_app by lia. rewrite fmap_app.
  by eexists.
Qed.

(** C31. A guest that calls a declared function the way its declaration says has
    its arguments taken as it passed them: for every function of the header but
    the two that disagree with the import library, the export of that name gets
    exactly the words passed, in order (a variadic function gets at least
    these), and the return pops what the convention pops. *)
Theorem calls_follow_the_header (r : ram) (c : cpu) name cv res ps (ws : list Z) :
  Fn name cv res ps ∈ xbapi -> disputed name = false -> called_with r c cv ps ws ->
  exists x, find_export (x_ordinal x) = Some x /\ x_name x = name /\
    (if bool_decide (cv = CDECL) then ws `prefix_of` fst (marshal r c x) else fst (marshal r c x) = ws) /\
    snd (marshal r c x) = popped cv ps.
Proof.
  intros Hd Hn [Hl Hw]. destruct (decl_agrees _ Hd Hn) as (x & Ex & Hc & Hb). destruct (export_of_spec _ x Ex) as [Hx Hname].
  exists x. split; [by apply find_export_spec|]. split; [done|].
  pose proof (decl_fits _ Hd Hn) as H. unfold marshal. rewrite Hc, Hb. clear Hd.
  destruct cv; cbn [decl_conv decl_bytes slots_fit popped fst snd] in *.
  - rewrite bool_decide_false by done. split; [|done]. apply andb_true_iff in H as [_ H%Z.leb_le].
    rewrite <- Hl, Z.mul_comm, Z.div_mul by done. rewrite Z.min_l by lia. by apply stack_words.
  - rewrite bool_decide_false by done. rewrite <- Hl in *.
    assert (Hs : stack_args r (reg c ESP) (zlen (drop 2 ws)) = drop 2 ws).
    { apply stack_words. intros k w. rewrite lookup_drop. intros Hk. exact (Hw _ _ Hk). }
    assert (Hlen : (1 <= length ws <= 3)%nat) by lia. clear H.
    destruct ws as [|w0 [|w1 [|w2 [|w3 ws]]]]; cbn [length] in Hlen; try lia.
    + split; [|done]. cbn. by rewrite (Hw 0%nat w0 eq_refl : reg c ECX = w0).
    + split; [|done]. cbn. by rewrite (Hw 0%nat w0 eq_refl : reg c ECX = w0), (Hw 1%nat w1 eq_refl : reg c EDX = w1).
    + split; [|done]. rewrite <- (Hw 0%nat w0 eq_refl : reg c ECX = w0), <- (Hw 1%nat w1 eq_refl : reg c EDX = w1).
      change (drop 2 [w0; w1; w2]) with [w2] in Hs. etransitivity; [|rewrite <- Hs; reflexivity]. reflexivity.
  - split; [|done]. apply Z.leb_le in H. rewrite <- (stack_words r c ws) by exact Hw.
    apply stack_args_prefix. lia.
Qed.

End calls.

(** ** Structures in guest memory *)

Section structures.
Import KrnlState KrnlObjects KrnlCall KrnlCs.
Context `{os : HostOS} `{hl : !HostLaws os}.

(** A member of a structure at [va], as the guest loads it. *)
Definition guest_field (r : ram) (va : Z) (t : ctype) (path : list string) : option Z :=
  p ← offsetof t path; le_val <$> read_bytes r (va + fst p) (sizeof (snd p)).

(** [InitializeListHead] has been done: both links lead back to the head. *)
Definition list_is_empty (r : ram) (va : Z) (t : ctype) (path : list string) : Prop :=
  exists off, fst <$> offsetof t path = Some off /\
    guest_field r va t (path ++ ["Flink"]) = Some (va + off) /\
    guest_field r va t (path ++ ["Blink"]) = Some (va + off).

(** Memory with [bs] stored from [va] on. *)
Definition stored (r : ram) (va : Z) (bs : list Z) : ram := set_bytes r (mem_write (r_bytes r) va bs).

(** Stores one after the other make one image. *)
Lemma stored_app r va l1 l2 : set_bytes (stored r va l1) (mem_write (r_bytes (stored r va l1)) (va + zlen l1) l2) = stored r va (l1 ++ l2).
Proof. unfold stored. cbn [set_bytes r_bytes]. by rewrite mem_write_app. Qed.

Lemma stored_bytes r va n l bs :
  0 <= va -> va + n <= 2 ^ 32 -> 0 < zlen bs -> zlen l + zlen bs <= n -> writable r va n = true ->
  write_bytes_ (stored r va l) (u32 (va + zlen l)) bs = stored r va (l ++ bs).
Proof.
  intros Hva Hn H0 Hl Hw. rewrite u32_small by lia. unfold write_bytes_, write_bytes.
  change (writable (stored r va l)) with (writable r). rewrite (writable_sub r va n) by (done || lia).
  apply stored_app.
Qed.

Lemma stored_nil r va : stored r va [] = r.
Proof. by destruct r. Qed.

(** One store of the kernel. *)
Lemma store_word_next r va n l off v k :
  0 <= va -> va + n <= 2 ^ 32 -> zlen l = off -> off + 4 <= n -> writable r va n = true ->
  wr32 (va + off) v (with_ram k (stored r va l)) = Ok (tt, with_ram k (stored r va (l ++ le_bytes 4 v))).
Proof.
  intros Hva Hn <- Hl Hw. unfold wr32, kmod. destruct k; cbn [with_ram k_ram].
  change (write32_ ?r ?a ?v) with (write_bytes_ r a (le_bytes 4 v)).
  rewrite (stored_bytes r va n) by (done || rewrite length_le_bytes; lia). done.
Qed.

(** Reading a member of an image. *)
Lemma mem_read_part m a bs off n :
  0 <= off -> 0 <= n -> off + n <= zlen bs ->
  mem_read (mem_write m a bs) (a + off) n = take (Z.to_nat n) (drop (Z.to_nat off) bs).
Proof.
  intros Ho Hn Hl. rewrite <- (take_drop (Z.to_nat off) bs) at 1. rewrite mem_write_app, length_take_le by lia.
  rewrite <- (take_drop (Z.to_nat n) (drop (Z.to_nat off) bs)) at 1. rewrite mem_write_app, length_take_le by (rewrite length_drop; lia).
  rewrite mem_read_write_disjoint by (rewrite !Z2Nat.id by lia; lia).
  replace (a + off) with (a + Z.of_nat (Z.to_nat off)) by lia.
  set (p := take (Z.to_nat n) _). assert (Hp : n = zlen p) by (unfold p; rewrite length_take_le; [lia|rewrite length_drop; lia]).
  clearbody p. rewrite Hp. apply mem_read_write.
Qed.

Lemma field_stored r va t path off u bs :
  offsetof t path = Some (off, u) -> 0 <= off -> 0 < sizeof u -> off + sizeof u <= zlen bs ->
  writable r (va + off) (sizeof u) = true ->
  guest_field (stored r va bs) va t path = Some (le_val (take (Z.to_nat (sizeof u)) (drop (Z.to_nat off) bs))).
Proof.
  intros Ho H0 Hs Hl Hw. unfold guest_field. rewrite Ho. cbn [mbind option_bind fst snd].
  unfold read_bytes, readable. change (is_committed (stored r va bs)) with (is_committed r).
  apply writable_spec in Hw as [-> _]. cbn [fmap option_fmap option_map stored set_bytes r_bytes].
  by rewrite mem_read_part by lia.
Qed.

(** *** Dispatcher objects *)

(** The structure behind each kind of object, and its state as a LONG. *)
Definition kind_type (k : Kind) : ctype :=
  match k with Event => KEVENT | Mutant => KMUTANT | Semaphore => KSEMAPHORE | Thread => KTHREAD end.
Definition signal_state (o : DispatcherObject) : Z :=
  match o_kind o with
  | Event => bool_val (ev_signaled (o_event o))
  | Mutant => mu_state (o_mutant o)
  | Semaphore => se_count (o_semaphore o)
  | Thread => 0
  end.

Definition head_image (va size state : Z) : list Z :=
  ((le_bytes 4 (Z.shiftl size 16) ++ le_bytes 4 (u32 state)) ++ le_bytes 4 (u32 (va + 8))) ++ le_bytes 4 (u32 (va + 8)).

(** The bytes the calls that initialise an object in guest memory check. *)
Definition checked_size (k : Kind) : Z :=
  match k with Event => 16 | Mutant => 28 | Semaphore => 20 | Thread => 0 end.

(** The bytes [write_dispatcher_header] stores; the last byte of a mutant is
    stored only when it can be written. *)
Definition object_image (o : DispatcherObject) (last : bool) : list Z :=
  let va := o_guest_va o in
  match o_kind o with
  | Event => head_image va 2 (signal_state o)
  | Mutant =>
      (((head_image va 4 (signal_state o) ++ le_bytes 4 (u32 (va + 0x10))) ++ le_bytes 4 (u32 (va + 0x10))) ++
       le_bytes 4 (mu_owner (o_mutant o))) ++ (if last then [bool_val (mu_abandoned (o_mutant o))] else [])
  | Semaphore => head_image va 3 (signal_state o) ++ le_bytes 4 (u32 (se_limit (o_semaphore o)))
  | Thread => []
  end.

Lemma head_stores r va n size state k :
  0 <= va -> va + n <= 2 ^ 32 -> 16 <= n -> writable r va n = true ->
  (wr32 va (Z.shiftl size 16) ;; wr32 (va + 4) (u32 state) ;;
   wr32 (va + 8) (u32 (va + 8)) ;; wr32 (va + 12) (u32 (va + 8)))%krnl (with_ram k (stored r va [])) =
  Ok (tt, with_ram k (stored r va (head_image va size state))).
Proof.
  intros Hva Hn H16 Hw.
  replace (wr32 va (Z.shiftl size 16)) with (wr32 (va + 0) (Z.shiftl size 16)) by (by rewrite Z.add_0_r).
  do 3 (erewrite KrnlSync.kbind_ok; [|apply (store_word_next r va n); (reflexivity || done || lia)]).
  apply (store_word_next r va n); (reflexivity || done || lia).
Qed.

(** The sizes of the structures. *)
Lemma kind_sizes : sizeof KEVENT = 16 /\ sizeof KSEMAPHORE = 20 /\ sizeof KMUTANT = 32.
Proof. by vm_compute. Qed.

Lemma header_stores o k :
  let va := o_guest_va o in
  let n := checked_size (o_kind o) in
  0 < va -> va + sizeof (kind_type (o_kind o)) <= 2 ^ 32 -> writable (k_ram k) va n = true ->
  write_dispatcher_header o k =
    Ok (tt, with_ram k (stored (k_ram k) va (object_image o (writable (k_ram k) (va + 28) 1)))).
Proof.
  cbv zeta. intros Hva Hn Hw. unfold write_dispatcher_header. rewrite (proj2 (Z.eqb_neq _ _)) by lia.
  set (va := o_guest_va o) in *. set (r := k_ram k) in *.
  assert (Ek : k = with_ram k (stored r va [])) by (rewrite stored_nil; by destruct k). destruct kind_sizes as (S1 & S2 & S3).
  unfold object_image, signal_state. fold va. destruct (o_kind o) eqn:Ekind; cbn [kind_type checked_size] in *.
  - rewrite Ek at 1. apply (head_stores r va 16 2); (done || lia).
  - rewrite Ek at 1. erewrite KrnlSync.kbind_ok; [|apply (head_stores r va 28 4); (exact Hw || lia)].
    do 3 (erewrite KrnlSync.kbind_ok; [|apply (store_word_next r va 28); (reflexivity || done || lia)]).
    unfold wr_bytes, kmod. destruct k; cbn [with_ram k_ram]. do 4 f_equal.
    rewrite (u32_small (va + 0x1C)) by lia. unfold write_bytes_, write_bytes. change (zlen [_]) with 1.
    rewrite (eq_refl : writable (stored r va _) (va + 28) 1 = writable r (va + 28) 1).
    destruct (writable r (va + 28) 1); [|rewrite app_nil_r; reflexivity].
    match goal with |- _ = stored r va (?l ++ _) => assert (E : va + 28 = va + zlen l) by reflexivity end.
    rewrite E. apply stored_app.
  - rewrite Ek at 1. erewrite KrnlSync.kbind_ok; [|apply (head_stores r va 20 3); (exact Hw || lia)].
    apply (store_word_next r va 20); (reflexivity || done || lia).
  - rewrite stored_nil. by destruct k.
Qed.

(** A word of an image. *)
Lemma word_stored r va n t path off u bs v :
  0 <= va -> va + n <= 2 ^ 32 -> writable r va n = true ->
  offsetof t path = Some (off, u) -> 0 <= off -> sizeof u = 4 -> off + 4 <= n -> off + 4 <= zlen bs -> is_u32 v ->
  take 4 (drop (Z.to_nat off) bs) = le_bytes 4 v ->
  guest_field (stored r va bs) va t path = Some v.
Proof.
  intros Hva Hn Hw Ho H0 Hs Hb Hl Hv E. rewrite (field_stored r va t path off u bs) by (try done; try lia;
    rewrite Hs; apply (writable_sub r va n); (done || lia)).
  rewrite Hs. change (Z.to_nat 4) with 4%nat. by rewrite E, le32_roundtrip.
Qed.

Lemma byte_at_stored r va t path off u bs v :
  offsetof t path = Some (off, u) -> 0 <= off -> sizeof u = 1 -> off + 1 <= zlen bs ->
  writable r (va + off) 1 = true -> take 1 (drop (Z.to_nat off) bs) = [v] ->
  guest_field (stored r va bs) va t path = Some v.
Proof.
  intros Ho H0 Hs Hl Hw E. rewrite (field_stored r va t path off u bs) by (done || (try rewrite Hs; done || lia)).
  rewrite Hs. change (Z.to_nat 1) with 1%nat. rewrite E. cbn. f_equal. lia.
Qed.

Lemma byte_stored r va n t path off u bs v :
  0 <= va -> va + n <= 2 ^ 32 -> writable r va n = true ->
  offsetof t path = Some (off, u) -> 0 <= off -> sizeof u = 1 -> off + 1 <= n -> off + 1 <= zlen bs ->
  take 1 (drop (Z.to_nat off) bs) = [v] ->
  guest_field (stored r va bs) va t path = Some v.
Proof.
  intros Hva Hn Hw Ho H0 Hs Hb Hl E. eapply byte_at_stored; try done. apply (writable_sub r va n); (done || lia).
Qed.

Lemma stored_frame r va bs n a m :
  zlen bs <= n -> a + m <= va \/ va + n <= a ->
  mem_read (r_bytes (stored r va bs)) a m = mem_read (r_bytes r) a m.
Proof. intros Hb Ha. cbn [stored set_bytes r_bytes]. apply mem_read_write_disjoint. lia. Qed.

End structures.

Section objects.
Import KrnlState KrnlObjects KrnlTime KrnlCall KrnlCs.
Context `{os : HostOS} `{hl : !HostLaws os}.

(** Reads a member of an image whose bytes are known. *)
Ltac known_bytes tac :=
  tac; [lia|eassumption|eassumption|vm_compute; reflexivity|done|reflexivity|by vm_compute|by vm_compute|..];
  try reflexivity; try (unfold is_u32; lia); try apply u32_range; try done.
Ltac read_word := known_bytes ltac:(eapply word_stored).
Ltac read_byte := known_bytes ltac:(eapply byte_stored).

(** A list head at offset [off] of an image. *)
Ltac list_member off :=
  exists off; split_and!; [reflexivity|..];
  match goal with |- _ = Some (?a + _) => replace (Some (a + off)) with (Some (u32 (a + off))) by (by rewrite u32_small by lia) end;
  read_word.

(** What the guest finds in an object the kernel mirrors: every member of the
    header (the size in quadwords), and what its kind adds, but the last byte of
    a mutant. *)
Definition object_fields (r : ram) (va : Z) (o : DispatcherObject) : Prop :=
  let t := kind_type (o_kind o) in
  guest_field r va t ["Header"; "Type"] = Some 0 /\ guest_field r va t ["Header"; "Absolute"] = Some 0 /\
  guest_field r va t ["Header"; "Size"] = Some ((sizeof t + 7) `div` 8) /\
  guest_field r va t ["Header"; "Inserted"] = Some 0 /\
  guest_field r va t ["Header"; "SignalState"] = Some (u32 (signal_state o)) /\
  list_is_empty r va t ["Header"; "WaitListHead"] /\
  match o_kind o with
  | Mutant =>
      list_is_empty r va t ["MutantListEntry"] /\
      guest_field r va t ["OwnerThread"] = Some (mu_owner (o_mutant o))
  | Semaphore => guest_field r va t ["Limit"] = Some (u32 (se_limit (o_semaphore o)))
  | _ => True
  end.

(** C37. The header the kernel writes for an event, a mutant or a semaphore is the
    declared structure, as long as the bytes the initialising calls check can be
    written (16, 28 and 20): every member of the dispatcher header, the lists,
    the owner and the limit are where the guest looks for them; the Abandoned
    member of a mutant, which lies behind the 28 bytes, is written when its byte
    can be written and left as it was otherwise; nothing outside the structure
    changes. *)
Theorem objects_have_declared_layout (o : DispatcherObject) (k : kernel) :
  let va := o_guest_va o in
  let t := kind_type (o_kind o) in
  o_kind o <> Thread -> is_u32 (mu_owner (o_mutant o)) ->
  0 < va -> va + sizeof t <= 2 ^ 32 -> writable (k_ram k) va (checked_size (o_kind o)) = true ->
  exists r, write_dispatcher_header o k = Ok (tt, with_ram k r) /\ object_fields r va o /\
    (o_kind o = Mutant ->
       if writable (k_ram k) (va + 28) 1 then guest_field r va t ["Abandoned"] = Some (bool_val (mu_abandoned (o_mutant o)))
       else mem_read (r_bytes r) (va + 28) 1 = mem_read (r_bytes (k_ram k)) (va + 28) 1) /\
    (forall a m, a + m <= va \/ va + sizeof t <= a -> mem_read (r_bytes r) a m = mem_read (r_bytes (k_ram k)) a m).
Proof.
  cbv zeta. intros Hk Ho Hva Hn Hw. destruct kind_sizes as (S1 & S2 & S3).
  eexists. split; [by apply header_stores|].
  unfold object_fields, object_image.
  destruct (o_kind o) eqn:Ek; [| | |done]; cbn [kind_type checked_size] in *.
  - assert (Hn' : o_guest_va o + 16 <= 2 ^ 32) by lia.
    split_and!; [read_byte|read_byte|read_byte|read_byte|read_word|list_member 8|done|done|].
    intros a m. apply stored_frame. by vm_compute.
  - assert (Hn' : o_guest_va o + 28 <= 2 ^ 32) by lia. destruct (writable (k_ram k) (o_guest_va o + 28) 1) eqn:Ew.
    + split_and!; [read_byte|read_byte|read_byte|read_byte|read_word|list_member 8|list_member 16|read_word| |].
      * intros _. by eapply byte_at_stored.
      * intros a m. apply stored_frame. by vm_compute.
    + split_and!; [read_byte|read_byte|read_byte|read_byte|read_word|list_member 8|list_member 16|read_word| |].
      * intros _. apply (stored_frame _ _ _ 28); [by vm_compute|lia].
      * intros a m. apply stored_frame. by vm_compute.
  - assert (Hn' : o_guest_va o + 20 <= 2 ^ 32) by lia.
    split_and!; [read_byte|read_byte|read_byte|read_byte|read_word|list_member 8|read_word|done|].
    intros a m. apply stored_frame. by vm_compute.
Qed.

(** *** Critical sections *)

Lemma critical_section_size : sizeof RTL_CRITICAL_SECTION = kCsSize.
Proof. reflexivity. Qed.

(** An initialised critical section: free, with an unsignalled event and an
    empty wait list, all in the members the guest's inlined code uses. *)
Theorem critical_section_layout (va : Z) (k : kernel) :
  let t := RTL_CRITICAL_SECTION in
  0 < va -> va + sizeof t <= 2 ^ 32 -> writable (k_ram k) va (sizeof t) = true ->
  exists r, cs_init va k = Ok (kStatusSuccess, with_ram k r) /\
    guest_field r va t ["Synchronization"; "Event"; "SignalState"] = Some 0 /\
    list_is_empty r va t ["Synchronization"; "Event"; "WaitListHead"] /\
    guest_field r va t ["LockCount"] = Some (u32 (-1)) /\
    guest_field r va t ["RecursionCount"] = Some 0 /\ guest_field r va t ["OwningThread"] = Some 0 /\
    (forall a m, a + m <= va \/ va + sizeof t <= a -> mem_read (r_bytes r) a m = mem_read (r_bytes (k_ram k)) a m).
Proof.
  cbv zeta. intros Hva Hn Hw. set (r := k_ram k) in *. pose proof (eq_refl : sizeof RTL_CRITICAL_SECTION = 28) as Hs.
  exists (stored r va (((head_image va 2 0 ++ le_bytes 4 (u32 (-1))) ++ le_bytes 4 0) ++ le_bytes 4 0)). split.
  - unfold cs_init, can_write. unfold kbind at 1. rewrite critical_section_size in Hw, Hn. fold r. rewrite Hw. cbn [negb].
    unfold write_dispatcher_header. cbn [o_guest_va o_kind o_event ev_signaled bool_val]. rewrite (proj2 (Z.eqb_neq _ _)) by lia.
    assert (Ek : k = with_ram k (stored r va [])) by (rewrite stored_nil; by destruct k). rewrite Ek at 1.
    erewrite KrnlSync.kbind_ok; [|apply (head_stores r va kCsSize 2); (exact Hw || done || lia)].
    do 3 (erewrite KrnlSync.kbind_ok; [|apply (store_word_next r va kCsSize); (reflexivity || done || lia)]). done.
  - split_and!; [read_word|list_member 8|read_word..|].
    intros a m. apply stored_frame. by vm_compute.
Qed.

(** *** Times *)

(** Two 16-bit members in one stored word. *)
Lemma half_words lo hi :
  0 <= lo < 65536 -> 0 <= hi < 65536 ->
  let w := le_bytes 4 (Z.lor lo (u32 (Z.shiftl hi 16))) in le_val (take 2 w) = lo /\ le_val (drop 2 w) = hi.
Proof.
  intros Hl Hh. rewrite Z.shiftl_mul_pow2, u32_small, Z.lor_comm, lor_split by lia. change (2 ^ 16) with 65536.
  cbn [le_bytes take drop le_val]. split; Z.div_mod_to_equations; lia.
Qed.

(** A 16-bit member of an image. *)
Lemma half_stored r va n t path off u bs v :
  0 <= va -> va + n <= 2 ^ 32 -> writable r va n = true -> zlen bs <= n ->
  offsetof t path = Some (off, u) -> 0 <= off -> sizeof u = 2 -> off + 2 <= zlen bs ->
  le_val (take 2 (drop (Z.to_nat off) bs)) = v ->
  guest_field (stored r va bs) va t path = Some v.
Proof.
  intros Hva Hn Hw Hb Ho H0 Hs Hl E. rewrite (field_stored r va t path off u bs) by (try done; try lia;
    rewrite Hs; apply (writable_sub r va n); (done || lia)).
  rewrite Hs. change (Z.to_nat 2) with 2%nat. by rewrite E.
Qed.

Definition words_image (l : list Z) : list Z := foldl (fun bs v => bs ++ le_bytes 4 v)%list [] l.

(** The members of a TIME_FIELDS image. *)
Lemma time_image r va (t : time_fields) :
  0 <= va -> va + sizeof TIME_FIELDS <= 2 ^ 32 -> writable r va (sizeof TIME_FIELDS) = true ->
  Forall (fun v => 0 <= v < 65536) [tf_month t; tf_day t; tf_hour t; tf_minute t; tf_second t; tf_ms t; tf_weekday t] ->
  let f n := guest_field (stored r va (words_image (fields_words t))) va TIME_FIELDS [n] in
  f "Year"%string = Some (tf_year t `mod` 65536) /\ f "Month"%string = Some (tf_month t) /\
  f "Day"%string = Some (tf_day t) /\ f "Hour"%string = Some (tf_hour t) /\
  f "Minute"%string = Some (tf_minute t) /\ f "Second"%string = Some (tf_second t) /\
  f "Milliseconds"%string = Some (tf_ms t) /\ f "Weekday"%string = Some (tf_weekday t).
Proof.
  intros Hva Hn Hw H. cbv zeta. rewrite !Forall_cons in H. destruct H as (H1 & H2 & H3 & H4 & H5 & H6 & H7 & _).
  assert (Hy : u32 (Z.land (tf_year t) 0xFFFF) = tf_year t `mod` 65536).
  { change 0xFFFF with (Z.ones 16). rewrite Z.land_ones by lia. change (2 ^ 16) with 65536.
    apply u32_small. pose proof (Z.mod_pos_bound (tf_year t) 65536). lia. }
  assert (H0 : 0 <= tf_year t `mod` 65536 < 65536) by (apply Z.mod_pos_bound; lia).
  unfold words_image, fields_words. rewrite Hy. cbn [foldl].
  destruct (half_words _ _ H0 H1) as [A1 B1], (half_words _ _ H2 H3) as [A2 B2],
    (half_words _ _ H4 H5) as [A3 B3], (half_words _ _ H6 H7) as [A4 B4].
  split_and!;
    (eapply half_stored; [lia|exact Hn|exact Hw|by vm_compute|vm_compute; reflexivity|done|reflexivity|by vm_compute|]);
    assumption.
Qed.

(** RtlTimeToTimeFields fills the declared structure: the guest reads the date,
    the time of day and the weekday of the FILETIME from their members, the
    year reduced to 16 bits. *)
Theorem time_fields_layout (src va ft : Z) (k : kernel) (t : time_fields) :
  time_to_fields ft = Ok t -> read64 src k = Ok (Some ft, k) ->
  0 <= va -> va + sizeof TIME_FIELDS <= 2 ^ 32 -> writable (k_ram k) va (sizeof TIME_FIELDS) = true ->
  exists r, RtlTimeToTimeFields [src; va] k = Ok (Ret 0 true None, with_ram k r) /\
    guest_field r va TIME_FIELDS ["Year"] = Some (tf_year t `mod` 65536) /\
    guest_field r va TIME_FIELDS ["Month"] = Some (tf_month t) /\
    guest_field r va TIME_FIELDS ["Day"] = Some (tf_day t) /\
    guest_field r va TIME_FIELDS ["Hour"] = Some (tf_hour t) /\
    guest_field r va TIME_FIELDS ["Minute"] = Some (tf_minute t) /\
    guest_field r va TIME_FIELDS ["Second"] = Some (tf_second t) /\
    guest_field r va TIME_FIELDS ["Milliseconds"] = Some (tf_ms t) /\
    guest_field r va TIME_FIELDS ["Weekday"] = Some (tf_weekday t).
Proof.
  intros Et Hft Hva Hn Hw. set (r := k_ram k) in *.
  exists (stored r va (words_image (fields_words t))). split.
  - unfold RtlTimeToTimeFields. cbn [arg nth]. rewrite (KrnlSync.kbind_ok _ _ _ _ _ Hft).
    unfold can_write, kbind at 1. change 16 with (sizeof TIME_FIELDS) at 1. fold r. rewrite Hw, Et. cbn [negb].
    assert (Ek : k = with_ram k (stored r va [])) by (rewrite stored_nil; by destruct k). rewrite Ek at 1.
    unfold fields_words. cbv beta iota fix.
    replace (va + 4 + 4 + 4) with (va + 12) by lia. replace (va + 4 + 4) with (va + 8) by lia.
    match goal with |- kbind (wr32 va ?v) _ _ = _ => replace (wr32 va v) with (wr32 (va + 0) v) by (by rewrite Z.add_0_r) end.
    do 4 (erewrite KrnlSync.kbind_ok; [|apply (store_word_next r va (sizeof TIME_FIELDS)); (reflexivity || done || lia)]).
    reflexivity.
  - apply time_image; [done..|]. pose proof (time_fields_exact ft) as H. cbv zeta in H.
    destruct H as (t' & Et' & _ & ? & ? & ? & ? & ? & ? & Hwd & _). rewrite Et in Et'. injection Et' as <-. rewrite Hwd.
    pose proof (Z.mod_pos_bound (s64 ft `div` kDay100ns + 1) 7). repeat constructor; lia.
Qed.

End objects.

(** ** Data exports *)

(** Where the kernel puts an exported variable, with its declared type. *)
Definition placed (d : decl) : option (Z * ctype) :=
  match d with
  | Var _ t => x ← export_of d; if implemented_data (x_ordinal x) then Some (KrnlCall.data_address 0 (x_ordinal x), t) else None
  | _ => None
  end.
Definition window : list (Z * ctype) := omap placed xbapi.

(** The image's path is stored from here on, for at most this many bytes. *)
Definition name_buffer : Z * Z := (0x20, 0xE0).

Definition apart (p q : Z * Z) : bool := (fst p + snd p <=? fst q) || (fst q + snd q <=? fst p).
Definition extent (p : Z * ctype) : Z * Z := (fst p, sizeof (snd p)).

(** Every variable the kernel exports has room for its declared type in the
    data page, aligned, apart from every other one and from the path. *)
Theorem data_exports_fit :
  length window = 4%nat /\
  Forall (fun p => wf (snd p) = true /\ (alignof (snd p) | fst p) /\ 0 <= fst p /\ fst p + sizeof (snd p) <= 0x1000 /\
                   apart (extent p) name_buffer = true) window /\
  (forall i j p q, i <> j -> window !! i = Some p -> window !! j = Some q -> apart (extent p) (extent q) = true).
Proof.
  assert (E : window = [(16, Arr ANSI_STRING 1); (0, XBOX_KRNL_VERSION); (288, PLAUNCH_DATA_PAGE); (8, DWORD)])
    by (vm_compute; reflexivity).
  rewrite E. split; [done|]. split.
  - assert (H : forall o t q, wf t = true -> alignof t * q = o -> (0 <=? o) && (o + sizeof t <=? 0x1000) = true ->
        apart (extent (o, t)) name_buffer = true ->
        wf t = true /\ (alignof t | o) /\ 0 <= o /\ o + sizeof t <= 0x1000 /\ apart (extent (o, t)) name_buffer = true).
    { intros o t q H1 H2 [H3%Z.leb_le H4%Z.leb_le]%andb_true_iff H5. split_and!; try assumption. exists q. rewrite <- H2. apply Z.mul_comm. }
    apply Forall_cons; split; [apply (H _ _ 4); reflexivity|]. apply Forall_cons; split; [apply (H _ _ 0); reflexivity|].
    apply Forall_cons; split; [apply (H _ _ 72); reflexivity|]. apply Forall_cons; split; [apply (H _ _ 2); reflexivity|constructor].
  - rewrite <- E. intros i j p q Hij Hp Hq.
    assert (H : forallb (fun i => forallb (fun j => (i =? j)%nat ||
        match window !! i, window !! j with Some p, Some q => apart (extent p) (extent q) | _, _ => true end) (seq 0 4)) (seq 0 4) = true)
      by (vm_compute; reflexivity).
    assert (Hl : length window = 4%nat) by (by rewrite E).
    pose proof (lookup_lt_Some _ _ _ Hp) as Li. pose proof (lookup_lt_Some _ _ _ Hq) as Lj. rewrite Hl in Li, Lj.
    rewrite forallb_forall in H. specialize (H i ltac:(apply in_seq; lia)).
    rewrite forallb_forall in H. specialize (H j ltac:(apply in_seq; lia)).
    rewrite Hp, Hq, (proj2 (Nat.eqb_neq i j) Hij) in H. exact H.
Qed.

(** ** Results and status codes *)

(** A result in EDX:EAX exactly for the served functions whose declared result
    has eight bytes. *)
Definition wide_result (d : decl) : bool := match d with Fn _ _ (Some t) _ => sizeof t =? 8 | _ => false end.
Theorem wide_results_match d x :
  d ∈ xbapi -> export_of d = Some x -> implemented_function (x_ordinal x) = true ->
  returns_64 (x_ordinal x) = wide_result d.
Proof.
  assert (H : forallb (fun d => match export_of d with
                       | Some x => negb (implemented_function (x_ordinal x)) || eqb (returns_64 (x_ordinal x)) (wide_result d)
                       | None => true end) xbapi = true) by (vm_compute; reflexivity).
  intros Hd Hx Hi. apply forallb_Forall in H. eapply Forall_forall in H; [|exact Hd].
  rewrite Hx, Hi in H. cbn [negb orb] in H. by apply eqb_prop in H.
Qed.

Definition status (n : string) : option Z := snd <$> (snd <$> list_find (fun p => String.eqb n (fst p)) ntstatus).

Example status_codes :
  status "STATUS_SUCCESS" = Some KrnlObjects.kStatusSuccess /\
  status "STATUS_ABANDONED_WAIT_0" = Some KrnlObjects.kStatusAbandoned /\
  status "STATUS_TIMEOUT" = Some KrnlObjects.kStatusTimeout /\
  status "STATUS_INVALID_PARAMETER" = Some KrnlObjects.kStatusInvalidParameter.
Proof. by vm_compute. Qed.

(** ** Concrete objects *)

(** The range that KeInitializeMutant checks ends where the Abandoned member of
    the mutant begins. *)
Example mutant_check_is_short : offsetof KMUTANT ["Abandoned"] = Some (28, BOOLEAN) /\ sizeof KMUTANT = 32.
Proof. split; vm_compute; reflexivity. Qed.

(** What the loader takes for an inline section name is the section's digest. *)
Example inline_name_is_digest :
  offsetof XBE_SECTION_HEADER ["CheckSum"] = Some (0x24, Arr BYTE 20) /\
  sizeof XBE_SECTION_HEADER = XbeImage.kSectionHeaderSize.
Proof. split; vm_compute; reflexivity. Qed.

Section witnesses.
Import KrnlState KrnlObjects KrnlCall KrnlTime.

Definition demo_mutant : DispatcherObject :=
  MkObject Mutant 0x1000 0x77 [] (o_event fresh_object) (MkMutant 0 5 true) (o_semaphore fresh_object) (o_thread fresh_object).
Definition demo_kernel : kernel := KrnlSpec.new_kernel demo_ram CpuSched.new_sched false false.

(** The handle 77 on the stack, above the return address. *)
Definition close_ram : ram := write32_ demo_ram 8004 77.
Definition close_cpu : CpuRuntime.cpu := GuestCpu.m_cpu GuestCpu.stopped_machine.

Lemma objects_have_declared_layout_witness :
  exists r, write_dispatcher_header demo_mutant demo_kernel = Ok (tt, with_ram demo_kernel r) /\
    guest_field r 0x1000 KMUTANT ["OwnerThread"] = Some 5 /\ guest_field r 0x1000 KMUTANT ["Abandoned"] = Some 1.
Proof.
  destruct (objects_have_declared_layout demo_mutant demo_kernel) as (r & E & H & Ha & _).
  - discriminate.
  - cbn. unfold is_u32. lia.
  - reflexivity.
  - by vm_compute.
  - vm_compute. reflexivity.
  - exists r. split; [exact E|]. split; [destruct H as (_ & _ & _ & _ & _ & _ & _ & H); exact H|]. exact (Ha eq_refl).
Defined.

Lemma critical_section_layout_witness :
  exists r, cs_init 0x1000 demo_kernel = Ok (kStatusSuccess, with_ram demo_kernel r) /\
    guest_field r 0x1000 RTL_CRITICAL_SECTION ["LockCount"] = Some (u32 (-1)).
Proof.
  destruct (critical_section_layout 0x1000 demo_kernel) as (r & E & _ & _ & H & _);
    [reflexivity|by vm_compute|vm_compute; reflexivity|]. exists r. split; [exact E|exact H].
Defined.

Lemma time_fields_layout_witness :
  exists r, RtlTimeToTimeFields [0x1000; 0x1010] demo_kernel = Ok (Ret 0 true None, with_ram demo_kernel r) /\
    guest_field r 0x1010 TIME_FIELDS ["Year"] = Some 1601.
Proof.
  destruct (time_fields_layout 0x1000 0x1010 0 demo_kernel (TF 1601 1 1 0 0 0 0 1)) as (r & E & H & _);
    [vm_compute; reflexivity|vm_compute; reflexivity|lia|by vm_compute|vm_compute; reflexivity|]. exists r. split; [exact E|exact H].
Defined.

Lemma members_lie_inside_witness : 28 + sizeof BOOLEAN <= sizeof KMUTANT.
Proof.
  destruct (members_lie_inside KMUTANT ["Abandoned"%string] 28 BOOLEAN) as (_ & H & _);
    [vm_compute; reflexivity|vm_compute; reflexivity|exact H].
Defined.

Lemma calls_follow_the_header_witness :
  exists x, find_export (x_ordinal x) = Some x /\ x_name x = "NtClose"%string /\
    GuestCpu.marshal (eng := GuestCpu.call_engine) close_ram close_cpu x = ([77], 4).
Proof.
  destruct (calls_follow_the_header (eng := GuestCpu.call_engine) close_ram close_cpu
              "NtClose" NTAPI (NxdkDecls.ret NTSTATUS) [HANDLE] [77]) as (x & H1 & H2 & H3 & H4).
  - apply (list_elem_of_lookup_2 _ 168%nat). vm_compute. reflexivity.
  - vm_compute. reflexivity.
  - split; [vm_compute; reflexivity|]. intros [|k] w Hk; [|discriminate Hk].
    injection Hk as <-. vm_compute. reflexivity.
  - exists x. split; [exact H1|]. split; [exact H2|].
    destruct (GuestCpu.marshal close_ram close_cpu x) as [ws n]. cbn in H3, H4.
    rewrite H3, H4. reflexivity.
Defined.

End witnesses.

End NxdkAbi.
