(* ===== verification/GuestSys.v ===== *)
(** The guest's threads as x86 code ([UnicornRuntime::run_system_thread],
    src/xbox_cpu.cpp, inside the fiber body of PsCreateSystemThreadEx,
    src/xbox_krnl.cpp). The scheduler loop of CpuSched.v dispatches fibers;
    each runs its own CPU of GuestCpu.v over one kernel, one guest memory and
    one CPU registry, until a kernel call switches away, the routine returns
    or the thread ends itself. *)
From stdpp Require Import base numbers list gmap strings.
From Stdlib Require Import ZArith Lia.
From S2P Require Import Prelude XbeRam CpuSched KrnlMm KrnlState KrnlObjects KrnlCall KrnlExports KrnlInv KrnlSpec.
From S2P Require Import CpuRuntime UnicornRt GuestCpu.
Open Scope Z_scope.

Module GuestSys.
Import XbeRam CpuSched KrnlState KrnlObjects KrnlCall KrnlInv KrnlSpec CpuRuntime UnicornRt GuestCpu.

Section system.
Context `{os : HostOS} `{eng : Unicorn}.

(** ** State *)

(** Where the fiber of a system thread stands when it is not running; a fiber
    that never ran has no entry. *)
Inductive sfiber :=
  | SParked (self : Z)                                  (* created suspended *)
  | SCall (self : option Z) (f : frame) (p : pending)   (* inside a kernel call *)
  | SOver.

(** [sy_ran] is not state of the program: it records the instructions each
    fiber has executed so far, over all its dispatches, as the engine reported
    them. *)
Record sys := MkSys {
  sy_rt : rt; sy_fibers : gmap nat sfiber; sy_clock : nat; sy_ran : gmap nat (list hook_event);
}.

(** A kernel operation on the runtime's kernel. *)
Definition kernel_do {A} (op : K A) (t : rt) : outcome (A * rt) :=
  match op (rt_k t) with
  | Ok (x, k) => Ok (x, with_kernel t k)
  | Fail e => Fail e
  | Ub e => Ub e
  end.

(** ** CPUs *)

(** The CPU of a fiber leaves the registry while it runs, as [machine] has it,
    and returns to it when its fiber switches away. *)
Definition find_cpu (l : list (Z * cpu)) (id : Z) : option cpu :=
  (fun p => snd (snd p)) <$> list_find (fun x : Z * cpu => fst x = id) l.
Definition cpu_of (t : rt) (id : Z) : option cpu := find_cpu (rt_cpus t) id.
Definition load_cpu (t : rt) (id : Z) : option machine :=
  (fun c => MkM c (unregister_cpu t id)) <$> cpu_of t id.
Definition store_cpu (m : machine) (id : Z) : rt := register_cpu (m_rt m) id (m_cpu m).

(** ** The body of a system thread *)

Definition kThreadBudget : Z := 100000000.

(** The runner returned and the fiber ends. *)
Definition routine_returned (self : option Z) (t : rt) : outcome (sfiber * rt) :=
  let! p := kernel_do (kbind (systhread_return self) (fun _ => thread_exit 0)) t in Ok (SOver, snd p).

(** After [cpu.run]: the CPU is destroyed when it returns; a thread that ended
    itself leaves it in the registry, since no destructor runs. *)
Definition after_run (id : Z) (self : option Z) (r : option (outcome round_out)) : outcome (sfiber * rt) :=
  match r with
  | Some (Ok (RDone _ m)) => routine_returned self (m_rt m)
  | Some (Ok (RSwitched f p m)) => Ok (SCall self f p, store_cpu m id)
  | Some (Ok (REnded m)) => Ok (SOver, store_cpu m id)
  | Some (Ok (RAgain _ _)) | None => Fail "the run does not end"
  | Some (Fail e) => Fail e
  | Some (Ub e) => Ub e
  end.

Definition run_system_thread (es : nat -> env) (fuel : nat) (id : Z) (self : option Z) (handle : Z) (t : rt)
    : outcome (sfiber * rt) :=
  let! p := thread_boot t handle id in
  match fst p, load_cpu (snd p) id with
  | Some (entry, esp), Some m => after_run id self (run es fuel m entry esp kThreadBudget)
  | Some _, None => Fail "no CPU"
  | None, _ => routine_returned self (snd p)
  end.

Definition after_start (es : nat -> env) (fuel : nat) (id : Z) (p : body_out * rt) : outcome (sfiber * rt) :=
  match fst p with
  | BParked a => Ok (SParked a, snd p)
  | BRun self handle => run_system_thread es fuel id self handle (snd p)
  | BEnd => let! q := kernel_do (thread_exit 0) (snd p) in Ok (SOver, snd q)
  end.

(** One dispatch of a fiber, from where it stands. *)
Definition thread_step (es : nat -> env) (fuel : nat) (id : Z) (st : option sfiber) (t : rt) : outcome (sfiber * rt) :=
  match st with
  | None => let! p := kernel_do systhread_start t in after_start es fuel id p
  | Some (SParked a) => let! p := kernel_do (systhread_run (Some a)) t in after_start es fuel id p
  | Some (SCall self f p) =>
      match load_cpu t id with
      | None => Fail "no CPU"
      | Some m =>
          let! h := hle_resume (es fuel) f p m in
          match served_call (fr_ordinal f) h with
          | RAgain eip m => after_run id self (run_loop es fuel kThreadBudget m eip)
          | r => after_run id self (Some (Ok r))
          end
      end
  | Some SOver => let! p := kernel_do (thread_exit 0) t in Ok (SOver, snd p)
  end.

(** ** What a dispatch executes *)

(** The instructions the engine reports in a run of the loop. *)
Fixpoint instrs_run (es : nat -> env) (fuel : nat) (max : Z) (m : machine) (eip : Z) : list hook_event :=
  match fuel, c_uc (m_cpu m) with
  | S fuel', Some u =>
      if max <=? c_instr (m_cpu m) then []
      else let '(_, _, evs, _) := uc_emu_start u (rt_ram (m_rt m)) eip kExitVa (max - c_instr (m_cpu m)) in
           executed evs ++
           match round (es fuel') max m eip with
           | Ok (RAgain eip' m') => instrs_run es fuel' max m' eip'
           | _ => []
           end
  | _, _ => []
  end.

(** In a thread that starts, and in one dispatch of a fiber. *)
Definition start_ran (es : nat -> env) (fuel : nat) (id : Z) (o : outcome (body_out * rt)) : list hook_event :=
  match o with
  | Ok (BRun _ handle, t) =>
      match thread_boot t handle id with
      | Ok (Some (entry, esp), t') =>
          match load_cpu t' id with
          | Some m => match c_uc (m_cpu m) with
                      | Some u => instrs_run es fuel kThreadBudget (run_start m u esp) entry
                      | None => []
                      end
          | None => []
          end
      | _ => []
      end
  | _ => []
  end.

Definition step_ran (es : nat -> env) (fuel : nat) (id : Z) (st : option sfiber) (t : rt) : list hook_event :=
  match st with
  | None => start_ran es fuel id (kernel_do systhread_start t)
  | Some (SParked a) => start_ran es fuel id (kernel_do (systhread_run (Some a)) t)
  | Some (SCall _ f p) =>
      match load_cpu t id with
      | Some m => match hle_resume (es fuel) f p m with
                  | Ok h => match served_call (fr_ordinal f) h with
                            | RAgain eip m => instrs_run es fuel kThreadBudget m eip
                            | _ => []
                            end
                  | _ => []
                  end
      | None => []
      end
  | Some SOver => []
  end.

(** ** The system *)

Context (envs : nat -> nat -> env) (fuel : nat).

(** The CPU of a fiber is known by its thread. *)
Definition cpu_id (i : nat) : Z := Z.of_nat i + 1.

Definition cpu_body (i : nat) (s : sched) (w : outcome sys) : option (sched * outcome sys) :=
  match w with
  | Ok y =>
      let t := with_kernel (sy_rt y) (KrnlState.with_sched (rt_k (sy_rt y)) s) in
      let ran := default [] (sy_ran y !! i) ++ step_ran (envs (sy_clock y)) fuel (cpu_id i) (sy_fibers y !! i) t in
      match thread_step (envs (sy_clock y)) fuel (cpu_id i) (sy_fibers y !! i) t with
      | Ok (st, t') =>
          Some (k_sched (rt_k t'), Ok (MkSys t' (<[i := st]> (sy_fibers y)) (S (sy_clock y)) (<[i := ran]> (sy_ran y))))
      | Fail e => Some (thread_finish s i 0, Fail e)
      | Ub e => Some (thread_finish s i 0, Ub e)
      end
  | _ => Some (thread_finish s i 0, w)
  end.

Definition run_system (dispatches : nat) (y : sys) : option (bool * sched * outcome sys) :=
  run_until_complete cpu_body dispatches (k_sched (rt_k (sy_rt y))) (Ok y).

(** ** The kernel's invariant *)

Definition good (t : rt) : Prop := kreachable (rt_k t).

Lemma good_step t k : good t -> kstep (rt_k t) k -> good (with_kernel t k).
Proof. intros H Hs. by eapply kr_step. Qed.

Lemma good_ram t r : good t -> good (with_ram t r).
Proof. intros H. apply good_step; [done|]. apply ks_ram. Qed.

Lemma good_exit t code x t' : good t -> kernel_do (thread_exit code) t = Ok (x, t') -> good t'.
Proof.
  intros H. unfold kernel_do, thread_exit, kbind, kget. destruct (current (k_sched (rt_k t))); [|intros [= <- <-]; by destruct t].
  unfold kput, sched_handle. destruct (finish_hook _ _) as [[u k]| |] eqn:E; try done. intros [= <- <-].
  unfold good. cbn [with_kernel rt_k]. eapply kr_step; [|by eapply ks_hook].
  eapply kr_step; [exact H|]. apply ks_sched.
Qed.

Lemma returned_good self t st t' : good t -> routine_returned self t = Ok (st, t') -> good t'.
Proof.
  intros H. unfold routine_returned, kernel_do, kbind. destruct (systhread_return self (rt_k t)) as [[u k]| |] eqn:E; try done.
  assert (H1 : good (with_kernel t k)) by (apply good_step; [done|]; by eapply ks_return).
  destruct (thread_exit 0 k) as [[v k']| |] eqn:E'; cbn [obind snd]; try done. intros [= <- <-].
  apply (good_exit (with_kernel t k) 0 v (with_kernel t k') H1). unfold kernel_do. cbn [with_kernel rt_k]. by rewrite E'.
Qed.

(** *** Memory for threads *)

Lemma remapped_good t t' : remapped t t' -> good t -> good t'.
Proof. intros ([r E] & _) H. unfold good. rewrite E. eapply kr_step; [exact H|apply ks_ram]. Qed.

Lemma thread_boot_good t handle id b t' : good t -> thread_boot t handle id = Ok (b, t') -> good t'.
Proof.
  intros H. unfold thread_boot. destruct (thread_start_info _ _) as [[[[[start ctx] sy] stack] ?]|]; [|by intros [= <- <-]].
  destruct (start =? 0); [by intros [= <- <-]|].
  destruct (build_teb t) as [[teb t1]| |] eqn:E; cbn [obind]; try done. apply build_teb_remaps in E. apply (fun R => remapped_good _ _ R H) in E.
  destruct (attach _ _) as [[[err|] c]|]; [by intros [= <- <-]| |done].
  destruct (alloc_stack _ _) as [[esp t2]| |] eqn:Es; cbn [obind]; try done.
  apply alloc_stack_remaps in Es. apply (fun R => remapped_good (register_cpu t1 id c) _ R E) in Es. destruct (esp =? 0); [by intros [= <- <-]|].
  destruct (thread_stack _ _ _ _) as [esp' r]. intros [= <- <-]. by apply good_ram.
Qed.

(** *** Runs *)

Definition good_out (r : round_out) : Prop := good (m_rt (machine_of r)).

Lemma observe_kernel evs m : rt_k (m_rt (foldl observe_machine m evs)) = rt_k (m_rt m).
Proof.
  revert m; induction evs as [|[[[freed va] size] ro] evs IH]; intros m; cbn [foldl]; [done|].
  rewrite IH. cbn. by destruct freed.
Qed.

Lemma kernel_op_good m op out m' :
  (forall k x k', op k = Ok (x, k') -> kstep k k') -> good (m_rt m) -> kernel_op m op = Ok (out, m') -> good (m_rt m').
Proof.
  intros Hop H. unfold kernel_op. destruct (op _) as [[x k']| |] eqn:E; try done. intros [= <- <-].
  unfold good. rewrite observe_kernel. cbn [m_rt with_kernel rt_k]. eapply kr_step; [exact H|by eapply Hop].
Qed.

Lemma hle_return_good m f eax ok edx : good (m_rt m) -> good (m_rt (hle_return m f eax ok edx)).
Proof. intros H. unfold hle_return. repeat case_match; exact H. Qed.

Lemma hle_result_good f r : good (m_rt (snd r)) -> good (m_rt (hle_machine (hle_result f r))).
Proof. destruct r as [[eax ok edx|p|] m]; cbn [hle_result hle_machine snd]; [apply hle_return_good|done..]. Qed.

Lemma handle_hle_good e m o h : good (m_rt m) -> handle_hle_call e m o = Ok h -> good (m_rt (hle_machine h)).
Proof.
  intros H. unfold handle_hle_call. destruct (KrnlExports.find_export o) as [x|]; [|by intros [= <-]].
  case_bool_decide; [by intros [= <-]|]. destruct (marshal _ _ x) as [args bytes].
  destruct (kernel_op m _) as [[out m']| |] eqn:E; cbn [obind]; try done. intros [= <-]. refine (hle_result_good _ (out, m') _).
  eapply kernel_op_good; [|exact H|exact E]. intros k y k'. apply ks_call.
Qed.

Lemma hle_resume_good e f p m h : good (m_rt m) -> hle_resume e f p m = Ok h -> good (m_rt (hle_machine h)).
Proof.
  intros H. unfold hle_resume. destruct (kernel_op m _) as [[out m']| |] eqn:E; cbn [obind]; try done.
  intros [= <-]. refine (hle_result_good _ (out, m') _). eapply kernel_op_good; [|exact H|exact E]. intros k y k'. apply ks_resume.
Qed.

Lemma served_good o h : good (m_rt (hle_machine h)) -> good_out (served_call o h).
Proof. destruct h; cbn [served_call hle_machine]; [|done..]. intros H. by case_bool_decide. Qed.

Lemma round_good e max m eip r : good (m_rt m) -> round e max m eip = Ok r -> good_out r.
Proof.
  intros H. unfold round. destruct (c_uc (m_cpu m)) as [u|]; [|by intros [= <-]].
  destruct (_ <=? _); [by intros [= <-]|]. unfold emulate. destruct (uc_emu_start _ _ _ _ _) as [[[u' r'] evs] er].
  unfold after_emu. cbn [m_cpu]. destruct (negb _); [intros [= <-]; by apply good_ram|].
  destruct (negb _); [intros [= <-]; by apply good_ram|]. destruct (_ =? kExitVa); [intros [= <-]; by apply good_ram|].
  destruct (negb _); [|intros [= <-]; by apply good_ram].
  destruct (handle_hle_call _ _ _) as [h| |] eqn:E; cbn [obind]; try done. intros [= <-]. apply served_good.
  eapply handle_hle_good; [|exact E]. by apply good_ram.
Qed.

Lemma run_loop_good es n max m eip r : good (m_rt m) -> run_loop es n max m eip = Some (Ok r) -> good_out r.
Proof.
  revert m eip; induction n as [|n IH]; intros m eip H; cbn [run_loop]; [done|].
  destruct (round (es n) max m eip) as [r0| |] eqn:E; try done.
  apply (round_good _ _ _ _ _ H) in E. destruct r0; try (by intros [= <-]). by apply IH.
Qed.

(** *** Dispatches *)

Lemma after_run_good id self r st t' :
  (forall x, r = Some (Ok x) -> good_out x) -> after_run id self r = Ok (st, t') -> good t'.
Proof.
  intros H. unfold after_run. destruct r as [[r0| |]|]; try done. specialize (H r0 eq_refl).
  destruct r0; try done; [by apply returned_good|by intros [= <- <-]..].
Qed.

Lemma load_cpu_good t id m : good t -> load_cpu t id = Some m -> good (m_rt m).
Proof. intros H. unfold load_cpu. destruct (cpu_of t id); [|done]. by intros [= <-]. Qed.

Lemma run_good es n m entry esp max x : good (m_rt m) -> run es n m entry esp max = Some (Ok x) -> good_out x.
Proof.
  intros H. unfold run. destruct (c_uc (m_cpu m)); [|by intros [= <-]]. apply run_loop_good. exact H.
Qed.

Lemma system_thread_good es n id self handle t st t' :
  good t -> run_system_thread es n id self handle t = Ok (st, t') -> good t'.
Proof.
  intros H. unfold run_system_thread. destruct (thread_boot t handle id) as [[b t1]| |] eqn:E; cbn [obind fst snd]; try done.
  apply (thread_boot_good _ _ _ _ _ H) in E. destruct b as [[entry esp]|]; [|by apply returned_good].
  destruct (load_cpu t1 id) as [m|] eqn:Em; [|done]. apply (load_cpu_good _ _ _ E) in Em.
  apply after_run_good. intros x. by apply run_good.
Qed.

Lemma after_start_good es n id p st t' : good (snd p) -> after_start es n id p = Ok (st, t') -> good t'.
Proof.
  intros H. unfold after_start. destruct (fst p); [by intros [= <- <-]|by apply system_thread_good|].
  destruct (kernel_do _ _) as [[x t1]| |] eqn:E; cbn [obind snd]; try done. intros [= <- <-]. by eapply good_exit.
Qed.

Lemma kernel_do_good {A} (op : K A) t x t' :
  (forall k y k', op k = Ok (y, k') -> kstep k k') -> good t -> kernel_do op t = Ok (x, t') -> good t'.
Proof.
  intros Hop H. unfold kernel_do. destruct (op (rt_k t)) as [[y k]| |] eqn:E; try done.
  intros [= <- <-]. apply good_step; [done|]. by eapply Hop.
Qed.

Lemma thread_step_good es n id o t st t' : good t -> thread_step es n id o t = Ok (st, t') -> good t'.
Proof.
  intros H. destruct o as [[a|self f p|]|]; cbn [thread_step].
  - destruct (kernel_do _ t) as [q| |] eqn:E; cbn [obind]; try done. apply after_start_good. destruct q as [x t1].
    eapply kernel_do_good; [|exact H|exact E]. intros k y k'. apply ks_run.
  - destruct (load_cpu t id) as [m|] eqn:Em; [|done]. apply (load_cpu_good _ _ _ H) in Em.
    destruct (hle_resume _ f p m) as [h| |] eqn:E; cbn [obind]; try done.
    apply (hle_resume_good _ _ _ _ _ Em) in E. apply (served_good (fr_ordinal f)) in E.
    destruct (served_call _ h) eqn:Es; try (apply after_run_good; by intros x [= <-]).
    apply after_run_good. intros x. by apply run_loop_good.
  - destruct (kernel_do _ t) as [[x t1]| |] eqn:E; cbn [obind snd]; try done. intros [= <- <-]. by eapply good_exit.
  - destruct (kernel_do _ t) as [q| |] eqn:E; cbn [obind]; try done. apply after_start_good. destruct q as [x t1].
    eapply kernel_do_good; [|exact H|exact E]. intros k y k'. apply ks_start.
Qed.

Definition sys_good (w : outcome sys) : Prop := forall y, w = Ok y -> good (sy_rt y).

Lemma cpu_body_good i s w s' w' : sys_good w -> cpu_body i s w = Some (s', w') -> sys_good w'.
Proof.
  intros H. unfold cpu_body. destruct w as [y| |]; [|by intros [= <- <-]..].
  destruct (thread_step _ _ _ _ _) as [[st t']| |] eqn:E; intros [= <- <-]; [|by intros ?..].
  intros y' [= <-]. eapply thread_step_good; [|exact E]. apply good_step; [by apply H|apply ks_sched].
Qed.

(** ** Properties *)

(** Threads of arbitrary x86 code, on any CPU engine, leave the kernel with its
    invariant: whatever the instructions do, whichever calls they make, however
    the scheduler interleaves them and however they end. *)
Theorem guest_code_keeps_the_tables (dispatches : nat) (y : sys) b s y' :
  kreachable (rt_k (sy_rt y)) -> run_system dispatches y = Some (b, s, Ok y') -> tables_ok (rt_k (sy_rt y')).
Proof.
  intros H E. apply kreachable_ok. eapply (run_keeps cpu_body sys_good); [exact cpu_body_good| |exact E|reflexivity].
  by intros ? [= <-].
Qed.

(** ** The registered CPUs *)

Definition ids (l : list (Z * cpu)) : list Z := fst <$> l.

(** The same CPUs in the same order, but for their engines and mappings. *)
Definition same_entry (x y : Z * cpu) : Prop := fst x = fst y /\ same_cpu (snd x) (snd y).
Definition same_cpus (t t' : rt) : Prop := Forall2 same_entry (rt_cpus t) (rt_cpus t').

#[local] Instance same_cpus_preorder : PreOrder same_cpus.
Proof.
  split.
  - intros t. unfold same_cpus. induction (rt_cpus t); constructor; [|done]. split; [done|apply same_cpu_refl].
  - intros t1 t2 t3 H12 H23. unfold same_cpus in *. revert H23. generalize (rt_cpus t3).
    induction H12 as [|x y l l' [E1 S1] _ IH]; intros l3 H23; inversion_clear H23 as [|? z ? ? [E2 S2] H3]; constructor; [|by apply IH].
    split; [congruence|by eapply same_cpu_trans].
Qed.

Lemma same_registry t t' : rt_cpus t' = rt_cpus t -> same_cpus t t'.
Proof. intros E. unfold same_cpus. rewrite E. change (same_cpus t t). reflexivity. Qed.

Lemma map_cpus_same t t' (f : cpu -> cpu) :
  (forall c, same_cpu c (f c)) -> rt_cpus t' = prod_map id f <$> rt_cpus t -> same_cpus t t'.
Proof.
  intros Hf E. unfold same_cpus. rewrite E. apply Forall2_fmap_r. clear E.
  induction (rt_cpus t) as [|[i c] l IH]; constructor; [|done]. split; [done|apply Hf].
Qed.

Lemma remapped_same t t' : remapped t t' -> same_cpus t t'.
Proof.
  intros (_ & _ & _ & [E|(m & va & size & ro & E)]); [by apply same_registry|].
  eapply map_cpus_same; [|exact E]. intros c. apply map_on_same_cpu.
Qed.

Lemma observe_cpus t e : same_cpus t (observe t e).
Proof.
  destruct e as [[[freed va] size] ro]. cbn [observe].
  destruct freed; (eapply map_cpus_same; [|reflexivity]); intros c; [apply unmap_same_cpu|apply map_on_same_cpu].
Qed.

Lemma kernel_op_cpus m op out m' : kernel_op m op = Ok (out, m') -> same_cpus (m_rt m) (m_rt m').
Proof.
  unfold kernel_op. destruct (op _) as [[x k']| |]; try done. intros [= <- <-].
  generalize (new_events (rt_k (m_rt m)) k'). intros evs.
  set (m0 := MkM _ (with_kernel _ _)). change (same_cpus (m_rt m) ?t) with (same_cpus (m_rt m0) t).
  generalize m0. induction evs as [|e evs IH]; intros m1; cbn [foldl]; [reflexivity|].
  etransitivity; [|apply IH]. destruct e as [[[freed va] size] ro]. exact (observe_cpus (m_rt m1) (freed, va, size, ro)).
Qed.

Lemma hle_result_cpus f r : m_rt (hle_machine (hle_result f r)) = m_rt (snd r).
Proof. destruct r as [[eax ok edx|p|] m]; cbn [hle_result hle_machine snd]; [|done..]. unfold hle_return. by repeat case_match. Qed.

Lemma handle_hle_cpus e m o h : handle_hle_call e m o = Ok h -> same_cpus (m_rt m) (m_rt (hle_machine h)).
Proof.
  unfold handle_hle_call. destruct (KrnlExports.find_export _) as [x|]; [|by intros [= <-]].
  case_bool_decide; [by intros [= <-]|]. destruct (marshal _ _ x) as [args bytes].
  destruct (kernel_op m _) as [[out m']| |] eqn:E; cbn [obind]; try done. intros [= <-].
  apply kernel_op_cpus in E. destruct out; cbn [hle_result hle_machine]; [|done..].
  unfold hle_return. by repeat case_match.
Qed.

(** *** Counting *)

(** A machine whose CPU has its engine and has counted [n] instructions. *)
Definition counted (m : machine) (n : Z) : Prop := is_Some (c_uc (m_cpu m)) /\ c_instr (m_cpu m) = n /\ 0 <= n <= kThreadBudget.

Lemma resume_counted e f p m h n :
  counted m n -> hle_resume e f p m = Ok h -> counted (hle_machine h) n /\ same_cpus (m_rt m) (m_rt (hle_machine h)).
Proof.
  intros (Hu & Hi & Hn). unfold hle_resume. destruct (kernel_op m _) as [[out m']| |] eqn:E; cbn [obind]; try done.
  intros [= <-]. pose proof (kernel_op_cpus _ _ _ _ E) as Hc. apply kernel_op_same in E as (S1 & _ & _ & _ & S5 & _).
  destruct out as [eax ok edx|q|]; cbn [hle_result hle_machine];
    [|by split; [split_and!; [auto|congruence|lia..]|]..].
  destruct (hle_return_keeps m' f eax ok edx (S1 Hu)) as (H1 & H2 & _). split; [split_and!; [done|congruence|lia..]|].
  unfold hle_return. by repeat case_match.
Qed.

Lemma served_counted o h n : counted (hle_machine h) n -> counted (machine_of (served_call o h)) n.
Proof. destruct h; cbn [served_call hle_machine]; [|done..]. intros H. by case_bool_decide. Qed.

Lemma served_cpus o h : m_rt (machine_of (served_call o h)) = m_rt (hle_machine h).
Proof. destruct h; cbn [served_call hle_machine]; [|done..]. by case_bool_decide. Qed.

Context `{laws : !RunLaws eng}.

Lemma after_emu_counted e m err r n :
  counted m n -> after_emu e m err = Ok r -> counted (machine_of r) n /\ same_cpus (m_rt m) (m_rt (machine_of r)).
Proof.
  intros Hm. pose proof Hm as (Hu & Hi & Hn). unfold after_emu. destruct (negb _); [by intros [= <-]|].
  destruct (negb _); [by intros [= <-]|]. destruct (_ =? kExitVa); [by intros [= <-]|].
  destruct (negb _).
  2:{ intros [= <-]. split; [|reflexivity]. unfold counted. cbn. unfold record_fault. by case_bool_decide. }
  set (m2 := set_cpu m _). destruct (handle_hle_call e m2 _) as [h| |] eqn:E; cbn [obind]; try done. intros [= <-].
  destruct (handle_hle_keeps e m2 _ h Hu E) as [H1 H2]. rewrite served_cpus. split; [|exact (handle_hle_cpus e m2 _ h E)].
  apply served_counted. split_and!; [done|by rewrite H2|lia..].
Qed.

Lemma run_loop_counted es n m eip r k :
  counted m k -> run_loop es n kThreadBudget m eip = Some (Ok r) ->
  counted (machine_of r) (k + zlen (instrs_run es n kThreadBudget m eip)) /\ same_cpus (m_rt m) (m_rt (machine_of r)).
Proof.
  revert m eip k; induction n as [|n IH]; intros m eip k Hm; cbn [run_loop instrs_run]; [done|].
  pose proof Hm as ([u Eu] & Hi & Hk). unfold round. rewrite Eu.
  destruct (Z.leb_spec kThreadBudget (c_instr (m_cpu m))).
  { intros [= <-]. cbn. rewrite Z.add_0_r. split; [|reflexivity]. unfold counted. cbn. unfold record_fault.
    case_bool_decide; cbn; by rewrite Eu. }
  unfold emulate. destruct (uc_emu_start _ _ _ _ _) as [[[u' r'] evs] err] eqn:E.
  pose proof (emu_budget _ _ _ _ _ _ _ _ _ E ltac:(lia)) as Hb.
  set (m1 := MkM (foldl hook _ evs) _).
  assert (Hm1 : counted m1 (k + zlen (executed evs))).
  { split; [by apply hooks_attached|]. cbn [m_cpu m1]. rewrite hooks_instr; cbn [with_uc c_instr];
      unfold kThreadBudget in *; lia. }
  destruct (after_emu (es n) m1 err) as [r0| |] eqn:Er; try done.
  destruct (after_emu_counted _ _ _ _ _ Hm1 Er) as [Hc Hs]. change (same_cpus (m_rt m1)) with (same_cpus (m_rt m)) in Hs.
  rewrite length_app, Nat2Z.inj_add, Z.add_assoc.
  destruct r0 as [b m'|eip' m'|f p m'|m']; cbn [machine_of] in Hc, Hs.
  2:{ intros Hr. destruct (IH _ _ _ Hc Hr) as [H1 H2]. split; [exact H1|by etransitivity]. }
  all: intros [= <-]; cbn [length machine_of]; by rewrite Z.add_0_r.
Qed.

(** *** The registry *)

Lemma find_cpu_cons x l id : find_cpu (x :: l) id = if fst x =? id then Some (snd x) else find_cpu l id.
Proof.
  unfold find_cpu. cbn [list_find]. destruct (Z.eqb_spec (fst x) id); case_decide; try done.
  by destruct (list_find _ l) as [[? [? ?]]|].
Qed.

Lemma find_cpu_none l id : find_cpu l id = None <-> id ∉ ids l.
Proof.
  induction l as [|x l IH]; [split; [intros _; apply not_elem_of_nil|done]|].
  rewrite find_cpu_cons. unfold ids in *. cbn [fmap list_fmap]. rewrite not_elem_of_cons.
  destruct (Z.eqb_spec (fst x) id); [split; [done|intros [? _]; congruence]|].
  rewrite IH. split; [intros ?; by split|by intros [_ ?]].
Qed.

Lemma find_cpu_app l x id : find_cpu (l ++ [x]) id =
  match find_cpu l id with Some c => Some c | None => if fst x =? id then Some (snd x) else None end.
Proof. induction l as [|y l IH]; cbn [app]; [apply find_cpu_cons|]. rewrite !find_cpu_cons, IH. by destruct (fst y =? id). Qed.

Lemma find_cpu_erase l id j : j <> id -> find_cpu (erase_cpu l id) j = find_cpu l j.
Proof.
  intros Hj. induction l as [|x l IH]; cbn [erase_cpu]; [done|]. rewrite find_cpu_cons.
  destruct (Z.eqb_spec (fst x) id) as [E|E].
  - by rewrite (proj2 (Z.eqb_neq (fst x) j)) by congruence.
  - rewrite find_cpu_cons. by case_match.
Qed.

Lemma ids_erase l id : NoDup (ids l) -> NoDup (ids (erase_cpu l id)) /\ id ∉ ids (erase_cpu l id).
Proof.
  unfold ids. induction l as [|x l IH]; cbn [erase_cpu fmap list_fmap]; [intros _; split; [constructor|apply not_elem_of_nil]|].
  intros [Hx Hl]%NoDup_cons. destruct (Z.eqb_spec (fst x) id) as [<-|E]; [by split|]. destruct (IH Hl) as [H1 H2].
  cbn [fmap list_fmap]. split; [|by rewrite not_elem_of_cons]. constructor; [|done].
  intros Hin. apply Hx. apply list_elem_of_fmap in Hin as (y & -> & Hy). apply list_elem_of_fmap. exists y. split; [done|].
  clear -Hy. induction l as [|z l IH]; cbn [erase_cpu] in Hy; [done|]. case_match; set_solver.
Qed.

Lemma same_cpus_ids t t' : same_cpus t t' -> ids (rt_cpus t') = ids (rt_cpus t).
Proof. unfold same_cpus, ids. induction 1 as [|x y l l' [E _] _ IH]; [done|]. cbn. by rewrite E, IH. Qed.

Lemma same_cpus_find t t' j : same_cpus t t' -> option_Forall2 same_cpu (cpu_of t j) (cpu_of t' j).
Proof.
  unfold same_cpus, cpu_of. induction 1 as [|x y l l' [E S] _ IH]; [constructor|].
  rewrite !find_cpu_cons, <- E. case_match; [by constructor|done].
Qed.

(** What a dispatch of one fiber does to the CPUs of the others. *)
Record others (id : Z) (t t' : rt) : Prop := {
  ot_same : forall j, j <> id -> option_Forall2 same_cpu (cpu_of t j) (cpu_of t' j);
  ot_nodup : NoDup (ids (rt_cpus t)) -> NoDup (ids (rt_cpus t'));
}.

Lemma others_trans id t1 t2 t3 : others id t1 t2 -> others id t2 t3 -> others id t1 t3.
Proof.
  intros [A1 A2] [B1 B2]. split; [|by auto]. intros j Hj. specialize (A1 j Hj). specialize (B1 j Hj).
  destruct A1; inversion_clear B1; constructor. by eapply same_cpu_trans.
Qed.

Lemma same_others id t t' : same_cpus t t' -> others id t t'.
Proof. intros H. split; [intros j _; by apply same_cpus_find|by rewrite (same_cpus_ids _ _ H)]. Qed.

Lemma find_same (o : option cpu) : option_Forall2 same_cpu o o.
Proof. destruct o; constructor. apply same_cpu_refl. Qed.

Lemma register_others t id c : id ∉ ids (rt_cpus t) -> others id t (register_cpu t id c).
Proof.
  intros Hid. split.
  - intros j Hj. unfold cpu_of, register_cpu. cbn [with_cpus rt_cpus]. rewrite find_cpu_app. cbn [fst snd].
    rewrite (proj2 (Z.eqb_neq id j)) by congruence. destruct (find_cpu _ j); [apply (find_same (Some _))|constructor].
  - unfold register_cpu, ids. cbn [with_cpus rt_cpus]. rewrite fmap_app. intros Hn. apply NoDup_app. cbn.
    split; [done|]. split; [|apply NoDup_singleton]. intros x Hx. rewrite list_elem_of_singleton. by intros ->.
Qed.

Lemma unregister_others t id : others id t (unregister_cpu t id).
Proof.
  split; [|intros Hn; by apply ids_erase]. intros j Hj. unfold cpu_of, unregister_cpu. cbn [with_cpus rt_cpus].
  rewrite find_cpu_erase by done. apply find_same.
Qed.

Lemma registered t id c : id ∉ ids (rt_cpus t) -> cpu_of (register_cpu t id c) id = Some c.
Proof.
  intros Hid. unfold cpu_of, register_cpu. cbn [with_cpus rt_cpus]. rewrite find_cpu_app, (proj2 (find_cpu_none _ _) Hid).
  cbn. by rewrite Z.eqb_refl.
Qed.

(** *** Dispatches *)

(** Where a fiber stands after [n] instructions. *)
Definition fiber_at (t : rt) (id : Z) (st : option sfiber) (n : Z) : Prop :=
  match st with
  | None | Some (SParked _) => n = 0 /\ id ∉ ids (rt_cpus t)
  | Some (SCall _ _ _) => exists c, cpu_of t id = Some c /\ is_Some (c_uc c) /\ c_instr c = n /\ 0 <= n <= kThreadBudget
  | Some SOver => 0 <= n <= kThreadBudget
  end.

Lemma kernel_do_cpus {A} (op : K A) t x t' : kernel_do op t = Ok (x, t') -> rt_cpus t' = rt_cpus t.
Proof. unfold kernel_do. destruct (op _) as [[y k]| |]; try done. by intros [= <- <-]. Qed.

Lemma returned_at self t st t' id n :
  0 <= n <= kThreadBudget -> routine_returned self t = Ok (st, t') -> others id t t' /\ fiber_at t' id (Some st) n.
Proof.
  intros Hn. unfold routine_returned. destruct (kernel_do _ _) as [[x t1]| |] eqn:E; cbn [obind snd]; try done.
  intros [= <- <-]. split; [|done]. apply same_others, same_registry. by eapply kernel_do_cpus.
Qed.

Lemma after_run_at id self r m n st t' :
  id ∉ ids (rt_cpus (m_rt m)) ->
  (forall x, r = Some (Ok x) -> counted (machine_of x) n /\ same_cpus (m_rt m) (m_rt (machine_of x))) ->
  after_run id self r = Ok (st, t') -> others id (m_rt m) t' /\ fiber_at t' id (Some st) n.
Proof.
  intros Hid H. unfold after_run. destruct r as [[r0| |]|]; try done. destruct (H r0 eq_refl) as [(Hu & Hi & Hn) Hs].
  pose proof (same_others id _ _ Hs) as Ho. rewrite <- (same_cpus_ids _ _ Hs) in Hid.
  destruct r0 as [b m'|eip m'|f p m'|m']; cbn [machine_of] in *; try done.
  - intros E. destruct (returned_at _ _ _ _ id n Hn E) as [H1 H2]. split; [by eapply others_trans|done].
  - intros [= <- <-]. split; [eapply others_trans; [exact Ho|by apply register_others]|].
    exists (m_cpu m'). split; [by apply registered|done].
  - intros [= <- <-]. split; [eapply others_trans; [exact Ho|by apply register_others]|done].
Qed.

Lemma boot_at t handle id b t' :
  id ∉ ids (rt_cpus t) -> NoDup (ids (rt_cpus t)) -> thread_boot t handle id = Ok (b, t') ->
  others id t t' /\ (is_Some b -> exists c, cpu_of t' id = Some c /\ is_Some (c_uc c)).
Proof.
  intros Hid Hn. unfold thread_boot.
  destruct (thread_start_info _ _) as [[[[[start ctx] sy] stack] ?]|];
    [|intros [= <- <-]; split; [by apply same_others|by intros [? ?]]].
  destruct (start =? 0); [intros [= <- <-]; split; [by apply same_others|by intros [? ?]]|].
  destruct (build_teb t) as [[teb t1]| |] eqn:E; cbn [obind]; try done. apply build_teb_remaps, remapped_same in E.
  pose proof (same_others id _ _ E) as Ho. rewrite <- (same_cpus_ids _ _ E) in Hid.
  destruct (attach _ _) as [[[err|] c]|] eqn:Ea; [intros [= <- <-]; split; [done|by intros [? ?]]| |done].
  apply attach_new in Ea as [Hu _]. destruct (alloc_stack _ _) as [[esp t2]| |] eqn:Es; cbn [obind]; try done.
  apply alloc_stack_remaps, remapped_same in Es. pose proof (same_others id _ _ Es) as Ho2.
  assert (others id t t2) as Ho3.
  { eapply others_trans; [exact Ho|]. eapply others_trans; [by apply register_others|exact Ho2]. }
  pose proof (same_cpus_find _ _ id Es) as Hc. rewrite registered in Hc by done. inversion Hc as [? c2 S|]; subst.
  destruct (esp =? 0).
  { intros [= <- <-]. split; [eapply others_trans; [exact Ho3|apply unregister_others]|by intros [? ?]]. }
  destruct (thread_stack _ _ _ _) as [esp' r]. intros [= <- <-]. split; [eapply others_trans; [exact Ho3|by apply same_others, same_registry]|].
  intros _. exists c2. split; [done|]. destruct S as [S _]. by apply S.
Qed.

Lemma load_at t id m : NoDup (ids (rt_cpus t)) -> load_cpu t id = Some m ->
  cpu_of t id = Some (m_cpu m) /\ id ∉ ids (rt_cpus (m_rt m)) /\ others id t (m_rt m).
Proof.
  intros Hn. unfold load_cpu. destruct (cpu_of t id) as [c|]; [|done]. intros [= <-]. cbn [m_cpu m_rt].
  split; [done|]. split; [by apply ids_erase|apply unregister_others].
Qed.

Lemma start_at es n id o st t t' :
  NoDup (ids (rt_cpus t)) -> id ∉ ids (rt_cpus t) -> (forall x, o = Ok x -> rt_cpus (snd x) = rt_cpus t) ->
  (let! p := o in after_start es n id p) = Ok (st, t') ->
  others id t t' /\ fiber_at t' id (Some st) (zlen (start_ran es n id o)).
Proof.
  intros Hn Hid Ho. destruct o as [[b t1]| |]; cbn [obind]; try done. specialize (Ho _ eq_refl). cbn [snd] in Ho.
  rewrite <- Ho in Hn, Hid. assert (others id t t1) as Ht by (apply same_others, same_registry; done).
  unfold after_start. cbn [fst snd]. destruct b as [a|self handle|]; cbn [start_ran].
  - intros [= <- <-]. by split.
  - unfold run_system_thread. destruct (thread_boot t1 handle id) as [[b t2]| |] eqn:E; cbn [obind fst snd]; try done.
    destruct (boot_at _ _ _ _ _ Hid Hn E) as [Hb Hc]. pose proof (others_trans _ _ _ _ Ht Hb) as H2.
    destruct b as [[entry esp]|].
    2:{ intros Hr. destruct (returned_at _ _ _ _ id 0 ltac:(done) Hr) as [H3 H4]. split; [by eapply others_trans|done]. }
    destruct (load_cpu t2 id) as [m|] eqn:Em; [|done].
    destruct (load_at _ _ _ (ot_nodup _ _ _ Hb Hn) Em) as (Hcm & Hm & Hom).
    destruct (Hc ltac:(by eexists)) as (c & Hc1 & [u Hu]). rewrite Hcm in Hc1. injection Hc1 as Hc1. rewrite <- Hc1 in Hu.
    intros Hr. rewrite Hu. unfold run in Hr. rewrite Hu in Hr.
    assert (others id (m_rt m) t' /\
            fiber_at t' id (Some st) (zlen (instrs_run es n kThreadBudget (run_start m u esp) entry))) as [H3 H4].
    { revert Hr. apply after_run_at; [done|]. intros x Hx. refine (run_loop_counted es n (run_start m u esp) entry x 0 _ Hx). split; [by eexists|done]. }
    split; [|exact H4]. eapply others_trans; [exact H2|by eapply others_trans].
  - destruct (kernel_do _ _) as [[x t2]| |] eqn:E; cbn [obind snd]; try done. intros [= <- <-]. split; [|done].
    eapply others_trans; [exact Ht|]. apply same_others, same_registry. by eapply kernel_do_cpus.
Qed.

(** One dispatch adds what it executed to the fiber's count, and nothing to the
    counts of the others. *)
Lemma thread_step_at es n id o t st t' k :
  NoDup (ids (rt_cpus t)) -> fiber_at t id o k -> thread_step es n id o t = Ok (st, t') ->
  others id t t' /\ fiber_at t' id (Some st) (k + zlen (step_ran es n id o t)).
Proof.
  intros Hn. destruct o as [[a|self f p|]|]; cbn [thread_step step_ran fiber_at].
  - intros [-> Hid]. apply start_at; [done|done|]. intros [x t1] E. by eapply kernel_do_cpus.
  - intros (c & Hc & Hu & Hi & Hk). destruct (load_cpu t id) as [m|] eqn:Em; [|done].
    destruct (load_at _ _ _ Hn Em) as (Hcm & Hm & Hom). rewrite Hcm in Hc. injection Hc as <-.
    destruct (hle_resume _ f p m) as [h| |] eqn:E; cbn [obind]; try done.
    assert (counted m k) as Hm0 by exact (conj Hu (conj Hi Hk)). destruct (resume_counted _ _ _ _ _ _ Hm0 E) as [Hh Hs].
    apply (served_counted (fr_ordinal f)) in Hh. rewrite <- (served_cpus (fr_ordinal f)) in Hs.
    intros Hr. assert (Hout : exists r, after_run id self r = Ok (st, t') /\
      forall x, r = Some (Ok x) ->
        counted (machine_of x) (k + zlen match served_call (fr_ordinal f) h with
                                         | RAgain eip m => instrs_run es n kThreadBudget m eip | _ => [] end) /\
        same_cpus (m_rt m) (m_rt (machine_of x))).
    { destruct (served_call _ h) as [b m'|eip m'|g q m'|m'] eqn:Eh; (eexists; split; [exact Hr|]); cbn [machine_of] in *.
      2:{ intros x Hx. destruct (run_loop_counted es n m' eip x k Hh Hx) as [H1 H2]. split; [exact H1|by etransitivity]. }
      all: intros x [= <-]; cbn [length machine_of]; by rewrite Z.add_0_r. }
    destruct Hout as (r & Hr' & Hx). destruct (after_run_at id self r m _ st t' Hm Hx Hr') as [H3 H4].
    split; [by eapply others_trans|exact H4].
  - intros Hk. destruct (kernel_do _ t) as [[x t1]| |] eqn:E; cbn [obind snd]; try done. intros [= <- <-].
    split; [apply same_others, same_registry; by eapply kernel_do_cpus|]. cbn. by rewrite Z.add_0_r.
  - intros [-> Hid]. apply start_at; [done|done|]. intros [x t1] E. by eapply kernel_do_cpus.
Qed.

(** *** The system *)

(** The instructions a fiber has executed so far. *)
Definition ran (y : sys) (i : nat) : Z := zlen (default [] (sy_ran y !! i)).

Record sys_at (y : sys) : Prop := {
  sa_nodup : NoDup (ids (rt_cpus (sy_rt y)));
  sa_fibers : forall i, fiber_at (sy_rt y) (cpu_id i) (sy_fibers y !! i) (ran y i);
}.
Definition sys_counts (w : outcome sys) : Prop := forall y, w = Ok y -> sys_at y.

Lemma others_at id j t t' st n : others id t t' -> j <> id -> fiber_at t j st n -> fiber_at t' j st n.
Proof.
  intros [Ho _] Hj. specialize (Ho j Hj).
  assert (Hab : j ∉ ids (rt_cpus t) -> j ∉ ids (rt_cpus t')).
  { rewrite <- !find_cpu_none. change (cpu_of t j = None -> cpu_of t' j = None). intros E. rewrite E in Ho. by inversion Ho. }
  destruct st as [[a|self f p|]|]; cbn [fiber_at]; [naive_solver| |done|naive_solver].
  intros (c & Hc & Hu & Hi & Hn). rewrite Hc in Ho. inversion Ho as [? c' S E1 E2|]; subst.
  destruct S as (S1 & _ & _ & _ & S5 & _). exists c'. split; [done|]. split; [by apply S1|]. split; [congruence|done].
Qed.

Lemma cpu_body_counts i s w s' w' : sys_counts w -> cpu_body i s w = Some (s', w') -> sys_counts w'.
Proof.
  intros H. unfold cpu_body. destruct w as [y| |]; [|by intros [= <- <-]..].
  destruct (H y eq_refl) as [Hn Hf]. set (t := with_kernel _ _).
  assert (Hf' : forall i, fiber_at t (cpu_id i) (sy_fibers y !! i) (ran y i)) by exact Hf.
  assert (Hn' : NoDup (ids (rt_cpus t))) by exact Hn. clearbody t.
  destruct (thread_step _ _ _ _ _) as [[st t']| |] eqn:E; intros [= <- <-]; [|by intros ?..].
  intros y' [= <-]. destruct (thread_step_at _ _ _ _ _ _ _ (ran y i) Hn' (Hf' i) E) as [Ho Ha].
  split; cbn [sy_rt sy_fibers]; [by apply Ho|]. intros j. unfold ran. cbn [sy_ran]. destruct (decide (j = i)) as [->|Hj].
  - rewrite !lookup_insert_eq. cbn [from_option id]. unfold id. rewrite length_app, Nat2Z.inj_add. exact Ha.
  - rewrite !lookup_insert_ne by done. eapply others_at; [exact Ho|unfold cpu_id; lia|apply Hf'].
Qed.

(** A system before its first dispatch: no fiber has run, and the CPUs that are
    registered belong to none of them. *)
Definition not_started (y : sys) : Prop :=
  sy_fibers y = ∅ /\ sy_ran y = ∅ /\ NoDup (ids (rt_cpus (sy_rt y))) /\
  forall i, cpu_id i ∉ ids (rt_cpus (sy_rt y)).

Lemma fiber_bounded t id st n : fiber_at t id st n -> n <= kThreadBudget.
Proof. unfold kThreadBudget. destruct st as [[a|self f p|]|]; cbn; [lia|naive_solver lia|unfold kThreadBudget; lia|lia]. Qed.

(** C39. No thread runs past its budget, however often it is dispatched. From a
    system in which no fiber has run yet, in every run that ended with its kernel
    calls defined, the instructions that the engine reports for a fiber, added up over all its
    dispatches, are at most the hundred million it was given, whether the thread
    still runs, has returned or has ended itself. The count of a CPU goes on where
    it stood when its fiber was switched away: while the fiber waits inside a
    kernel call its CPU is registered with exactly the instructions executed so
    far. *)
Theorem no_thread_overruns (dispatches : nat) (y : sys) b s y' :
  not_started y -> run_system dispatches y = Some (b, s, Ok y') ->
  forall i, ran y' i <= kThreadBudget /\
    forall self f p, sy_fibers y' !! i = Some (SCall self f p) ->
      exists c, cpu_of (sy_rt y') (cpu_id i) = Some c /\ c_instr c = ran y' i.
Proof.
  intros (H1 & H2 & H3 & H4) E. assert (Hy : sys_at y').
  { eapply (run_keeps cpu_body sys_counts); [exact cpu_body_counts| |exact E|reflexivity].
    intros ? [= <-]. split; [done|]. intros i. unfold ran. rewrite H1, H2, !lookup_empty. by split. }
  intros i. pose proof (sa_fibers _ Hy i) as Hi. split; [by eapply fiber_bounded|].
  intros self f p Ef. rewrite Ef in Hi. destruct Hi as (c & Hc & _ & Hn & _). by exists c.
Qed.

End system.

(** ** Runs *)

(** An instruction set for the threads: at 0x11000 import 258
    (PsTerminateSystemThread) is called, anywhere else the routine returns. *)
Definition ending_emu (u : model_uc) (m : ram) (start until n : Z) : model_uc * ram * list hook_event * Z :=
  let at_eip v := MkUc (d_page u) (fun r' => if decide (r' = EIP) then v else d_reg u r') in
  if start =? 0x11000
  then (at_eip (kHleMarker + 258), m, [OnCode 0x11000; OnCode (kHleMarker + 258)], 0)
  else (at_eip until, m, [OnCode start], 0).

#[local] Instance ending_engine : Unicorn := model_engine ending_emu.
#[local] Instance ending_laws : RunLaws ending_engine.
Proof.
  split; cbn; unfold ending_emu; intros u m start until n u' r' evs err.
  - destruct (Z.eqb_spec start 0x11000); intros [= <- <- <- <-] Hn.
    + change (zlen (executed _)) with 1. lia.
    + unfold executed. cbn. case_match; cbn; lia.
  - destruct (Z.eqb_spec start 0x11000) as [->|]; intros [= <- <- <- <-] _ _; right; right; by eexists.
Qed.

(** A runtime over 16 MiB with one committed page for results. *)
Definition demo_rt : rt :=
  new_runtime (new_kernel (snd (commit (create 0x1000000) 4096 4096)) new_sched false true).
Definition demo_env (n : nat) (j : nat) : env := envn (Z.of_nat (100 * n + j) + 1).

(** The arguments of PsCreateSystemThreadEx for a routine at [start]. *)
Definition thread_args (start suspended : Z) : list Z := [4096; 0; 0; 0; 4100; start; 0x12000; suspended; 0; 0].
Definition created (n : nat) (start suspended : Z) (k : kernel) : kernel :=
  match call (demo_env n 0) 255 (thread_args start suspended) k with Ok (_, k') => k' | _ => k end.

Lemma created_reachable n start suspended k : kreachable k -> kreachable (created n start suspended k).
Proof.
  intros H. unfold created. destruct (call _ _ _ k) as [[out k']| |] eqn:E; [|done..].
  eapply kr_step; [exact H|by eapply ks_call].
Qed.

(** One thread ends itself, one returns from its routine, one stays suspended. *)
Definition demo_kernel : kernel :=
  created 3 0x11000 1 (created 2 0x13000 0 (created 1 0x11000 0 (rt_k demo_rt))).
Definition demo_sys : sys := MkSys (with_kernel demo_rt demo_kernel) ∅ 4 ∅.
Definition demo_run : option (bool * sched * outcome sys) := run_system demo_env 10 8 demo_sys.

Definition run_summary (o : option (bool * sched * outcome sys)) : option (bool * bool * Z * list (Z * Z)) :=
  match o with
  | Some (b, s, Ok y) => Some (b, deadlocked s, finished_count s, (fun x => (fst x, c_instr (snd x))) <$> rt_cpus (sy_rt y))
  | _ => None
  end.

(** Two threads end and the third is reported as a deadlock; the CPU of the one
    that ended itself stays registered, with the one instruction it executed. *)
Example demo_run_result : run_summary demo_run = Some (false, true, 2, [(1, 1)]).
Proof. vm_compute. reflexivity. Qed.

Lemma demo_sys_reachable : kreachable (rt_k (sy_rt demo_sys)).
Proof. apply created_reachable, created_reachable, created_reachable, kr_new. Qed.

Lemma guest_code_keeps_the_tables_witness :
  exists b s y', demo_run = Some (b, s, Ok y') /\ tables_ok (rt_k (sy_rt y')).
Proof.
  pose proof demo_run_result as G. destruct demo_run as [[[b s] [y'| |]]|] eqn:E; cbn [run_summary] in G; try discriminate G.
  exists b, s, y'. split; [reflexivity|].
  exact (guest_code_keeps_the_tables demo_env 10 8 demo_sys b s y' demo_sys_reachable E).
Defined.

(** The threads that ended executed one instruction each, the suspended one none. *)
Lemma no_thread_overruns_witness :
  exists b s y', demo_run = Some (b, s, Ok y') /\ (forall i, ran y' i <= kThreadBudget) /\
    (ran y' <$> [0; 1; 2]%nat) = [1; 1; 0].
Proof.
  pose proof demo_run_result as G. destruct demo_run as [[[b s] [y'| |]]|] eqn:E; cbn [run_summary] in G; try discriminate G.
  pose proof (no_thread_overruns demo_env 10 8 demo_sys b s y') as H.
  assert (H1 : not_started demo_sys).
  { split; [reflexivity|]. split; [reflexivity|]. split; [apply NoDup_nil; exact I|]. intros j. apply not_elem_of_nil. }
  specialize (H H1 E). exists b, s, y'. split; [reflexivity|]. split.
  - intros i. exact (proj1 (H i)).
  - assert (match demo_run with Some (_, _, Ok z) => ran z <$> [0; 1; 2]%nat | _ => [] end = [1; 1; 0]) as R
      by (vm_compute; reflexivity). rewrite E in R. exact R.
Defined.

End GuestSys.
